(* ===== verification/_CoqProject ===== *)
-Q . S2P
Prelude.v
Regexp.v
Json.v
Schema.v
Prog.v
Kube.v
Api.v
ApiSpec.v
Client.v
Sample.v
SampleApi.v
Platform.v
TenantWebhook.v
ServiceClaimWebhook.v
Finalizers.v
Indexes.v
TenantController.v
ApiJson.v
ConditionSchema.v
TenantControllerSpec.v
Ceiling.v
SampleJson.v
ServiceClaimController.v
ServiceClaimControllerSpec.v
ApplicationSpec.v
ClaimSchema.v
Watches.v
StatusSpec.v
CelRules.v
StatusBounds.v
System.v
SystemSample.v
SystemTeams.v
SystemClaims.v
SystemCache.v
SampleServer.v
SystemTeardown.v
SystemRequests.v
SystemProgress.v
WorkQueue.v
Settling.v
SampleQueue.v
Convergence.v
ClaimSettling.v
TenantConvergence.v
TenantSettling.v
Startup.v
Registration.v
Main.v
Before.v
BeforeMain.v
Memory.v
DeepCopy.v
SampleMemory.v
DeepCopyApi.v
DeepCopyM3.v
GoStrings.v
TestUtils.v
