(* ===== verification/Prelude.v ===== *)
(** * A verification development for idp-platform-lab

    The repository is a Kubernetes operator for an internal developer platform.
    A team declares a Tenant, which the operator turns into a namespace
    [team-<name>], a RoleBinding and a ResourceQuota, and a ServiceClaim per
    service, which it turns into an ArgoCD Application once the Tenant is Ready.
    Teardown is ordered by two finalizers: a claim stays until ArgoCD has pruned
    its workload, a Tenant until no claim refers to it.  Two validating webhooks
    guard the API: a ceiling on what a Tenant may ask for, and no new claims for
    a Tenant that is being deleted.

    ** How effects are modelled

    Everything outside the repository is a parameter.  A handler is a program of
    [Prog.prog]: a finite tree that returns, or makes a call of a signature and
    goes on with the answer.  [Prog.runs p tr a] says that under some answers
    [p] makes exactly the calls of the trace [tr] and returns [a]; a theorem
    about every run therefore holds for every behaviour of the API server,
    errors and conflicts included.  A program has no loop: the finiteness of the
    tree is the termination of the handler, and there is no fuel anywhere in the
    development.  An object is a value: what a pointer receiver changes is
    returned, and what the client library overwrites is part of the answer, so a
    deep copy is the object itself; [DeepCopyApi] proves of the deep copies, on a
    heap with pointers and slices, that they give an equal object which shares no
    memory with the original, which is what makes this right.  Log lines are left
    out.

    ** Files

    - [Prelude] (this file): strings, the conversion to [int32], tactics.
    - [Regexp]: regular expressions and an executable test that decides them.
    - [Json], [Schema]: JSON values and the encoding of Go values; what the API
      server does with an object whose type declares a schema.
    - [Prog]: programs, traces, [before] (an order of events), interpretation.
    - [Kube]: the records and operations of k8s.io/api and apimachinery the
      source uses; operation classes, and law classes for documented behaviour.
    - [Api], [ApiSpec]: api/v1alpha1 (types, constants, the CEL name rule).
    - [ApiJson]: the JSON form of the api/v1alpha1 types, from the struct tags;
      [CelRules], [ClaimSchema]: the schemas of the two kinds, from the markers:
      CEL rules, minimums and the default, with what controller-gen adds in
      config/crd/bases, the pattern of a quantity and, in [ConditionSchema], the
      bounds of a condition; [StatusBounds]: what these bounds do to the status of
      a blocked teardown; [SampleJson] an instance.
    - [Client]: the calls of controller-runtime's client, and predicates on
      events.
    - [Sample], [SampleApi]: concrete instances satisfying every law, an
      in-memory API server; used by examples and witnesses only.
    - [Platform]: internal/platform/limits.go.
    - [TenantWebhook], [ServiceClaimWebhook]: internal/webhook/v1alpha1.
    - [Finalizers], [Indexes]: internal/controller/finalizers.go, indexes.go.
    - [TenantController], [TenantControllerSpec]:
      internal/controller/tenant_controller.go and what it promises.
    - [Ceiling]: the Tenant webhook and the Tenant reconciler together.
    - [ServiceClaimController], [ServiceClaimControllerSpec], [ApplicationSpec]:
      internal/controller/serviceclaim_controller.go, what its runs promise, and
      what the rendered Application holds.
    - [Watches]: the watch maps of both controllers through the field index, the
      owned kinds, and the kubebuilder RBAC markers.
    - [System]: both reconcilers, the webhook, users and the API server as one
      transition system, with the rely-guarantee reasoning over it;
      [SystemSample] a small server satisfying its laws, [SystemTeams] and
      [SystemClaims] its two safety properties;
      [SystemCache] the same system with a cache that lags.
    - [SystemTeardown], [SystemRequests], [SystemProgress]: the progress of a team's
      teardown, call by call, with stale reads, failures and crashes: what one
      reconcile achieves, what a worker asks for whatever it was told, and the whole
      system; [SampleServer] a server that stores what it is sent and checks the
      locks of patches, for the witnesses of these and the next files.
    - [WorkQueue]: events that arrive late, the cache they feed, watches, the
      queues and the retries of both controllers as one transition system, and the
      reasoning about a key at rest; [Convergence], [TenantConvergence]: what holds
      of a claim or a Tenant that is neither queued nor being reconciled, with
      nothing on its way to it, and of both; [Settling],
      [ClaimSettling], [TenantSettling]: that the controllers' own writes do not
      wake them forever; [SampleQueue]: executions for the witnesses.
    - [StatusSpec]: the statuses both reconcilers write, on every path.
    - [Startup], [Registration], [Main]: cmd/main.go, the scheme registration of
      api/v1alpha1, and the calls of a start-up sequence.
    - [Before], [BeforeMain]: scenarios/ownership-conflict/before, the M3
      controller and its entry point.
    - [Memory], [DeepCopy]: a heap of typed cells with references into fields,
      and the copying idioms of the generated code; [DeepCopyApi], [DeepCopyM3]:
      the two zz_generated.deepcopy.go files; [SampleMemory] an instance.
    - [GoStrings], [TestUtils]: test/utils/utils.go, over the calls of the
      operating system.

    A definition has the name of the Go function it translates, in the file of
    its Go file; [Reconcile] is split at [ensureFinalizer] into [reconcileLive],
    and the closures passed to [CreateOrUpdate] are the [mutate...] functions.
    A function returning [(value, error)] returns a sum, one returning [error]
    an option; a method on a pointer returns the changed object with its error.
    An [int32] is a [Z]; only cmd/main.go converts to one, with the wrap-around
    written out.

    ** What is shown

    - Ordered teardown.  In every run of the Tenant reconciler, the namespace
      goes only after an empty list of claims and a written status, and the
      finalizer only after the namespace; a failed list releases nothing; a
      blocked teardown says which claims block it and retries
      ([TenantControllerSpec]).  A claim outlives its Application, its drain
      follows a table of outcomes, never waits for the Tenant and never stalls
      ([ServiceClaimControllerSpec]).  [SystemTeams] and [SystemClaims] join
      them: for any number of workers interleaved call by call, crashing and
      restarting, with users creating claims through the webhook, no worker is
      ever about to release a claim while its Application exists, and none whose
      Tenant and list of claims were up to date when it read them is ever about to
      delete a namespace while a claim of its team exists.  A drained Tenant does
      go.
    - No deadlock.  [SystemProgress]: with workers interleaved call by call, reads
      answered out of date, calls that fail before or after their effect, crashes
      and other writers, a team being deleted whose objects only the platform's
      finalizer holds is gone once the cache has caught up and every claim had a
      reconcile in which every call was answered cleanly, a prune and another such
      reconcile, and then its Tenant one; and such a continuation is possible at
      every moment.
    - Convergence.  Whatever the environment does, and however far the cache lags, a
      Tenant at rest (neither queued nor being reconciled, and no event it depends
      on on its way) is provisioned and Ready, and a claim at rest has a
      status of its generation that is Ready exactly when its Tenant is, and then
      the Application it asks for; both at rest, the team is served.  No wake-up is
      missed and no stale read has the last word.  An object being deleted does not
      rest with its finalizer, for a claim if the Applications of its name are its
      own; [Convergence] also shows an execution in which one that is not its own
      leaves the claim stranded.
    - Settling.  Left alone, a claim is at rest after at most two reconciles of
      thirteen steps together, a Tenant after fifteen; both bounds are met.
    - Well-formed status.  On every path each status written has one of the three
      phases, one condition per type and only conditions of its kind
      ([StatusSpec]).
    - Provisioning.  The order of the steps, the status (Ready exactly when this
      very reconcile did everything) and the error returned; the finalizer comes
      before any side effect; what each mutate function writes, that it is
      idempotent and refuses objects of other owners; the quota entries.
    - The gate.  An Application is applied only after a Ready Tenant of the same
      team was read, and it is rendered exactly as specified.
    - Admission.  The decisions of the webhooks on every branch, the ceiling as
      an invariant of admitted updates, and the refinement from the ceiling to
      the quota ([Ceiling]).  What the schema admits as a Tenant makes every quota
      entry positive; on an integer quantity its rule fails to evaluate
      ([CelRules]).
    - Storage.  A Tenant survives its JSON form up to the notation of quantities,
      which no decision depends on ([ApiJson]); a claim to the letter, except that
      the schema makes its replicas explicit, and it is admitted exactly when its
      team, replicas and conditions keep to the schema; and every admitted claim
      can be read, names a team, and overrides the replicas ([ClaimSchema]).  The
      status of a teardown that very many claims block is not admitted
      ([StatusBounds]).
    - Wiring.  The watch maps mirror each other, every created kind is watched,
      the generated role allows every call, start-up follows one plan, and the
      scheme it builds knows of the API group the two kinds and their lists and
      nothing else of its own ([Registration]).
    - Deep copies.  Equal values in memory that is all new; a later write through
      either pointer leaves the other as it was ([DeepCopyApi], [DeepCopyM3]).
    - Test utilities.  Every outcome of running a command and of uncommenting a
      block, which undoes commenting within limits that are exact ([TestUtils]).
    - The M3 design, for contrast: a team's second claim can never become Ready.

    ** Assumptions worth knowing

    The laws of [Kube] are documented behaviour of the libraries.  [System]
    assumes of the API server what [ApiServerLaws] lists, that an admitted claim
    is stored in the state it was admitted in, and that no other party moves a
    claim to another team; the update webhook does not enforce the last one, and
    [SystemTeams.retargeting_defeats_the_finalizer] shows what that costs.  Nothing
    is assumed of what the manager's cache answers.  That a Tenant or a list of
    claims was up to date when it was read is a condition on the one worker a
    statement is about ([System.informed]); in production it can fail, and
    [SystemCache.stale_list_defeats_the_finalizer] shows what a list that lags
    costs.  [SystemTeardown.EffectLaws] says what each request can do to the objects
    of a team, [PossibleLaws] that one nothing stands in the way of can be accepted
    and that the cache can be up to date; neither says that it is so.
    The work queue runs one worker per object, as controller-runtime
    documents.  [WorkQueue] has every change reported by an event, which is
    delivered after any delay and in any order, and says nothing of what a cached
    read answers while an event about the object is on its way, except that an
    object applied on an outdated copy is a conflict unless the copy needed no
    change; lists from the cache are through the field index and do not fail;
    Applications, which are unstructured, are read from the server, as the client
    does by default.  An owner is compared by kind and name, not by group; a
    delayed or failed request counts as queued at once, since when it is taken
    from the queue is arbitrary anyway.  [Settling] counts only calls that succeed,
    with a cache that keeps up, and [ClaimSettling] and [TenantSettling] assume
    that a write of what is stored already is no change, which the API server
    guarantees for updates and patches.  [Schema] is the API server's documented
    treatment of a structural schema.  A condition has no time in the model: its
    JSON form is taken to have one, as SetStatusCondition always sets it.

    ** Not modelled

    The list of a team's claims that fails inside [claimsForTenant] is a branch of
    the definition but not of [WorkQueue], whose lists go through the registered
    index of a synced cache; and reading the cluster's configuration
    (GetConfigOrDie) is part of the library call that makes the manager ([Main]).
    Logging, flag parsing, the metrics server, leader election and the signal
    handler, which have no effect on the objects; the columns kubectl prints; the
    tests; and the YAML for deployment and GitOps, of which the generated role and
    the generated schemas appear through the markers they are generated from.
    What the libraries do inside (the encoding of quantities and metadata, the
    patches, the informers) is a parameter with the laws above: its code is not in
    the repository. *)
From Stdlib Require Export ZArith Lia.
From stdpp Require Export base tactics option list gmap strings pretty.

(* stdpp's [naive_solver] clears hypotheses another branch has cleared. *)
#[export] Set Warnings "-clear-no-such-hyp".

(** ** Go strings *)

(** [strings.Join]. *)
Fixpoint Join (elems : list string) (sep : string) : string :=
  match elems with
  | [] => ""
  | [s] => s
  | s :: rest => s +:+ sep +:+ Join rest sep
  end.

(** The escape of one byte inside [strconv.Quote] (the [%q] verb): exact on
    ASCII; a byte of a multi-byte rune is copied, as Go does for a printable
    rune. *)
Definition hex_digit (n : N) : string :=
  match n with
  | 10 => "a" | 11 => "b" | 12 => "c" | 13 => "d" | 14 => "e" | 15 => "f"
  | _ => pretty n
  end%N.

Definition dquote : Ascii.ascii := Ascii.ascii_of_N 34.
Definition backslash : Ascii.ascii := Ascii.ascii_of_N 92.

Definition quote_ascii (a : Ascii.ascii) : string :=
  let esc s := String backslash s in
  match Ascii.N_of_ascii a with
  | 34 => esc (String dquote "")
  | 92 => esc (String backslash "")
  | 7 => esc "a" | 8 => esc "b" | 12 => esc "f" | 10 => esc "n"
  | 13 => esc "r" | 9 => esc "t" | 11 => esc "v"
  | n => if ((n <? 32) || (n =? 127))%N
         then esc ("x" +:+ hex_digit (n / 16) +:+ hex_digit (n mod 16))
         else String a ""
  end%N.

Fixpoint quote_body (s : string) : string :=
  match s with
  | EmptyString => ""
  | String a s' => quote_ascii a +:+ quote_body s'
  end.

(** [fmt.Sprintf] of the [%q] verb. *)
Definition quote (s : string) : string :=
  String dquote (quote_body s +:+ String dquote "").

(** The [%v] verb on a [[]string]. *)
Definition show_strings (l : list string) : string :=
  "[" +:+ Join l " " +:+ "]".

(** [err == nil] of a result kept as an option. *)
Definition isNone {A} (o : option A) : bool :=
  match o with None => true | Some _ => false end.

(** ** Go integers *)

(** Conversion of an integer to a [w]-bit two's complement integer, as Go's
    [int32(x)]: the low [w] bits, read as a signed number. *)
Definition to_signed (w : Z) (z : Z) : Z :=
  ((z + 2 ^ (w - 1)) mod 2 ^ w - 2 ^ (w - 1))%Z.

Definition int32 (z : Z) : Z := to_signed 32 z.

(** ** Tactics *)

(** Case analysis on whatever the goal still matches on. *)
Ltac case_goal :=
  match goal with
  | |- context [match ?x with _ => _ end] =>
      lazymatch x with
      | context [match _ with _ => _ end] => fail
      | _ => let E := fresh "E" in destruct x eqn:E
      end
  end.

(** ** Generic lemmas *)

Create HintDb idp.

Lemma int32_small z : (- 2 ^ 31 <= z < 2 ^ 31)%Z -> int32 z = z.
Proof.
  intros Hz. unfold int32, to_signed. change (32 - 1)%Z with 31%Z.
  rewrite Z.mod_small; lia.
Qed.

Lemma int32_bounds z : (- 2 ^ 31 <= int32 z < 2 ^ 31)%Z.
Proof.
  unfold int32, to_signed. change (32 - 1)%Z with 31%Z.
  pose proof (Z.mod_pos_bound (z + 2 ^ 31) (2 ^ 32)). lia.
Qed.

Lemma string_app_inv_head (p s t : string) : p +:+ s = p +:+ t -> s = t.
Proof. induction p as [|a p IH]; cbn; [done|]. intros [=]. auto. Qed.

Lemma string_app_cons a (s t : string) : String a s +:+ t = String a (s +:+ t).
Proof. reflexivity. Qed.

Lemma string_app_assoc (s t u : string) : (s +:+ t) +:+ u = s +:+ (t +:+ u).
Proof. induction s as [|a s IH]; [done|]. by rewrite !string_app_cons, IH. Qed.

Lemma string_app_nil_r (s : string) : s +:+ "" = s.
Proof. induction s as [|a s IH]; [done|]. by rewrite string_app_cons, IH. Qed.

(** [s] occurs in [t]. *)
Definition occurs (s t : string) : Prop := exists p q, t = p +:+ s +:+ q.

Lemma occurs_refl s : occurs s s.
Proof. exists "", "". by rewrite string_app_nil_r. Qed.

Lemma occurs_app_l s t u : occurs s t -> occurs s (t +:+ u).
Proof. intros (p & q & ->). exists p, (q +:+ u). by rewrite !string_app_assoc. Qed.

Lemma occurs_app_r s t u : occurs s u -> occurs s (t +:+ u).
Proof. intros (p & q & ->). exists (t +:+ p), q. by rewrite !string_app_assoc. Qed.

Lemma occurs_Join (l : list string) sep s x :
  x ∈ l -> occurs s x -> occurs s (Join l sep).
Proof.
  intros Hx Hs. induction l as [|y [|z l] IH]; [by apply not_elem_of_nil in Hx| |].
  - by apply list_elem_of_singleton in Hx as <-.
  - change (Join (y :: z :: l) sep) with (y +:+ (sep +:+ Join (z :: l) sep)).
    apply elem_of_cons in Hx as [<-|Hx]; [by apply occurs_app_l|].
    apply occurs_app_r, occurs_app_r. auto.
Qed.

#[export] Hint Resolve occurs_refl occurs_app_l occurs_app_r : idp.
