(* ===== verification/Regexp.v ===== *)
(** * Regular expressions

    The patterns of the generated schemas and of the CEL rule on names: the words
    of a pattern as a relation, and an executable test, which keeps the set of what
    may still follow and is proved to decide the relation. *)
From S2P Require Import Prelude.

Inductive regexp :=
| RChar (P : Ascii.ascii -> bool)
| RSeq (r1 r2 : regexp)
| RAlt (r1 r2 : regexp)
| ROpt (r : regexp)
| RStar (r : regexp).

Inductive matches : list Ascii.ascii -> regexp -> Prop :=
| m_char P a : P a = true -> matches [a] (RChar P)
| m_seq l1 l2 r1 r2 : matches l1 r1 -> matches l2 r2 ->
    matches (l1 ++ l2) (RSeq r1 r2)
| m_alt_l l r1 r2 : matches l r1 -> matches l (RAlt r1 r2)
| m_alt_r l r1 r2 : matches l r2 -> matches l (RAlt r1 r2)
| m_opt_none r : matches [] (ROpt r)
| m_opt_some l r : matches l r -> matches l (ROpt r)
| m_star_nil r : matches [] (RStar r)
| m_star_cons l1 l2 r : matches l1 r -> matches l2 (RStar r) ->
    matches (l1 ++ l2) (RStar r).

(** [r+], a character, and the sequence of a list. *)
Definition RPlus (r : regexp) : regexp := RSeq r (RStar r).

Definition between (lo hi : N) (a : Ascii.ascii) : bool :=
  ((lo <=? Ascii.N_of_ascii a) && (Ascii.N_of_ascii a <=? hi))%N.
Definition lower : Ascii.ascii -> bool := between 97 122.
Definition upper : Ascii.ascii -> bool := between 65 90.
Definition digit : Ascii.ascii -> bool := between 48 57.

(** A character of a string. *)
Definition one_of (s : string) (a : Ascii.ascii) : bool :=
  existsb (Ascii.eqb a) (String.list_ascii_of_string s).


(** ** The test *)

Fixpoint nullable (r : regexp) : bool :=
  match r with
  | RChar _ => false
  | RSeq r1 r2 => nullable r1 && nullable r2
  | RAlt r1 r2 => nullable r1 || nullable r2
  | ROpt _ | RStar _ => true
  end.

(** What may follow the first character [a] of a word of [r], each possibility a
    sequence of expressions. *)
Fixpoint residuals (a : Ascii.ascii) (r : regexp) : list (list regexp) :=
  match r with
  | RChar P => if P a then [[]] else []
  | RSeq r1 r2 =>
      map (fun rs => rs ++ [r2]) (residuals a r1) ++
      (if nullable r1 then residuals a r2 else [])
  | RAlt r1 r2 => residuals a r1 ++ residuals a r2
  | ROpt r1 => residuals a r1
  | RStar r1 => map (fun rs => rs ++ [RStar r1]) (residuals a r1)
  end.

Fixpoint follow (a : Ascii.ascii) (rs : list regexp) : list (list regexp) :=
  match rs with
  | [] => []
  | r :: rs =>
      map (fun ts => ts ++ rs) (residuals a r) ++ (if nullable r then follow a rs else [])
  end.

Fixpoint accepts (l : list Ascii.ascii) (states : list (list regexp)) : bool :=
  match l with
  | [] => existsb (forallb nullable) states
  | a :: l => accepts l (concat (map (follow a) states))
  end.

Definition test (r : regexp) (s : string) : bool :=
  accepts (String.list_ascii_of_string s) [[r]].

(** ** It decides the relation *)

(** The words of a sequence. *)
Fixpoint in_sequence (l : list Ascii.ascii) (rs : list regexp) : Prop :=
  match rs with
  | [] => l = []
  | r :: rs => exists l1 l2, l = l1 ++ l2 /\ matches l1 r /\ in_sequence l2 rs
  end.

Lemma in_sequence_app l rs ts : in_sequence l (rs ++ ts) <->
  exists l1 l2, l = l1 ++ l2 /\ in_sequence l1 rs /\ in_sequence l2 ts.
Proof.
  revert l. induction rs as [|r rs IH]; intros l; cbn.
  - split; [intros H; by exists [], l|]. by intros (l1 & l2 & -> & -> & H).
  - setoid_rewrite IH. split.
    + intros (l1 & l2 & -> & H1 & l3 & l4 & -> & H3 & H4).
      exists (l1 ++ l3), l4. rewrite <- app_assoc. split_and!; [done| |done]. eauto.
    + intros (l1 & l2 & -> & (l3 & l4 & -> & H3 & H4) & H2).
      exists l3, (l4 ++ l2). rewrite <- app_assoc. split_and!; [done..|]. eauto.
Qed.

Lemma in_sequence_one l r : in_sequence l [r] <-> matches l r.
Proof.
  cbn. split; [|intros H; exists l, []; by rewrite app_nil_r].
  by intros (l1 & l2 & -> & H & ->); rewrite app_nil_r.
Qed.

Lemma nullable_spec r : nullable r = true <-> matches [] r.
Proof.
  split.
  - induction r as [P|r1 IH1 r2 IH2|r1 IH1 r2 IH2|r IH|r IH]; cbn; try done.
    + intros [H1 H2]%andb_true_iff. apply (m_seq [] []); auto.
    + intros [H|H]%orb_true_iff; [apply m_alt_l|apply m_alt_r]; auto.
    + constructor.
    + constructor.
  - remember [] as l eqn:El. induction 1 as [P a|l1 l2 r1 r2 H1 IH1 H2 IH2| | | | | |]; cbn; try done.
    + apply app_eq_nil in El as [-> ->]. by rewrite IH1, IH2.
    + by rewrite IHmatches.
    + rewrite IHmatches by done. apply orb_true_r.
Qed.

Lemma nullable_all rs : forallb nullable rs = true <-> in_sequence [] rs.
Proof.
  induction rs as [|r rs IH]; cbn; [done|]. rewrite andb_true_iff, nullable_spec, IH. split.
  - intros [H1 H2]. by exists [], [].
  - by intros (l1 & l2 & [-> ->]%symmetry%app_eq_nil & H1 & H2).
Qed.

(** What a word of a star begins with, if it is not empty. *)
Lemma star_cons a l r : matches (a :: l) (RStar r) ->
  exists l1 l2, l = l1 ++ l2 /\ matches (a :: l1) r /\ matches l2 (RStar r).
Proof.
  remember (a :: l) as w eqn:Ew. remember (RStar r) as s eqn:Es. intros H. revert a l Ew.
  induction H as [| | | | | | |l1 l2 r' H1 _ H2 IH]; try done; intros a l Ew.
  injection Es as ->. destruct l1 as [|b l1]; [by apply IH|].
  injection Ew as -> <-. eauto.
Qed.

Lemma residuals_spec a l r : matches (a :: l) r <->
  exists rs, rs ∈ residuals a r /\ in_sequence l rs.
Proof.
  revert l. induction r as [P|r1 IH1 r2 IH2|r1 IH1 r2 IH2|r IH|r IH]; intros l; cbn.
  - split.
    + inversion 1; subst. exists []. split; [|done]. destruct (P a); [by left|done].
    + intros (rs & Hin & Hl). destruct (P a) eqn:E; [|by apply not_elem_of_nil in Hin].
      apply list_elem_of_singleton in Hin as ->. cbn in Hl. subst l. by constructor.
  - setoid_rewrite elem_of_app. setoid_rewrite list_elem_of_fmap. split.
    + inversion 1 as [|l1 l2 ? ? H1 H2 E| | | | | |]; subst. destruct l1 as [|b l1]; cbn in E.
      * subst l2. apply nullable_spec in H1. rewrite H1. apply IH2 in H2 as (rs & ? & ?). eauto.
      * injection E as -> <-. apply IH1 in H1 as (rs & Hin & Hs). exists (rs ++ [r2]).
        split; [eauto|]. apply in_sequence_app. exists l1, l2. by rewrite in_sequence_one.
    + intros (rs & [(ts & -> & Hin)|Hin] & Hs).
      * apply in_sequence_app in Hs as (l1 & l2 & -> & Hs & H2%in_sequence_one).
        apply (m_seq (a :: l1) l2); [|done]. apply IH1. eauto.
      * destruct (nullable r1) eqn:E; [|by apply not_elem_of_nil in Hin].
        apply (m_seq [] (a :: l)); [by apply nullable_spec|]. apply IH2. eauto.
  - setoid_rewrite elem_of_app. split.
    + inversion 1 as [| |? ? ? H1|? ? ? H2| | | |]; subst;
        [apply IH1 in H1 as (? & ? & ?)|apply IH2 in H2 as (? & ? & ?)]; eauto.
    + intros (rs & [Hin|Hin] & Hs); [apply m_alt_l, IH1|apply m_alt_r, IH2]; eauto.
  - rewrite <- IH. split; [by inversion 1|apply m_opt_some].
  - setoid_rewrite list_elem_of_fmap. split.
    + intros (l1 & l2 & -> & H1%IH & H2)%star_cons. destruct H1 as (rs & Hin & Hs).
      exists (rs ++ [RStar r]). split; [eauto|]. apply in_sequence_app. exists l1, l2.
      by rewrite in_sequence_one.
    + intros (? & (rs & -> & Hin) & Hs).
      apply in_sequence_app in Hs as (l1 & l2 & -> & Hs & H2%in_sequence_one).
      apply (m_star_cons (a :: l1) l2); [|done]. apply IH. eauto.
Qed.

Lemma follow_spec a l rs : in_sequence (a :: l) rs <->
  exists ts, ts ∈ follow a rs /\ in_sequence l ts.
Proof.
  revert l. induction rs as [|r rs IH]; intros l; cbn.
  - split; [done|]. by intros (ts & Hin%not_elem_of_nil & _).
  - setoid_rewrite elem_of_app. setoid_rewrite list_elem_of_fmap. split.
    + intros (l1 & l2 & E & H1 & H2). destruct l1 as [|b l1]; cbn in E.
      * subst l2. apply nullable_spec in H1. rewrite H1. apply IH in H2 as (ts & ? & ?). eauto.
      * injection E as <- ->. apply residuals_spec in H1 as (ts & Hin & Hs).
        exists (ts ++ rs). split; [eauto|]. apply in_sequence_app. eauto.
    + intros (ts & [(us & -> & Hin)|Hin] & Hs).
      * apply in_sequence_app in Hs as (l1 & l2 & -> & Hs & H2).
        exists (a :: l1), l2. split_and!; [done| |done]. apply residuals_spec. eauto.
      * destruct (nullable r) eqn:E; [|by apply not_elem_of_nil in Hin].
        exists [], (a :: l). split_and!; [done|by apply nullable_spec|]. apply IH. eauto.
Qed.

Lemma accepts_spec l states : accepts l states = true <->
  exists rs, rs ∈ states /\ in_sequence l rs.
Proof.
  revert states. induction l as [|a l IH]; intros states; cbn.
  - rewrite existsb_exists. setoid_rewrite <- list_elem_of_In. by setoid_rewrite nullable_all.
  - rewrite IH. split.
    + intros (ts & Hin & Hs). apply list_elem_of_In, in_concat in Hin as (us & Hus & Hin).
      apply in_map_iff in Hus as (rs & <- & Hrs). exists rs. rewrite list_elem_of_In. split; [done|].
      apply follow_spec. exists ts. by rewrite list_elem_of_In.
    + intros (rs & Hin & Hs). apply follow_spec in Hs as (ts & Hts & Hs). exists ts. split; [|done].
      apply list_elem_of_In, in_concat. exists (follow a rs). rewrite <- !list_elem_of_In.
      split; [|done]. by apply list_elem_of_In, in_map, list_elem_of_In.
Qed.

(** The test succeeds on exactly the words of the expression. *)
Theorem test_spec r s : test r s = true <-> matches (String.list_ascii_of_string s) r.
Proof.
  unfold test. rewrite accepts_spec. setoid_rewrite list_elem_of_singleton. split.
  - by intros (rs & -> & H%in_sequence_one).
  - intros H. exists [r]. by rewrite in_sequence_one.
Qed.
