(* ===== verification/Json.v ===== *)
(** * JSON and the encoding of Go values

    JSON values, and codecs: a way of encoding the values of a type together
    with the reading of what was written.  The combinators are the ones
    encoding/json applies to the fields of a struct; a type whose own
    [MarshalJSON] is not in the repository is a codec that is a parameter. *)
From S2P Require Import Prelude.

(** ** Values

    A number is an integer literal or another literal, which no Go integer
    reads.  A member's name occurs once in an object. *)
#[warnings="-register-all"]
Inductive json :=
| JNull
| JBool (b : bool)
| JInt (z : Z)
| JFloat (literal : string)
| JString (s : string)
| JArray (l : list json)
| JObject (fs : list (string * json)).

Fixpoint member (fs : list (string * json)) (k : string) : option json :=
  match fs with
  | [] => None
  | (k', v) :: fs => if String.eqb k k' then Some v else member fs k
  end.

(** The value a decoder finds under a name: to Go, which leaves the field alone
    in both cases, an absent member is the same as null. *)
Definition field (fs : list (string * json)) (k : string) : json :=
  default JNull (member fs k).

(** The members of what is to be decoded into a struct. *)
Definition members (v : json) : option (list (string * json)) :=
  match v with
  | JObject fs => Some fs
  | JNull => Some []
  | _ => None
  end.

(** Selecting along a path of names. *)
Definition select (v : json) (k : string) : json :=
  match v with JObject fs => field fs k | _ => JNull end.

(** ** Codecs

    [isZero] is the test of omitempty on a scalar, a pointer or a slice, and of
    omitzero on a struct; [fits] says that the model's value is one of the Go
    type, as a [Z] may not fit the integer it stands for. *)
Record codec (A : Type) := Codec {
  Marshal : A -> json;
  Unmarshal : json -> option A;
  isZero : A -> bool;
  fits : A -> Prop;
}.
Arguments Codec {A}.
Arguments Marshal {A}.
Arguments Unmarshal {A}.
Arguments isZero {A}.
Arguments fits {A}.

(** What is written is read back, up to the equivalence of the type, and a value
    that may be omitted is the one an absent member leaves. *)
Class Lawful {A} `{Equiv A} (c : codec A) : Prop := {
  round_trip a : fits c a -> Unmarshal c (Marshal c a) ≡ Some a;
  zero_absent a : isZero c a = true -> Unmarshal c JNull ≡ Some a;
}.

(** A value is never written as null. *)
Class NotNull {A} (c : codec A) : Prop := not_null a : Marshal c a <> JNull.

#[export] Instance equiv_string : Equiv string := (=).
#[export] Instance equiv_Z : Equiv Z := (=).
#[export] Instance equivalence_string : @Equivalence string (≡) := eq_equivalence.
#[export] Instance equivalence_Z : @Equivalence Z (≡) := eq_equivalence.
#[export] Instance leibniz_string : LeibnizEquiv string.
Proof. by intros ??. Qed.
#[export] Instance leibniz_Z : LeibnizEquiv Z.
Proof. by intros ??. Qed.

(** A string, and a signed integer of [w] bits, which an overflow is not. *)
Definition str : codec string := {|
  Marshal := JString;
  Unmarshal v := match v with JString s => Some s | JNull => Some "" | _ => None end;
  isZero := String.eqb "";
  fits _ := True;
|}.

Definition in_range (w z : Z) : bool :=
  ((- 2 ^ (w - 1) <=? z) && (z <? 2 ^ (w - 1)))%Z.

Definition int (w : Z) : codec Z := {|
  Marshal := JInt;
  Unmarshal v :=
    match v with
    | JInt z => if in_range w z then Some z else None
    | JNull => Some 0%Z
    | _ => None
    end;
  isZero := Z.eqb 0;
  fits z := in_range w z = true;
|}.

(** A pointer, nil being [None], and a slice, whose nil and empty values the
    model does not tell apart: encoding/json writes null for the first, and
    reads both as no elements. *)
Definition ptr {A} (c : codec A) : codec (option A) := {|
  Marshal p := match p with Some a => Marshal c a | None => JNull end;
  Unmarshal v := match v with JNull => Some None | _ => Some <$> Unmarshal c v end;
  isZero := isNone;
  fits p := match p with Some a => fits c a | None => True end;
|}.

Definition slice {A} (c : codec A) : codec (list A) := {|
  Marshal l := JArray (map (Marshal c) l);
  Unmarshal v :=
    match v with
    | JArray vs => mapM (Unmarshal c) vs
    | JNull => Some []
    | _ => None
    end;
  isZero l := match l with [] => true | _ => false end;
  fits := Forall (fits c);
|}.

(** The members of a struct: one that is always written, and one that is left
    out when it is empty or zero. *)
Definition always {A} (c : codec A) (k : string) (a : A) : option (string * json) :=
  Some (k, Marshal c a).

Definition omitted {A} (c : codec A) (k : string) (a : A) : option (string * json) :=
  if isZero c a then None else Some (k, Marshal c a).

Fixpoint present (ms : list (option (string * json))) : list (string * json) :=
  match ms with
  | [] => []
  | Some m :: ms => m :: present ms
  | None :: ms => present ms
  end.

(** ** Lemmas *)

(** Reading one member and going on. *)
Lemma bind_reads {A B} `{Equiv A, Equiv B} (ma : option A) (a : A) (f : A -> option B) (b : B) :
  ma ≡ Some a -> (forall a', a' ≡ a -> f a' ≡ Some b) -> ma ≫= f ≡ Some b.
Proof. intros Ha Hf. inversion Ha as [a' ? Heq|]; subst. by apply Hf. Qed.

Lemma field_always {A} (c : codec A) k (a : A) ms k' :
  field (present (always c k a :: ms)) k' =
  if String.eqb k' k then Marshal c a else field (present ms) k'.
Proof. unfold field. cbn. by destruct (String.eqb k' k). Qed.

Lemma field_omitted {A} (c : codec A) k (a : A) ms k' :
  field (present (omitted c k a :: ms)) k' =
  if String.eqb k' k && negb (isZero c a) then Marshal c a else field (present ms) k'.
Proof.
  unfold omitted, field. destruct (isZero c a); cbn; [by rewrite andb_false_r|].
  by destruct (String.eqb k' k).
Qed.

Lemma field_none k : field (present []) k = JNull.
Proof. done. Qed.

Lemma reads_omitted {A} `{Equiv A} (c : codec A) `{!Lawful c} (a : A) :
  fits c a -> Unmarshal c (if negb (isZero c a) then Marshal c a else JNull) ≡ Some a.
Proof.
  intros Ha. destruct (isZero c a) eqn:Hz; [by apply zero_absent|by apply round_trip].
Qed.

#[export] Instance lawful_str : Lawful str.
Proof.
  split; [done|]. by intros [|].
Qed.

#[export] Instance not_null_int w : NotNull (int w).
Proof. done. Qed.

#[export] Instance lawful_int w : Lawful (int w).
Proof.
  split; [intros z Hz; cbn in *; by rewrite Hz|]. by intros [].
Qed.

#[export] Instance lawful_ptr {A} `{Equiv A} (c : codec A) :
  Lawful c -> NotNull c -> Lawful (ptr c).
Proof.
  intros Hc Hn. split; cbn; [|intros [a|]; [done|]; by repeat constructor].
  intros [a|] Ha; [|by repeat constructor]. pose proof (round_trip a Ha) as Hr.
  pose proof (not_null (c := c) a). destruct (Marshal c a) eqn:E; try done;
    (inversion Hr as [a' ? Heq Hu|]; cbn; subst; by repeat constructor).
Qed.

#[export] Instance lawful_slice {A} `{Equiv A} (c : codec A) : Lawful c -> Lawful (slice c).
Proof.
  intros Hc. split; cbn; [|intros []; [by repeat constructor|done]].
  induction 1 as [|a l Ha _ IH]; cbn; [by repeat constructor|].
  apply (bind_reads _ a); [by apply round_trip|]. intros a' Ha'.
  apply (bind_reads _ l); [exact IH|]. intros l' Hl'. by repeat constructor.
Qed.

Lemma fits_slice {A} (c : codec A) l : (forall a, fits c a) -> fits (slice c) l.
Proof. intros Hc. by apply Forall_true. Qed.

(** Reading a struct, member by member. *)
Ltac reads_struct :=
  repeat (rewrite ?field_always, ?field_omitted, ?field_none;
          cbn [String.eqb Ascii.eqb Bool.eqb andb]);
  repeat match goal with
  | |- (_ ≫= _) ≡ Some _ =>
      eapply bind_reads; [first [apply reads_omitted | apply round_trip]; first [apply _|done|by apply fits_slice]|];
      cbv beta; intros ? ?
  end.

(** What was read is what was written, where the equivalence is equality. *)
Ltac same_values :=
  repeat match goal with H : @equiv _ _ _ _ |- _ => apply leibniz_equiv in H end;
  subst; constructor; first [exact eq_refl | split; exact eq_refl].
