(* ===== verification/Schema.v ===== *)
(** * The schema of a custom resource

    What the API server does, before anything is decoded, with the JSON of an
    object whose type declares a schema: members the schema does not name are
    dropped, absent ones take their default, and the result is admitted if it
    has the declared types and satisfies the declared bounds, patterns, list keys
    and CEL rules.
    The schemas of this repository's types are in [CelRules] and [ClaimSchema]. *)
From S2P Require Import Prelude Regexp Json.

(** ** CEL *)

(** The result of an expression: a boolean or an evaluation error. *)
Definition cel : Type := option bool.

Definition celNot (a : cel) : cel := match a with Some b => Some (negb b) | None => None end.

(** [a || b] and [a && b]: a decided operand absorbs the error of the other. *)
Definition celOr (a b : cel) : cel :=
  match a, b with
  | Some true, _ | _, Some true => Some true
  | Some false, Some false => Some false
  | _, _ => None
  end.

Definition celAnd (a b : cel) : cel :=
  match a, b with
  | Some false, _ | _, Some false => Some false
  | Some true, Some true => Some true
  | _, _ => None
  end.

(** [has(self.f)], and [v.startsWith(p)], a method only strings have: absence and
    any other type are evaluation errors. *)
Definition has (self : json) (f : string) : cel :=
  match self with
  | JObject fs => Some (match member fs f with Some _ => true | None => false end)
  | _ => None
  end.

Definition startsWith (v : json) (p : string) : cel :=
  match v with JString s => Some (String.prefix p s) | _ => None end.

(** ** Schemas

    A property has a name, whether it is required, its default and the schema of
    its value.  [SText] bounds the length of a text and tests it (a pattern, an
    enumeration or a format), [SIntOrString] has a pattern for the strings, and
    [SList] is a list of objects that are told apart by the text of one member
    (x-kubernetes-list-map-keys).  [SOpaque] is a value whose schema belongs to the
    library. *)
#[warnings="-register-all"]
Inductive schema :=
| SOpaque
| SText (minLength : nat) (maxLength : option Z) (ok : string -> bool)
| SInteger (width : Z) (minimum : option Z)
| SIntOrString (pattern : regexp)
| SList (key : string) (items : schema)
| SObject (properties : list property) (rules : list (json -> cel))
with property := Property (name : string) (required : bool) (dflt : option json) (s : schema).

(** A text of which only the least length is declared. *)
Definition SString (minLength : nat) : schema := SText minLength None (fun _ => true).

(** The length of a text is its number of characters, in UTF-8: the bytes that do
    not continue one, of which the first is always one. *)
Fixpoint starts (s : string) : nat :=
  match s with
  | "" => 0
  | String a s => if between 128 191 a then starts s else S (starts s)
  end.

Definition characters (s : string) : nat :=
  match s with "" => 0 | String _ s => S (starts s) end.

Definition p_name '(Property k _ _ _) : string := k.

Definition optional (k : string) (s : schema) : property := Property k false None s.
Definition required (k : string) (s : schema) : property := Property k true None s.

(** Pruning and defaulting; a null is the same as an absent member, as none of the
    properties is nullable. *)
Fixpoint stored (s : schema) (v : json) : json :=
  match s, v with
  | SObject ps _, JObject fs =>
      JObject (present (map (fun '(Property k _ d s') =>
        match field fs k with
        | JNull => match d with Some dv => Some (k, dv) | None => None end
        | v' => Some (k, stored s' v')
        end) ps))
  | SList _ items, JArray l => JArray (map (stored items) l)
  | _, _ => v
  end.

Definition at_least (minimum : option Z) (z : Z) : bool :=
  match minimum with Some m => (m <=? z)%Z | None => true end.

Definition at_most (maximum : option Z) (n : nat) : bool :=
  match maximum with Some m => (Z.of_nat n <=? m)%Z | None => true end.

(** The text a list entry is told apart by. *)
Definition key_of (key : string) (v : json) : string :=
  match select v key with JString s => s | _ => "" end.

(** Validation; a rule that fails to evaluate denies. *)
Fixpoint valid (s : schema) (v : json) : bool :=
  match s, v with
  | SOpaque, _ => true
  | SText n m ok, JString t => (n <=? characters t) && at_most m (characters t) && ok t
  | SInteger w m, JInt z => in_range w z && at_least m z
  | SIntOrString _, JInt _ => true
  | SIntOrString r, JString t => test r t
  | SList key items, JArray l =>
      forallb (valid items) l && bool_decide (NoDup (map (key_of key) l))
  | SObject ps rules, JObject fs =>
      forallb (fun '(Property k required _ s') =>
        match member fs k with
        | None => negb required
        | Some v' => valid s' v'
        end) ps &&
      forallb (fun rule => match rule v with Some b => b | None => false end) rules
  | _, _ => false
  end.

Definition admitted (s : schema) (v : json) : bool := valid s (stored s v).

(** ** Lemmas *)

(** A property is one of a list that is given. *)
Ltac in_list := repeat first [left; reflexivity | right].

(** What is stored of one property. *)
Definition stored_property (fs : list (string * json)) (p : property) : option (string * json) :=
  let '(Property k _ d s) := p in
  match field fs k with
  | JNull => match d with Some dv => Some (k, dv) | None => None end
  | v => Some (k, stored s v)
  end.

(** Under a declared name: the stored value, the default, or nothing. *)
Definition stored_value (d : option json) (s : schema) (v : json) : option json :=
  match v with JNull => d | _ => Some (stored s v) end.

Lemma stored_object ps rules fs :
  stored (SObject ps rules) (JObject fs) = JObject (present (map (stored_property fs) ps)).
Proof. reflexivity. Qed.

Lemma stored_property_cases fs k q d s :
  stored_property fs (Property k q d s) =
  match stored_value d s (field fs k) with Some v => Some (k, v) | None => None end.
Proof. cbn. by destruct (field fs k), d. Qed.

Lemma member_stored_none ps fs k :
  k ∉ map p_name ps -> member (present (map (stored_property fs) ps)) k = None.
Proof.
  induction ps as [|[k1 q1 d1 s1] ps IH]; [done|]. cbn [map p_name].
  intros [Hne Hn]%not_elem_of_cons. rewrite stored_property_cases.
  destruct (stored_value _ _ _); cbn; [|by apply IH].
  destruct (String.eqb_spec k k1); [done|by apply IH].
Qed.

Lemma member_stored ps fs k q d s :
  NoDup (map p_name ps) -> Property k q d s ∈ ps ->
  member (present (map (stored_property fs) ps)) k = stored_value d s (field fs k).
Proof.
  induction ps as [|[k1 q1 d1 s1] ps IH]; cbn [map p_name]; intros Hnd Hin;
    [by apply not_elem_of_nil in Hin|].
  apply NoDup_cons in Hnd as [Hk Hnd].
  apply elem_of_cons in Hin as [[= -> -> -> ->]|Hin]; rewrite stored_property_cases.
  - destruct (stored_value _ _ _); cbn; [by rewrite String.eqb_refl|by apply member_stored_none].
  - assert (k <> k1).
    { intros ->. apply Hk. apply (list_elem_of_fmap_2 p_name) in Hin. exact Hin. }
    destruct (stored_value d1 _ _); cbn; [|by apply IH].
    destruct (String.eqb_spec k k1); [done|by apply IH].
Qed.

(** As a decoder sees it. *)
Lemma field_stored ps rules fs k q d s :
  NoDup (map p_name ps) -> Property k q d s ∈ ps ->
  select (stored (SObject ps rules) (JObject fs)) k =
  match field fs k with JNull => default JNull d | v => stored s v end.
Proof.
  intros Hnd Hin. rewrite stored_object. cbn [select]. unfold field at 1.
  rewrite (member_stored _ _ _ _ _ _ Hnd Hin). by destruct (field fs k).
Qed.

(** A schema that leaves every value as it is. *)
Definition leaf (s : schema) : bool := match s with SObject _ _ | SList _ _ => false | _ => true end.

Lemma field_leaf ps rules fs k q s :
  NoDup (map p_name ps) -> Property k q None s ∈ ps -> leaf s = true ->
  select (stored (SObject ps rules) (JObject fs)) k = field fs k.
Proof.
  intros Hnd Hin Hs. rewrite (field_stored _ _ _ _ _ _ _ Hnd Hin).
  by destruct s, (field fs k).
Qed.

(** A valid object has valid properties: what is there satisfies its schema, and
    what is required is there. *)
Lemma valid_property ps rules fs k q d s :
  valid (SObject ps rules) (JObject fs) = true -> Property k q d s ∈ ps ->
  match member fs k with Some v => valid s v = true | None => q = false end.
Proof.
  cbn [valid]. intros [Hps _]%andb_true_iff Hin. rewrite forallb_forall in Hps.
  specialize (Hps _ (proj1 (list_elem_of_In _ _) Hin)). cbn in Hps.
  destruct (member fs k); [done|]. by destruct q.
Qed.

Lemma valid_rule ps rules fs rule :
  valid (SObject ps rules) (JObject fs) = true -> rule ∈ rules ->
  rule (JObject fs) = Some true.
Proof.
  cbn [valid]. intros [_ Hr]%andb_true_iff Hin. rewrite forallb_forall in Hr.
  specialize (Hr _ (proj1 (list_elem_of_In _ _) Hin)).
  by destruct (rule (JObject fs)) as [[]|].
Qed.

(** An admitted object, property by property: a value that is there is admitted
    and stored, an absent one has a default or is not required; and the rules
    hold of what is stored. *)
Definition property_admitted (fs gs : list (string * json)) (p : property) : Prop :=
  let '(Property k q d s) := p in
  field fs k = JNull /\ member gs k = d /\
    match d with Some dv => valid s dv = true | None => q = false end \/
  field fs k <> JNull /\ member gs k = Some (stored s (field fs k)) /\
    admitted s (field fs k) = true.

Lemma admitted_object ps rules v :
  NoDup (map p_name ps) -> admitted (SObject ps rules) v = true ->
  exists fs gs, v = JObject fs /\ stored (SObject ps rules) v = JObject gs /\
    Forall (property_admitted fs gs) ps /\
    Forall (fun rule => rule (JObject gs) = Some true) rules.
Proof.
  unfold admitted. intros Hnd Hv. destruct v; try done. rewrite stored_object in *.
  eexists _, _. split_and!; [done|done| |].
  - apply Forall_forall. intros [k q d s] Hin. pose proof (member_stored _ fs _ _ _ _ Hnd Hin) as Hm.
    pose proof (valid_property _ _ _ _ _ _ _ Hv Hin) as Hp. rewrite Hm in Hp.
    unfold property_admitted. rewrite Hm. destruct (field fs k); [by left|by right..].
  - apply Forall_forall. intros rule Hin. by eapply valid_rule.
Qed.

(** A value, absent or there, that is all right under a property. *)
Definition value_admitted (q : bool) (d : option json) (s : schema) (v : json) : Prop :=
  match v with
  | JNull => match d with Some dv => valid s dv = true | None => q = false end
  | v => admitted s v = true
  end.

Lemma omitted_admitted {A} (c : codec A) (a : A) s :
  admitted s (Marshal c a) = true ->
  value_admitted false None s (if negb (isZero c a) then Marshal c a else JNull).
Proof. destruct (isZero c a); [done|]. cbn. by destruct (Marshal c a). Qed.

Lemma property_admits ps fs :
  NoDup (map p_name ps) ->
  admitted (SObject ps []) (JObject fs) = true <->
  Forall (fun '(Property k q d s) => value_admitted q d s (field fs k)) ps.
Proof.
  intros Hnd. unfold admitted. rewrite stored_object. cbn [valid forallb].
  rewrite andb_true_r, forallb_forall, Forall_forall.
  enough (Hp : forall p, p ∈ ps ->
    (let '(Property k q _ s') := p in
     match member (present (map (stored_property fs) ps)) k with
     | None => negb q | Some v' => valid s' v' end) = true <->
    let '(Property k q d s) := p in value_admitted q d s (field fs k)).
  { setoid_rewrite <- list_elem_of_In. split; intros H p Hin; by apply Hp, H. }
  intros [k q d s] Hin. rewrite (member_stored _ fs _ _ _ _ Hnd Hin).
  unfold value_admitted, admitted. destruct (field fs k); cbn [stored_value]; try done.
  destruct d; [done|]. by destruct q.
Qed.

(** An admitted scalar. *)
Lemma admitted_string n v :
  admitted (SString n) v = true -> exists t, v = JString t /\ n <= characters t.
Proof.
  unfold admitted. destruct v; cbn; try done. rewrite !andb_true_r.
  intros H%Nat.leb_le. eauto.
Qed.

Lemma admitted_integer w m v :
  admitted (SInteger w m) v = true ->
  exists z, v = JInt z /\ in_range w z = true /\ at_least m z = true.
Proof. unfold admitted. destruct v; cbn; try done. intros [??]%andb_true_iff. eauto. Qed.

Lemma forallb_stored items l :
  forallb (valid items) (map (stored items) l) = true <->
  Forall (fun v => admitted items v = true) l.
Proof.
  rewrite forallb_forall, Forall_forall. setoid_rewrite list_elem_of_In. split.
  - intros H v Hin. by apply H, in_map.
  - intros H ? (v & <- & Hin)%in_map_iff. by apply H.
Qed.

(** A list is stored entry by entry, and admitted if and only if its entries are
    and their keys differ. *)
Lemma list_admitted key items l :
  admitted (SList key items) (JArray l) = true <->
  Forall (fun v => admitted items v = true) l /\ NoDup (map (key_of key) (map (stored items) l)).
Proof.
  unfold admitted at 1. cbn [stored valid].
  by rewrite andb_true_iff, forallb_stored, bool_decide_eq_true.
Qed.
