(* ===== verification/Prog.v ===== *)
(** * Effectful programs

    The reconcilers, the validators and [main] talk to code outside this
    repository (the API server, the manager).  A program is a finite tree: it
    returns, or it makes a call of a signature [E] and goes on with the
    answer.  Nothing is assumed of the answers here: a theorem about every run
    of a program holds for every answer to every call, errors included. *)
From S2P Require Import Prelude.

Inductive prog (E : Type -> Type) (A : Type) : Type :=
| Ret (a : A) : prog E A
| Vis {R : Type} (c : E R) (k : R -> prog E A) : prog E A.
Arguments Ret {E A} a.
Arguments Vis {E A R} c k.

Fixpoint bind {E A B} (p : prog E A) (f : A -> prog E B) : prog E B :=
  match p with
  | Ret a => f a
  | Vis c k => Vis c (fun r => bind (k r) f)
  end.

Definition trigger {E R} (c : E R) : prog E R := Vis c Ret.

Declare Scope prog_scope.
Delimit Scope prog_scope with prog.
Bind Scope prog_scope with prog.

Notation "'let*' x ':=' p 'in' q" := (bind p (fun x => q))
  (at level 10, x name, p at level 100, q at level 200) : prog_scope.
Notation "'let*' ' pat ':=' p 'in' q" :=
  (bind p (fun x => match x with pat => q end))
  (at level 10, pat strict pattern, p at level 100, q at level 200)
  : prog_scope.

(** One call with the answer it got. *)
Inductive event (E : Type -> Type) : Type :=
| Ev {R : Type} (c : E R) (r : R) : event E.
Arguments Ev {E R} c r.

(** [runs p tr a]: some sequence of answers makes [p] perform exactly the
    events [tr] and return [a]. *)
Fixpoint runs {E A} (p : prog E A) (tr : list (event E)) (a : A) : Prop :=
  match p with
  | Ret x => tr = [] /\ a = x
  | Vis c k => exists r tr', tr = Ev c r :: tr' /\ runs (k r) tr' a
  end.

(** With every answer satisfying [A], every call satisfies [P]. *)
Fixpoint typed {E : Type -> Type} {X} (A : event E -> Prop) (P : forall R, E R -> Prop)
    (p : prog E X) : Prop :=
  match p with
  | Ret _ => True
  | Vis c k => P _ c /\ forall r, A (Ev c r) -> typed A P (k r)
  end.

(** Every call the program can make, whatever it is answered, satisfies [P]. *)
Fixpoint all_calls {E A} (P : forall R, E R -> Prop) (p : prog E A) : Prop :=
  match p with
  | Ret _ => True
  | Vis c k => P _ c /\ forall r, all_calls P (k r)
  end.

(** The program makes at most [n] calls, whatever it is answered. *)
Fixpoint at_most {E A} (n : nat) (p : prog E A) {struct p} : Prop :=
  match p with
  | Ret _ => True
  | Vis c k => match n with
               | 0 => False
               | S n' => forall r, at_most n' (k r)
               end
  end.

(** [P] does not happen in the trace before [Q] has (weak until). *)
Fixpoint before {E} (Q P : event E -> Prop) (tr : list (event E)) : Prop :=
  match tr with
  | [] => True
  | e :: tr' => ~ P e /\ (Q e \/ before Q P tr')
  end.

(** A deterministic environment with state [S], for evaluating a program. *)
Definition handler (E : Type -> Type) (S : Type) := forall R, E R -> S -> R * S.

Fixpoint interp {E S A} (h : handler E S) (p : prog E A) (s : S)
  : list (event E) * A * S :=
  match p with
  | Ret a => ([], a, s)
  | Vis c k =>
      let '(r, s1) := h _ c s in
      let '(tr, a, s2) := interp h (k r) s1 in
      (Ev c r :: tr, a, s2)
  end.

(** ** Lemmas *)

Section lemmas.
Context {E : Type -> Type}.

Lemma runs_bind {A B} (p : prog E A) (f : A -> prog E B) tr b :
  runs (bind p f) tr b <->
  exists tr1 a tr2, tr = tr1 ++ tr2 /\ runs p tr1 a /\ runs (f a) tr2 b.
Proof.
  revert tr. induction p as [x|R c k IH]; intros tr; cbn.
  - split; [intros H; exists [], x, tr; auto|].
    intros (tr1 & a & tr2 & -> & [-> ->] & H). exact H.
  - split.
    + intros (r & tr' & -> & H). apply IH in H as (tr1 & a & tr2 & -> & H1 & H2).
      exists (Ev c r :: tr1), a, tr2. split; [done|]. split; [|done].
      exists r, tr1. auto.
    + intros (tr1 & a & tr2 & -> & (r & tr' & -> & H1) & H2).
      exists r, (tr' ++ tr2). split; [done|]. apply IH. exists tr', a, tr2. auto.
Qed.

Lemma interp_runs {S A} (h : handler E S) (p : prog E A) s tr a s' :
  interp h p s = (tr, a, s') -> runs p tr a.
Proof.
  revert s tr. induction p as [x|R c k IH]; intros s tr; cbn; [intros [=]; auto|].
  destruct (h R c s) as [r s1]. destruct (interp h (k r) s1) as [[tr1 a1] s2] eqn:Hi.
  intros [= <- <- <-]. eauto.
Qed.

Lemma runs_exists {S A} (h : handler E S) (p : prog E A) (s : S) :
  exists tr a, runs p tr a.
Proof.
  destruct (interp h p s) as [[tr a] s'] eqn:Hi. eauto using interp_runs.
Qed.

Lemma all_calls_bind {A B} P (p : prog E A) (f : A -> prog E B) :
  all_calls P p -> (forall a, all_calls P (f a)) -> all_calls P (bind p f).
Proof. induction p as [x|R c k IH]; cbn; intuition auto. Qed.

Lemma all_calls_mono {A} (P Q : forall R, E R -> Prop) (p : prog E A) :
  (forall R c, P R c -> Q R c) -> all_calls P p -> all_calls Q p.
Proof. intros HPQ. induction p as [x|R c k IH]; cbn; intuition auto. Qed.

Lemma all_calls_runs {A} P (p : prog E A) tr a :
  all_calls P p -> runs p tr a ->
  Forall (fun e => match e with Ev c _ => P _ c end) tr.
Proof.
  revert tr. induction p as [x|R c k IH]; intros tr; cbn.
  - intros _ [-> _]. constructor.
  - intros [Hc Hk] (r & tr' & -> & H). constructor; eauto.
Qed.

Lemma at_most_runs {A} n (p : prog E A) tr a :
  at_most n p -> runs p tr a -> length tr <= n.
Proof.
  revert n tr. induction p as [x|R c k IH]; intros n tr; cbn.
  - intros _ [-> _]. cbn. lia.
  - destruct n as [|n]; [done|]. intros Hk (r & tr' & -> & H). cbn.
    specialize (IH r n tr' (Hk r) H). lia.
Qed.

Lemma at_most_mono {A} n m (p : prog E A) : n <= m -> at_most n p -> at_most m p.
Proof.
  revert n m. induction p as [x|R c k IH]; intros n m Hnm; cbn; [done|].
  destruct n; [done|]. destruct m; [lia|]. intros Hk r. eapply IH; [|apply Hk]. lia.
Qed.

Lemma at_most_bind {A B} n m (p : prog E A) (f : A -> prog E B) :
  at_most n p -> (forall a, at_most m (f a)) -> at_most (n + m) (bind p f).
Proof.
  revert n. induction p as [x|R c k IH]; intros n; cbn.
  - intros _ Hf. eapply at_most_mono; [|apply Hf]. lia.
  - destruct n as [|n]; [done|]. cbn. intros Hk Hf r. auto.
Qed.

Lemma before_app_l (Q P : event E -> Prop) tr1 tr2 :
  Exists Q tr1 -> before Q P tr1 -> before Q P (tr1 ++ tr2).
Proof.
  induction tr1 as [|e tr1 IH]; cbn; [by intros ?%Exists_nil|].
  intros [HQ|HQ]%Exists_cons [HP [H|H]]; auto.
Qed.

Lemma before_never (Q P : event E -> Prop) tr :
  Forall (fun e => ~ P e) tr -> before Q P tr.
Proof. induction 1; cbn; auto. Qed.

Lemma before_app_never (Q P : event E -> Prop) tr1 tr2 :
  Forall (fun e => ~ P e) tr1 -> before Q P tr2 -> before Q P (tr1 ++ tr2).
Proof. induction 1; cbn; auto. Qed.

(** What [before] means, with the positions written out. *)
Lemma before_spec (Q P : event E -> Prop) tr tr1 e tr2 :
  before Q P tr -> tr = tr1 ++ e :: tr2 -> P e -> Exists Q tr1.
Proof.
  intros Hb -> He. induction tr1 as [|e1 tr1 IH]; cbn in *; [tauto|].
  destruct Hb as [_ [H|H]]; [by left|right; auto].
Qed.
End lemmas.

(** Symbolic execution of a run: one call, one return or one case analysis at
    a time. *)
Ltac run_step :=
  match goal with
  | H : runs (Ret _) _ _ |- _ => destruct H as [-> ->]
  | H : runs (Vis _ _) _ _ |- _ =>
      let r := fresh "r" in let tr := fresh "tr" in
      destruct H as (r & tr & -> & H); cbn beta iota in H
  | H : runs (trigger _) _ _ |- _ => unfold trigger in H
  | H : runs (bind _ _) _ _ |- _ =>
      let tr1 := fresh "tr" in let a := fresh "a" in let tr2 := fresh "tr" in
      let H1 := fresh "Hrun" in
      apply runs_bind in H as (tr1 & a & tr2 & -> & H1 & H); cbn beta iota in H
  | H : runs (match ?x with _ => _ end) _ _ |- _ =>
      let E := fresh "E" in destruct x eqn:E
  end.

Ltac run_steps := repeat run_step.

(** Prove a [before] on an explicit trace: step over events that are not the
    guarded one, and stop at the first one that is the guard. *)
Ltac prove_before :=
  cbn [app];
  repeat first
    [ exact I
    | split; [by (cbn; naive_solver)|];
      first [left; by (cbn; eauto 7)|right] ].

(** Walk over every path of a program, for [all_calls] and [at_most]: [tac]
    closes the requirement on one call. *)
Ltac walk tac :=
  repeat first
    [ exact I
    | progress cbn
    | split; [solve [tac]|]
    | let r := fresh "r" in intros r; try destruct r
    | case_goal ].

(** The same for [typed], with what is known of each answer in the context. *)
Ltac walk_typed tac :=
  repeat first
    [ exact I
    | progress cbn
    | split; [solve [tac]|]
    | let r := fresh "r" in intros r; try destruct r; intros ?
    | case_goal ].
