(* ===== verification/Kube.v ===== *)
(** * The Kubernetes libraries the source calls

    Data of k8s.io/api and k8s.io/apimachinery as records holding the fields
    this repository reads or writes, and the library functions as classes of
    operations.  The code of those functions is not in the repository, so they
    are parameters of every definition that uses them; a law class states the
    documented behaviour a group of theorems relies on.  [Sample] has concrete
    instances satisfying every law. *)
From S2P Require Import Prelude.

(** ** Operations *)

(** [resource.Quantity].  [zeroQuantity] is Go's zero value [Quantity{}]. *)
Inductive Format := DecimalExponent | BinarySI | DecimalSI.

Class QuantityApi := {
  Quantity : Type;
  zeroQuantity : Quantity;
  IsZero : Quantity -> bool;
  Cmp : Quantity -> Quantity -> Z;
  QString : Quantity -> string;
  NewQuantity : Z -> Format -> Quantity;
}.

(** The [error] interface ([None] of [option error] is [nil]), the errors of
    k8s.io/apimachinery/pkg/api/errors, and [fmt.Errorf]/[errors.New] of a
    message.  [fieldError] and [fieldPath] are validation/field's. *)
Record GroupResource := { gr_Group : string; gr_Resource : string }.
Record GroupKind := { gk_Group : string; gk_Kind : string }.
Record GroupVersionKind :=
  { gvk_Group : string; gvk_Version : string; gvk_Kind : string }.

Class ErrorApi := {
  error : Type;
  Error : error -> string;
  Errorf : string -> error;
  IsNotFound : option error -> bool;
  IgnoreNotFound : option error -> option error;
  fieldPath : Type;
  fieldError : Type;
  NewPath : string -> fieldPath;
  field_Invalid : fieldPath -> string -> string -> fieldError;
  NewInvalid : GroupKind -> string -> list fieldError -> error;
  NewForbidden : GroupResource -> string -> error -> error;
}.

(** [metav1.Time]; [TimeIsZero] is the method [IsZero] on a [*metav1.Time],
    which a nil pointer answers too. *)
Class TimeApi := {
  Time : Type;
  TimeIsZero : option Time -> bool;
}.

(** ** Data *)

Record OwnerReference := {
  or_APIVersion : string;
  or_Kind : string;
  or_Name : string;
  or_UID : string;
  or_Controller : bool;
}.

(** [metav1.TypeMeta]. *)
Record TypeMeta := { Kind : string; APIVersion : string }.

(** [metav1.ObjectMeta]. *)
Record ObjectMeta `{TimeApi} := {
  om_Name : string;
  om_Namespace : string;
  om_UID : string;
  om_ResourceVersion : string;
  om_Generation : Z;
  om_DeletionTimestamp : option Time;
  om_Labels : gmap string string;
  om_Finalizers : list string;
  om_OwnerReferences : list OwnerReference;
}.

(** A composite literal [metav1.ObjectMeta{Name: n, Namespace: ns}]. *)
Definition NewObjectMeta `{TimeApi} (n ns : string) : ObjectMeta := {|
  om_Name := n; om_Namespace := ns; om_UID := ""; om_ResourceVersion := "";
  om_Generation := 0; om_DeletionTimestamp := None; om_Labels := ∅;
  om_Finalizers := []; om_OwnerReferences := [];
|}.

(** The setters [SetLabels] and [SetFinalizers] of [metav1.Object]. *)
Definition SetLabels `{TimeApi} (l : gmap string string) (m : ObjectMeta)
  : ObjectMeta := {|
  om_Name := om_Name m; om_Namespace := om_Namespace m; om_UID := om_UID m;
  om_ResourceVersion := om_ResourceVersion m;
  om_Generation := om_Generation m;
  om_DeletionTimestamp := om_DeletionTimestamp m; om_Labels := l;
  om_Finalizers := om_Finalizers m;
  om_OwnerReferences := om_OwnerReferences m;
|}.

Definition SetFinalizers `{TimeApi} (l : list string) (m : ObjectMeta)
  : ObjectMeta := {|
  om_Name := om_Name m; om_Namespace := om_Namespace m; om_UID := om_UID m;
  om_ResourceVersion := om_ResourceVersion m;
  om_Generation := om_Generation m;
  om_DeletionTimestamp := om_DeletionTimestamp m; om_Labels := om_Labels m;
  om_Finalizers := l; om_OwnerReferences := om_OwnerReferences m;
|}.

Definition SetOwnerReferences `{TimeApi} (l : list OwnerReference)
  (m : ObjectMeta) : ObjectMeta := {|
  om_Name := om_Name m; om_Namespace := om_Namespace m; om_UID := om_UID m;
  om_ResourceVersion := om_ResourceVersion m;
  om_Generation := om_Generation m;
  om_DeletionTimestamp := om_DeletionTimestamp m; om_Labels := om_Labels m;
  om_Finalizers := om_Finalizers m; om_OwnerReferences := l;
|}.

(** [metav1.Condition], without [LastTransitionTime], which this repository
    neither sets nor reads. *)
Inductive ConditionStatus := ConditionTrue | ConditionFalse | ConditionUnknown.

Record Condition := {
  c_Type : string;
  c_Status : ConditionStatus;
  c_ObservedGeneration : Z;
  c_Reason : string;
  c_Message : string;
}.

(** [types.NamespacedName], [ctrl.Request] and [ctrl.Result]; a
    [time.Duration] is an [int64] of nanoseconds. *)
Record NamespacedName := { nn_Namespace : string; nn_Name : string }.

Record Request := { req_NamespacedName : NamespacedName }.

Record Result := { RequeueAfter : Z }.

Definition emptyResult : Result := {| RequeueAfter := 0 |}.

Definition Second : Z := 1000000000.

(** k8s.io/api constants. *)
Definition ResourceRequestsCPU : string := "requests.cpu".
Definition ResourceRequestsMemory : string := "requests.memory".
Definition ResourceLimitsMemory : string := "limits.memory".
Definition ResourcePods : string := "pods".
Definition rbacv1_GroupName : string := "rbac.authorization.k8s.io".
Definition rbacv1_GroupKind : string := "Group".

(** [corev1.Namespace], [rbacv1.RoleBinding], [corev1.ResourceQuota]. *)
Record Namespace `{TimeApi} := { ns_ObjectMeta : ObjectMeta }.

Record RoleRef := { rr_APIGroup : string; rr_Kind : string; rr_Name : string }.

Record Subject := { s_Kind : string; s_APIGroup : string; s_Name : string }.

Record RoleBinding `{TimeApi} := {
  rb_ObjectMeta : ObjectMeta;
  rb_RoleRef : RoleRef;
  rb_Subjects : list Subject;
}.

Record ResourceQuota `{TimeApi} `{QuantityApi} := {
  rq_ObjectMeta : ObjectMeta;
  rq_Hard : gmap string Quantity;
}.

(** A Go [any] of the kinds an unstructured object holds. *)
#[warnings="-register-all"]
Inductive any :=
| AString (s : string)
| AInt64 (z : Z)
| ABool (b : bool)
| ASlice (l : list any)
| AMap (m : list (string * any)).

(** [m[k] = v] and [m[k]] on a [map[string]any], kept as a list of entries. *)
Fixpoint any_set (k : string) (v : any) (m : list (string * any))
  : list (string * any) :=
  match m with
  | [] => [(k, v)]
  | (k', v') :: m' =>
      if String.eqb k k' then (k, v) :: m' else (k', v') :: any_set k v m'
  end.

Fixpoint any_get (k : string) (m : list (string * any)) : option any :=
  match m with
  | [] => None
  | (k', v) :: m' => if String.eqb k k' then Some v else any_get k m'
  end.

(** [unstructured.Unstructured]: the kind, the metadata and the rest of the
    [Object] map, which the source reaches only through the nested-field
    helpers below "spec" and "status". *)
Record Unstructured `{TimeApi} := {
  u_GVK : GroupVersionKind;
  u_ObjectMeta : ObjectMeta;
  u_Object : list (string * any);
}.

(** Following a path of map keys: what [unstructured.NestedFieldNoCopy]
    documents.  It is used to state laws and theorems, not by the source. *)
Fixpoint nested (m : list (string * any)) (path : list string) : option any :=
  match path with
  | [] => Some (AMap m)
  | k :: rest =>
      match any_get k m with
      | None => None
      | Some v =>
          match rest with
          | [] => Some v
          | _ :: _ => match v with AMap m' => nested m' rest | _ => None end
          end
      end
  end.

(** ** Operations on the data *)

(** pkg/api/meta conditions, controllerutil finalizers and owner references.
    [SetControllerReference owner-type owner controlled]: the scheme resolves
    the owner's Go type to a kind. *)
Class MetaApi `{TimeApi} `{ErrorApi} := {
  Scheme : Type;
  SetStatusCondition : list Condition -> Condition -> list Condition;
  IsStatusConditionTrue : list Condition -> string -> bool;
  ContainsFinalizer : ObjectMeta -> string -> bool;
  AddFinalizer : ObjectMeta -> string -> ObjectMeta;
  RemoveFinalizer : ObjectMeta -> string -> ObjectMeta;
  SetControllerReference :
    Scheme -> string -> ObjectMeta -> ObjectMeta -> error + ObjectMeta;
}.

Class UnstructuredApi `{ErrorApi} := {
  SetNestedMap :
    list (string * any) -> list (string * any) -> list string ->
    error + list (string * any);
  SetNestedField :
    list (string * any) -> any -> list string ->
    error + list (string * any);
  NestedString :
    list (string * any) -> list string -> string * bool * option error;
}.

(** Everything together, as the controllers use it. *)
Class Kube := {
  #[global] kube_quantity :: QuantityApi;
  #[global] kube_error :: ErrorApi;
  #[global] kube_time :: TimeApi;
  #[global] kube_meta :: MetaApi;
  #[global] kube_unstructured :: UnstructuredApi;
}.

(** ** Laws *)

(** [Cmp] compares numeric values: 0, -1 or 1; [IsZero] compares with zero. *)
Class QuantityLaws `{QuantityApi} : Prop := {
  Cmp_refl q : Cmp q q = 0%Z;
  Cmp_antisym a b : Cmp b a = (- Cmp a b)%Z;
  Cmp_trans a b c : (Cmp a b <= 0 -> Cmp b c <= 0 -> Cmp a c <= 0)%Z;
  IsZero_Cmp q : IsZero q = true <-> Cmp q zeroQuantity = 0%Z;
  NewQuantity_Cmp x y f : Cmp (NewQuantity x f) (NewQuantity y f) = 
    match (x ?= y)%Z with Lt => -1 | Eq => 0 | Gt => 1 end%Z;
}.

(** [IsNotFound(nil)] is false; [IgnoreNotFound] returns nil on NotFound
    errors and everything else unchanged. *)
Class ErrorLaws `{ErrorApi} : Prop := {
  IsNotFound_nil : IsNotFound None = false;
  IgnoreNotFound_spec e :
    IgnoreNotFound e = if IsNotFound e then None else e;
  Error_Errorf s : Error (Errorf s) = s;
}.

Class TimeLaws `{TimeApi} : Prop := { TimeIsZero_nil : TimeIsZero None = true }.

(** The condition of a type: the first entry, as the lists are maps keyed by
    type (listType=map). *)
Fixpoint findCondition (cs : list Condition) (t : string) : option Condition :=
  match cs with
  | [] => None
  | c :: cs' => if String.eqb (c_Type c) t then Some c else findCondition cs' t
  end.

(** The owner that has the controller flag, as [metav1.GetControllerOf]. *)
Definition controllerOf `{TimeApi} (m : ObjectMeta) : option OwnerReference :=
  List.find or_Controller (om_OwnerReferences m).

Definition same_but_finalizers `{TimeApi} (m m' : ObjectMeta) : Prop :=
  m' = SetFinalizers (om_Finalizers m') m.

(** [m'] is [m] with the owner as its controller and nothing else changed. *)
Definition owned_by `{TimeApi} (kind : string) (owner m m' : ObjectMeta) : Prop :=
  m' = SetOwnerReferences (om_OwnerReferences m') m /\
  exists ref, controllerOf m' = Some ref /\ or_Kind ref = kind /\
    or_Name ref = om_Name owner /\ or_UID ref = om_UID owner.

(** Another object is the controller. *)
Definition foreign_owner `{TimeApi} (kind : string) (owner m : ObjectMeta) : Prop :=
  exists ref, controllerOf m = Some ref /\
    (or_Kind ref <> kind \/ or_Name ref <> om_Name owner).

Class MetaLaws `{MetaApi} : Prop := {
  SetStatusCondition_eq cs c :
    findCondition (SetStatusCondition cs c) (c_Type c) = Some c;
  SetStatusCondition_ne cs c t : t <> c_Type c ->
    findCondition (SetStatusCondition cs c) t = findCondition cs t;
  (* an entry of the type is updated in place, otherwise one is appended *)
  SetStatusCondition_types cs c :
    map c_Type (SetStatusCondition cs c) =
    if decide (c_Type c ∈ map c_Type cs) then map c_Type cs
    else map c_Type cs ++ [c_Type c];
  (* setting the entry that is there changes nothing *)
  SetStatusCondition_same cs c :
    findCondition cs (c_Type c) = Some c -> SetStatusCondition cs c = cs;
  IsStatusConditionTrue_spec cs t :
    IsStatusConditionTrue cs t = true <->
    exists c, findCondition cs t = Some c /\ c_Status c = ConditionTrue;
  ContainsFinalizer_spec m f :
    ContainsFinalizer m f = true <-> f ∈ om_Finalizers m;
  AddFinalizer_spec m f :
    same_but_finalizers m (AddFinalizer m f) /\
    forall g, g ∈ om_Finalizers (AddFinalizer m f) <->
              g = f \/ g ∈ om_Finalizers m;
  AddFinalizer_present m f : f ∈ om_Finalizers m -> AddFinalizer m f = m;
  RemoveFinalizer_spec m f :
    same_but_finalizers m (RemoveFinalizer m f) /\
    forall g, g ∈ om_Finalizers (RemoveFinalizer m f) <->
              g <> f /\ g ∈ om_Finalizers m;
  (* another controller: AlreadyOwnedError *)
  SetControllerReference_owned s k o m r :
    controllerOf m = Some r -> or_Kind r <> k \/ or_Name r <> om_Name o ->
    exists e, SetControllerReference s k o m = inl e;
  (* no controller yet, and an owner without namespace: it succeeds *)
  SetControllerReference_free s k o m :
    controllerOf m = None -> om_Namespace o = "" ->
    exists m', SetControllerReference s k o m = inr m';
  (* setting a reference to the same owner that is there, on an object of the
     same namespace, changes nothing *)
  SetControllerReference_same s k o o2 m m1 m2 :
    SetControllerReference s k o m = inr m1 ->
    om_Name o2 = om_Name o -> om_UID o2 = om_UID o -> om_Namespace o2 = om_Namespace o ->
    om_OwnerReferences m2 = om_OwnerReferences m1 -> om_Namespace m2 = om_Namespace m1 ->
    SetControllerReference s k o2 m2 = inr m2;
  (* whenever it succeeds, only owner references change and the owner is the controller *)
  SetControllerReference_ok s k o m m' :
    SetControllerReference s k o m = inr m' ->
    m' = SetOwnerReferences (om_OwnerReferences m') m /\
    exists r, controllerOf m' = Some r /\ or_Kind r = k /\
      or_Name r = om_Name o /\ or_UID r = om_UID o;
}.

(** Two paths of which neither extends the other. *)
Definition disjoint_paths (p q : list string) : Prop :=
  ~ p `prefix_of` q /\ ~ q `prefix_of` p.

Class UnstructuredLaws `{UnstructuredApi} : Prop := {
  SetNestedMap_eq obj v path obj' :
    SetNestedMap obj v path = inr obj' -> nested obj' path = Some (AMap v);
  SetNestedMap_ne obj v path obj' q :
    SetNestedMap obj v path = inr obj' -> disjoint_paths path q ->
    nested obj' q = nested obj q;
  SetNestedField_eq obj v path obj' :
    SetNestedField obj v path = inr obj' -> nested obj' path = Some v;
  SetNestedField_ne obj v path obj' q :
    SetNestedField obj v path = inr obj' -> disjoint_paths path q ->
    nested obj' q = nested obj q;
  (* a two-key path can be written unless the first key holds a non-map *)
  SetNestedMap_ok obj v k1 k2 :
    (any_get k1 obj = None \/ exists m, any_get k1 obj = Some (AMap m)) ->
    exists obj', SetNestedMap obj v [k1; k2] = inr obj';
  SetNestedField_ok obj v k1 k2 :
    (any_get k1 obj = None \/ exists m, any_get k1 obj = Some (AMap m)) ->
    exists obj', SetNestedField obj v [k1; k2] = inr obj';
  (* writing the value that is there changes nothing *)
  SetNestedMap_same obj v path : path <> [] ->
    nested obj path = Some (AMap v) -> SetNestedMap obj v path = inr obj;
  SetNestedField_same obj v path : path <> [] ->
    nested obj path = Some v -> SetNestedField obj v path = inr obj;
  NestedString_some obj path s :
    nested obj path = Some (AString s) ->
    fst (fst (NestedString obj path)) = s;
  NestedString_none obj path :
    nested obj path = None -> fst (fst (NestedString obj path)) = "";
}.

Class KubeLaws `{Kube} : Prop := {
  #[global] laws_quantity :: QuantityLaws;
  #[global] laws_error :: ErrorLaws;
  #[global] laws_time :: TimeLaws;
  #[global] laws_meta :: MetaLaws;
  #[global] laws_unstructured :: UnstructuredLaws;
}.

(** ** Lemmas on conditions *)

Section conditions.
Context `{M : MetaApi} `{L : !MetaLaws}.

Lemma SetControllerReference_idem s k o m m' :
  SetControllerReference s k o m = inr m' -> SetControllerReference s k o m' = inr m'.
Proof. intros E. by apply (SetControllerReference_same _ _ _ _ _ _ _ E). Qed.

Definition isTrue (s : ConditionStatus) : bool :=
  match s with ConditionTrue => true | _ => false end.

Lemma findCondition_set cs c t :
  findCondition (SetStatusCondition cs c) t =
  if String.eqb t (c_Type c) then Some c else findCondition cs t.
Proof.
  destruct (String.eqb_spec t (c_Type c)) as [->|Hne].
  - apply SetStatusCondition_eq.
  - by apply SetStatusCondition_ne.
Qed.

Lemma IsStatusConditionTrue_find cs t :
  IsStatusConditionTrue cs t =
  match findCondition cs t with Some c => isTrue (c_Status c) | None => false end.
Proof.
  apply eq_bool_prop_intro. rewrite !Is_true_true, IsStatusConditionTrue_spec.
  destruct (findCondition cs t) as [c|].
  - split; [by intros (? & [= <-] & ->)|]. intros Hc. exists c. by destruct (c_Status c).
  - split; [by intros (? & ? & _)|done].
Qed.

Lemma IsStatusConditionTrue_set cs c t :
  IsStatusConditionTrue (SetStatusCondition cs c) t =
  if String.eqb t (c_Type c) then isTrue (c_Status c)
  else IsStatusConditionTrue cs t.
Proof.
  rewrite !IsStatusConditionTrue_find, findCondition_set.
  by destruct (String.eqb _ _).
Qed.
End conditions.

(** Conditions after the assignments of a handler: rewrite and compute the
    comparisons of the (constant) types. *)
Ltac simpl_conditions :=
  repeat (rewrite ?findCondition_set, ?IsStatusConditionTrue_set; cbn).
