(* ===== verification/Api.v ===== *)
(** * The API types (api/v1alpha1)

    The two custom resources, their spec and status types, the constants
    shared by the controllers, and the CEL rule on a Tenant's name. *)
From S2P Require Import Prelude Regexp Kube.

(** ** Constants (serviceclaim_types.go) *)

Definition PhasePending : string := "Pending".
Definition PhaseReady : string := "Ready".
Definition PhaseTerminating : string := "Terminating".

Definition ServiceClaimFinalizer : string :=
  "platform.idp.io/application-teardown".
Definition TenantFinalizer : string := "platform.idp.io/tenant-teardown".

Definition ConditionReady : string := "Ready".
Definition ConditionNamespaceReady : string := "NamespaceReady".
Definition ConditionRBACReady : string := "RBACReady".
Definition ConditionQuotaApplied : string := "QuotaApplied".
Definition ConditionTenantReady : string := "TenantReady".
Definition ConditionArgoAppCreated : string := "ArgoAppCreated".
Definition ConditionApplicationDrained : string := "ApplicationDrained".
Definition ConditionClaimsDrained : string := "ClaimsDrained".

(** ** Types (tenant_types.go, serviceclaim_types.go) *)

Section types.
Context `{K : Kube}.

(** [ResourceRequests]; [Pods] is an [int32]. *)
Record ResourceRequests := {
  CPU : Quantity;
  Memory : Quantity;
  Pods : Z;
}.

Record TenantSpec := { Resources : option ResourceRequests }.

(** [TenantStatus] and [ServiceClaimStatus] have the same fields. *)
Record TenantStatus := {
  ts_Phase : string;
  ts_ObservedGeneration : Z;
  ts_Conditions : list Condition;
}.

Record Tenant := {
  t_ObjectMeta : ObjectMeta;
  t_Spec : TenantSpec;
  t_Status : TenantStatus;
}.

(** [ServiceClaimSpec]; [Replicas] is a [*int32]. *)
Record ServiceClaimSpec := {
  Team : string;
  Image : string;
  Replicas : option Z;
}.

Record ServiceClaimStatus := {
  cs_Phase : string;
  cs_ObservedGeneration : Z;
  cs_Conditions : list Condition;
}.

Record ServiceClaim := {
  sc_ObjectMeta : ObjectMeta;
  sc_Spec : ServiceClaimSpec;
  sc_Status : ServiceClaimStatus;
}.

(** [tenant.Name], [claim.Name]. *)
Definition t_Name (t : Tenant) : string := om_Name (t_ObjectMeta t).
Definition sc_Name (c : ServiceClaim) : string := om_Name (sc_ObjectMeta c).

(** Assignments to one field of the status. *)
Definition t_set_status (t : Tenant) (s : TenantStatus) : Tenant :=
  {| t_ObjectMeta := t_ObjectMeta t; t_Spec := t_Spec t; t_Status := s |}.

Definition t_set_Phase (p : string) (t : Tenant) : Tenant :=
  t_set_status t {| ts_Phase := p;
    ts_ObservedGeneration := ts_ObservedGeneration (t_Status t);
    ts_Conditions := ts_Conditions (t_Status t) |}.

Definition t_set_ObservedGeneration (g : Z) (t : Tenant) : Tenant :=
  t_set_status t {| ts_Phase := ts_Phase (t_Status t);
    ts_ObservedGeneration := g;
    ts_Conditions := ts_Conditions (t_Status t) |}.

Definition t_set_Conditions (cs : list Condition) (t : Tenant) : Tenant :=
  t_set_status t {| ts_Phase := ts_Phase (t_Status t);
    ts_ObservedGeneration := ts_ObservedGeneration (t_Status t);
    ts_Conditions := cs |}.

Definition sc_set_status (c : ServiceClaim) (s : ServiceClaimStatus)
  : ServiceClaim :=
  {| sc_ObjectMeta := sc_ObjectMeta c; sc_Spec := sc_Spec c; sc_Status := s |}.

Definition sc_set_Phase (p : string) (c : ServiceClaim) : ServiceClaim :=
  sc_set_status c {| cs_Phase := p;
    cs_ObservedGeneration := cs_ObservedGeneration (sc_Status c);
    cs_Conditions := cs_Conditions (sc_Status c) |}.

Definition sc_set_ObservedGeneration (g : Z) (c : ServiceClaim) : ServiceClaim :=
  sc_set_status c {| cs_Phase := cs_Phase (sc_Status c);
    cs_ObservedGeneration := g;
    cs_Conditions := cs_Conditions (sc_Status c) |}.

Definition sc_set_Conditions (cs : list Condition) (c : ServiceClaim)
  : ServiceClaim :=
  sc_set_status c {| cs_Phase := cs_Phase (sc_Status c);
    cs_ObservedGeneration := cs_ObservedGeneration (sc_Status c);
    cs_Conditions := cs |}.
End types.

(** ** The CEL rule on a Tenant's name (tenant_types.go) *)

(** [[a-z0-9]] and [[-a-z0-9]]. *)
Definition is_alnum (a : Ascii.ascii) : bool :=
  let n := Ascii.N_of_ascii a in
  ((97 <=? n) && (n <=? 122) || (48 <=? n) && (n <=? 57))%N.

Definition is_label_char (a : Ascii.ascii) : bool :=
  ((Ascii.N_of_ascii a =? 45)%N || is_alnum a).

(** [^[a-z0-9]([-a-z0-9]*[a-z0-9])?$] *)
Definition labelPattern : regexp :=
  RSeq (RChar is_alnum)
    (ROpt (RSeq (RStar (RChar is_label_char)) (RChar is_alnum))).

(** The same test as a program: all characters in the class, and the first and
    the last not a dash. *)
Definition is_dns_label (l : list Ascii.ascii) : bool :=
  match l with
  | [] => false
  | a :: l' => is_alnum a && forallb is_label_char l' && is_alnum (List.last l' a)
  end.

(** The rule: [('team-' + self.metadata.name).matches(labelPattern) &&
    size('team-' + self.metadata.name) <= 63]. *)
Definition tenantNameRule (name : string) : bool :=
  let ns := "team-" +:+ name in
  is_dns_label (String.list_ascii_of_string ns) && (String.length ns <=? 63).

(** [fmt.Sprintf("team-%s", team)], the namespace (and the RBAC group) of a
    team; both controllers write this format. *)
Definition teamNamespace (team : string) : string := "team-" +:+ team.
