(* ===== verification/ApiSpec.v ===== *)
(** * The CEL rule on a Tenant's name, and the namespaces it makes safe *)
From S2P Require Import Prelude Regexp Kube Api.

(** A lowercase DNS label: what RFC 1123 asks of a namespace name. *)
Definition dns_label (s : string) : Prop :=
  matches (String.list_ascii_of_string s) labelPattern /\ String.length s <= 63.

(** ** Lemmas *)

Lemma matches_char P l : matches l (RChar P) <-> exists a, l = [a] /\ P a = true.
Proof.
  split; [intros H; inversion H; subst; eauto|]. intros (a & -> & Ha). by constructor.
Qed.

Lemma matches_seq l r1 r2 :
  matches l (RSeq r1 r2) <-> exists l1 l2, l = l1 ++ l2 /\ matches l1 r1 /\ matches l2 r2.
Proof.
  split; [intros H; inversion H; subst; eauto|].
  intros (l1 & l2 & -> & H1 & H2). by constructor.
Qed.

Lemma matches_opt l r : matches l (ROpt r) <-> l = [] \/ matches l r.
Proof.
  split; [intros H; inversion H; subst; eauto|]. intros [->|H]; by constructor.
Qed.

(** The star of a class: every character is in the class. *)
Lemma matches_star_char P l : matches l (RStar (RChar P)) <-> forallb P l = true.
Proof.
  split.
  - intros H. remember (RStar (RChar P)) as r eqn:Er. induction H; try done.
    injection Er as ->. apply matches_char in H as (a & -> & Ha). cbn.
    by rewrite Ha, IHmatches2.
  - induction l as [|a l IH]; cbn; [constructor|].
    intros [Ha Hl]%andb_prop. change (a :: l) with ([a] ++ l).
    apply m_star_cons; [by constructor|auto].
Qed.

Lemma is_alnum_label a : is_alnum a = true -> is_label_char a = true.
Proof. unfold is_label_char. intros ->. apply orb_true_r. Qed.

(** The executable test decides the regular expression of the rule. *)
Lemma label_pattern_test (l : list Ascii.ascii) :
  is_dns_label l = true <-> matches l labelPattern.
Proof.
  unfold labelPattern. rewrite matches_seq. split.
  - destruct l as [|a l]; [done|]. cbn. intros [[Ha Hl]%andb_prop Hlast]%andb_prop.
    exists [a], l. split; [done|]. split; [by constructor|]. rewrite matches_opt.
    destruct l as [|b l _] using rev_ind; [by left|right].
    rewrite matches_seq. exists l, [b]. split; [done|].
    rewrite List.last_last in Hlast. rewrite forallb_app in Hl.
    apply andb_prop in Hl as [Hl _]. split; [by apply matches_star_char|by constructor].
  - intros (l1 & l2 & -> & (a & -> & Ha)%matches_char & H2). cbn. rewrite Ha. cbn.
    apply matches_opt in H2 as [->|H2]; [done|].
    apply matches_seq in H2 as (l3 & l4 & -> & H3%matches_star_char & (b & -> & Hb)%matches_char).
    rewrite forallb_app, H3, List.last_last, Hb. cbn. by rewrite is_alnum_label.
Qed.

Lemma length_string_app (s t : string) :
  String.length (s +:+ t) = String.length s + String.length t.
Proof. induction s as [|a s IH]; [done|]. rewrite string_app_cons. cbn. by rewrite IH. Qed.

(** ** Properties *)

(** C34: a Tenant name passes the rule exactly when the namespace the controller
    will create for it is a DNS label of at most 63 characters, so the
    reconciler can never be left with a namespace name the API server refuses;
    and then the name itself is not empty, at most 58 characters long, and made
    of letters, digits and dashes, with no dot and no upper-case letter. *)
Theorem tenant_name_rule_exact (name : string) :
  (tenantNameRule name = true <-> dns_label (teamNamespace name)) /\
  (tenantNameRule name = true ->
   0 < String.length name <= 58 /\
   forallb is_label_char (String.list_ascii_of_string name) = true /\
   ~ In (Ascii.ascii_of_N 46) (String.list_ascii_of_string name) /\
   forall a, In a (String.list_ascii_of_string name) ->
     ~ (65 <= Ascii.N_of_ascii a <= 90)%N).
Proof.
  unfold tenantNameRule, dns_label, teamNamespace. rewrite andb_true_iff, Nat.leb_le.
  split; [split; (intros [H1 H2]; split; [by apply label_pattern_test|done])|].
  intros [H1 H2]. rewrite length_string_app in H2. cbn in H2.
  assert (Hall : forallb is_label_char (String.list_ascii_of_string name) = true).
  { destruct name as [|x name]; [done|]. cbn in H1.
    apply andb_prop in H1 as [H1 _]. exact H1. }
  split_and!; [| |exact Hall| |].
  - destruct name; [done|]. cbn. lia.
  - lia.
  - intros Hin. rewrite forallb_forall in Hall. by apply Hall in Hin.
  - intros a Hin [Hlo Hhi]. rewrite forallb_forall in Hall. apply Hall in Hin.
    unfold is_label_char, is_alnum in Hin. rewrite !orb_true_iff, !andb_true_iff in Hin.
    rewrite N.eqb_eq, !N.leb_le in Hin. lia.
Qed.

(** Two Tenants never share a namespace or an RBAC group: the names are
    the Tenants' names behind one prefix. *)
Theorem team_namespaces_distinct (a b : string) :
  teamNamespace a = teamNamespace b <-> a = b.
Proof.
  split; [|by intros ->]. apply string_app_inv_head.
Qed.

Section witnesses.
Lemma tenant_name_rule_exact_witness :
  0 < String.length "payments" <= 58 /\ tenantNameRule "my.team" = false /\
  tenantNameRule "" = false /\ tenantNameRule "Payments" = false.
Proof.
  split; [|by vm_compute].
  apply (tenant_name_rule_exact "payments"). by vm_compute.
Defined.
End witnesses.
