(* ===== verification/Client.v ===== *)
(** * The API client (controller-runtime)

    The calls the source makes through [client.Client], [client.Reader],
    [Status()] and [controllerutil.CreateOrUpdate], as the signature of the
    programs of this development.  What a call answers and does to the cluster
    is outside the repository: a program is a tree over all answers, and a
    theorem that needs the API server's behaviour says so in its hypotheses. *)
From S2P Require Import Prelude Prog Kube Api.

Section client.
Context `{K : Kube}.

(** The resource kinds the repository talks about. *)
Inductive kind : Type -> Type :=
| KTenant : kind Tenant
| KServiceClaim : kind ServiceClaim
| KNamespace : kind Namespace
| KRoleBinding : kind RoleBinding
| KResourceQuota : kind ResourceQuota
| KApplication : kind Unstructured.

(** The interface [client.Object], for code generic over it. *)
Class ClientObject (T : Type) := {
  objKind : kind T;
  GetMeta : T -> ObjectMeta;
  SetMeta : ObjectMeta -> T -> T;
}.

(** [client.Patch]: the object the diff is taken from, and whether the patch
    carries the resource version as an optimistic lock. *)
Record Patch (T : Type) := { patch_from : T; patch_lock : bool }.
Definition MergeFrom {T} (obj : T) : Patch T :=
  {| patch_from := obj; patch_lock := false |}.
Definition MergeFromWithOptimisticLock {T} (obj : T) : Patch T :=
  {| patch_from := obj; patch_lock := true |}.

(** [controllerutil.OperationResult]. *)
Inductive OperationResult :=
| OperationResultNone | OperationResultCreated | OperationResultUpdated.

(** Which of the readers answers: the reconciler's embedded client, its
    cache-backed [TeamReader], or the webhook's uncached [Reader]. *)
Inductive reader := Client | TeamReader | APIReader.

(** A call that returns [(value, error)] answers a sum; the value a pointer
    argument is overwritten with is part of the answer. *)
Inductive call : Type -> Type :=
| Get {T} (rd : reader) (k : kind T) (key : NamespacedName) : call (error + T)
| ListClaims (rd : reader) (field value : string)
    : call (error + list ServiceClaim)
| CreateOrUpdate {T} (k : kind T) (obj : T) (mutate : T -> error + T)
    : call (error + OperationResult * T)
| PatchObject {T} (k : kind T) (obj : T) (p : Patch T) : call (error + T)
| PatchStatus {T} (k : kind T) (obj : T) (p : Patch T) : call (error + T)
| Delete {T} (k : kind T) (obj : T) (preconditionUID : option string)
    : call (option error).

(** ** Kinds as data *)

Inductive kindName :=
| NTenant | NServiceClaim | NNamespace | NRoleBinding | NResourceQuota
| NApplication.

#[global] Instance kindName_eq_dec : EqDecision kindName.
Proof. solve_decision. Defined.

Definition kindOf {T} (k : kind T) : kindName :=
  match k with
  | KTenant => NTenant
  | KServiceClaim => NServiceClaim
  | KNamespace => NNamespace
  | KRoleBinding => NRoleBinding
  | KResourceQuota => NResourceQuota
  | KApplication => NApplication
  end.

(** The kind a call is on. *)
Definition callKind {R} (c : call R) : kindName :=
  match c with
  | Get _ k _ => kindOf k
  | ListClaims _ _ _ => NServiceClaim
  | CreateOrUpdate k _ _ => kindOf k
  | PatchObject k _ _ => kindOf k
  | PatchStatus k _ _ => kindOf k
  | Delete k _ _ => kindOf k
  end.

(** Calls that can change the cluster. *)
Definition writes {R} (c : call R) : bool :=
  match c with Get _ _ _ | ListClaims _ _ _ => false | _ => true end.

(** The metadata of an object of a kind. *)
Definition kindMeta {T} (k : kind T) : T -> ObjectMeta :=
  match k with
  | KTenant => t_ObjectMeta
  | KServiceClaim => sc_ObjectMeta
  | KNamespace => ns_ObjectMeta
  | KRoleBinding => rb_ObjectMeta
  | KResourceQuota => rq_ObjectMeta
  | KApplication => u_ObjectMeta
  end.

(** The API server answers a request on an object with that object: a [Get]
    with the name it was asked for, a patch with the name of its argument. *)
Definition answer_named (e : event call) : Prop :=
  match e with
  | Ev c r =>
      match c in call R return R -> Prop with
      | Get _ k key => fun r =>
          match r with
          | inr o => om_Name (kindMeta k o) = nn_Name key
          | inl _ => True
          end
      | PatchObject k obj _ => fun r =>
          match r with
          | inr o => om_Name (kindMeta k o) = om_Name (kindMeta k obj)
          | inl _ => True
          end
      | PatchStatus k obj _ => fun r =>
          match r with
          | inr o => om_Name (kindMeta k o) = om_Name (kindMeta k obj)
          | inl _ => True
          end
      | _ => fun _ => True
      end r
  end.

(** ** Properties of events, used to state theorems *)

(** A deletion of the object of a kind and name. *)
Definition deletes (n : kindName) (name : string) (e : event call) : Prop :=
  match e with
  | Ev c _ =>
      match c with
      | Delete k obj _ => kindOf k = n /\ om_Name (kindMeta k obj) = name
      | _ => False
      end
  end.

(** A patch that takes the finalizer away from an object that has it. *)
Definition releases (n : kindName) (f : string) (e : event call) : Prop :=
  match e with
  | Ev c _ =>
      match c with
      | PatchObject k obj p =>
          kindOf k = n /\ ContainsFinalizer (kindMeta k (patch_from _ p)) f = true
      | _ => False
      end
  end.

(** Evidence that the object of a kind carries the finalizer in the cluster: it
    was read with it, or a patch that adds it succeeded. *)
Definition carries (n : kindName) (f : string) (e : event call) : Prop :=
  match e with
  | Ev c r =>
      match c in call R return R -> Prop with
      | Get _ k _ => fun r => kindOf k = n /\
          exists o, r = inr o /\ ContainsFinalizer (kindMeta k o) f = true
      | PatchObject k obj p => fun r => kindOf k = n /\
          kindMeta k obj = AddFinalizer (kindMeta k (patch_from _ p)) f /\
          exists o, r = inr o
      | _ => fun _ => False
      end r
  end.

(** A list through the reader, for the value, answered with the claims. *)
Definition lists (value : string) (claims : list ServiceClaim) (e : event call)
  : Prop :=
  match e with
  | Ev c r =>
      match c in call R return R -> Prop with
      | ListClaims rd _ v => fun r => rd = TeamReader /\ v = value /\ r = inr claims
      | _ => fun _ => False
      end r
  end.

Definition list_failed (err : error) (e : event call) : Prop :=
  match e with
  | Ev c r =>
      match c in call R return R -> Prop with
      | ListClaims _ _ _ => fun r => r = inl err
      | _ => fun _ => False
      end r
  end.

(** A [Get] answered with this object. *)
Definition fetched {T} (k : kind T) (o : T) (e : event call) : Prop :=
  match e with
  | Ev c r =>
      match c in call R return R -> Prop with
      | Get _ k' _ => fun r =>
          match k in kind T, k' in kind T' return T -> error + T' -> Prop with
          | KTenant, KTenant => fun o r => r = inr o
          | KServiceClaim, KServiceClaim => fun o r => r = inr o
          | KNamespace, KNamespace => fun o r => r = inr o
          | KRoleBinding, KRoleBinding => fun o r => r = inr o
          | KResourceQuota, KResourceQuota => fun o r => r = inr o
          | KApplication, KApplication => fun o r => r = inr o
          | _, _ => fun _ _ => False
          end o r
      | _ => fun _ => False
      end r
  end.

Definition event_writes (e : event call) : bool :=
  match e with Ev c _ => writes c end.

Definition event_kind (e : event call) : kindName :=
  match e with Ev c _ => callKind c end.

(** The outcome of one creation step: the [CreateOrUpdate] of a kind, or the
    deletion of a quota, whose absence is a success. *)
Definition stepResult (e : event call) : option (kindName * option error) :=
  match e with
  | Ev c r =>
      match c in call R return R -> option (kindName * option error) with
      | CreateOrUpdate k _ _ => fun r =>
          Some (kindOf k, match r with inl e => Some e | inr _ => None end)
      | Delete k _ _ => fun r =>
          if decide (kindOf k = NResourceQuota)
          then Some (NResourceQuota, IgnoreNotFound r) else None
      | _ => fun _ => None
      end r
  end.

Definition steps (tr : list (event call)) : list (kindName * option error) :=
  omap stepResult tr.

(** A status write that succeeded. *)
Definition status_written (e : event call) : Prop :=
  match e with
  | Ev c r =>
      match c in call R return R -> Prop with
      | PatchStatus _ _ _ => fun r => exists o, r = inr o
      | _ => fun _ => False
      end r
  end.

(** ** Objects of any kind, and what the controller builder is given

    A [client.Object] as the watch handlers receive it, and the arguments of
    [ctrl.NewControllerManagedBy(mgr)]: [For], [Owns], [Watches], [Named].  A
    watch's map function may call the API; [None] is a panic. *)
Inductive Object :=
| ObjTenant (t : Tenant)
| ObjServiceClaim (c : ServiceClaim)
| ObjOther (m : ObjectMeta).

Definition GetName (o : Object) : string :=
  match o with
  | ObjTenant t => t_Name t
  | ObjServiceClaim c => sc_Name c
  | ObjOther m => om_Name m
  end.

Record Builder := {
  b_For : kindName;
  b_Owns : list kindName;
  b_Watches : list (kindName * (Object -> prog call (option (list Request))));
  b_Named : string;
}.

(** ** The documented contract of [CreateOrUpdate]

    [existing] is the object in the cluster.  The mutate function is called on
    it, or on [obj] when there is none; its error is returned as it is and
    nothing is written; otherwise the call fails or succeeds. *)
Definition CreateOrUpdate_contract {T} (existing : option T) (obj : T)
    (mutate : T -> error + T) (r : error + OperationResult * T) : Prop :=
  match mutate (default obj existing) with
  | inl e => r = inl e
  | inr _ => True
  end.
End client.

#[global] Instance Tenant_ClientObject `{Kube} : ClientObject Tenant := {|
  objKind := KTenant;
  GetMeta := t_ObjectMeta;
  SetMeta m t := {| t_ObjectMeta := m; t_Spec := t_Spec t;
                    t_Status := t_Status t |};
|}.

#[global] Instance ServiceClaim_ClientObject `{Kube}
  : ClientObject ServiceClaim := {|
  objKind := KServiceClaim;
  GetMeta := sc_ObjectMeta;
  SetMeta m c := {| sc_ObjectMeta := m; sc_Spec := sc_Spec c;
                    sc_Status := sc_Status c |};
|}.
