(* ===== verification/Sample.v ===== *)
(** * Concrete instances of the library interfaces

    Executable stand-ins for the parameters of [Kube], satisfying every law; a
    file that evaluates them makes [sample_kube] an instance locally.
    They show that the laws can hold together and let the examples and
    witnesses evaluate.  Nothing here models code of the repository. *)
From S2P Require Import Prelude Kube.

(** Quantities in thousandths. *)
#[local] Instance sample_quantity : QuantityApi := {|
  Quantity := Z;
  zeroQuantity := 0%Z;
  IsZero q := (q =? 0)%Z;
  Cmp a b := match (a ?= b)%Z with Lt => -1 | Eq => 0 | Gt => 1 end%Z;
  QString q := pretty q +:+ "m";
  NewQuantity x _ := (x * 1000)%Z;
|}.

Inductive sample_err :=
| ENotFound
| EConflict
| EAlreadyOwned (owner : string)
| EMessage (s : string)
| EInvalid (gk : GroupKind) (name : string) (fields : list (string * string * string))
| EForbidden (gr : GroupResource) (name : string) (cause : sample_err).

Fixpoint sample_message (e : sample_err) : string :=
  match e with
  | ENotFound => "not found"
  | EConflict => "conflict"
  | EAlreadyOwned o => "already owned by another controller " +:+ o
  | EMessage s => s
  | EInvalid _ name _ => name +:+ " is invalid"
  | EForbidden _ name c => name +:+ " is forbidden: " +:+ sample_message c
  end.

Definition sample_IsNotFound (e : option sample_err) : bool :=
  match e with Some ENotFound => true | _ => false end.

#[local] Instance sample_error : ErrorApi := {|
  error := sample_err;
  Error := sample_message;
  Errorf := EMessage;
  IsNotFound := sample_IsNotFound;
  IgnoreNotFound e := if sample_IsNotFound e then None else e;
  fieldPath := string;
  fieldError := string * string * string;
  NewPath s := s;
  field_Invalid p v d := (p, v, d);
  NewInvalid := EInvalid;
  NewForbidden := EForbidden;
|}.

(** Seconds since the epoch; the zero time is 0. *)
#[local] Instance sample_time : TimeApi := {|
  Time := Z;
  TimeIsZero t := match t with None => true | Some t => (t =? 0)%Z end;
|}.

Fixpoint sample_SetStatusCondition (cs : list Condition) (c : Condition)
  : list Condition :=
  match cs with
  | [] => [c]
  | d :: cs' =>
      if String.eqb (c_Type d) (c_Type c) then c :: cs'
      else d :: sample_SetStatusCondition cs' c
  end.

Definition sample_IsTrue (cs : list Condition) (t : string) : bool :=
  match findCondition cs t with
  | Some c => match c_Status c with ConditionTrue => true | _ => false end
  | None => false
  end.

Definition sample_ref (k : string) (o : ObjectMeta) : OwnerReference := {|
  or_APIVersion := "platform.idp.io/v1alpha1"; or_Kind := k;
  or_Name := om_Name o; or_UID := om_UID o; or_Controller := true |}.

Definition same_ref (a b : OwnerReference) : bool :=
  String.eqb (or_Kind a) (or_Kind b) && String.eqb (or_Name a) (or_Name b).

(** Replace the first reference to the same object, or append. *)
Fixpoint upsert_ref (r : OwnerReference) (l : list OwnerReference)
  : list OwnerReference :=
  match l with
  | [] => [r]
  | r' :: l' => if same_ref r' r then r :: l' else r' :: upsert_ref r l'
  end.

Definition sample_SetControllerReference (k : string) (o m : ObjectMeta)
  : sample_err + ObjectMeta :=
  let set := inr (SetOwnerReferences
                    (upsert_ref (sample_ref k o) (om_OwnerReferences m)) m) in
  match controllerOf m with
  | None => set
  | Some r => if same_ref r (sample_ref k o) then set
              else inl (EAlreadyOwned (or_Name r))
  end.

#[local] Instance sample_meta : MetaApi := {|
  Scheme := list GroupVersionKind;
  SetStatusCondition := sample_SetStatusCondition;
  IsStatusConditionTrue := sample_IsTrue;
  ContainsFinalizer m f := bool_decide (f ∈ om_Finalizers m);
  AddFinalizer m f :=
    if decide (f ∈ om_Finalizers m) then m
    else SetFinalizers (om_Finalizers m ++ [f]) m;
  RemoveFinalizer m f :=
    SetFinalizers (filter (fun g => g <> f) (om_Finalizers m)) m;
  SetControllerReference _ := sample_SetControllerReference;
|}.

Fixpoint sample_SetNested (m : list (string * any)) (v : any) (path : list string)
  : sample_err + list (string * any) :=
  match path with
  | [] => inr m
  | k :: rest =>
      match rest with
      | [] => inr (any_set k v m)
      | _ :: _ =>
          match any_get k m with
          | None =>
              match sample_SetNested [] v rest with
              | inl e => inl e
              | inr m' => inr (any_set k (AMap m') m)
              end
          | Some (AMap m1) =>
              match sample_SetNested m1 v rest with
              | inl e => inl e
              | inr m' => inr (any_set k (AMap m') m)
              end
          | Some _ => inl (EMessage "value cannot be set: not a map")
          end
      end
  end.

#[local] Instance sample_unstructured : UnstructuredApi := {|
  SetNestedMap m v path :=
    match path with [] => inl (EMessage "no path") | _ => sample_SetNested m (AMap v) path end;
  SetNestedField m v path :=
    match path with [] => inl (EMessage "no path") | _ => sample_SetNested m v path end;
  NestedString m path :=
    match nested m path with
    | Some (AString s) => (s, true, None)
    | None => ("", false, None)
    | Some _ => ("", false, Some (EMessage "accessor error"))
    end;
|}.

#[local] Instance sample_kube : Kube := {|
  kube_quantity := sample_quantity;
  kube_error := sample_error;
  kube_time := sample_time;
  kube_meta := sample_meta;
  kube_unstructured := sample_unstructured;
|}.

(** ** The laws hold *)

#[local] Instance sample_quantity_laws : QuantityLaws.
Proof.
  split; cbn; intros.
  - by rewrite Z.compare_refl.
  - rewrite Z.compare_antisym. by destruct (a ?= b)%Z.
  - destruct (Z.compare_spec a b), (Z.compare_spec b c), (Z.compare_spec a c); lia.
  - destruct (Z.compare_spec q 0); lia.
  - destruct (Z.compare_spec (x * 1000) (y * 1000)), (Z.compare_spec x y); lia.
Qed.

#[local] Instance sample_error_laws : ErrorLaws.
Proof. split; done. Qed.

#[local] Instance sample_time_laws : TimeLaws.
Proof. split; done. Qed.

Lemma sample_find_eq cs c :
  findCondition (sample_SetStatusCondition cs c) (c_Type c) = Some c.
Proof.
  induction cs as [|d cs IH]; cbn; [by rewrite String.eqb_refl|].
  destruct (String.eqb (c_Type d) (c_Type c)) eqn:E; cbn;
    [by rewrite String.eqb_refl|by rewrite E].
Qed.

Lemma sample_find_ne cs c t : t <> c_Type c ->
  findCondition (sample_SetStatusCondition cs c) t = findCondition cs t.
Proof.
  intros Ht. assert (Hc : String.eqb (c_Type c) t = false) by (by apply String.eqb_neq).
  induction cs as [|d cs IH]; cbn; [by rewrite Hc|].
  destruct (String.eqb_spec (c_Type d) (c_Type c)) as [E|E]; cbn.
  - by rewrite Hc, E, Hc.
  - by rewrite IH.
Qed.

Lemma sample_types cs c : map c_Type (sample_SetStatusCondition cs c) =
  if decide (c_Type c ∈ map c_Type cs) then map c_Type cs else map c_Type cs ++ [c_Type c].
Proof.
  induction cs as [|d cs IH]; cbn [map sample_SetStatusCondition].
  - by rewrite decide_False by apply not_elem_of_nil.
  - destruct (String.eqb_spec (c_Type d) (c_Type c)) as [E|E]; cbn [map].
    + rewrite decide_True by (rewrite E; by left). by rewrite E.
    + rewrite IH. destruct (decide (c_Type c ∈ map c_Type cs)) as [H|H].
      * by rewrite decide_True by (by right).
      * by rewrite decide_False by (intros [?|?]%elem_of_cons; [congruence|done]).
Qed.

Lemma sample_set_same cs c :
  findCondition cs (c_Type c) = Some c -> sample_SetStatusCondition cs c = cs.
Proof.
  induction cs as [|d cs IH]; cbn; [done|].
  destruct (String.eqb (c_Type d) (c_Type c)); [by intros [= <-]|]. intros H. by rewrite IH.
Qed.

Lemma sample_controller_upsert k o m :
  match controllerOf m with
  | None => True
  | Some r => same_ref r (sample_ref k o) = true
  end ->
  List.find or_Controller (upsert_ref (sample_ref k o) (om_OwnerReferences m))
  = Some (sample_ref k o).
Proof.
  unfold controllerOf. induction (om_OwnerReferences m) as [|r l IH]; cbn; [done|].
  destruct (or_Controller r) eqn:Hr.
  - by intros ->.
  - intros H. specialize (IH H). destruct (same_ref r (sample_ref k o)); cbn; [done|].
    by rewrite Hr.
Qed.

Lemma same_ref_refl r : same_ref r r = true.
Proof. unfold same_ref. by rewrite !String.eqb_refl. Qed.

Lemma upsert_ref_idem r l : upsert_ref r (upsert_ref r l) = upsert_ref r l.
Proof.
  induction l as [|r' l IH]; cbn; [by rewrite same_ref_refl|].
  destruct (same_ref r' r) eqn:E; cbn; [by rewrite same_ref_refl|by rewrite E, IH].
Qed.

Lemma sample_SetControllerReference_inr k o m m' :
  sample_SetControllerReference k o m = inr m' ->
  m' = SetOwnerReferences (upsert_ref (sample_ref k o) (om_OwnerReferences m)) m /\
  controllerOf m' = Some (sample_ref k o).
Proof.
  unfold sample_SetControllerReference. intros H.
  assert (m' = SetOwnerReferences (upsert_ref (sample_ref k o) (om_OwnerReferences m)) m
    /\ match controllerOf m with
       | None => True | Some r => same_ref r (sample_ref k o) = true end) as [-> Hc].
  { destruct (controllerOf m) as [r|]; [destruct (same_ref r _); [|discriminate]|];
      by injection H as <-. }
  split; [done|]. by apply sample_controller_upsert.
Qed.

Lemma sample_SetControllerReference_same k o o2 m m1 m2 :
  sample_SetControllerReference k o m = inr m1 ->
  om_Name o2 = om_Name o -> om_UID o2 = om_UID o ->
  om_OwnerReferences m2 = om_OwnerReferences m1 ->
  sample_SetControllerReference k o2 m2 = inr m2.
Proof.
  intros [-> Hc]%sample_SetControllerReference_inr Hn Hu Hr.
  assert (Ho : sample_ref k o2 = sample_ref k o) by (unfold sample_ref; congruence).
  rewrite <- Ho in *.
  assert (Hc2 : controllerOf m2 = Some (sample_ref k o2)).
  { rewrite <- Hc. unfold controllerOf. by rewrite Hr. }
  unfold sample_SetControllerReference. rewrite Hc2, same_ref_refl, Hr. cbn.
  rewrite upsert_ref_idem. destruct m2. cbn in Hr. by rewrite Hr.
Qed.

#[local] Instance sample_meta_laws : MetaLaws.
Proof.
  split; cbn; intros.
  - apply sample_find_eq.
  - by apply sample_find_ne.
  - apply sample_types.
  - by apply sample_set_same.
  - unfold sample_IsTrue. destruct (findCondition cs t) as [c|].
    + split; [intros H; exists c; by destruct (c_Status c)|].
      by intros (c' & [= <-] & ->).
    + split; [done|]. by intros (c' & ? & _).
  - apply bool_decide_eq_true.
  - unfold same_but_finalizers. case_decide; cbn.
    + split; [by destruct m|]. intros g. split; [auto|]. by intros [->|?].
    + split; [done|]. intros g. rewrite elem_of_app, list_elem_of_singleton. tauto.
  - by rewrite decide_True.
  - split; [done|]. intros g. cbn. by rewrite list_elem_of_filter.
  - unfold sample_SetControllerReference. rewrite H.
    destruct (same_ref r (sample_ref k o)) eqn:E; [|eauto].
    unfold same_ref in E. cbn in E. apply andb_prop in E as [?%String.eqb_eq ?%String.eqb_eq].
    tauto.
  - unfold sample_SetControllerReference. rewrite H. eauto.
  - by eapply sample_SetControllerReference_same.
  - apply sample_SetControllerReference_inr in H as [-> Hc].
    split; [done|]. eexists. split; [exact Hc|]. done.
Qed.

Lemma any_get_set_eq k v m : any_get k (any_set k v m) = Some v.
Proof.
  induction m as [|[k' v'] m IH]; cbn; [by rewrite String.eqb_refl|].
  destruct (String.eqb k k') eqn:E; cbn; [by rewrite String.eqb_refl|by rewrite E].
Qed.

Lemma any_get_set_ne k k' v m : k' <> k -> any_get k' (any_set k v m) = any_get k' m.
Proof.
  intros Hk. assert (Hb : String.eqb k' k = false) by (by apply String.eqb_neq).
  induction m as [|[k1 v1] m IH]; cbn; [by rewrite Hb|].
  destruct (String.eqb_spec k k1) as [<-|E]; cbn; [by rewrite Hb|by rewrite IH].
Qed.

Lemma sample_SetNested_cons m v k k2 rest m' :
  sample_SetNested m v (k :: k2 :: rest) = inr m' ->
  exists m0 m1, (any_get k m = Some (AMap m0) \/ any_get k m = None /\ m0 = []) /\
    sample_SetNested m0 v (k2 :: rest) = inr m1 /\ m' = any_set k (AMap m1) m.
Proof.
  intros H.
  change (match any_get k m with
       | None => match sample_SetNested [] v (k2 :: rest) with
                 | inl e => inl e | inr m1 => inr (any_set k (AMap m1) m) end
       | Some (AMap m0) => match sample_SetNested m0 v (k2 :: rest) with
                 | inl e => inl e | inr m1 => inr (any_set k (AMap m1) m) end
       | Some _ => inl (EMessage "value cannot be set: not a map")
       end = inr m') in H.
  destruct (any_get k m) as [[]|]; try discriminate;
  match goal with
  | H : match sample_SetNested ?a _ _ with _ => _ end = _ |- _ =>
      destruct (sample_SetNested a v (k2 :: rest)) eqn:E; [discriminate|];
      injection H as <-; eauto 8
  end.
Qed.

Lemma sample_SetNested_eq m v path m' : path <> [] ->
  sample_SetNested m v path = inr m' -> nested m' path = Some v.
Proof.
  revert m m'. induction path as [|k [|k2 rest] IH]; intros m m' Hp; [done| |].
  - cbn. intros [= <-]. by rewrite any_get_set_eq.
  - intros (m0 & m1 & _ & H1 & ->)%sample_SetNested_cons.
    transitivity (nested m1 (k2 :: rest)); [|by apply IH with m0].
    cbn [nested]. by rewrite any_get_set_eq.
Qed.

Lemma nested_set_ne k v m k' q : k' <> k ->
  nested (any_set k v m) (k' :: q) = nested m (k' :: q).
Proof. intros Hk. cbn. by rewrite any_get_set_ne. Qed.

Lemma sample_SetNested_ne m v path m' q :
  sample_SetNested m v path = inr m' -> disjoint_paths path q ->
  nested m' q = nested m q.
Proof.
  revert m m' q. induction path as [|k [|k2 rest] IH]; intros m m' q.
  - intros _ [Hd _]. destruct Hd. apply prefix_nil.
  - cbn. intros [= <-] [Hd1 Hd2]. destruct q as [|k' q]; [destruct Hd2; apply prefix_nil|].
    apply nested_set_ne. intros ->. apply Hd1. by apply prefix_cons, prefix_nil.
  - intros (m0 & m1 & H0 & H1 & ->)%sample_SetNested_cons [Hd1 Hd2].
    destruct q as [|k' q]; [destruct Hd2; apply prefix_nil|].
    destruct (decide (k' = k)) as [->|Hk]; [|by apply nested_set_ne].
    assert (Hq : disjoint_paths (k2 :: rest) q).
    { split; intros Hp; [apply Hd1|apply Hd2]; by apply prefix_cons. }
    destruct q as [|k3 q]; [destruct Hd2; apply prefix_cons, prefix_nil|].
    specialize (IH _ _ _ H1 Hq).
    transitivity (nested m1 (k3 :: q)).
    { cbn [nested]. by rewrite any_get_set_eq. }
    rewrite IH. cbn [nested]. by destruct H0 as [->|[-> ->]].
Qed.

Lemma sample_SetNested_two m v k1 k2 :
  (any_get k1 m = None \/ exists m1, any_get k1 m = Some (AMap m1)) ->
  exists m', sample_SetNested m v [k1; k2] = inr m'.
Proof. intros [H|[m1 H]]; cbn; rewrite H; eauto. Qed.

Lemma any_set_same k v m : any_get k m = Some v -> any_set k v m = m.
Proof.
  induction m as [|[k' v'] m IH]; cbn; [done|].
  destruct (String.eqb_spec k k') as [<-|]; [by intros [= <-]|]. intros H. by rewrite IH.
Qed.

Lemma sample_SetNested_same m v path :
  path <> [] -> nested m path = Some v -> sample_SetNested m v path = inr m.
Proof.
  revert m. induction path as [|k [|k2 rest] IH]; intros m Hp; [done| |].
  - cbn. intros H. destruct (any_get k m) as [v'|] eqn:E; [|done]. injection H as ->.
    by rewrite any_set_same.
  - cbn [nested]. intros H. destruct (any_get k m) as [w|] eqn:E; [|done]. destruct w; try done.
    pose proof (IH _ ltac:(done) H) as H'. cbn [sample_SetNested] in *.
    rewrite E, H'. by rewrite any_set_same.
Qed.

#[local] Instance sample_unstructured_laws : UnstructuredLaws.
Proof.
  split; cbn.
  - intros obj v path obj' H. destruct path; [done|]. by eapply sample_SetNested_eq.
  - intros obj v path obj' q H Hd. destruct path; [done|]. by eapply sample_SetNested_ne.
  - intros obj v path obj' H. destruct path; [done|]. by eapply sample_SetNested_eq.
  - intros obj v path obj' q H Hd. destruct path; [done|]. by eapply sample_SetNested_ne.
  - intros obj v k1 k2. apply sample_SetNested_two.
  - intros obj v k1 k2. apply sample_SetNested_two.
  - intros obj v path Hp H. destruct path; [done|]. by apply sample_SetNested_same.
  - intros obj v path Hp H. destruct path; [done|]. by apply sample_SetNested_same.
  - by intros obj path s ->.
  - by intros obj path ->.
Qed.

#[local] Instance sample_kube_laws : KubeLaws.
Proof. split; apply _. Qed.
