(* ===== verification/SampleApi.v ===== *)
(** * A concrete API server

    An executable in-memory cluster that answers the calls of [Client], for
    evaluating the programs of this development on concrete inputs: objects
    kept by namespace and name, optimistic locks on the resource version,
    deletion that waits for finalizers.  It is one instance of the behaviour
    the theorems quantify over, not a model of code of the repository. *)
From S2P Require Import Prelude Prog Kube Api Client Sample.

#[local] Existing Instance sample_kube.

Record cluster := {
  cl_tenants : gmap (string * string) Tenant;
  cl_claims : gmap (string * string) ServiceClaim;
  cl_namespaces : gmap (string * string) Namespace;
  cl_rolebindings : gmap (string * string) RoleBinding;
  cl_quotas : gmap (string * string) ResourceQuota;
  cl_apps : gmap (string * string) Unstructured;
}.

Definition empty_cluster : cluster := Build_cluster ∅ ∅ ∅ ∅ ∅ ∅.

Definition store {T} (k : kind T) (s : cluster) : gmap (string * string) T :=
  match k in kind T return gmap (string * string) T with
  | KTenant => cl_tenants s
  | KServiceClaim => cl_claims s
  | KNamespace => cl_namespaces s
  | KRoleBinding => cl_rolebindings s
  | KResourceQuota => cl_quotas s
  | KApplication => cl_apps s
  end.

Definition set_store {T} (k : kind T) : gmap (string * string) T -> cluster -> cluster :=
  match k in kind T return gmap (string * string) T -> cluster -> cluster with
  | KTenant => fun m '(Build_cluster a b c d e f) => Build_cluster m b c d e f
  | KServiceClaim => fun m '(Build_cluster a b c d e f) => Build_cluster a m c d e f
  | KNamespace => fun m '(Build_cluster a b c d e f) => Build_cluster a b m d e f
  | KRoleBinding => fun m '(Build_cluster a b c d e f) => Build_cluster a b c m e f
  | KResourceQuota => fun m '(Build_cluster a b c d e f) => Build_cluster a b c d m f
  | KApplication => fun m '(Build_cluster a b c d e f) => Build_cluster a b c d e m
  end.

(** Replacing the metadata, and taking the status of another object. *)
Definition with_meta {T} (k : kind T) : ObjectMeta -> T -> T :=
  match k in kind T return ObjectMeta -> T -> T with
  | KTenant => fun m t => {| t_ObjectMeta := m; t_Spec := t_Spec t; t_Status := t_Status t |}
  | KServiceClaim => fun m c =>
      {| sc_ObjectMeta := m; sc_Spec := sc_Spec c; sc_Status := sc_Status c |}
  | KNamespace => fun m _ => {| ns_ObjectMeta := m |}
  | KRoleBinding => fun m r =>
      {| rb_ObjectMeta := m; rb_RoleRef := rb_RoleRef r; rb_Subjects := rb_Subjects r |}
  | KResourceQuota => fun m q => {| rq_ObjectMeta := m; rq_Hard := rq_Hard q |}
  | KApplication => fun m u => {| u_GVK := u_GVK u; u_ObjectMeta := m; u_Object := u_Object u |}
  end.

Definition with_status {T} (k : kind T) : T -> T -> T :=
  match k in kind T return T -> T -> T with
  | KTenant => fun src t => t_set_status t (t_Status src)
  | KServiceClaim => fun src c => sc_set_status c (sc_Status src)
  | _ => fun _ t => t
  end.

Definition obj_key {T} (k : kind T) (o : T) : string * string :=
  (om_Namespace (kindMeta k o), om_Name (kindMeta k o)).

Definition meta_update (uid rv : string) (dt : option Z) (m : ObjectMeta) : ObjectMeta := {|
  om_Name := om_Name m; om_Namespace := om_Namespace m; om_UID := uid;
  om_ResourceVersion := rv; om_Generation := om_Generation m;
  om_DeletionTimestamp := dt; om_Labels := om_Labels m;
  om_Finalizers := om_Finalizers m; om_OwnerReferences := om_OwnerReferences m |}.

Definition bump {T} (k : kind T) (o : T) : T :=
  let m := kindMeta k o in
  with_meta k (meta_update (om_UID m) (om_ResourceVersion m +:+ "+")
                 (om_DeletionTimestamp m) m) o.

(** Store an object, or drop it when it is being deleted and holds no
    finalizer. *)
Definition put {T} (k : kind T) (o : T) (s : cluster) : cluster :=
  let m := kindMeta k o in
  match om_DeletionTimestamp m, om_Finalizers m with
  | Some _, [] => set_store k (delete (obj_key k o) (store k s)) s
  | _, _ => set_store k (<[obj_key k o := o]> (store k s)) s
  end.

Definition serve_update {T} (k : kind T) (o : T) (s : cluster) : (sample_err + T) * cluster :=
  let o := bump k o in (inr o, put k o s).

Definition create {T} (k : kind T) (o : T) (s : cluster) : T * cluster :=
  let m := kindMeta k o in
  let o := with_meta k (meta_update ("uid-" +:+ om_Name m) "1" None m) o in
  (o, put k o s).

Definition request_delete {T} (k : kind T) (key : string * string) (s : cluster) : cluster :=
  match store k s !! key with
  | None => s
  | Some o =>
      let m := kindMeta k o in
      let dt := match om_DeletionTimestamp m with None => Some 1%Z | t => t end in
      put k (with_meta k (meta_update (om_UID m) (om_ResourceVersion m) dt m) o) s
  end.

Definition sample_api : handler call cluster := fun R c =>
  match c in call R return cluster -> R * cluster with
  | Get _ k key => fun s =>
      match store k s !! (nn_Namespace key, nn_Name key) with
      | Some o => (inr o, s)
      | None => (inl ENotFound, s)
      end
  | ListClaims _ _ value => fun s =>
      (inr (filter (fun c => Team (sc_Spec c) = value)
              (map snd (map_to_list (cl_claims s)))), s)
  | CreateOrUpdate k obj mutate => fun s =>
      match store k s !! obj_key k obj with
      | None =>
          match mutate obj with
          | inl e => (inl e, s)
          | inr o => let '(o, s) := create k o s in (inr (OperationResultCreated, o), s)
          end
      | Some o =>
          match mutate o with
          | inl e => (inl e, s)
          | inr o => let o := bump k o in (inr (OperationResultUpdated, o), put k o s)
          end
      end
  | PatchObject k obj p => fun s =>
      match store k s !! obj_key k obj with
      | None => (inl ENotFound, s)
      | Some o =>
          if patch_lock _ p && negb (String.eqb (om_ResourceVersion (kindMeta k o))
               (om_ResourceVersion (kindMeta k (patch_from _ p))))
          then (inl EConflict, s)
          else serve_update k (with_meta k (SetFinalizers
                 (om_Finalizers (kindMeta k obj)) (kindMeta k o)) o) s
      end
  | PatchStatus k obj _ => fun s =>
      match store k s !! obj_key k obj with
      | None => (inl ENotFound, s)
      | Some o => serve_update k (with_status k obj o) s
      end
  | Delete k obj uid => fun s =>
      match store k s !! obj_key k obj with
      | None => (Some ENotFound, s)
      | Some o =>
          match uid with
          | Some u => if String.eqb u (om_UID (kindMeta k o))
                      then (None, request_delete k (obj_key k obj) s)
                      else (Some EConflict, s)
          | None => (None, request_delete k (obj_key k obj) s)
          end
      end
  end.

(** Running a program against the cluster. *)
Definition run {A} (p : prog call A) (s : cluster) : list (event call) * A * cluster :=
  interp sample_api p s.

Definition trace_of {A} (p : prog call A) (s : cluster) : list (event call) := fst (fst (run p s)).
Definition result_of {A} (p : prog call A) (s : cluster) : A := snd (fst (run p s)).
Definition after {A} (p : prog call A) (s : cluster) : cluster := snd (run p s).

Lemma run_runs {A} (p : prog call A) (s : cluster) :
  runs p (trace_of p s) (result_of p s).
Proof.
  unfold trace_of, result_of, run.
  destruct (interp sample_api p s) as [[tr a] s'] eqn:H. by eapply interp_runs.
Defined.

Lemma run_runs_cons {A} (p : prog call A) (s : cluster) (e : event call) :
  head (trace_of p s) = Some e -> runs p (e :: tail (trace_of p s)) (result_of p s).
Proof.
  pose proof (run_runs p s) as H. destruct (trace_of p s) as [|e' tr]; [done|].
  by intros [= <-].
Defined.

(** ** Objects for the examples *)

Definition sample_tenant (name : string) (r : option ResourceRequests)
    (fins : list string) (dt : option Z) : Tenant := {|
  t_ObjectMeta := {|
    om_Name := name; om_Namespace := ""; om_UID := "uid-" +:+ name;
    om_ResourceVersion := "1"; om_Generation := 1; om_DeletionTimestamp := dt;
    om_Labels := ∅; om_Finalizers := fins; om_OwnerReferences := [] |};
  t_Spec := {| Resources := r |};
  t_Status := {| ts_Phase := ""; ts_ObservedGeneration := 0; ts_Conditions := [] |};
|}.

Definition sample_claim (name team image : string) (replicas : option Z)
    (fins : list string) (dt : option Z) : ServiceClaim := {|
  sc_ObjectMeta := {|
    om_Name := name; om_Namespace := ""; om_UID := "uid-" +:+ name;
    om_ResourceVersion := "1"; om_Generation := 1; om_DeletionTimestamp := dt;
    om_Labels := ∅; om_Finalizers := fins; om_OwnerReferences := [] |};
  sc_Spec := {| Team := team; Image := image; Replicas := replicas |};
  sc_Status := {| cs_Phase := ""; cs_ObservedGeneration := 0; cs_Conditions := [] |};
|}.

Definition request (name : string) : Request :=
  {| req_NamespacedName := {| nn_Namespace := ""; nn_Name := name |} |}.
