(* ===== verification/Platform.v ===== *)
(** * The quota ceiling (internal/platform/limits.go)

    [Limits], its three methods, and what they promise: [Exceeded] finds
    exactly the resources above a set ceiling, and [Worsened] exactly those of
    them that an update raised. *)
From Stdlib Require Import Morphisms.
From S2P Require Import Prelude Kube Api Sample.

Section limits.
Context `{K : Kube}.

Record Limits := {
  MaxCPU : Quantity;
  MaxMemory : Quantity;
  MaxPods : Z;
}.

Record Violation := {
  Field : string;
  Declared : string;
  Ceiling : string;
}.

Definition Enabled (l : Limits) : bool :=
  negb (IsZero (MaxCPU l)) || negb (IsZero (MaxMemory l)) || (MaxPods l >? 0)%Z.

Definition Exceeded (l : Limits) (res : option ResourceRequests)
  : list Violation :=
  match res with
  | None => []
  | Some res =>
      let v := [] in
      let v := if negb (IsZero (MaxCPU l)) && (Cmp (CPU res) (MaxCPU l) >? 0)%Z
               then v ++ [{| Field := "spec.resources.cpu";
                             Declared := QString (CPU res);
                             Ceiling := QString (MaxCPU l) |}]
               else v in
      let v := if negb (IsZero (MaxMemory l))
                  && (Cmp (Memory res) (MaxMemory l) >? 0)%Z
               then v ++ [{| Field := "spec.resources.memory";
                             Declared := QString (Memory res);
                             Ceiling := QString (MaxMemory l) |}]
               else v in
      let v := if (MaxPods l >? 0)%Z && (Pods res >? MaxPods l)%Z
               then v ++ [{| Field := "spec.resources.pods";
                             Declared := pretty (Pods res);
                             Ceiling := pretty (MaxPods l) |}]
               else v in
      v
  end.

Definition zeroResources : ResourceRequests :=
  {| CPU := zeroQuantity; Memory := zeroQuantity; Pods := 0 |}.

Definition Worsened (l : Limits) (oldR newR : option ResourceRequests)
  : list Violation :=
  match newR with
  | None => []
  | Some newR =>
      let prev := match oldR with None => zeroResources | Some r => r end in
      let worse := [] in
      let worse :=
        if negb (IsZero (MaxCPU l)) && (Cmp (CPU newR) (MaxCPU l) >? 0)%Z
           && (Cmp (CPU newR) (CPU prev) >? 0)%Z
        then worse ++ [{| Field := "spec.resources.cpu";
                          Declared := QString (CPU newR);
                          Ceiling := QString (MaxCPU l) |}]
        else worse in
      let worse :=
        if negb (IsZero (MaxMemory l)) && (Cmp (Memory newR) (MaxMemory l) >? 0)%Z
           && (Cmp (Memory newR) (Memory prev) >? 0)%Z
        then worse ++ [{| Field := "spec.resources.memory";
                          Declared := QString (Memory newR);
                          Ceiling := QString (MaxMemory l) |}]
        else worse in
      let worse :=
        if (MaxPods l >? 0)%Z && (Pods newR >? MaxPods l)%Z
           && (Pods newR >? Pods prev)%Z
        then worse ++ [{| Field := "spec.resources.pods";
                          Declared := pretty (Pods newR);
                          Ceiling := pretty (MaxPods l) |}]
        else worse in
      worse
  end.

(** ** Specification

    [within l res]: no declared resource is above a ceiling that is set. *)
Definition within (l : Limits) (res : option ResourceRequests) : Prop :=
  match res with
  | None => True
  | Some r =>
      (IsZero (MaxCPU l) = true \/ (Cmp (CPU r) (MaxCPU l) <= 0)%Z) /\
      (IsZero (MaxMemory l) = true \/ (Cmp (Memory r) (MaxMemory l) <= 0)%Z) /\
      ((MaxPods l <= 0)%Z \/ (Pods r <= MaxPods l)%Z)
  end.

(** No resource of [b] is higher than in [a]; an absent declaration counts as
    zero in [a]. *)
Definition not_raised (a b : option ResourceRequests) : Prop :=
  match b with
  | None => True
  | Some b =>
      let a := default zeroResources a in
      (Cmp (CPU b) (CPU a) <= 0)%Z /\ (Cmp (Memory b) (Memory a) <= 0)%Z /\
      (Pods b <= Pods a)%Z
  end.

(** The ceilings an operator sets: none negative. *)
Definition ceilings_nonneg (l : Limits) : Prop :=
  (Cmp zeroQuantity (MaxCPU l) <= 0 /\ Cmp zeroQuantity (MaxMemory l) <= 0)%Z.

(** A sequence of specs, each accepted by [Worsened] as an update of the one
    before it. *)
Fixpoint admitted_updates (l : Limits) (cur : option ResourceRequests)
    (specs : list (option ResourceRequests)) : Prop :=
  match specs with
  | [] => True
  | s :: rest => Worsened l cur s = [] /\ admitted_updates l s rest
  end.

(** ** Quantities up to notation ("1" and "1000m") *)

Definition quantity_equiv (a b : Quantity) : Prop := Cmp a b = 0%Z.

Definition resources_equiv (a b : ResourceRequests) : Prop :=
  quantity_equiv (CPU a) (CPU b) /\ quantity_equiv (Memory a) (Memory b) /\
  Pods a = Pods b.

(** The fields two lists of violations report, whatever the notation of the
    figures. *)
Definition fields (vs : list Violation) : list string := map Field vs.

(** ** Lemmas *)

Context `{L : !QuantityLaws}.

#[export] Instance quantity_equiv_equivalence : Equivalence quantity_equiv.
Proof.
  unfold quantity_equiv. split.
  - intros a. apply Cmp_refl.
  - intros a b H. rewrite Cmp_antisym. lia.
  - intros a b c H1 H2.
    pose proof (Cmp_trans a b c). pose proof (Cmp_trans c b a).
    pose proof (Cmp_antisym a b). pose proof (Cmp_antisym b c).
    pose proof (Cmp_antisym a c). lia.
Qed.

Lemma Cmp_pos_equiv a a' b b' : quantity_equiv a a' -> quantity_equiv b b' ->
  (Cmp a b >? 0)%Z = (Cmp a' b' >? 0)%Z.
Proof.
  unfold quantity_equiv. intros Ha Hb.
  pose proof (Cmp_trans a a' b). pose proof (Cmp_trans a' a b).
  pose proof (Cmp_trans a' b b'). pose proof (Cmp_trans a' b' b).
  pose proof (Cmp_antisym a a'). pose proof (Cmp_antisym b b').
  destruct (Z.gtb_spec (Cmp a b) 0), (Z.gtb_spec (Cmp a' b') 0); lia.
Qed.

#[export] Instance Cmp_pos_Proper :
  Proper (quantity_equiv ==> quantity_equiv ==> eq) (fun a b => (Cmp a b >? 0)%Z).
Proof. intros a a' Ha b b' Hb. by apply Cmp_pos_equiv. Qed.

(** The tests of the source, as propositions. *)
Lemma over_ceiling_false (m q : Quantity) :
  negb (IsZero m) && (Cmp q m >? 0)%Z = false <->
  IsZero m = true \/ (Cmp q m <= 0)%Z.
Proof. destruct (IsZero m), (Z.gtb_spec (Cmp q m) 0); cbn; intuition (lia || easy). Qed.

Lemma over_pods_false (m p : Z) :
  (m >? 0)%Z && (p >? m)%Z = false <-> (m <= 0 \/ p <= m)%Z.
Proof. destruct (Z.gtb_spec m 0), (Z.gtb_spec p m); cbn; intuition (lia || easy). Qed.

Lemma over_and_raised_nil (l : Limits) oldR newR :
  Worsened l oldR newR = [] <->
  match newR with
  | None => True
  | Some n =>
      let a := default zeroResources oldR in
      ((IsZero (MaxCPU l) = true \/ (Cmp (CPU n) (MaxCPU l) <= 0)%Z)
        \/ (Cmp (CPU n) (CPU a) <= 0)%Z) /\
      ((IsZero (MaxMemory l) = true \/ (Cmp (Memory n) (MaxMemory l) <= 0)%Z)
        \/ (Cmp (Memory n) (Memory a) <= 0)%Z) /\
      (((MaxPods l <= 0)%Z \/ (Pods n <= MaxPods l)%Z) \/ (Pods n <= Pods a)%Z)
  end.
Proof.
  destruct newR as [n|]; cbn; [|done].
  replace (match oldR with Some r => r | None => zeroResources end)
    with (default zeroResources oldR) by (by destruct oldR).
  set (a := default zeroResources oldR).
  rewrite <- (over_ceiling_false (MaxCPU l) (CPU n)),
    <- (over_ceiling_false (MaxMemory l) (Memory n)), <- over_pods_false.
  destruct (negb (IsZero (MaxCPU l)) && _), (negb (IsZero (MaxMemory l)) && _),
    ((MaxPods l >? 0)%Z && _), (Z.gtb_spec (Cmp (CPU n) (CPU a)) 0),
    (Z.gtb_spec (Cmp (Memory n) (Memory a)) 0), (Z.gtb_spec (Pods n) (Pods a));
    cbn; intuition (lia || easy).
Qed.

Lemma exceeded_nil (l : Limits) res : Exceeded l res = [] <-> within l res.
Proof.
  destruct res as [r|]; cbn; [|done].
  rewrite <- !over_ceiling_false, <- over_pods_false.
  destruct (negb (IsZero (MaxCPU l)) && _), (negb (IsZero (MaxMemory l)) && _),
    ((MaxPods l >? 0)%Z && _); cbn;
    (split; [intros ?; repeat split; done|by intros (? & ? & ?)]).
Qed.

(** No field is reported twice. *)
Lemma exceeded_once (l : Limits) res : NoDup (fields (Exceeded l res)).
Proof.
  destruct res as [r|]; cbn; [|constructor].
  destruct (negb (IsZero (MaxCPU l)) && _), (negb (IsZero (MaxMemory l)) && _),
    ((MaxPods l >? 0)%Z && _); cbn; compute_done.
Qed.

Lemma not_raised_refl res : not_raised res res.
Proof. destruct res as [r|]; cbn; [|done]. rewrite !Cmp_refl. lia. Qed.

Lemma not_raised_accepted (l : Limits) a b : not_raised a b -> Worsened l a b = [].
Proof.
  intros H. apply over_and_raised_nil. destruct b as [b|]; [|done].
  cbn in *. tauto.
Qed.

Lemma within_update (l : Limits) cur s :
  ceilings_nonneg l -> within l cur -> Worsened l cur s = [] -> within l s.
Proof.
  intros [Hc Hm] Hcur Hw%over_and_raised_nil. destruct s as [s|]; [|done].
  assert (Ha : within l (Some (default zeroResources cur))).
  { destruct cur as [a|]; [done|]. cbn. lia. }
  set (a := default zeroResources cur) in *. cbn in *.
  pose proof (Cmp_trans (CPU s) (CPU a) (MaxCPU l)).
  pose proof (Cmp_trans (Memory s) (Memory a) (MaxMemory l)).
  intuition (auto; lia).
Qed.

Lemma updates_within (l : Limits) cur specs :
  ceilings_nonneg l -> within l cur -> admitted_updates l cur specs ->
  Forall (within l) specs.
Proof.
  intros Hl. revert cur. induction specs as [|s specs IH]; intros cur Hcur; cbn;
    [constructor|]. intros [Hs Hrest].
  assert (within l s) by eauto using within_update. constructor; eauto.
Qed.

(** ** Properties *)

(** C21: [Exceeded] returns no violation exactly when every declared resource is
    within the ceilings that are set ("exactly at the ceiling" is accepted, a
    zero ceiling never rejects, a nil declaration is accepted), and otherwise
    one violation for each resource above its ceiling, with the field, the
    declared and the ceiling figure, and nothing else: no field is reported
    twice. *)
Theorem exceeded_sound_complete (l : Limits) (res : option ResourceRequests) :
  (Exceeded l res = [] <-> within l res) /\
  NoDup (fields (Exceeded l res)) /\
  forall v, v ∈ Exceeded l res <-> exists r, res = Some r /\
    (v = {| Field := "spec.resources.cpu"; Declared := QString (CPU r);
            Ceiling := QString (MaxCPU l) |} /\
     IsZero (MaxCPU l) = false /\ (0 < Cmp (CPU r) (MaxCPU l))%Z \/
     v = {| Field := "spec.resources.memory"; Declared := QString (Memory r);
            Ceiling := QString (MaxMemory l) |} /\
     IsZero (MaxMemory l) = false /\ (0 < Cmp (Memory r) (MaxMemory l))%Z \/
     v = {| Field := "spec.resources.pods"; Declared := pretty (Pods r);
            Ceiling := pretty (MaxPods l) |} /\
     (0 < MaxPods l)%Z /\ (MaxPods l < Pods r)%Z).
Proof.
  split; [apply exceeded_nil|]. split; [apply exceeded_once|].
  intros v. destruct res as [r|].
  2: { split; [by intros ?%not_elem_of_nil|]. by intros (? & ? & _). }
  cbn. rewrite !Z.gtb_ltb.
  destruct (IsZero (MaxCPU l)), (IsZero (MaxMemory l)),
    (Z.ltb_spec 0 (Cmp (CPU r) (MaxCPU l))), (Z.ltb_spec 0 (Cmp (Memory r) (MaxMemory l))),
    (Z.ltb_spec 0 (MaxPods l)), (Z.ltb_spec (MaxPods l) (Pods r)); cbn;
    rewrite ?elem_of_cons, ?elem_of_nil;
    (split; [intros Hv; exists r; split; [done|]; intuition (congruence || lia)|];
     intros (r' & [= <-] & Hv); intuition (congruence || lia)).
Qed.

(** C22: [Worsened] returns exactly the violations of [Exceeded] whose resource
    was raised above its old value, in the same order, with the same declared
    and ceiling figures; an absent old declaration counts as zero. *)
Theorem worsened_filters_exceeded (l : Limits) (o : option ResourceRequests)
    (n : ResourceRequests) :
  let prev := default zeroResources o in
  Worsened l o (Some n) =
  filter (fun v =>
      (if String.eqb (Field v) "spec.resources.cpu"
       then (Cmp (CPU n) (CPU prev) >? 0)%Z
       else if String.eqb (Field v) "spec.resources.memory"
       then (Cmp (Memory n) (Memory prev) >? 0)%Z
       else (Pods n >? Pods prev)%Z) = true)
    (Exceeded l (Some n)).
Proof.
  cbn. replace (match o with Some r => r | None => zeroResources end)
    with (default zeroResources o) by (by destruct o).
  set (a := default zeroResources o).
  destruct (negb (IsZero (MaxCPU l)) && _), (negb (IsZero (MaxMemory l)) && _),
    ((MaxPods l >? 0)%Z && _), (Cmp (CPU n) (CPU a) >? 0)%Z eqn:E1,
    (Cmp (Memory n) (Memory a) >? 0)%Z eqn:E2, (Pods n >? Pods a)%Z eqn:E3;
    cbn; rewrite ?filter_cons, ?filter_nil; cbn;
    rewrite ?E1, ?E2, ?E3; repeat case_decide; try done; congruence.
Qed.

(** The fields [Exceeded] and [Worsened] report depend on the numeric
    values only, not on how a quantity is written ("1" or "1000m"). *)
Theorem verdict_ignores_notation (l : Limits) (a a' b b' : ResourceRequests) :
  resources_equiv a a' -> resources_equiv b b' ->
  fields (Exceeded l (Some b)) = fields (Exceeded l (Some b')) /\
  fields (Worsened l (Some a) (Some b)) = fields (Worsened l (Some a') (Some b')).
Proof.
  intros (Ha1 & Ha2 & Ha3) (Hb1 & Hb2 & Hb3). cbn. rewrite Ha3, Hb3.
  rewrite (Cmp_pos_equiv _ _ _ _ Hb1 (reflexivity (MaxCPU l))),
    (Cmp_pos_equiv _ _ _ _ Hb2 (reflexivity (MaxMemory l))),
    (Cmp_pos_equiv _ _ _ _ Hb1 Ha1), (Cmp_pos_equiv _ _ _ _ Hb2 Ha2).
  split; repeat case_match; done.
Qed.

(** A disabled ceiling ([Enabled] false) finds nothing on create and
    nothing on update; under ceilings that are not negative, an update from no
    declaration is judged as a create. *)
Theorem disabled_and_fresh (l : Limits) (o n : option ResourceRequests) :
  (Enabled l = false -> Exceeded l n = [] /\ Worsened l o n = []) /\
  (ceilings_nonneg l -> Worsened l None n = Exceeded l n).
Proof.
  split.
  - unfold Enabled. intros [[Hc Hm]%orb_false_iff Hp]%orb_false_iff.
    destruct n as [n|]; [|done]. cbn. by rewrite Hc, Hm, Hp.
  - intros [Hc Hm]. destruct n as [n|]; [|done]. cbn.
    assert (Hz : forall q m : Quantity, (Cmp zeroQuantity m <= 0)%Z ->
      negb (IsZero m) && (Cmp q m >? 0)%Z && (Cmp q zeroQuantity >? 0)%Z =
      negb (IsZero m) && (Cmp q m >? 0)%Z).
    { intros q m Hq. pose proof (Cmp_trans q zeroQuantity m).
      destruct (Z.gtb_spec (Cmp q m) 0), (Z.gtb_spec (Cmp q zeroQuantity) 0),
        (IsZero m); cbn; try done; lia. }
    rewrite !Hz by done.
    destruct (Z.gtb_spec (MaxPods l) 0), (Z.gtb_spec (Pods n) (MaxPods l)),
      (Z.gtb_spec (Pods n) 0); cbn; try done; lia.
Qed.
End limits.

(** ** Witnesses *)

Section witnesses.
#[local] Existing Instance sample_kube.
#[local] Existing Instance sample_kube_laws.

(** The ceiling and specs of limits_test.go, in thousandths. *)
Definition res (cpu mem pods : Z) : ResourceRequests :=
  {| CPU := (cpu * 1000)%Z; Memory := (mem * 1000)%Z; Pods := pods |}.

Definition ceiling : Limits :=
  {| MaxCPU := 8000%Z; MaxMemory := 16000%Z; MaxPods := 50 |}.

Example exceeded_all_three : length (Exceeded ceiling (Some (res 9 32 60))) = 3.
Proof. reflexivity. Qed.

Example exceeded_at_ceiling : Exceeded ceiling (Some (res 8 16 50)) = [].
Proof. reflexivity. Qed.

Example worsened_further : map Field
  (Worsened ceiling (Some (res 9 8 20)) (Some (res 10 8 20))) = ["spec.resources.cpu"].
Proof. reflexivity. Qed.

Lemma verdict_ignores_notation_witness :
  fields (Exceeded ceiling (Some (res 9 8 20))) =
  fields (Exceeded ceiling (Some (res 9 8 20))) /\
  fields (Worsened ceiling (Some (res 1 8 20)) (Some (res 9 8 20))) =
  fields (Worsened ceiling (Some (res 1 8 20)) (Some (res 9 8 20))).
Proof. apply (verdict_ignores_notation ceiling); repeat split. Defined.

Lemma disabled_and_fresh_witness :
  let off := {| MaxCPU := 0%Z; MaxMemory := 0%Z; MaxPods := 0 |} in
  Exceeded off (Some (res 1000 1000 9999)) = [] /\
  Worsened ceiling None (Some (res 9 8 20)) = Exceeded ceiling (Some (res 9 8 20)).
Proof.
  intros off. split.
  - exact (proj1 (proj1 (disabled_and_fresh off None (Some (res 1000 1000 9999))) eq_refl)).
  - apply (disabled_and_fresh ceiling None). split; vm_compute; discriminate.
Defined.
End witnesses.
