(* ===== verification/TenantWebhook.v ===== *)
(** * The Tenant validating webhook (internal/webhook/v1alpha1/tenant_webhook.go)

    The three entry points of the validator and what they decide. *)
From S2P Require Import Prelude Kube Api Sample SampleApi Platform.

Section webhook.
Context `{K : Kube}.

Definition tenantGK : GroupKind :=
  {| gk_Group := "platform.idp.io"; gk_Kind := "Tenant" |}.

(** [admission.Warnings]; [nil] is the empty list. *)
Definition Warnings := list string.

Record TenantCustomValidator := { tv_Limits : Limits }.

Definition deniedTenant (name : string) (violations : list Violation) : error :=
  let errs :=
    fold_left (fun errs vio =>
        errs ++ [field_Invalid (NewPath (Field vio)) (Declared vio)
                   ("exceeds the platform ceiling of " +:+ Ceiling vio)])
      violations [] in
  NewInvalid tenantGK name errs.

Definition ValidateCreate (v : TenantCustomValidator) (obj : Tenant)
  : Warnings * option error :=
  let vs := Exceeded (tv_Limits v) (Resources (t_Spec obj)) in
  if 0 <? length vs then ([], Some (deniedTenant (t_Name obj) vs))
  else ([], None).

Definition ValidateUpdate (v : TenantCustomValidator) (oldObj newObj : Tenant)
  : Warnings * option error :=
  let worse := Worsened (tv_Limits v) (Resources (t_Spec oldObj))
                 (Resources (t_Spec newObj)) in
  if 0 <? length worse then ([], Some (deniedTenant (t_Name newObj) worse))
  else
    let vs := Exceeded (tv_Limits v) (Resources (t_Spec newObj)) in
    if 0 <? length vs then
      (["tenant " +:+ quote (t_Name newObj) +:+
        " is over the platform ceiling but was not made worse; tolerated"], None)
    else ([], None).

Definition ValidateDelete (v : TenantCustomValidator) (obj : Tenant)
  : Warnings * option error := ([], None).

(** ** Specification *)

(** The error a denial carries: one field error per violation, in order. *)
Definition denial (name : string) (vs : list Violation) : error :=
  NewInvalid tenantGK name
    (map (fun vio => field_Invalid (NewPath (Field vio)) (Declared vio)
            ("exceeds the platform ceiling of " +:+ Ceiling vio)) vs).

(** The writes of one Tenant the webhook accepted: a create, then updates. *)
Fixpoint accepted_updates (v : TenantCustomValidator) (cur : Tenant)
    (ts : list Tenant) : Prop :=
  match ts with
  | [] => True
  | t :: rest => snd (ValidateUpdate v cur t) = None /\ accepted_updates v t rest
  end.

Definition spec_within (v : TenantCustomValidator) (t : Tenant) : Prop :=
  within (tv_Limits v) (Resources (t_Spec t)).

(** ** Lemmas *)

Lemma deniedTenant_denial name vs : deniedTenant name vs = denial name vs.
Proof.
  unfold deniedTenant, denial. f_equal.
  assert (H : forall acc, fold_left (fun errs vio =>
      errs ++ [field_Invalid (NewPath (Field vio)) (Declared vio)
                 ("exceeds the platform ceiling of " +:+ Ceiling vio)]) vs acc
    = acc ++ map (fun vio => field_Invalid (NewPath (Field vio)) (Declared vio)
            ("exceeds the platform ceiling of " +:+ Ceiling vio)) vs).
  { induction vs as [|v vs IH]; intros acc; cbn; [by rewrite app_nil_r|].
    by rewrite IH, <- app_assoc. }
  by rewrite H.
Qed.

Lemma length_test {A} (l : list A) : (0 <? length l) = false <-> l = [].
Proof. by destruct l. Qed.

Lemma update_accepted v o n :
  snd (ValidateUpdate v o n) = None <->
  Worsened (tv_Limits v) (Resources (t_Spec o)) (Resources (t_Spec n)) = [].
Proof.
  unfold ValidateUpdate. rewrite <- length_test.
  destruct (0 <? length (Worsened _ _ _)); [done|].
  by destruct (0 <? length (Exceeded _ _)).
Qed.

Lemma create_accepted v t :
  snd (ValidateCreate v t) = None <-> spec_within v t.
Proof.
  unfold spec_within. rewrite <- exceeded_nil, <- length_test.
  unfold ValidateCreate. by destruct (0 <? length (Exceeded _ _)).
Qed.

(** ** Properties *)

(** A create is accepted, without warnings, exactly when the declared
    resources are within the ceiling; otherwise it is denied with an Invalid
    error that names the Tenant and carries one field error per violation. *)
Theorem create_decision (v : TenantCustomValidator) (t : Tenant) :
  (ValidateCreate v t = ([], None) <-> spec_within v t) /\
  (~ spec_within v t ->
   ValidateCreate v t =
   ([], Some (denial (t_Name t)
                (Exceeded (tv_Limits v) (Resources (t_Spec t)))))).
Proof.
  unfold spec_within. rewrite <- exceeded_nil, <- length_test.
  unfold ValidateCreate. rewrite deniedTenant_denial.
  by destruct (0 <? length (Exceeded _ _)).
Qed.

(** C19: an update has three outcomes: denied, exactly when some over-ceiling
    resource was raised, with one field error per such resource; admitted
    with one warning naming the Tenant, when it is over the ceiling but no
    worse; admitted silently, when it is within the ceiling. *)
Theorem update_decision (v : TenantCustomValidator) (o n : Tenant) :
  let worse := Worsened (tv_Limits v) (Resources (t_Spec o))
                 (Resources (t_Spec n)) in
  (worse <> [] -> ValidateUpdate v o n = ([], Some (denial (t_Name n) worse))) /\
  (worse = [] -> ~ spec_within v n ->
   ValidateUpdate v o n =
   (["tenant " +:+ quote (t_Name n) +:+
     " is over the platform ceiling but was not made worse; tolerated"], None)) /\
  (worse = [] -> spec_within v n -> ValidateUpdate v o n = ([], None)).
Proof.
  intros worse. unfold spec_within, ValidateUpdate. fold worse.
  rewrite deniedTenant_denial, <- exceeded_nil, <- !length_test.
  by destruct (0 <? length worse), (0 <? length (Exceeded _ _)).
Qed.

Context `{L : !QuantityLaws}.

(** An update that leaves [spec.resources] as it is, such as a finalizer
    patch by the Tenant controller or a GitOps re-apply, is always admitted,
    and so is a delete: teardown never depends on the ceiling. *)
Theorem metadata_writes_admitted (v : TenantCustomValidator) (o n : Tenant) :
  Resources (t_Spec n) = Resources (t_Spec o) ->
  snd (ValidateUpdate v o n) = None /\ ValidateDelete v n = ([], None).
Proof.
  intros H. split; [|done]. apply update_accepted. rewrite H.
  apply not_raised_accepted, not_raised_refl.
Qed.

(** A Tenant whose create and every later update were admitted under one
    ceiling never declares resources above it. *)
Theorem admitted_tenant_within (v : TenantCustomValidator) (t : Tenant)
    (ts : list Tenant) :
  ceilings_nonneg (tv_Limits v) ->
  snd (ValidateCreate v t) = None -> accepted_updates v t ts ->
  Forall (spec_within v) (t :: ts).
Proof.
  intros Hl Hc%create_accepted Hu. constructor; [done|].
  assert (Hs : admitted_updates (tv_Limits v) (Resources (t_Spec t))
                 (map (fun t => Resources (t_Spec t)) ts)).
  { clear Hc. revert t Hu. induction ts as [|t' ts IH]; intros t; cbn; [done|].
    intros [Hw%update_accepted Hrest]. auto. }
  apply (updates_within _ _ _ Hl Hc) in Hs. by rewrite Forall_map in Hs.
Qed.
End webhook.

Section witnesses.
#[local] Existing Instance sample_kube.
#[local] Existing Instance sample_kube_laws.

Definition tenant_asking (name : string) (r : option ResourceRequests) : Tenant :=
  sample_tenant name r [] None.

Definition sample_validator : TenantCustomValidator := {| tv_Limits := ceiling |}.

Example denied_create : ValidateCreate sample_validator
    (tenant_asking "payments" (Some (res 9 8 20))) =
  ([], Some (EInvalid tenantGK "payments"
     [("spec.resources.cpu", "9000m", "exceeds the platform ceiling of 8000m")])).
Proof. vm_compute. reflexivity. Qed.

Lemma create_decision_witness :
  ValidateCreate sample_validator (tenant_asking "p" (Some (res 8 8 20))) = ([], None) /\
  ValidateCreate sample_validator (tenant_asking "p" (Some (res 9 8 20))) =
    ([], Some (denial "p" (Exceeded ceiling (Some (res 9 8 20))))).
Proof.
  split.
  - apply create_decision. vm_compute. repeat split; right; discriminate.
  - apply (create_decision sample_validator (tenant_asking "p" (Some (res 9 8 20)))).
    vm_compute. intros [[H|H] _]; [discriminate|]. by apply H.
Defined.

Lemma update_decision_witness :
  snd (ValidateUpdate sample_validator (tenant_asking "p" (Some (res 9 8 20)))
         (tenant_asking "p" (Some (res 10 8 20)))) <> None.
Proof.
  rewrite (proj1 (update_decision sample_validator
    (tenant_asking "p" (Some (res 9 8 20))) (tenant_asking "p" (Some (res 10 8 20)))));
    discriminate.
Defined.

Lemma metadata_writes_admitted_witness :
  let t := tenant_asking "p" (Some (res 100 8 20)) in
  snd (ValidateUpdate sample_validator t t) = None /\
  ValidateDelete sample_validator t = ([], None).
Proof. intros t. apply metadata_writes_admitted. reflexivity. Defined.

Lemma admitted_tenant_within_witness :
  Forall (spec_within sample_validator)
    [tenant_asking "p" None; tenant_asking "p" (Some (res 8 16 50))].
Proof.
  apply (admitted_tenant_within sample_validator (tenant_asking "p" None)
    [tenant_asking "p" (Some (res 8 16 50))]);
    [split; vm_compute; discriminate|reflexivity|by vm_compute].
Defined.
End witnesses.
