(* ===== verification/ServiceClaimWebhook.v ===== *)
(** * The ServiceClaim validating webhook
    (internal/webhook/v1alpha1/serviceclaim_webhook.go) *)
From S2P Require Import Prelude Prog Kube Api Client Sample.
Open Scope prog_scope.

Section webhook.
Context `{K : Kube}.

Definition serviceClaimGR : GroupResource :=
  {| gr_Group := "platform.idp.io"; gr_Resource := "serviceclaims" |}.

Definition Warnings := list string.

Definition ValidateCreate (obj : ServiceClaim)
  : prog call (Warnings * option error) :=
  let* res := trigger (Get APIReader KTenant
                {| nn_Namespace := ""; nn_Name := Team (sc_Spec obj) |}) in
  match res with
  | inl err =>
      if IsNotFound (Some err) then Ret ([], None) else Ret ([], Some err)
  | inr tenant =>
      if negb (TimeIsZero (om_DeletionTimestamp (t_ObjectMeta tenant))) then
        Ret ([], Some (NewForbidden serviceClaimGR (sc_Name obj)
          (Errorf ("tenant " +:+ quote (Team (sc_Spec obj)) +:+
             " is being deleted; a new service cannot be added to a terminating tenant"))))
      else Ret ([], None)
  end.

Definition ValidateUpdate (oldObj newObj : ServiceClaim)
  : prog call (Warnings * option error) := Ret ([], None).

Definition ValidateDelete (obj : ServiceClaim)
  : prog call (Warnings * option error) := Ret ([], None).

(** ** Properties *)

(** C20: validating a create reads the referenced Tenant once, through the
    uncached reader, and writes nothing.  The claim is accepted exactly when
    the Tenant does not exist yet or is not being deleted; a Tenant being
    deleted gives a Forbidden error for the claim; any other read error is
    returned, so the webhook fails closed.  No warnings are issued. *)
Theorem claim_create_decision (obj : ServiceClaim) tr w err :
  runs (ValidateCreate obj) tr (w, err) <->
  exists r, tr = [Ev (Get APIReader KTenant
                       {| nn_Namespace := ""; nn_Name := Team (sc_Spec obj) |}) r] /\
    w = [] /\
    match r with
    | inl e => err = (if IsNotFound (Some e) then None else Some e)
    | inr t =>
        (TimeIsZero (om_DeletionTimestamp (t_ObjectMeta t)) = true -> err = None) /\
        (TimeIsZero (om_DeletionTimestamp (t_ObjectMeta t)) = false ->
         exists cause, err = Some (NewForbidden serviceClaimGR (sc_Name obj) (Errorf cause)) /\
           cause = "tenant " +:+ quote (Team (sc_Spec obj)) +:+
             " is being deleted; a new service cannot be added to a terminating tenant")
    end.
Proof.
  split.
  - intros H. unfold ValidateCreate in H. remember (w, err) as out eqn:Eo.
    run_steps; injection Eo as <- <-.
    all: eexists; split; [reflexivity|]; split; [reflexivity|]; cbn.
    + by rewrite E0.
    + by rewrite E0.
    + apply negb_true_iff in E0. rewrite E0. split; [discriminate|]. eauto.
    + apply negb_false_iff in E0. rewrite E0. by split.
  - intros (r & -> & -> & H). exists r, []. split; [done|]. cbn. destruct r as [e|t].
    + destruct (IsNotFound (Some e)); subst err; by split.
    + destruct (TimeIsZero _); cbn; destruct H as [H1 H2].
      * by rewrite H1.
      * by destruct H2 as (? & -> & ->).
Qed.
End webhook.
