(* ===== verification/Finalizers.v ===== *)
(** * Finalizers (internal/controller/finalizers.go) *)
From S2P Require Import Prelude Prog Kube Api Client Sample SampleApi.
Open Scope prog_scope.

Section finalizers.
Context `{K : Kube}.

(** Both return the object as the pointer leaves it: the server's answer when
    the patch succeeds, the locally changed object when it fails. *)
Definition ensureFinalizer {T} `{!ClientObject T} (obj : T) (name : string)
  : prog call (T * option error) :=
  if ContainsFinalizer (GetMeta obj) name then Ret (obj, None)
  else
    let base := MergeFromWithOptimisticLock obj in
    let obj := SetMeta (AddFinalizer (GetMeta obj) name) obj in
    let* res := trigger (PatchObject objKind obj base) in
    match res with
    | inl err => Ret (obj, Some err)
    | inr obj => Ret (obj, None)
    end.

Definition releaseFinalizer {T} `{!ClientObject T} (obj : T) (name : string)
  : prog call (T * option error) :=
  if negb (ContainsFinalizer (GetMeta obj) name) then Ret (obj, None)
  else
    let base := MergeFromWithOptimisticLock obj in
    let obj := SetMeta (RemoveFinalizer (GetMeta obj) name) obj in
    let* res := trigger (PatchObject objKind obj base) in
    match res with
    | inl err => Ret (obj, Some err)
    | inr obj => Ret (obj, None)
    end.

(** The trace of a release: nothing, or one locked patch. *)
Lemma releaseFinalizer_runs {T} `{!ClientObject T} (obj : T) name tr out :
  runs (releaseFinalizer obj name) tr out ->
  tr = [] \/ exists o r,
    tr = [Ev (PatchObject objKind o (MergeFromWithOptimisticLock obj)) r].
Proof.
  intros H. unfold releaseFinalizer in H.
  destruct (ContainsFinalizer _ _); cbn [negb] in H; run_steps; eauto.
Qed.

(** ** Specification: the one request each of them may send *)

Definition finalizer_patch {T} `{!ClientObject T} (obj : T)
    (fins : list string -> Prop) (e : event call) (out : T * option error) : Prop :=
  exists m r, e = Ev (PatchObject objKind (SetMeta m obj)
                        {| patch_from := obj; patch_lock := true |}) r /\
    same_but_finalizers (GetMeta obj) m /\ fins (om_Finalizers m) /\
    out = match r with inl err => (SetMeta m obj, Some err) | inr o => (o, None) end.

Context `{L : !KubeLaws}.

(** [ensureFinalizer] sends nothing when the finalizer is there; otherwise
    it sends one patch, locked on the version it read, whose finalizers are the
    old ones and the new one, everything else in the metadata unchanged; a
    conflict comes back as the error. *)
Theorem ensureFinalizer_spec {T} `{!ClientObject T} (obj : T) name tr out :
  runs (ensureFinalizer obj name) tr out ->
  (name ∈ om_Finalizers (GetMeta obj) /\ tr = [] /\ out = (obj, None)) \/
  ((name ∉ om_Finalizers (GetMeta obj)) /\
   exists e, tr = [e] /\
   finalizer_patch obj (fun l => forall g, g ∈ l <->
      (g = name \/ g ∈ om_Finalizers (GetMeta obj))) e out).
Proof.
  intros H. unfold ensureFinalizer in H.
  pose proof (ContainsFinalizer_spec (GetMeta obj) name) as Hc.
  pose proof (AddFinalizer_spec (GetMeta obj) name) as [Hm Hf].
  run_steps; [left; split; [by apply Hc|done]|..].
  all: right; (split; [intros Hin%Hc; congruence|]).
  all: eexists; (split; [reflexivity|]); eexists _, _; eauto.
Qed.

(** [releaseFinalizer] sends nothing when the finalizer is absent;
    otherwise one patch, locked on the version it read, that removes that
    finalizer and keeps every other one, so it cannot clobber a finalizer
    another writer added. *)
Theorem releaseFinalizer_spec {T} `{!ClientObject T} (obj : T) name tr out :
  runs (releaseFinalizer obj name) tr out ->
  ((name ∉ om_Finalizers (GetMeta obj)) /\ tr = [] /\ out = (obj, None)) \/
  (name ∈ om_Finalizers (GetMeta obj) /\ exists e, tr = [e] /\
   finalizer_patch obj (fun l => forall g, g ∈ l <->
      (g <> name /\ g ∈ om_Finalizers (GetMeta obj))) e out).
Proof.
  intros H. unfold releaseFinalizer in H.
  pose proof (ContainsFinalizer_spec (GetMeta obj) name) as Hc.
  pose proof (RemoveFinalizer_spec (GetMeta obj) name) as [Hm Hf].
  destruct (ContainsFinalizer _ _); cbn [negb] in H; run_steps.
  3: left; (split; [intros Hin%Hc; congruence|done]).
  all: right; (split; [by apply Hc|]).
  all: eexists; (split; [reflexivity|]); eexists _, _; eauto.
Qed.
End finalizers.

(** The two traces a release inside a run can have. *)
Ltac release_cases :=
  try match goal with
  | H : runs (releaseFinalizer _ _) _ _ |- _ =>
      apply releaseFinalizer_runs in H as [->|(? & ? & ->)]
  end; cbn [app] in *.

Section witnesses.
#[local] Existing Instance sample_kube.
#[local] Existing Instance sample_kube_laws.

(** A Tenant another operator also holds a finalizer on. *)
Definition held : Tenant := sample_tenant "payments" None ["other"] None.
Definition held_cluster : cluster := put KTenant held empty_cluster.

Example ensure_keeps_other :
  snd (result_of (ensureFinalizer held TenantFinalizer) held_cluster) = None /\
  om_Finalizers (t_ObjectMeta (fst
    (result_of (ensureFinalizer held TenantFinalizer) held_cluster))) =
  ["other"; TenantFinalizer].
Proof. by vm_compute. Qed.

Lemma ensureFinalizer_spec_witness :
  exists e, trace_of (ensureFinalizer held TenantFinalizer) held_cluster = [e] /\
   finalizer_patch held (fun l => forall g, g ∈ l <->
      (g = TenantFinalizer \/ g ∈ om_Finalizers (GetMeta held))) e
      (result_of (ensureFinalizer held TenantFinalizer) held_cluster).
Proof.
  destruct (ensureFinalizer_spec held TenantFinalizer _ _
    (run_runs (ensureFinalizer held TenantFinalizer) held_cluster)) as [[H _]|[_ H]].
  - exfalso. by apply (bool_decide_eq_true_2 _) in H.
  - exact H.
Defined.

Lemma releaseFinalizer_spec_witness :
  exists e, trace_of (releaseFinalizer held "other") held_cluster = [e] /\
   finalizer_patch held (fun l => forall g, g ∈ l <->
      (g <> "other" /\ g ∈ om_Finalizers (GetMeta held))) e
      (result_of (releaseFinalizer held "other") held_cluster).
Proof.
  destruct (releaseFinalizer_spec held "other" _ _
    (run_runs (releaseFinalizer held "other") held_cluster)) as [[H _]|[_ H]].
  - exfalso. apply H. by left.
  - exact H.
Defined.
End witnesses.
