(* ===== verification/Indexes.v ===== *)
(** * The spec.team field index (internal/controller/indexes.go) *)
From S2P Require Import Prelude Prog Kube Api Client.

Section indexes.
Context `{K : Kube}.

Definition ClaimTeamIndexKey : string := "spec.team".

(** The type assertion fails on anything but a ServiceClaim; a nil slice is
    the empty list. *)
Definition claimTeamIndexer (o : Object) : list string :=
  match o with
  | ObjServiceClaim claim =>
      if String.eqb (Team (sc_Spec claim)) "" then [] else [Team (sc_Spec claim)]
  | _ => []
  end.

(** What an indexed list returns, as the cache documents it: the objects for
    which the indexer gives the value, read at one moment of the cache. *)
Definition indexed_list (claims : list ServiceClaim) (value : string)
  : list ServiceClaim :=
  filter (fun c => value ∈ claimTeamIndexer (ObjServiceClaim c)) claims.

Lemma claimTeamIndexer_elem (c : ServiceClaim) (team : string) :
  team ∈ claimTeamIndexer (ObjServiceClaim c) <->
  Team (sc_Spec c) = team /\ team <> "".
Proof.
  unfold claimTeamIndexer. destruct (String.eqb_spec (Team (sc_Spec c)) "") as [E|E].
  - rewrite E. split; [by intros ?%not_elem_of_nil|]. by intros [<- ?].
  - rewrite list_elem_of_singleton. split; [by intros ->|by intros [<- _]].
Qed.

(** Listing through the index for a team finds exactly the claims whose
    [spec.team] is that team, none missed and none added, each once; the empty
    team is never indexed, so a list for it is empty. *)
Theorem indexed_list_exact (claims : list ServiceClaim) (team : string) :
  indexed_list claims team =
    (if String.eqb team "" then []
     else filter (fun c => Team (sc_Spec c) = team) claims) /\
  (forall o, length (claimTeamIndexer o) <= 1).
Proof.
  split.
  - unfold indexed_list. destruct (String.eqb_spec team "") as [->|Ht].
    + induction claims as [|c cs IH]; [done|]. rewrite filter_cons_False; [done|].
      rewrite claimTeamIndexer_elem. tauto.
    + apply list_filter_iff. intros c. rewrite claimTeamIndexer_elem. tauto.
  - intros [t|c|m]; cbn; try lia. destruct (String.eqb _ _); cbn; lia.
Qed.
End indexes.
