(* ===== verification/TenantController.v ===== *)
(** * The Tenant reconciler (internal/controller/tenant_controller.go)

    The whole handler: the deletion branch, the three creation steps, the
    status conditions and the write-back, over the calls of [Client].  The
    receiver's only data is the scheme; [r.Get] and the like are calls.  A
    method that changes the Tenant it is given returns it.  The log lines are
    left out. *)
From S2P Require Import Prelude Prog Kube Api Client Finalizers Indexes.
Open Scope prog_scope.

Section controller.
Context `{K : Kube}.

Definition roleBindingName : string := "team-edit".
Definition resourceQuotaName : string := "team-quota".
Definition teamRole : string := "edit".

Record TenantReconciler := { tr_Scheme : Scheme }.

(** The Go type the scheme resolves to the kind of an owner. *)
Definition TenantKind : string := "Tenant".

Definition setCondition (tenant : Tenant) (condType : string)
    (status : ConditionStatus) (reason message : string) : Tenant :=
  t_set_Conditions
    (SetStatusCondition (ts_Conditions (t_Status tenant)) {|
       c_Type := condType;
       c_Status := status;
       c_ObservedGeneration := om_Generation (t_ObjectMeta tenant);
       c_Reason := reason;
       c_Message := message |}) tenant.

Definition aggregateReady (tenant : Tenant) : Tenant :=
  let conds := ts_Conditions (t_Status tenant) in
  let ready := IsStatusConditionTrue conds ConditionNamespaceReady
    && IsStatusConditionTrue conds ConditionRBACReady
    && IsStatusConditionTrue conds ConditionQuotaApplied in
  let tenant := t_set_ObservedGeneration (om_Generation (t_ObjectMeta tenant)) tenant in
  if ready then
    let tenant := t_set_Phase PhaseReady tenant in
    setCondition tenant ConditionReady ConditionTrue
      "AllResourcesReady" "namespace, RBAC and quota are ready"
  else
    let tenant := t_set_Phase PhasePending tenant in
    setCondition tenant ConditionReady ConditionFalse
      "ResourcesNotReady" "one or more resources are not ready".

Definition quotaHard (res : option ResourceRequests) : gmap string Quantity :=
  let hard := ∅ in
  match res with
  | None => hard
  | Some res =>
      let hard := if negb (IsZero (CPU res))
                  then <[ResourceRequestsCPU := CPU res]> hard else hard in
      let hard := if negb (IsZero (Memory res))
                  then <[ResourceLimitsMemory := Memory res]>
                         (<[ResourceRequestsMemory := Memory res]> hard)
                  else hard in
      let hard := if (Pods res >? 0)%Z
                  then <[ResourcePods := NewQuantity (Pods res) DecimalSI]> hard
                  else hard in
      hard
  end.

(** The mutate functions passed to [CreateOrUpdate]. *)
Definition mutateNamespace (r : TenantReconciler) (tenant : Tenant)
    (ns : Namespace) : error + Namespace :=
  match SetControllerReference (tr_Scheme r) TenantKind (t_ObjectMeta tenant)
          (ns_ObjectMeta ns) with
  | inl err => inl err
  | inr m => inr {| ns_ObjectMeta := m |}
  end.

Definition mutateRoleBinding (r : TenantReconciler) (tenant : Tenant)
    (group : string) (rb : RoleBinding) : error + RoleBinding :=
  let roleRef := {| rr_APIGroup := rbacv1_GroupName; rr_Kind := "ClusterRole";
                    rr_Name := teamRole |} in
  let subjects := [{| s_Kind := rbacv1_GroupKind; s_APIGroup := rbacv1_GroupName;
                      s_Name := group |}] in
  match SetControllerReference (tr_Scheme r) TenantKind (t_ObjectMeta tenant)
          (rb_ObjectMeta rb) with
  | inl err => inl err
  | inr m => inr {| rb_ObjectMeta := m; rb_RoleRef := roleRef;
                    rb_Subjects := subjects |}
  end.

Definition mutateQuota (r : TenantReconciler) (tenant : Tenant)
    (hard : gmap string Quantity) (rq : ResourceQuota) : error + ResourceQuota :=
  match SetControllerReference (tr_Scheme r) TenantKind (t_ObjectMeta tenant)
          (rq_ObjectMeta rq) with
  | inl err => inl err
  | inr m => inr {| rq_ObjectMeta := m; rq_Hard := hard |}
  end.

Definition ensureNamespace (r : TenantReconciler) (tenant : Tenant)
    (nsName : string) : prog call (Tenant * option error) :=
  let ns := {| ns_ObjectMeta := NewObjectMeta nsName "" |} in
  let* res := trigger (CreateOrUpdate KNamespace ns (mutateNamespace r tenant)) in
  match res with
  | inl err =>
      Ret (setCondition tenant ConditionNamespaceReady ConditionFalse
             "NamespaceError" (Error err), Some err)
  | inr _ =>
      Ret (setCondition tenant ConditionNamespaceReady ConditionTrue
             "NamespaceCreated" ("namespace " +:+ nsName +:+ " is ready"), None)
  end.

Definition ensureRoleBinding (r : TenantReconciler) (tenant : Tenant)
    (nsName : string) : prog call (Tenant * option error) :=
  let group := teamNamespace (t_Name tenant) in
  let rb := {| rb_ObjectMeta := NewObjectMeta roleBindingName nsName;
               rb_RoleRef := {| rr_APIGroup := ""; rr_Kind := ""; rr_Name := "" |};
               rb_Subjects := [] |} in
  let* res := trigger (CreateOrUpdate KRoleBinding rb
                (mutateRoleBinding r tenant group)) in
  match res with
  | inl err =>
      Ret (setCondition tenant ConditionRBACReady ConditionFalse
             "RBACError" (Error err), Some err)
  | inr _ =>
      Ret (setCondition tenant ConditionRBACReady ConditionTrue
             "RoleBindingCreated"
             ("group " +:+ group +:+ " bound to " +:+ teamRole +:+ " in " +:+ nsName),
           None)
  end.

Definition ensureQuota (r : TenantReconciler) (tenant : Tenant)
    (nsName : string) : prog call (Tenant * option error) :=
  let hard := quotaHard (Resources (t_Spec tenant)) in
  let rq := {| rq_ObjectMeta := NewObjectMeta resourceQuotaName nsName;
               rq_Hard := ∅ |} in
  if size hard =? 0 then
    let* derr := trigger (Delete KResourceQuota rq None) in
    match IgnoreNotFound derr with
    | Some err =>
        Ret (setCondition tenant ConditionQuotaApplied ConditionFalse
               "QuotaError" (Error err), Some err)
    | None =>
        Ret (setCondition tenant ConditionQuotaApplied ConditionTrue
               "NoResourcesDeclared"
               "tenant declares no resources; namespace is uncapped", None)
    end
  else
    let* res := trigger (CreateOrUpdate KResourceQuota rq (mutateQuota r tenant hard)) in
    match res with
    | inl err =>
        Ret (setCondition tenant ConditionQuotaApplied ConditionFalse
               "QuotaError" (Error err), Some err)
    | inr _ =>
        Ret (setCondition tenant ConditionQuotaApplied ConditionTrue
               "QuotaApplied" ("resource quota applied to " +:+ nsName), None)
    end.

Definition reconcileResources (r : TenantReconciler) (tenant : Tenant)
  : prog call (Tenant * option error) :=
  let nsName := teamNamespace (t_Name tenant) in
  let* ' (tenant, err) := ensureNamespace r tenant nsName in
  match err with
  | Some err => Ret (tenant, Some err)
  | None =>
      let* ' (tenant, err) := ensureRoleBinding r tenant nsName in
      match err with
      | Some err => Ret (tenant, Some err)
      | None => ensureQuota r tenant nsName
      end
  end.

(** The entry for one remaining claim in the blocked message. *)
Definition remainingEntry (c : ServiceClaim) : string :=
  let state := if negb (TimeIsZero (om_DeletionTimestamp (sc_ObjectMeta c)))
               then "terminating" else "not deleted" in
  sc_Name c +:+ " (" +:+ state +:+ ")".

Definition remainingMessage (claims : list ServiceClaim) : string :=
  let remaining := map remainingEntry claims in
  pretty (length remaining) +:+ " ServiceClaim(s) still reference this tenant: "
    +:+ Join remaining ", ".

Definition reconcileDelete (tenant : Tenant) : prog call (Result * option error) :=
  if negb (ContainsFinalizer (t_ObjectMeta tenant) TenantFinalizer)
  then Ret (emptyResult, None)
  else
    let statusBase := MergeFrom tenant in
    let tenant := t_set_Phase PhaseTerminating tenant in
    let* res := trigger (ListClaims TeamReader ClaimTeamIndexKey (t_Name tenant)) in
    match res with
    | inl err => Ret (emptyResult, Some err)
    | inr claims =>
        if 0 <? length claims then
          let msg := remainingMessage claims in
          let tenant := setCondition tenant ConditionClaimsDrained ConditionFalse
                          "ClaimsRemain" msg in
          let tenant := setCondition tenant ConditionReady ConditionFalse
                          "TerminationBlocked" msg in
          let* p := trigger (PatchStatus KTenant tenant statusBase) in
          match p with
          | inl err => Ret (emptyResult, Some err)
          | inr _ => Ret ({| RequeueAfter := 15 * Second |}, None)
          end
        else
          let tenant := setCondition tenant ConditionClaimsDrained ConditionTrue
                          "AllClaimsDeleted" "no ServiceClaim references this tenant" in
          let* p := trigger (PatchStatus KTenant tenant statusBase) in
          match p with
          | inl err => Ret (emptyResult, Some err)
          | inr tenant =>
              let ns := {| ns_ObjectMeta :=
                             NewObjectMeta (teamNamespace (t_Name tenant)) "" |} in
              let* derr := trigger (Delete KNamespace ns None) in
              match derr with
              | Some err =>
                  if negb (IsNotFound derr) then Ret (emptyResult, Some err)
                  else
                    let* ' (_, rerr) := releaseFinalizer tenant TenantFinalizer in
                    Ret (emptyResult, rerr)
              | None =>
                  let* ' (_, rerr) := releaseFinalizer tenant TenantFinalizer in
                  Ret (emptyResult, rerr)
              end
          end
    end.

(** [Reconcile] from [ensureFinalizer] on: the Tenant is not being deleted. *)
Definition reconcileLive (r : TenantReconciler) (tenant : Tenant)
  : prog call (Result * option error) :=
  let* ' (tenant, err) := ensureFinalizer tenant TenantFinalizer in
  match err with
  | Some err => Ret (emptyResult, Some err)
  | None =>
      let statusBase := MergeFrom tenant in
      let* ' (tenant, reconcileErr) := reconcileResources r tenant in
      let tenant := aggregateReady tenant in
      let* p := trigger (PatchStatus KTenant tenant statusBase) in
      match p with
      | inl err =>
          match reconcileErr with
          | Some _ => Ret (emptyResult, reconcileErr)
          | None => Ret (emptyResult, Some err)
          end
      | inr _ => Ret (emptyResult, reconcileErr)
      end
  end.

Definition Reconcile (r : TenantReconciler) (req : Request)
  : prog call (Result * option error) :=
  let* res := trigger (Get Client KTenant (req_NamespacedName req)) in
  match res with
  | inl err => Ret (emptyResult, IgnoreNotFound (Some err))
  | inr tenant =>
      if negb (TimeIsZero (om_DeletionTimestamp (t_ObjectMeta tenant)))
      then reconcileDelete tenant
      else reconcileLive r tenant
  end.

Definition tenantForClaim (claim : Object) : prog call (option (list Request)) :=
  match claim with
  | ObjServiceClaim claim =>
      let team := Team (sc_Spec claim) in
      if String.eqb team "" then Ret (Some [])
      else Ret (Some [{| req_NamespacedName :=
                           {| nn_Namespace := ""; nn_Name := team |} |}])
  | _ => Ret None
  end.

Definition SetupWithManager : Builder := {|
  b_For := NTenant;
  b_Owns := [NNamespace; NRoleBinding; NResourceQuota];
  b_Watches := [(NServiceClaim, tenantForClaim)];
  b_Named := "tenant";
|}.
End controller.
