(* ===== verification/ApiJson.v ===== *)
(** * The JSON form of the API types (api/v1alpha1)

    One codec per struct, from the struct tags of tenant_types.go and
    serviceclaim_types.go.  The library types write and read themselves, so
    their codecs are parameters.  What the API server stores and the informers
    read is this form, and the theorems say that nothing is lost in it. *)
From S2P Require Import Prelude Kube Json Api Platform TenantWebhook TenantController.

(** The codecs of the library types, as documented: a quantity is written in its
    canonical notation, which keeps its value and how it prints; the others are
    written in full.  An absent quantity is Go's zero value. *)
Class LibJson `{K : Kube} := {
  quantity_json : codec Quantity;
  ObjectMeta_json : codec ObjectMeta;
  Condition_json : codec Condition;
  (* the API server's test of the format date-time *)
  is_date_time : string -> bool;
  ListMeta_value : Type;
  ListMeta_json : codec ListMeta_value;
}.

Section codecs.
Context `{LJ : LibJson}.

(** [metav1.TypeMeta], whose members are those of the struct it is inlined in. *)
Definition TypeMeta_members (m : TypeMeta) : list (option (string * json)) :=
  [omitted str "kind" (Kind m); omitted str "apiVersion" (APIVersion m)].

Definition read_TypeMeta (fs : list (string * json)) : option TypeMeta :=
  kind ← Unmarshal str (field fs "kind");
  apiVersion ← Unmarshal str (field fs "apiVersion");
  Some {| Kind := kind; APIVersion := apiVersion |}.

(** The tag of both quantities says omitempty, which never omits a struct. *)
Definition ResourceRequests_json : codec ResourceRequests := {|
  Marshal r := JObject (present
    [always quantity_json "cpu" (CPU r); always quantity_json "memory" (Memory r);
     omitted (int 32) "pods" (Pods r)]);
  Unmarshal v :=
    fs ← members v;
    cpu ← Unmarshal quantity_json (field fs "cpu");
    memory ← Unmarshal quantity_json (field fs "memory");
    pods ← Unmarshal (int 32) (field fs "pods");
    Some {| CPU := cpu; Memory := memory; Pods := pods |};
  isZero _ := false;
  fits r := fits quantity_json (CPU r) /\ fits quantity_json (Memory r) /\
    fits (int 32) (Pods r);
|}.

Definition TenantSpec_json : codec TenantSpec := {|
  Marshal s := JObject (present [omitted (ptr ResourceRequests_json) "resources" (Resources s)]);
  Unmarshal v :=
    fs ← members v;
    resources ← Unmarshal (ptr ResourceRequests_json) (field fs "resources");
    Some {| Resources := resources |};
  isZero s := isNone (Resources s);
  fits s := fits (ptr ResourceRequests_json) (Resources s);
|}.

Definition TenantStatus_json : codec TenantStatus := {|
  Marshal s := JObject (present
    [omitted str "phase" (ts_Phase s);
     omitted (int 64) "observedGeneration" (ts_ObservedGeneration s);
     omitted (slice Condition_json) "conditions" (ts_Conditions s)]);
  Unmarshal v :=
    fs ← members v;
    phase ← Unmarshal str (field fs "phase");
    generation ← Unmarshal (int 64) (field fs "observedGeneration");
    conditions ← Unmarshal (slice Condition_json) (field fs "conditions");
    Some {| ts_Phase := phase; ts_ObservedGeneration := generation;
            ts_Conditions := conditions |};
  isZero s := isZero str (ts_Phase s) && isZero (int 64) (ts_ObservedGeneration s)
    && isZero (slice Condition_json) (ts_Conditions s);
  fits s := fits (int 64) (ts_ObservedGeneration s) /\
    fits (slice Condition_json) (ts_Conditions s);
|}.

Definition Tenant_json : codec (TypeMeta * Tenant) := {|
  Marshal '(m, t) := JObject (present (TypeMeta_members m ++
    [omitted ObjectMeta_json "metadata" (t_ObjectMeta t);
     always TenantSpec_json "spec" (t_Spec t);
     omitted TenantStatus_json "status" (t_Status t)]));
  Unmarshal v :=
    fs ← members v;
    m ← read_TypeMeta fs;
    metadata ← Unmarshal ObjectMeta_json (field fs "metadata");
    spec ← Unmarshal TenantSpec_json (field fs "spec");
    status ← Unmarshal TenantStatus_json (field fs "status");
    Some (m, {| t_ObjectMeta := metadata; t_Spec := spec; t_Status := status |});
  isZero _ := false;
  fits '(_, t) := fits ObjectMeta_json (t_ObjectMeta t) /\
    fits TenantSpec_json (t_Spec t) /\ fits TenantStatus_json (t_Status t);
|}.

Definition TenantList_json : codec (TypeMeta * ListMeta_value * list (TypeMeta * Tenant)) := {|
  Marshal '(m, lm, items) := JObject (present (TypeMeta_members m ++
    [omitted ListMeta_json "metadata" lm; always (slice Tenant_json) "items" items]));
  Unmarshal v :=
    fs ← members v;
    m ← read_TypeMeta fs;
    lm ← Unmarshal ListMeta_json (field fs "metadata");
    items ← Unmarshal (slice Tenant_json) (field fs "items");
    Some (m, lm, items);
  isZero _ := false;
  fits '(_, lm, items) := fits ListMeta_json lm /\ fits (slice Tenant_json) items;
|}.

Definition ServiceClaimSpec_json : codec ServiceClaimSpec := {|
  Marshal s := JObject (present
    [always str "team" (Team s); omitted str "image" (Image s);
     omitted (ptr (int 32)) "replicas" (Replicas s)]);
  Unmarshal v :=
    fs ← members v;
    team ← Unmarshal str (field fs "team");
    image ← Unmarshal str (field fs "image");
    replicas ← Unmarshal (ptr (int 32)) (field fs "replicas");
    Some {| Team := team; Image := image; Replicas := replicas |};
  isZero _ := false;
  fits s := fits (ptr (int 32)) (Replicas s);
|}.

Definition ServiceClaimStatus_json : codec ServiceClaimStatus := {|
  Marshal s := JObject (present
    [omitted str "phase" (cs_Phase s);
     omitted (int 64) "observedGeneration" (cs_ObservedGeneration s);
     omitted (slice Condition_json) "conditions" (cs_Conditions s)]);
  Unmarshal v :=
    fs ← members v;
    phase ← Unmarshal str (field fs "phase");
    generation ← Unmarshal (int 64) (field fs "observedGeneration");
    conditions ← Unmarshal (slice Condition_json) (field fs "conditions");
    Some {| cs_Phase := phase; cs_ObservedGeneration := generation;
            cs_Conditions := conditions |};
  isZero s := isZero str (cs_Phase s) && isZero (int 64) (cs_ObservedGeneration s)
    && isZero (slice Condition_json) (cs_Conditions s);
  fits s := fits (int 64) (cs_ObservedGeneration s) /\
    fits (slice Condition_json) (cs_Conditions s);
|}.

Definition ServiceClaim_json : codec (TypeMeta * ServiceClaim) := {|
  Marshal '(m, c) := JObject (present (TypeMeta_members m ++
    [omitted ObjectMeta_json "metadata" (sc_ObjectMeta c);
     always ServiceClaimSpec_json "spec" (sc_Spec c);
     omitted ServiceClaimStatus_json "status" (sc_Status c)]));
  Unmarshal v :=
    fs ← members v;
    m ← read_TypeMeta fs;
    metadata ← Unmarshal ObjectMeta_json (field fs "metadata");
    spec ← Unmarshal ServiceClaimSpec_json (field fs "spec");
    status ← Unmarshal ServiceClaimStatus_json (field fs "status");
    Some (m, {| sc_ObjectMeta := metadata; sc_Spec := spec; sc_Status := status |});
  isZero _ := false;
  fits '(_, c) := fits ObjectMeta_json (sc_ObjectMeta c) /\
    fits ServiceClaimSpec_json (sc_Spec c) /\ fits ServiceClaimStatus_json (sc_Status c);
|}.

Definition ServiceClaimList_json
  : codec (TypeMeta * ListMeta_value * list (TypeMeta * ServiceClaim)) := {|
  Marshal '(m, lm, items) := JObject (present (TypeMeta_members m ++
    [omitted ListMeta_json "metadata" lm; always (slice ServiceClaim_json) "items" items]));
  Unmarshal v :=
    fs ← members v;
    m ← read_TypeMeta fs;
    lm ← Unmarshal ListMeta_json (field fs "metadata");
    items ← Unmarshal (slice ServiceClaim_json) (field fs "items");
    Some (m, lm, items);
  isZero _ := false;
  fits '(_, lm, items) := fits ListMeta_json lm /\ fits (slice ServiceClaim_json) items;
|}.

(** ** What is kept *)

(** Equality up to the notation a quantity was written in. *)
#[export] Instance equiv_Quantity : Equiv Quantity := fun a b =>
  Cmp a b = 0%Z /\ QString a = QString b.
#[export] Instance equiv_ObjectMeta : Equiv ObjectMeta := (=).
#[export] Instance equiv_Condition : Equiv Condition := (=).
#[export] Instance equiv_TypeMeta : Equiv TypeMeta := (=).
#[export] Instance equiv_ListMeta : Equiv ListMeta_value := (=).
#[export] Instance equiv_ResourceRequests : Equiv ResourceRequests := fun a b =>
  CPU a ≡ CPU b /\ Memory a ≡ Memory b /\ Pods a = Pods b.
#[export] Instance equiv_TenantSpec : Equiv TenantSpec := fun a b =>
  Resources a ≡ Resources b.
#[export] Instance equiv_TenantStatus : Equiv TenantStatus := (=).
#[export] Instance equiv_Tenant : Equiv Tenant := fun a b =>
  t_ObjectMeta a = t_ObjectMeta b /\ t_Spec a ≡ t_Spec b /\ t_Status a = t_Status b.
#[export] Instance equiv_ServiceClaimSpec : Equiv ServiceClaimSpec := (=).
#[export] Instance equiv_ServiceClaimStatus : Equiv ServiceClaimStatus := (=).
#[export] Instance equiv_ServiceClaim : Equiv ServiceClaim := (=).
End codecs.

Class LibJsonLaws `{LJ : LibJson} : Prop := {
  #[global] lawful_quantity :: Lawful quantity_json;
  #[global] lawful_ObjectMeta :: Lawful ObjectMeta_json;
  #[global] lawful_Condition :: Lawful Condition_json;
  #[global] lawful_ListMeta :: Lawful ListMeta_json;
  quantity_absent : Unmarshal quantity_json JNull = Some zeroQuantity;
}.

(** ** Every codec keeps its values *)

Section lawful.
Context `{LJ : LibJson} `{LL : !LibJsonLaws} `{KL : !KubeLaws}.

#[export] Instance not_null_ResourceRequests : NotNull ResourceRequests_json.
Proof. done. Qed.

#[export] Instance leibniz_Condition : LeibnizEquiv Condition.
Proof. by intros ??. Qed.
#[export] Instance leibniz_TypeMeta : LeibnizEquiv TypeMeta.
Proof. by intros ??. Qed.
#[export] Instance leibniz_ObjectMeta : LeibnizEquiv ObjectMeta.
Proof. by intros ??. Qed.
#[export] Instance leibniz_ServiceClaimSpec : LeibnizEquiv ServiceClaimSpec.
Proof. by intros ??. Qed.
#[export] Instance leibniz_ServiceClaimStatus : LeibnizEquiv ServiceClaimStatus.
Proof. by intros ??. Qed.
#[export] Instance leibniz_ServiceClaim : LeibnizEquiv ServiceClaim.
Proof. by intros ??. Qed.

#[export] Instance lawful_ResourceRequests : Lawful ResourceRequests_json.
Proof.
  split; [|done]. intros r (H1 & H2 & H3).
  cbn [Marshal Unmarshal ResourceRequests_json members mbind option_bind]. reads_struct.
  by constructor; split; [|split].
Qed.

#[export] Instance lawful_TenantSpec : Lawful TenantSpec_json.
Proof.
  split.
  - intros s Hs. cbn [Marshal Unmarshal TenantSpec_json members mbind option_bind]. reads_struct.
    by constructor.
  - intros [[]] Hz; [done|]. by do 2 constructor.
Qed.

#[export] Instance lawful_TenantStatus : Lawful TenantStatus_json.
Proof.
  split.
  - intros [] [H1 H2].
    cbn [Marshal Unmarshal TenantStatus_json members mbind option_bind]. reads_struct. same_values.
  - intros [[] [] []] Hz; done.
Qed.

#[export] Instance lawful_ServiceClaimStatus : Lawful ServiceClaimStatus_json.
Proof.
  split.
  - intros [] [H1 H2].
    cbn [Marshal Unmarshal ServiceClaimStatus_json members mbind option_bind]. reads_struct. same_values.
  - intros [[] [] []] Hz; done.
Qed.

#[export] Instance lawful_ServiceClaimSpec : Lawful ServiceClaimSpec_json.
Proof.
  split; [|done]. intros [] H.
  cbn [Marshal Unmarshal ServiceClaimSpec_json members mbind option_bind]. reads_struct. same_values.
Qed.

(** The inlined members, whatever follows them under other names. *)
Lemma reads_TypeMeta m ms :
  field (present ms) "kind" = JNull -> field (present ms) "apiVersion" = JNull ->
  read_TypeMeta (present (TypeMeta_members m ++ ms)) ≡ Some m.
Proof.
  intros Hk Ha. unfold read_TypeMeta, TypeMeta_members. cbn [app].
  rewrite !field_omitted. cbn [String.eqb Ascii.eqb Bool.eqb andb]. rewrite Hk, Ha.
  reads_struct. destruct m. same_values.
Qed.

#[export] Instance lawful_Tenant : Lawful Tenant_json.
Proof.
  split; [|done]. intros [m t] (H1 & H2 & H3).
  cbn [Marshal Unmarshal Tenant_json members mbind option_bind].
  eapply bind_reads; [by apply reads_TypeMeta; reads_struct|]. intros m' Hm.
  unfold TypeMeta_members. cbn [app]. reads_struct.
  by constructor; split; [|split; [|split]].
Qed.

#[export] Instance lawful_ServiceClaim : Lawful ServiceClaim_json.
Proof.
  split; [|done]. intros [m []] (H1 & H2 & H3).
  cbn [Marshal Unmarshal ServiceClaim_json members mbind option_bind].
  eapply bind_reads; [by apply reads_TypeMeta; reads_struct|]. intros m' Hm.
  unfold TypeMeta_members. cbn [app]. reads_struct. same_values.
Qed.

#[export] Instance lawful_TenantList : Lawful TenantList_json.
Proof.
  split; [|done]. intros [[m lm] ts] [H1 H2].
  cbn [Marshal Unmarshal TenantList_json members mbind option_bind].
  eapply bind_reads; [by apply reads_TypeMeta; reads_struct|]. intros m' Hm.
  unfold TypeMeta_members. cbn [app]. reads_struct. by constructor.
Qed.

#[export] Instance lawful_ServiceClaimList : Lawful ServiceClaimList_json.
Proof.
  split; [|done]. intros [[m lm] cs] [H1 H2].
  cbn [Marshal Unmarshal ServiceClaimList_json members mbind option_bind].
  eapply bind_reads; [by apply reads_TypeMeta; reads_struct|]. intros m' Hm.
  unfold TypeMeta_members. cbn [app]. reads_struct. by constructor.
Qed.
End lawful.

(** ** Decisions do not depend on the notation *)

Section properties.
Context `{LJ : LibJson} `{LL : !LibJsonLaws} `{KL : !KubeLaws}.

#[export] Instance equivalence_Quantity : @Equivalence Quantity (≡).
Proof.
  split.
  - intros a. split; [apply Cmp_refl|done].
  - intros a b [H1 H2]. split; [by apply quantity_equiv_equivalence|done].
  - intros a b c [H1 H2] [H3 H4].
    split; [by apply (@transitivity _ quantity_equiv _ a b c)|congruence].
Qed.

#[export] Instance IsZero_Proper : Proper ((≡) ==> eq) IsZero.
Proof.
  intros a b [Hab _]. apply eq_bool_prop_intro. rewrite !Is_true_true, !IsZero_Cmp.
  split; intros H; [apply (@transitivity _ quantity_equiv _ b a)|
                    apply (@transitivity _ quantity_equiv _ a b)]; done.
Qed.

Lemma Cmp_same (a a' m : Quantity) : a ≡ a' -> (Cmp a m >? 0)%Z = (Cmp a' m >? 0)%Z.
Proof. intros [H _]. by apply Cmp_pos_equiv; [|reflexivity]. Qed.

#[export] Instance Exceeded_Proper l : Proper ((≡) ==> eq) (Exceeded l).
Proof.
  intros ? ? [r r' (Hc & Hm & Hp)|]; [|done]. cbn.
  by rewrite (Cmp_same _ _ _ Hc), (Cmp_same _ _ _ Hm), Hp, (proj2 Hc), (proj2 Hm).
Qed.

#[export] Instance Worsened_Proper l old : Proper ((≡) ==> eq) (Worsened l old).
Proof.
  intros ? ? [r r' (Hc & Hm & Hp)|]; [|done]. cbn.
  by rewrite !(Cmp_same _ _ _ Hc), !(Cmp_same _ _ _ Hm), Hp, (proj2 Hc), (proj2 Hm).
Qed.

#[export] Instance quotaHard_Proper : Proper ((≡) ==> (≡)) quotaHard.
Proof.
  intros ? ? [r r' (Hc & Hm & Hp)|]; [|done]. cbn.
  assert (Hz : IsZero (CPU r) = IsZero (CPU r')) by (by rewrite Hc).
  assert (Hz' : IsZero (Memory r) = IsZero (Memory r')) by (by rewrite Hm).
  rewrite Hz, Hz', Hp.
  destruct (IsZero (CPU r')), (IsZero (Memory r')), (Pods r' >? 0)%Z; cbn;
    repeat (apply insert_proper; [done|]); done.
Qed.

(** A codec that keeps its values up to [≡] reads some value. *)
Lemma reads_back {A} `{Equiv A} (c : codec A) `{!Lawful c} a :
  fits c a -> exists b, Unmarshal c (Marshal c a) = Some b /\ b ≡ a.
Proof. intros Ha. pose proof (round_trip a Ha) as Hr. inversion Hr. eauto. Qed.

(** C26: nothing a decision depends on is lost between a Tenant and its JSON: what
    is written is read back with the same type, metadata and status, both
    webhooks answer the same on it, denial messages included, and the quota
    computed from it has the same entries, equal in value and in print.  The
    spec itself need not be the same to the letter: the quantities come back in
    canonical notation, and a declaration of nothing still is a declaration. *)
Theorem tenant_survives_storage m t :
  fits Tenant_json (m, t) ->
  exists t', Unmarshal Tenant_json (Marshal Tenant_json (m, t)) = Some (m, t') /\
    t_ObjectMeta t' = t_ObjectMeta t /\ t_Status t' = t_Status t /\
    (Resources (t_Spec t') = None <-> Resources (t_Spec t) = None) /\
    (forall v, ValidateCreate v t' = ValidateCreate v t) /\
    (forall v old, ValidateUpdate v old t' = ValidateUpdate v old t) /\
    quotaHard (Resources (t_Spec t')) ≡ quotaHard (Resources (t_Spec t)).
Proof.
  intros Hf. destruct (reads_back Tenant_json (m, t) Hf) as ([m' t'] & E & Hm & Ho & Hs & Ht).
  cbn [fst snd] in *. apply leibniz_equiv in Hm as ->.
  exists t'. split; [exact E|]. change (Resources (t_Spec t') ≡ Resources (t_Spec t)) in Hs.
  split_and!; [done|done| | | |by rewrite Hs].
  - by inversion Hs.
  - intros v. unfold ValidateCreate, t_Name. by rewrite Ho, (Exceeded_Proper _ _ _ Hs).
  - intros v old. unfold ValidateUpdate, t_Name.
    by rewrite Ho, (Exceeded_Proper _ _ _ Hs), (Worsened_Proper _ _ _ _ Hs).
Qed.

(** A ServiceClaim is read back exactly as it was written.  In particular a claim
    for zero replicas stays one: the pointer's zero value, nil, is what is left
    out, not the number zero. *)
Lemma claim_reads_back m c :
  fits ServiceClaim_json (m, c) ->
  Unmarshal ServiceClaim_json (Marshal ServiceClaim_json (m, c)) = Some (m, c).
Proof.
  intros Hf. destruct (reads_back ServiceClaim_json (m, c) Hf) as (b & -> & [H1 H2]).
  destruct b. cbn in *. by rewrite H1, H2.
Qed.

(** A list is read back whole, in its order. *)
Lemma tenants_survive_storage m lm ts :
  fits TenantList_json (m, lm, ts) ->
  exists ts', Unmarshal TenantList_json (Marshal TenantList_json (m, lm, ts)) = Some (m, lm, ts') /\
    ts' ≡ ts.
Proof.
  intros Hf.
  destruct (reads_back TenantList_json (m, lm, ts) Hf) as ([[m' lm'] ts'] & E & [[H1 H2] H3]).
  apply leibniz_equiv in H1. cbn in *. exists ts'. by rewrite E, H1, H2.
Qed.

Lemma claims_survive_storage m lm cs :
  fits ServiceClaimList_json (m, lm, cs) ->
  Unmarshal ServiceClaimList_json (Marshal ServiceClaimList_json (m, lm, cs)) = Some (m, lm, cs).
Proof.
  intros Hf.
  destruct (reads_back ServiceClaimList_json (m, lm, cs) Hf) as ([[m' lm'] cs'] & E & [[H1 H2] H3]).
  apply leibniz_equiv in H1. cbn in *. rewrite E, H1, H2. do 2 f_equal.
  clear E Hf. induction H3 as [|x y xs ys [Hx1 Hx2] _ IH]; [done|].
  f_equal; [|by apply IH]. destruct x, y. cbn in *. by rewrite Hx1, Hx2.
Qed.
End properties.
