(* ===== verification/ConditionSchema.v ===== *)
(** * The schema of a condition

    metav1.Condition in the generated schemas of both kinds
    (config/crd/bases/*.yaml): the members, their bounds and patterns, and the
    key the list is told apart by; and which of the conditions a controller writes
    the API server therefore admits. *)
From S2P Require Import Prelude Regexp Kube Json Schema Api ApiJson.

(** ** The patterns *)

Definition alnum (a : Ascii.ascii) : bool := lower a || upper a || digit a.

(** [^[A-Za-z]([A-Za-z0-9_,:]*[A-Za-z0-9_])?$] *)
Definition reasonPattern : regexp :=
  RSeq (RChar (fun a => lower a || upper a))
    (ROpt (RSeq (RStar (RChar (fun a => alnum a || one_of "_,:" a)))
                (RChar (fun a => alnum a || one_of "_" a)))).

(** An optional prefix of labels with dots between them and a slash behind, then
    letters, digits, dashes, underscores and dots between two of the first two. *)
Definition conditionTypePattern : regexp :=
  RSeq
    (ROpt (RSeq labelPattern
      (RSeq (RStar (RSeq (RChar (one_of ".")) labelPattern)) (RChar (one_of "/")))))
    (RSeq (ROpt (RSeq (RChar alnum) (RStar (RChar (fun a => alnum a || one_of "-_." a)))))
          (RChar alnum)).

Example reason_texts :
  map (test reasonPattern) ["ClaimsRemain"; "A"; "No:tail_"; "9lives"; "ends:"; ""] =
  [true; true; true; false; false; false].
Proof. reflexivity. Qed.

Example type_texts :
  map (test conditionTypePattern) ["Ready"; "platform.idp.io/Ready"; "a"; "-a"; "/Ready"; "a-"] =
  [true; true; true; false; false; false].
Proof. reflexivity. Qed.

(** The three values of the enumeration. *)
Definition status_text (s : ConditionStatus) : string :=
  match s with
  | ConditionTrue => "True" | ConditionFalse => "False" | ConditionUnknown => "Unknown"
  end.

Definition is_status (t : string) : bool :=
  existsb (String.eqb t) (map status_text [ConditionTrue; ConditionFalse; ConditionUnknown]).

(** ** The schema *)

Section schema.
Context `{LJ : LibJson}.

Definition Condition_schema : schema := SObject
  [required "lastTransitionTime" (SText 0 None is_date_time);
   required "message" (SText 0 (Some 32768%Z) (fun _ => true));
   optional "observedGeneration" (SInteger 64 (Some 0%Z));
   required "reason" (SText 1 (Some 1024%Z) (test reasonPattern));
   required "status" (SText 0 None is_status);
   required "type" (SText 0 (Some 316%Z) (test conditionTypePattern))] [].

Definition Conditions_schema : schema := SList "type" Condition_schema.

(** The JSON form of a condition, as documented, its time being set, as it is by
    [SetStatusCondition]; and a decoder's ignorance of members it does not know. *)
Class ConditionJsonLaws : Prop := {
  Condition_written c : exists time, is_date_time time = true /\
    Marshal Condition_json c = JObject (present
      [always str "type" (c_Type c); always str "status" (status_text (c_Status c));
       omitted (int 64) "observedGeneration" (c_ObservedGeneration c);
       always str "lastTransitionTime" time;
       always str "reason" (c_Reason c); always str "message" (c_Message c)]);
  Condition_reads fs gs :
    Forall (fun k => field fs k = field gs k)
      ["lastTransitionTime"; "message"; "observedGeneration"; "reason"; "status"; "type"] ->
    Unmarshal Condition_json (JObject fs) = Unmarshal Condition_json (JObject gs);
  Condition_fits c : fits Condition_json c -> in_range 64 (c_ObservedGeneration c) = true;
}.

Context `{CL : !ConditionJsonLaws}.

(** Storing a condition changes nothing that is read of it. *)
Lemma condition_reads v :
  Unmarshal Condition_json (stored Condition_schema v) = Unmarshal Condition_json v.
Proof.
  destruct v as [|b|z|t|t|l|fs]; try reflexivity. unfold Condition_schema.
  match goal with |- context [stored (SObject ?ps ?rs) _] =>
    pose proof (field_leaf ps rs fs) as H; set (u := stored (SObject ps rs) (JObject fs)) in * end.
  assert (exists gs, u = JObject gs) as [gs E] by (by eexists). rewrite E in *.
  apply Condition_reads. repeat (apply Forall_cons; split);
    [..|constructor]; (eapply H; [compute_done|in_list|reflexivity]).
Qed.

Lemma conditions_read v :
  Unmarshal (slice Condition_json) (stored Conditions_schema v) =
  Unmarshal (slice Condition_json) v.
Proof.
  destruct v as [|b|z|t|t|l|fs]; try reflexivity. cbn [stored Conditions_schema Unmarshal slice].
  induction l as [|v l IH]; [done|]. cbn [map mapM mret mbind option_bind]. by rewrite condition_reads, IH.
Qed.

(** ** What is admitted of what is written *)

Definition sound_condition (c : Condition) : Prop :=
  (matches (String.list_ascii_of_string (c_Type c)) conditionTypePattern /\
   Z.of_nat (characters (c_Type c)) <= 316)%Z /\
  (matches (String.list_ascii_of_string (c_Reason c)) reasonPattern /\
   c_Reason c <> "" /\ Z.of_nat (characters (c_Reason c)) <= 1024)%Z /\
  (Z.of_nat (characters (c_Message c)) <= 32768)%Z /\ (0 <= c_ObservedGeneration c)%Z.

Lemma characters_positive s : (1 <=? characters s) = true <-> s <> "".
Proof. rewrite Nat.leb_le. destruct s; cbn; [split; [lia|done]|split; [done|lia]]. Qed.

Lemma is_status_text s : is_status (status_text s) = true.
Proof. by destruct s. Qed.

Lemma condition_admitted c : fits Condition_json c ->
  admitted Condition_schema (Marshal Condition_json c) = true <-> sound_condition c.
Proof.
  intros Hf%Condition_fits. destruct (Condition_written c) as (time & Ht & ->).
  unfold sound_condition. rewrite <- !test_spec, <- characters_positive. unfold admitted, omitted.
  cbn [isZero int]. destruct (Z.eqb_spec 0 (c_ObservedGeneration c)) as [E|E];
    cbn -[test characters is_status is_date_time Nat.leb in_range Z.leb Z.of_nat];
    rewrite Ht, is_status_text, ?Hf; cbn -[test characters Nat.leb Z.leb Z.of_nat];
    rewrite ?andb_true_iff, ?Z.leb_le; intuition lia.
Qed.

(** The conditions a client writes are admitted if each is, and none has the type
    of another. *)
Lemma conditions_admitted cs : fits (slice Condition_json) cs ->
  admitted Conditions_schema (Marshal (slice Condition_json) cs) = true <->
  Forall sound_condition cs /\ NoDup (map c_Type cs).
Proof.
  intros Hf. cbn [Marshal slice]. unfold Conditions_schema. rewrite list_admitted.
  assert (Hk : map (key_of "type") (map (stored Condition_schema) (map (Marshal Condition_json) cs)) =
    map c_Type cs).
  { clear Hf. induction cs as [|c cs IH]; [done|]. cbn [map]. rewrite IH. f_equal.
    destruct (Condition_written c) as (time & _ & ->). unfold key_of, Condition_schema.
    rewrite (field_leaf _ _ _ "type" true (SText 0 (Some 316%Z) (test conditionTypePattern)))
      by (reflexivity || compute_done || in_list). by reads_struct. }
  rewrite Hk. clear Hk.
  assert (Ha : Forall (fun v => admitted Condition_schema v = true) (map (Marshal Condition_json) cs) <->
    Forall sound_condition cs).
  { rewrite Forall_map. split; intros H; induction H as [|c cs Hc _ IH]; constructor;
      apply Forall_cons in Hf as [Hc' Hf]; try (by apply IH); by apply condition_admitted. }
  by rewrite Ha.
Qed.
End schema.
