(* ===== verification/TenantControllerSpec.v ===== *)
(** * What the Tenant reconciler promises

    Theorems about every run of [TenantController.Reconcile], whatever the API
    answers: ordered teardown, errors that are never read as success, the
    creation order, and the status written back. *)
From S2P Require Import Prelude Prog Kube Api Client Finalizers Indexes.
From S2P Require Import TenantController Sample SampleApi.
Open Scope prog_scope.

Section spec.
Context `{K : Kube}.

(** ** Reading a trace *)

(** The statuses sent to the API, in order. *)
Definition statusPatch (e : event call) : option TenantStatus :=
  match e with
  | Ev c _ =>
      match c with
      | PatchStatus k obj _ =>
          match k in kind T return T -> option TenantStatus with
          | KTenant => fun t => Some (t_Status t)
          | _ => fun _ => None
          end obj
      | _ => None
      end
  end.

Definition statuses (tr : list (event call)) : list TenantStatus :=
  omap statusPatch tr.

(** A run of the three steps: in order, up to the first failure. *)
Inductive step_run : list (kindName * option error) -> option error -> Prop :=
| sr_ns e : step_run [(NNamespace, Some e)] (Some e)
| sr_rb e : step_run [(NNamespace, None); (NRoleBinding, Some e)] (Some e)
| sr_quota q :
    step_run [(NNamespace, None); (NRoleBinding, None); (NResourceQuota, q)] q.

Definition cond_is (st : TenantStatus) (t : string) (s : ConditionStatus)
    (reason message : string) (gen : Z) : Prop :=
  exists c, findCondition (ts_Conditions st) t = Some c /\ c_Status c = s /\
    c_Reason c = reason /\ c_Message c = message /\ c_ObservedGeneration c = gen.

(** [t'] is [t] up to its status. *)
Definition same_object (t t' : Tenant) : Prop :=
  t_ObjectMeta t' = t_ObjectMeta t /\ t_Spec t' = t_Spec t.

Context `{L : !KubeLaws}.

(** ** Lemmas *)

Lemma ensureNamespace_runs r t ns tr t' err :
  runs (ensureNamespace r t ns) tr (t', err) ->
  steps tr = [(NNamespace, err)] /\ statuses tr = [] /\ same_object t t' /\
  IsStatusConditionTrue (ts_Conditions (t_Status t')) ConditionNamespaceReady
    = isNone err.
Proof.
  intros H. unfold ensureNamespace in H. remember (t', err) as out eqn:Eo.
  run_steps; injection Eo as <- <-; cbn; by simpl_conditions.
Qed.

Lemma ensureRoleBinding_runs r t ns tr t' err :
  runs (ensureRoleBinding r t ns) tr (t', err) ->
  steps tr = [(NRoleBinding, err)] /\ statuses tr = [] /\ same_object t t' /\
  IsStatusConditionTrue (ts_Conditions (t_Status t')) ConditionRBACReady
    = isNone err /\
  IsStatusConditionTrue (ts_Conditions (t_Status t')) ConditionNamespaceReady =
  IsStatusConditionTrue (ts_Conditions (t_Status t)) ConditionNamespaceReady.
Proof.
  intros H. unfold ensureRoleBinding in H. remember (t', err) as out eqn:Eo.
  run_steps; injection Eo as <- <-; cbn; by simpl_conditions.
Qed.

Lemma ensureQuota_runs r t ns tr t' err :
  runs (ensureQuota r t ns) tr (t', err) ->
  steps tr = [(NResourceQuota, err)] /\ statuses tr = [] /\ same_object t t' /\
  IsStatusConditionTrue (ts_Conditions (t_Status t')) ConditionQuotaApplied
    = isNone err /\
  IsStatusConditionTrue (ts_Conditions (t_Status t')) ConditionNamespaceReady =
  IsStatusConditionTrue (ts_Conditions (t_Status t)) ConditionNamespaceReady /\
  IsStatusConditionTrue (ts_Conditions (t_Status t')) ConditionRBACReady =
  IsStatusConditionTrue (ts_Conditions (t_Status t)) ConditionRBACReady.
Proof.
  intros H. unfold ensureQuota in H. remember (t', err) as out eqn:Eo.
  run_steps; injection Eo as <- <-; cbn; rewrite ?E0; by simpl_conditions.
Qed.

Lemma reconcileResources_runs r t tr t' err :
  runs (reconcileResources r t) tr (t', err) ->
  step_run (steps tr) err /\ statuses tr = [] /\ same_object t t' /\
  IsStatusConditionTrue (ts_Conditions (t_Status t')) ConditionNamespaceReady
  && IsStatusConditionTrue (ts_Conditions (t_Status t')) ConditionRBACReady
  && IsStatusConditionTrue (ts_Conditions (t_Status t')) ConditionQuotaApplied
  = isNone err.
Proof.
  intros H. unfold reconcileResources in H. remember (t', err) as out eqn:Eo.
  apply runs_bind in H as (tr1 & [t1 e1] & tr2 & -> & H1 & H).
  apply ensureNamespace_runs in H1 as (S1 & U1 & [O1 P1] & C1).
  destruct e1 as [e1|]; [run_steps; injection Eo as <- <-|].
  { unfold steps, statuses in *. rewrite !omap_app, S1, U1, C1. cbn.
    repeat split; auto using step_run. }
  apply runs_bind in H as (tr3 & [t2 e2] & tr4 & -> & H2 & H).
  apply ensureRoleBinding_runs in H2 as (S2 & U2 & [O2 P2] & C2 & N2).
  destruct e2 as [e2|]; [run_steps; injection Eo as <- <-|].
  { unfold steps, statuses in *. rewrite !omap_app, S1, S2, U1, U2, C2, N2, C1. cbn.
    repeat split; try congruence. constructor. }
  subst out. apply ensureQuota_runs in H as (S3 & U3 & [O3 P3] & C3 & N3 & R3).
  unfold steps, statuses in *.
  rewrite !omap_app, S1, S2, S3, U1, U2, U3, C3, N3, R3, C2, N2, C1. cbn.
  repeat split; try congruence. constructor.
Qed.

(** The aggregate: phase, generation and Ready follow the three conditions. *)
Lemma aggregateReady_status t :
  let st := t_Status t in
  let st' := t_Status (aggregateReady t) in
  let ready := IsStatusConditionTrue (ts_Conditions st) ConditionNamespaceReady
    && IsStatusConditionTrue (ts_Conditions st) ConditionRBACReady
    && IsStatusConditionTrue (ts_Conditions st) ConditionQuotaApplied in
  ts_Phase st' = (if ready then PhaseReady else PhasePending) /\
  ts_ObservedGeneration st' = om_Generation (t_ObjectMeta t) /\
  IsStatusConditionTrue (ts_Conditions st') ConditionReady = ready /\
  same_object t (aggregateReady t).
Proof.
  cbn zeta. unfold aggregateReady.
  destruct (IsStatusConditionTrue _ ConditionNamespaceReady && _ && _);
    cbn; by simpl_conditions.
Qed.

(** ** Properties *)

(** C14: whatever the API answers, a reconcile of a Tenant that is not being
    deleted runs its creation steps in the order namespace, RoleBinding, quota
    and stops at the first failure; it then writes at most one status, whose
    phase is Ready, whose Ready condition is True and whose generation is the
    Tenant's, exactly when all three steps succeeded in this very reconcile,
    and Pending with Ready not True otherwise; and the error of the failed step
    is the one returned, even when the status write fails too. *)
Theorem live_reconcile_status r req tenant e0 tr' res err :
  runs (Reconcile r req) (e0 :: tr') (res, err) ->
  fetched KTenant tenant e0 ->
  TimeIsZero (om_DeletionTimestamp (t_ObjectMeta tenant)) = true ->
  (steps tr' = [] /\ statuses tr' = [] /\ exists e, err = Some e) \/
  (exists serr st, step_run (steps tr') serr /\ statuses tr' = [st] /\
     ts_Phase st = (if isNone serr then PhaseReady else PhasePending) /\
     IsStatusConditionTrue (ts_Conditions st) ConditionReady = isNone serr /\
     (forall e, serr = Some e -> err = Some e) /\
     exists t1, ts_ObservedGeneration st = om_Generation (t_ObjectMeta t1) /\
       (ContainsFinalizer (t_ObjectMeta tenant) TenantFinalizer = true -> t1 = tenant)).
Proof.
  intros H Hf Hlive. unfold Reconcile in H. cbn [runs bind trigger] in H.
  destruct H as (x & tr & [= -> <-] & H). cbn in Hf. subst x.
  rewrite Hlive in H. cbn [negb] in H. unfold reconcileLive in H.
  apply runs_bind in H as (tr1 & [t1 e1] & tr2 & -> & H1 & H).
  assert (Hfin : steps tr1 = [] /\ statuses tr1 = [] /\
    (ContainsFinalizer (t_ObjectMeta tenant) TenantFinalizer = true -> t1 = tenant)).
  { clear H. unfold ensureFinalizer in H1. remember (t1, e1) as o eqn:Eo.
    run_steps; injection Eo as <- <-; try done.
    all: split; [done|split; [done|]]; cbn in *; congruence. }
  destruct Hfin as (S1 & U1 & F1). unfold steps, statuses in *.
  rewrite !omap_app, S1, U1. cbn [app].
  remember (res, err) as out eqn:Eo.
  destruct e1 as [e1|]; [left; run_steps; injection Eo as <- <-; eauto|].
  right. apply runs_bind in H as (tr3 & [t2 serr] & tr4 & -> & H2 & H).
  apply reconcileResources_runs in H2 as (S2 & U2 & [O2 _] & Hr).
  pose proof (aggregateReady_status t2) as (A1 & A2 & A3 & _).
  rewrite Hr in A1, A3. rewrite O2 in A2.
  exists serr, (t_Status (aggregateReady t2)). unfold steps, statuses in *.
  rewrite !omap_app, U2.
  run_steps; injection Eo as <- <-; cbn; rewrite ?app_nil_r;
    (repeat split; [exact S2|exact A1|exact A3|congruence|eauto]).
Qed.

(** The deletion of the team namespace, accepted or not needed any more. *)
Definition namespace_deleted (name : string) (e : event call) : Prop :=
  match e with
  | Ev c r =>
      match c in call R return R -> Prop with
      | Delete k obj _ => fun r => kindOf k = NNamespace /\
          om_Name (kindMeta k obj) = name /\ (r = None \/ IsNotFound r = true)
      | _ => fun _ => False
      end r
  end.

(** The two steps of a Tenant's teardown. *)
Definition tears_down (e : event call) : Prop :=
  (exists n, deletes NNamespace n e) \/ releases NTenant TenantFinalizer e.

(** The teardown order of one run, for the team of a request. *)
Definition teardown_order (team : string) (tr : list (event call)) : Prop :=
  before (lists team []) tears_down tr /\
  before status_written tears_down tr /\
  before (namespace_deleted (teamNamespace team))
         (releases NTenant TenantFinalizer) tr /\
  Forall (fun e => forall n, deletes NNamespace n e -> n = teamNamespace team) tr.

Lemma quiet_teardown_order team tr :
  Forall (fun e => ~ tears_down e) tr -> teardown_order team tr.
Proof.
  intros H. repeat split; try by apply before_never.
  - apply before_never. eapply Forall_impl; [exact H|]. unfold tears_down. tauto.
  - eapply Forall_impl; [exact H|]. intros e He n Hd. destruct He. left. eauto.
Qed.

(** The calls of the live branch, whatever is answered. *)
Lemma live_calls (r : TenantReconciler) (tenant : Tenant) :
  all_calls (fun R c => match c with
    | CreateOrUpdate _ _ _ | PatchStatus _ _ _ => True
    | PatchObject k obj p => kindOf k = NTenant /\
        ContainsFinalizer (kindMeta k (patch_from _ p)) TenantFinalizer = false
    | Delete k _ _ => kindOf k = NResourceQuota
    | _ => False end) (reconcileLive r tenant).
Proof.
  unfold reconcileLive, ensureFinalizer, reconcileResources, ensureNamespace,
    ensureRoleBinding, ensureQuota.
  walk ltac:(first [done|split; [done|assumption]]).
Qed.

Lemma live_quiet r t tr out :
  runs (reconcileLive r t) tr out ->
  Forall (fun e => ~ tears_down e /\ forall err, ~ list_failed err e) tr.
Proof.
  intros H. pose proof (all_calls_runs _ _ _ _ (live_calls r t) H) as Hf.
  eapply Forall_impl; [exact Hf|]. intros [R c x] Hc. cbn in Hc.
  destruct c; try done; (split; [|by intros err []]);
    intros [[n Hd]|Hd]; cbn in *; try done; destruct Hd; intuition congruence.
Qed.

Lemma live_quiet_lists r t tr out :
  runs (reconcileLive r t) tr out ->
  Forall (fun e => forall v cs, ~ lists v cs e) tr.
Proof.
  intros H. pose proof (all_calls_runs _ _ _ _ (live_calls r t) H) as Hf.
  eapply Forall_impl; [exact Hf|]. intros [R c x] Hc.
  destruct c; try done; by intros v cs [].
Qed.

(** C7: whatever the API answers, the namespace deletion and the release of
    the Tenant finalizer come only after a list of the team's claims was
    answered with none and after the status was written; the finalizer is
    released only after the deletion of exactly [team-<name>] was accepted or
    found nothing; and no other namespace is ever deleted. *)
Theorem namespace_outlives_claims r req tr out :
  runs (Reconcile r req) tr out -> Forall answer_named tr ->
  teardown_order (nn_Name (req_NamespacedName req)) tr.
Proof.
  intros H Hn. unfold Reconcile in H. cbn [runs bind trigger] in H.
  destruct H as (x & tr0 & -> & H). apply Forall_cons in Hn as [Hn0 Hn].
  destruct x as [e|t]; [run_steps; apply quiet_teardown_order; repeat constructor;
    by intros [[? []]|[]]|].
  cbn in Hn0. destruct (negb (TimeIsZero _)).
  - (* being deleted *)
    rewrite <- Hn0. fold (t_Name t). unfold reconcileDelete in H. run_steps.
    all: try (apply quiet_teardown_order; repeat constructor; by intros [[? []]|[]]).
    all: destruct l; [|discriminate].
    all: release_cases.
    all: cbn in Hn; repeat rewrite Forall_cons in Hn; destruct Hn as (_ & Hn1 & _);
      cbn in Hn1; fold (t_Name t0) (t_Name t) in Hn1; rewrite Hn1.
    all: repeat match goal with
      | E : negb (IsNotFound _) = false |- _ => apply negb_false_iff in E
      end.
    all: unfold teardown_order, tears_down; split_and!;
      [prove_before..|repeat constructor; cbn; naive_solver].
  - apply quiet_teardown_order. constructor; [by intros [[? []]|[]]|].
    apply live_quiet in H. eapply Forall_impl; [exact H|]. tauto.
Qed.


(** A failed list of claims is never read as "no claims remain": the error
    is returned for a retry, and the reconcile has written nothing. *)
Theorem failed_list_releases_nothing r req tr out err :
  runs (Reconcile r req) tr out -> Exists (list_failed err) tr ->
  out = (emptyResult, Some err) /\ Forall (fun e => event_writes e = false) tr.
Proof.
  intros H He. unfold Reconcile in H. cbn [runs bind trigger] in H.
  destruct H as (x & tr0 & -> & H). apply Exists_cons in He as [[]|He].
  destruct x as [e|t]; [run_steps; by apply Exists_nil in He|].
  destruct (negb (TimeIsZero _)).
  - unfold reconcileDelete in H. destruct (negb (ContainsFinalizer _ _));
      [run_steps; by apply Exists_nil in He|].
    cbn [runs bind trigger] in H. destruct H as (x & tr1 & -> & H).
    apply Exists_cons in He as [He|He].
    + cbn in He. subst x. run_steps. split; [done|]. by repeat constructor.
    + exfalso. run_steps;
      release_cases;
      repeat (apply Exists_cons in He as [He|He]; [by cbn in He|]);
      by apply Exists_nil in He.
  - exfalso. apply live_quiet in H. apply Exists_exists in He as (e & Hin & He).
    rewrite Forall_forall in H. by destruct (H e Hin) as [_ Hn]; apply (Hn err).
Qed.

Lemma remaining_named (claims : list ServiceClaim) c :
  c ∈ claims -> occurs (sc_Name c) (remainingMessage claims).
Proof.
  intros Hc. unfold remainingMessage. apply occurs_app_r, occurs_app_r.
  apply occurs_Join with (remainingEntry c); [by apply list_elem_of_fmap_2|].
  unfold remainingEntry. auto with idp.
Qed.

(** C17: while a listed claim remains, the Tenant's teardown does not move: after
    the list comes one status write and nothing else, so no namespace is deleted
    and the finalizer stays.  The status has phase Terminating, ClaimsDrained
    False and Ready False, and a message that names every remaining claim.  If
    the write succeeds the Tenant is retried in 15 seconds; if it fails, the
    error returned is the one the write was answered. *)
Theorem blocked_while_claims_remain r req t e0 tr claims out :
  runs (Reconcile r req) (e0 :: tr) out -> fetched KTenant t e0 ->
  Exists (lists (t_Name t) claims) tr -> claims <> [] ->
  Forall (fun e => ~ tears_down e) tr /\
  (forall c, c ∈ claims -> occurs (sc_Name c) (remainingMessage claims)) /\
  exists e1 t1 p, lists (t_Name t) claims e1 /\
    tr = [e1; Ev (PatchStatus KTenant t1 (MergeFrom t)) p] /\
    out = match p with
          | inl e => (emptyResult, Some e)
          | inr _ => ({| RequeueAfter := 15 * Second |}, None)
          end /\
    t_ObjectMeta t1 = t_ObjectMeta t /\ t_Spec t1 = t_Spec t /\
    let st := t_Status t1 in
    statuses tr = [st] /\ ts_Phase st = PhaseTerminating /\
    IsStatusConditionTrue (ts_Conditions st) ConditionReady = false /\
    cond_is st ConditionReady ConditionFalse "TerminationBlocked"
      (remainingMessage claims) (om_Generation (t_ObjectMeta t)) /\
    cond_is st ConditionClaimsDrained ConditionFalse "ClaimsRemain"
      (remainingMessage claims) (om_Generation (t_ObjectMeta t)).
Proof.
  intros H Hf Hl Hne. unfold Reconcile in H. cbn [runs bind trigger] in H.
  destruct H as (x & tr0 & [= -> <-] & H). cbn in Hf. subst x.
  destruct (negb (TimeIsZero _)).
  2: { exfalso. apply live_quiet_lists in H. apply Exists_exists in Hl as (e & Hin & He).
       rewrite Forall_forall in H. by apply (H e Hin _ _ He). }
  unfold reconcileDelete in H. destruct (negb (ContainsFinalizer _ _));
    [run_steps; by apply Exists_nil in Hl|].
  cbn [runs bind trigger] in H. destruct H as (x & tr1 & -> & H).
  apply Exists_cons in Hl as [Hl|Hl].
  - pose proof Hl as (_ & _ & ->).
    replace (0 <? length claims) with true in H by (by destruct claims).
    run_steps; (split; [repeat constructor; by intros [[? []]|[]]|]);
      (split; [apply remaining_named|]);
      eexists _, _, _; (split; [exact Hl|]); (split; [reflexivity|]);
      do 3 (split; [reflexivity|]); unfold cond_is; cbn; simpl_conditions;
      repeat split; eexists; repeat split.
  - exfalso. run_steps;
      release_cases;
      repeat (apply Exists_cons in Hl as [Hl|Hl]; [by cbn in Hl|]);
      by apply Exists_nil in Hl.
Qed.

(** A call that was answered without an error; for a deletion, an absent object
    is no error. *)
Definition succeeds (e : event call) : Prop :=
  match e with
  | Ev c r =>
      match c in call R return R -> Prop with
      | Get _ _ _ => fun r => exists x, r = inr x
      | ListClaims _ _ _ => fun r => exists x, r = inr x
      | CreateOrUpdate _ _ _ => fun r => exists x, r = inr x
      | PatchObject _ _ _ => fun r => exists x, r = inr x
      | PatchStatus _ _ _ => fun r => exists x, r = inr x
      | Delete _ _ _ => fun r => r = None \/ IsNotFound r = true
      end r
  end.

(** The answer to a status write still shows the finalizer. *)
Definition still_held (e : event call) : Prop :=
  match e with
  | Ev c r =>
      match c in call R return R -> Prop with
      | PatchStatus k _ _ => fun r =>
          forall o, r = inr o -> ContainsFinalizer (kindMeta k o) TenantFinalizer = true
      | _ => fun _ => True
      end r
  end.

(** A drained Tenant goes: when the list of claims is answered with none and
    every call succeeds, one reconcile of a Tenant that is being deleted and
    holds the finalizer deletes the namespace, releases the finalizer, and ends
    without error or retry. *)
Theorem drained_tenant_goes r req t e0 tr out :
  runs (Reconcile r req) (e0 :: tr) out -> fetched KTenant t e0 ->
  TimeIsZero (om_DeletionTimestamp (t_ObjectMeta t)) = false ->
  ContainsFinalizer (t_ObjectMeta t) TenantFinalizer = true ->
  Exists (lists (t_Name t) []) tr ->
  Forall (fun e => succeeds e /\ still_held e /\ answer_named e) tr ->
  out = (emptyResult, None) /\
  Exists (namespace_deleted (teamNamespace (t_Name t))) tr /\
  Exists (releases NTenant TenantFinalizer) tr.
Proof.
  intros H Hf Hdt Hfin Hl Hs. unfold Reconcile in H. cbn [runs bind trigger] in H.
  destruct H as (x & tr0 & [= -> <-] & H). cbn in Hf. subst x.
  rewrite Hdt in H. unfold reconcileDelete in H. rewrite Hfin in H.
  cbn [negb runs bind trigger] in H. destruct H as (x & tr1 & -> & H).
  apply Exists_cons in Hl as [(_ & _ & ->)|Hl].
  - cbn [length Nat.ltb Nat.leb runs bind trigger] in H.
    destruct H as (x & tr2 & -> & H). do 2 apply Forall_cons in Hs as [? Hs].
    destruct H1 as ([o ->] & Hheld & Hname). specialize (Hheld o eq_refl). cbn in Hheld, Hname.
    cbn [runs bind trigger] in H. destruct H as (d & tr3 & -> & H).
    apply Forall_cons in Hs as [(Hd & _) Hs]. cbn in Hd. fold (t_Name o) (t_Name t) in Hname.
    assert (Hrel : runs (let* ' (_, rerr) := releaseFinalizer o TenantFinalizer in
                         Ret (emptyResult, rerr)) tr3 out).
    { destruct d as [e|]; [|exact H]. by destruct Hd as [|Hd]; [|rewrite Hd in H]. }
    unfold releaseFinalizer in Hrel. cbn [GetMeta Tenant_ClientObject] in Hrel.
    rewrite Hheld in Hrel. cbn in Hrel. destruct Hrel as (p & tr4 & -> & Hrel).
    apply Forall_cons in Hs as [([o' ->] & _) _]. cbn in Hrel. destruct Hrel as [-> ->].
    split; [done|]. split; [do 2 right; left; cbn; by rewrite Hname|].
    do 3 right. by left.
  - exfalso. run_steps; release_cases;
      repeat (apply Exists_cons in Hl as [Hl|Hl]; [by cbn in Hl|]);
      by apply Exists_nil in Hl.
Qed.

(** The calls that create or delete what a Tenant owns. *)
Definition provisions (e : event call) : Prop := exists s, stepResult e = Some s.

(** No owned object is created, updated or deleted before the Tenant is
    known to carry its finalizer: either it was read with it, or the patch that
    adds it succeeded. *)
Theorem finalizer_before_side_effects r req tr out :
  runs (Reconcile r req) tr out ->
  before (carries NTenant TenantFinalizer) provisions tr.
Proof.
  intros H. unfold Reconcile in H. cbn [runs bind trigger] in H.
  destruct H as (x & tr0 & -> & H).
  destruct x as [e|t];
    [run_steps; apply before_never; repeat constructor; by intros [? [=]]|].
  split; [by intros [? [=]]|].
  destruct (negb (TimeIsZero _)).
  - right. unfold reconcileDelete in H. run_steps;
      release_cases;
       apply before_never; repeat constructor; by intros [? [=]].
  - destruct (ContainsFinalizer (t_ObjectMeta t) TenantFinalizer) eqn:Ef;
      [left; cbn; eauto|right].
    unfold reconcileLive, ensureFinalizer in H. cbn in H. rewrite Ef in H. cbn in H.
    destruct H as (x & tr1 & -> & H). split; [by intros [? [=]]|].
    destruct x as [e|t1]; [|left; cbn; eauto]. run_steps. by right.
Qed.

(** A reconcile makes at most six calls to the API, whatever it is
    answered; there is no retry loop inside it. *)
Theorem reconcile_bounded r req : at_most 6 (Reconcile r req).
Proof.
  unfold Reconcile, reconcileDelete, reconcileLive, ensureFinalizer,
    releaseFinalizer, reconcileResources, ensureNamespace, ensureRoleBinding,
    ensureQuota.
  walk done.
Qed.

(** ** The objects a Tenant owns *)

(** The quota of a namespace has exactly these entries: requests.cpu for a
    non-zero cpu, requests.memory and limits.memory with the same figure for a
    non-zero memory, pods for a positive count; no limits.cpu, ever, and
    nothing at all for a Tenant that declares no resources. *)
Theorem quotaHard_entries (res : option ResourceRequests) (k : string) :
  quotaHard res !! k =
  match res with
  | None => None
  | Some r =>
      if String.eqb k "requests.cpu" then
        if IsZero (CPU r) then None else Some (CPU r)
      else if String.eqb k "requests.memory" || String.eqb k "limits.memory" then
        if IsZero (Memory r) then None else Some (Memory r)
      else if String.eqb k "pods" then
        if (0 <? Pods r)%Z then Some (NewQuantity (Pods r) DecimalSI) else None
      else None
  end.
Proof.
  destruct res as [r|]; [|apply lookup_empty]. unfold quotaHard.
  rewrite Z.gtb_ltb.
  unfold ResourceRequestsCPU, ResourceRequestsMemory, ResourceLimitsMemory, ResourcePods.
  destruct (String.eqb_spec k "requests.cpu") as [->|H1];
    [|destruct (String.eqb_spec k "requests.memory") as [->|H2];
      [|destruct (String.eqb_spec k "limits.memory") as [->|H3];
        [|destruct (String.eqb_spec k "pods") as [->|H4]]]];
    destruct (IsZero (CPU r)), (IsZero (Memory r)), (0 <? Pods r)%Z; cbn;
    by simplify_map_eq.
Qed.

(** Each mutate function makes the Tenant the controller of the object and
    leaves the rest of its metadata alone; the RoleBinding binds the group to
    the built-in edit ClusterRole with that single subject, replacing whatever
    was there; the quota's hard limits are exactly the computed ones. *)
Theorem mutations_set_desired_state r t group hard :
  (forall ns ns', mutateNamespace r t ns = inr ns' ->
     owned_by TenantKind (t_ObjectMeta t) (ns_ObjectMeta ns) (ns_ObjectMeta ns')) /\
  (forall rb rb', mutateRoleBinding r t group rb = inr rb' ->
     owned_by TenantKind (t_ObjectMeta t) (rb_ObjectMeta rb) (rb_ObjectMeta rb') /\
     rb_RoleRef rb' = {| rr_APIGroup := "rbac.authorization.k8s.io";
                         rr_Kind := "ClusterRole"; rr_Name := "edit" |} /\
     rb_Subjects rb' = [{| s_Kind := "Group";
                           s_APIGroup := "rbac.authorization.k8s.io";
                           s_Name := group |}]) /\
  (forall rq rq', mutateQuota r t hard rq = inr rq' ->
     owned_by TenantKind (t_ObjectMeta t) (rq_ObjectMeta rq) (rq_ObjectMeta rq') /\
     rq_Hard rq' = hard).
Proof.
  unfold mutateNamespace, mutateRoleBinding, mutateQuota, owned_by.
  split_and!; intros o o'.
  all: destruct (SetControllerReference _ _ _ _) as [e|m] eqn:E; [done|].
  all: intros [= <-]; apply SetControllerReference_ok in E as [-> Hr]; done.
Qed.

(** An object another object controls is refused: the mutate function fails
    and gives nothing to write.  An object with no controller is adopted. *)
Theorem foreign_objects_refused r t group hard :
  (forall ns, foreign_owner TenantKind (t_ObjectMeta t) (ns_ObjectMeta ns) ->
     exists e, mutateNamespace r t ns = inl e) /\
  (forall rb, foreign_owner TenantKind (t_ObjectMeta t) (rb_ObjectMeta rb) ->
     exists e, mutateRoleBinding r t group rb = inl e) /\
  (forall rq, foreign_owner TenantKind (t_ObjectMeta t) (rq_ObjectMeta rq) ->
     exists e, mutateQuota r t hard rq = inl e) /\
  (forall ns, controllerOf (ns_ObjectMeta ns) = None ->
     om_Namespace (t_ObjectMeta t) = "" ->
     exists ns', mutateNamespace r t ns = inr ns').
Proof.
  unfold mutateNamespace, mutateRoleBinding, mutateQuota. split_and!.
  1-3: intros o (ref & Hc & Hd);
    destruct (SetControllerReference_owned (tr_Scheme r) TenantKind
      (t_ObjectMeta t) _ _ Hc Hd) as [e He]; rewrite He; eauto.
  intros ns Hc Hn.
  destruct (SetControllerReference_free (tr_Scheme r) TenantKind
    (t_ObjectMeta t) _ Hc Hn) as [m Hm]. rewrite Hm. eauto.
Qed.

(** The mutate functions are idempotent: applied to their own result they
    change nothing, so a reconcile of an unchanged Tenant finds its objects in
    the desired state and does not trigger itself again. *)
Theorem mutations_idempotent r t group hard :
  (forall ns ns', mutateNamespace r t ns = inr ns' ->
     mutateNamespace r t ns' = inr ns') /\
  (forall rb rb', mutateRoleBinding r t group rb = inr rb' ->
     mutateRoleBinding r t group rb' = inr rb') /\
  (forall rq rq', mutateQuota r t hard rq = inr rq' ->
     mutateQuota r t hard rq' = inr rq').
Proof.
  unfold mutateNamespace, mutateRoleBinding, mutateQuota.
  split_and!; intros o o'.
  all: destruct (SetControllerReference _ _ _ _) as [e|m] eqn:E; [done|].
  all: intros [= <-]; cbn; by rewrite (SetControllerReference_idem _ _ _ _ _ E).
Qed.
End spec.

(** ** Witnesses: runs against the sample API server *)

Section witnesses.
#[local] Existing Instance sample_kube.
#[local] Existing Instance sample_kube_laws.

Definition the_reconciler : TenantReconciler := {| tr_Scheme := [] |}.
Definition resources_4_8 : ResourceRequests := Build_ResourceRequests (K:=sample_kube) 4000%Z 8000%Z 20.

(** A fresh Tenant; a Tenant being deleted; the same with a claim left. *)
Definition fresh : Tenant := sample_tenant "payments" (Some resources_4_8) [] None.
Definition fresh_cluster : cluster := put KTenant fresh empty_cluster.
Definition dying : Tenant := sample_tenant "payments" None [TenantFinalizer] (Some 5%Z).
Definition dying_cluster : cluster :=
  put KNamespace {| ns_ObjectMeta := NewObjectMeta "team-payments" "" |}
    (put KTenant dying empty_cluster).
Definition last_claim : ServiceClaim :=
  sample_claim "api" "payments" "nginx:1.25" (Some 1%Z) [ServiceClaimFinalizer] None.
Definition blocked_cluster : cluster := put KServiceClaim last_claim dying_cluster.
Definition reconcile_payments : prog call (Result * option error) :=
  Reconcile the_reconciler (request "payments").

Example fresh_gets_everything :
  let s := after reconcile_payments fresh_cluster in
  rq_Hard <$> (cl_quotas s !! ("team-payments", "team-quota")) =
    Some (quotaHard (Some resources_4_8)) /\
  ts_Phase ∘ t_Status <$> (cl_tenants s !! ("", "payments")) = Some PhaseReady.
Proof. split; vm_compute; reflexivity. Qed.

Example drained_goes :
  let s := after reconcile_payments dying_cluster in
  cl_tenants s !! ("", "payments") = None /\
  cl_namespaces s !! ("", "team-payments") = None.
Proof. by vm_compute. Qed.

Lemma live_reconcile_status_witness :
  let tr := tail (trace_of reconcile_payments fresh_cluster) in
  exists serr st, step_run (steps tr) serr /\ statuses tr = [st].
Proof.
  intros tr.
  destruct (live_reconcile_status the_reconciler (request "payments") fresh
    (Ev (Get Client KTenant (req_NamespacedName (request "payments"))) (inr fresh)) tr
    (fst (result_of reconcile_payments fresh_cluster))
    (snd (result_of reconcile_payments fresh_cluster)))
    as [[H _]|(serr & st & H1 & H2 & _)].
  - exact (run_runs_cons reconcile_payments fresh_cluster _ eq_refl).
  - reflexivity.
  - reflexivity.
  - vm_compute in H. discriminate H.
  - exists serr, st. by split.
Defined.

Lemma namespace_outlives_claims_witness :
  teardown_order "payments" (trace_of reconcile_payments dying_cluster).
Proof.
  apply (namespace_outlives_claims the_reconciler (request "payments") _
    (result_of reconcile_payments dying_cluster)).
  - apply run_runs.
  - repeat constructor.
Defined.

Lemma drained_tenant_goes_witness :
  result_of reconcile_payments dying_cluster = (emptyResult, None).
Proof.
  apply (drained_tenant_goes the_reconciler (request "payments") dying
    (Ev (Get Client KTenant (req_NamespacedName (request "payments"))) (inr dying))
    (tail (trace_of reconcile_payments dying_cluster))).
  - exact (run_runs_cons reconcile_payments dying_cluster _ eq_refl).
  - reflexivity.
  - reflexivity.
  - reflexivity.
  - left. by vm_compute.
  - repeat constructor; try (eexists; reflexivity). by intros o [= <-].
Defined.

(** A reader whose list fails. *)
Definition failing_list : list (event call) :=
  [Ev (Get Client KTenant (req_NamespacedName (request "payments"))) (inr dying);
   Ev (ListClaims TeamReader ClaimTeamIndexKey "payments") (inl (EMessage "timeout"))].

Lemma failing_list_runs :
  runs reconcile_payments failing_list (emptyResult, Some (EMessage "timeout")).
Proof.
  exists (inr dying), (tail failing_list). split; [reflexivity|].
  exists (inl (EMessage "timeout")), []. split; [reflexivity|]. by split.
Defined.

Lemma failed_list_releases_nothing_witness :
  Forall (fun e => event_writes e = false) failing_list.
Proof.
  apply (failed_list_releases_nothing the_reconciler (request "payments") _
    (emptyResult, Some (EMessage "timeout")) (EMessage "timeout")).
  - exact failing_list_runs.
  - right. left. reflexivity.
Defined.

Lemma blocked_while_claims_remain_witness :
  let tr := tail (trace_of reconcile_payments blocked_cluster) in
  Forall (fun e => ~ tears_down e) tr /\ occurs "api" (remainingMessage [last_claim]).
Proof.
  intros tr.
  destruct (blocked_while_claims_remain the_reconciler (request "payments") dying
    (Ev (Get Client KTenant (req_NamespacedName (request "payments"))) (inr dying)) tr
    [last_claim] (result_of reconcile_payments blocked_cluster)) as (H1 & H2 & _).
  - exact (run_runs_cons reconcile_payments blocked_cluster _ eq_refl).
  - reflexivity.
  - left. by vm_compute.
  - discriminate.
  - split; [exact H1|]. apply (H2 last_claim). by left.
Defined.

Lemma finalizer_before_side_effects_witness :
  before (carries NTenant TenantFinalizer) provisions
    (trace_of reconcile_payments fresh_cluster).
Proof.
  apply (finalizer_before_side_effects the_reconciler (request "payments") _
    (result_of reconcile_payments fresh_cluster)).
  apply run_runs.
Defined.

Definition bare_namespace : Namespace := {| ns_ObjectMeta := NewObjectMeta "team-payments" "" |}.
Definition bare_rolebinding : RoleBinding :=
  {| rb_ObjectMeta := NewObjectMeta "team-edit" "team-payments";
     rb_RoleRef := {| rr_APIGroup := ""; rr_Kind := ""; rr_Name := "" |};
     rb_Subjects := [] |}.

Lemma mutations_set_desired_state_witness :
  exists rb, mutateRoleBinding the_reconciler fresh "team-payments" bare_rolebinding = inr rb /\
    length (rb_Subjects rb) = 1.
Proof.
  eexists. split; [reflexivity|].
  by destruct (proj1 (proj2 (mutations_set_desired_state the_reconciler fresh "team-payments" ∅))
    bare_rolebinding _ eq_refl) as (_ & _ & ->).
Defined.

Lemma foreign_objects_refused_witness :
  exists e, mutateNamespace the_reconciler fresh
    {| ns_ObjectMeta := SetOwnerReferences
         [sample_ref "Tenant" (NewObjectMeta "other" "")] (ns_ObjectMeta bare_namespace) |} = inl e.
Proof.
  apply (proj1 (foreign_objects_refused the_reconciler fresh "" ∅)).
  eexists. split; [reflexivity|]. by right.
Defined.

Lemma mutations_idempotent_witness :
  exists ns, mutateNamespace the_reconciler fresh ns = inr ns.
Proof.
  eexists. apply (proj1 (mutations_idempotent the_reconciler fresh "" ∅) bare_namespace).
  reflexivity.
Defined.
End witnesses.
