(* ===== verification/Ceiling.v ===== *)
(** * From admission to quota

    The validating webhook and the Tenant reconciler together: what the
    ceiling on a Tenant's declaration means for the namespace's quota. *)
From S2P Require Import Prelude Prog Kube Api Client Finalizers Platform TenantWebhook.
From S2P Require Import TenantController Sample SampleApi.
Open Scope prog_scope.

Section ceiling.
Context `{K : Kube}.

(** The ceiling that applies to an entry of a quota, when one is set. *)
Definition ceilingFor (l : Limits) (k : string) : option Quantity :=
  if String.eqb k "requests.cpu" then
    if IsZero (MaxCPU l) then None else Some (MaxCPU l)
  else if String.eqb k "requests.memory" || String.eqb k "limits.memory" then
    if IsZero (MaxMemory l) then None else Some (MaxMemory l)
  else if String.eqb k "pods" then
    if (0 <? MaxPods l)%Z then Some (NewQuantity (MaxPods l) DecimalSI) else None
  else None.

(** Every entry is at or below its ceiling. *)
Definition quota_under (l : Limits) (hard : gmap string Quantity) : Prop :=
  map_Forall (fun k q => forall m, ceilingFor l k = Some m -> (Cmp q m <= 0)%Z) hard.

(** A deletion of the quota of a namespace. *)
Definition deletes_quota (ns : string) (e : event call) : Prop :=
  match e with
  | Ev c _ =>
      match c with
      | Delete k obj _ => kindOf k = NResourceQuota /\
          om_Namespace (kindMeta k obj) = ns /\ om_Name (kindMeta k obj) = "team-quota"
      | _ => False
      end
  end.

Context `{L : !KubeLaws}.

Lemma within_quota_under (l : Limits) (res : option ResourceRequests) :
  within l res -> quota_under l (quotaHard res).
Proof.
  destruct res as [r|]; [|intros _; apply map_Forall_empty].
  intros (Hc & Hm & Hp). unfold quota_under, quotaHard.
  assert (Hpods : forall m, ceilingFor l ResourcePods = Some m ->
    (Cmp (NewQuantity (Pods r) DecimalSI) m <= 0)%Z).
  { cbn. intros m. destruct (Z.ltb_spec 0 (MaxPods l)); [|done]. intros [= <-].
    rewrite NewQuantity_Cmp. destruct (Z.compare_spec (Pods r) (MaxPods l)); lia. }
  assert (Hcpu : forall m, ceilingFor l ResourceRequestsCPU = Some m ->
    (Cmp (CPU r) m <= 0)%Z).
  { cbn. intros m. destruct (IsZero (MaxCPU l)); [done|]. intros [= <-]. by destruct Hc. }
  assert (Hmem : forall k m, k = ResourceRequestsMemory \/ k = ResourceLimitsMemory ->
    ceilingFor l k = Some m -> (Cmp (Memory r) m <= 0)%Z).
  { intros k m [-> | ->]; cbn; (destruct (IsZero (MaxMemory l)); [done|]);
      intros [= <-]; by destruct Hm. }
  destruct (negb (IsZero (CPU r))), (negb (IsZero (Memory r))), (Pods r >? 0)%Z;
    repeat (apply map_Forall_insert_2; [first [exact Hpods|exact Hcpu|
      intros m; apply Hmem; auto]|]); apply map_Forall_empty.
Qed.

(** C18: the ceiling reaches the cluster: for a Tenant whose create, and every
    update since, the webhook admitted under one ceiling, every quota entry the
    reconciler computes is at or below the ceiling set for that resource, in
    numeric value, memory requests and limits both. *)
Theorem admitted_quota_under_ceiling (v : TenantCustomValidator) (t : Tenant)
    (updates : list Tenant) :
  snd (ValidateCreate v t) = None -> accepted_updates v t updates ->
  ceilings_nonneg (tv_Limits v) ->
  Forall (fun u => quota_under (tv_Limits v) (quotaHard (Resources (t_Spec u))))
    (t :: updates).
Proof.
  intros Hc%create_accepted Hu Hn. unfold spec_within in Hc. constructor.
  - by apply within_quota_under.
  - revert t Hc Hu. induction updates as [|u us IH]; intros t Hc Hu; [constructor|].
    destruct Hu as [Ha Hu]. apply update_accepted in Ha.
    assert (within (tv_Limits v) (Resources (t_Spec u))) by (by eapply within_update).
    constructor; [by apply within_quota_under|eauto].
Qed.

(** A ceiling binds only what is declared: a Tenant that declares no
    resources is admitted under every ceiling, its computed quota is empty, and
    all its reconcile's quota step does is to delete any quota left from before,
    so its namespace is uncapped. *)
Theorem undeclared_is_uncapped (v : TenantCustomValidator) (r : TenantReconciler)
    (t : Tenant) (ns : string) tr out :
  Resources (t_Spec t) = None -> runs (ensureQuota r t ns) tr out ->
  ValidateCreate v t = ([], None) /\ quotaHard (Resources (t_Spec t)) = ∅ /\
  exists e, tr = [e] /\ deletes_quota ns e.
Proof.
  intros Hr H. unfold ValidateCreate, ensureQuota in *. rewrite Hr in *. cbn in H |- *.
  split; [done|]. split; [done|]. destruct H as (x & tr0 & -> & H).
  eexists. destruct (IgnoreNotFound x); destruct H as [-> _]; by split.
Qed.
End ceiling.

Section witnesses.
#[local] Existing Instance sample_kube.
#[local] Existing Instance sample_kube_laws.

(** A quarter of the ceiling [Platform.ceiling], and an update to the whole. *)
Definition modest : Tenant := sample_tenant "payments" (Some (res 2 4 5)) [] None.
Definition larger : Tenant := sample_tenant "payments" (Some (res 8 16 50)) [] None.
Definition ceiling_validator : TenantCustomValidator := {| tv_Limits := ceiling |}.
Definition ceiling_reconciler : TenantReconciler := {| tr_Scheme := [] |}.
Definition quiet_tenant : Tenant := sample_tenant "payments" None [] None.

Lemma admitted_quota_under_ceiling_witness :
  Forall (fun u => quota_under ceiling (quotaHard (Resources (t_Spec u)))) [modest; larger].
Proof.
  apply (admitted_quota_under_ceiling ceiling_validator modest [larger]).
  - by vm_compute.
  - by vm_compute.
  - by split; vm_compute.
Defined.

Lemma undeclared_is_uncapped_witness :
  ValidateCreate ceiling_validator quiet_tenant = ([], None).
Proof.
  apply (undeclared_is_uncapped ceiling_validator ceiling_reconciler quiet_tenant
    "team-payments"
    (trace_of (ensureQuota ceiling_reconciler quiet_tenant "team-payments") empty_cluster)
    (result_of (ensureQuota ceiling_reconciler quiet_tenant "team-payments") empty_cluster)).
  - reflexivity.
  - apply run_runs.
Defined.
End witnesses.
