(* ===== verification/SampleJson.v ===== *)
(** * Concrete codecs of the library types

    Executable stand-ins for the parameters of [ApiJson], satisfying its laws,
    used by witnesses only.  A quantity is written in thousandths. *)
From Stdlib Require Import DecimalString DecimalZ.
From S2P Require Import Prelude Kube Json Schema Api ApiJson ConditionSchema.
From S2P Require Import TenantController Sample SampleApi Ceiling.

#[local] Existing Instance sample_kube.
#[local] Existing Instance sample_kube_laws.

Definition sample_quantity_codec : codec Quantity := {|
  Marshal (q : Z) := JString (NilEmpty.string_of_int (Z.to_int q));
  Unmarshal v :=
    match v with
    | JString s => Z.of_int <$> NilEmpty.int_of_string s
    | JInt z => Some (z * 1000)%Z
    | JNull => Some 0%Z
    | _ => None
    end;
  isZero _ := false;
  fits _ := True;
|}.

#[export] Instance sample_lawful_quantity : Lawful sample_quantity_codec.
Proof.
  split; [|done]. intros q _. cbn [Marshal Unmarshal sample_quantity_codec].
  rewrite NilEmpty.isi. cbn [fmap option_fmap option_map]. rewrite of_to.
  constructor. split; [cbn; by rewrite Z.compare_refl|done].
Qed.

Definition boolean : codec bool := {|
  Marshal := JBool;
  Unmarshal v := match v with JBool b => Some b | JNull => Some false | _ => None end;
  isZero := negb;
  fits _ := True;
|}.

#[export] Instance equiv_bool : Equiv bool := (=).
#[export] Instance leibniz_bool : LeibnizEquiv bool.
Proof. by intros ??. Qed.
#[export] Instance lawful_boolean : Lawful boolean.
Proof. split; [done|]. by intros []. Qed.

Definition status_codec : codec ConditionStatus := {|
  Marshal s := JString (status_text s);
  Unmarshal v :=
    match v with
    | JString "True" => Some ConditionTrue
    | JString "False" => Some ConditionFalse
    | _ => Some ConditionUnknown
    end;
  isZero _ := false;
  fits _ := True;
|}.

#[export] Instance equiv_status : Equiv ConditionStatus := (=).
#[export] Instance leibniz_status : LeibnizEquiv ConditionStatus.
Proof. by intros ??. Qed.
#[export] Instance lawful_status : Lawful status_codec.
Proof. split; [|done]. by intros []. Qed.

(** All of it happened at one time. *)
Definition sample_time : string := "2025-01-01T00:00:00Z".

Definition sample_Condition_codec : codec Condition := {|
  Marshal c := JObject (present
    [always str "type" (c_Type c); always status_codec "status" (c_Status c);
     omitted (int 64) "observedGeneration" (c_ObservedGeneration c);
     always str "lastTransitionTime" sample_time;
     always str "reason" (c_Reason c); always str "message" (c_Message c)]);
  Unmarshal v :=
    fs ← members v;
    t ← Unmarshal str (field fs "type");
    s ← Unmarshal status_codec (field fs "status");
    g ← Unmarshal (int 64) (field fs "observedGeneration");
    r ← Unmarshal str (field fs "reason");
    m ← Unmarshal str (field fs "message");
    Some {| c_Type := t; c_Status := s; c_ObservedGeneration := g;
            c_Reason := r; c_Message := m |};
  isZero _ := false;
  fits c := fits (int 64) (c_ObservedGeneration c);
|}.

#[export] Instance sample_lawful_Condition : Lawful sample_Condition_codec.
Proof.
  split; [|done]. intros [] H.
  cbn [Marshal Unmarshal sample_Condition_codec members mbind option_bind]. reads_struct.
  same_values.
Qed.

Definition owner_codec : codec OwnerReference := {|
  Marshal r := JObject (present
    [always str "apiVersion" (or_APIVersion r); always str "kind" (or_Kind r);
     always str "name" (or_Name r); always str "uid" (or_UID r);
     omitted boolean "controller" (or_Controller r)]);
  Unmarshal v :=
    fs ← members v;
    a ← Unmarshal str (field fs "apiVersion");
    k ← Unmarshal str (field fs "kind");
    n ← Unmarshal str (field fs "name");
    u ← Unmarshal str (field fs "uid");
    c ← Unmarshal boolean (field fs "controller");
    Some {| or_APIVersion := a; or_Kind := k; or_Name := n; or_UID := u; or_Controller := c |};
  isZero _ := false;
  fits _ := True;
|}.

#[export] Instance equiv_owner : Equiv OwnerReference := (=).
#[export] Instance leibniz_owner : LeibnizEquiv OwnerReference.
Proof. by intros ??. Qed.
#[export] Instance lawful_owner : Lawful owner_codec.
Proof.
  split; [|done]. intros [] H.
  cbn [Marshal Unmarshal owner_codec members mbind option_bind]. reads_struct. same_values.
Qed.

Definition labels_codec : codec (gmap string string) := {|
  Marshal m := JObject (map (fun kv => (kv.1, JString kv.2)) (map_to_list m));
  Unmarshal v :=
    fs ← members v;
    kvs ← mapM (fun kv => s ← Unmarshal str kv.2; Some (kv.1, s)) fs;
    Some (list_to_map kvs);
  isZero m := bool_decide (m = ∅);
  fits _ := True;
|}.

#[export] Instance lawful_labels : Lawful labels_codec.
Proof.
  split.
  - intros m _. cbn [Marshal Unmarshal labels_codec members mbind option_bind].
    replace (mapM _ _) with (Some (map_to_list m)).
    + cbn [mbind option_bind]. by rewrite list_to_map_to_list.
    + symmetry. generalize (map_to_list m). induction l as [|[k v] l IH]; [done|].
      cbn [map mapM fst snd]. rewrite IH. done.
  - intros m Hm%bool_decide_eq_true. by subst.
Qed.

Definition sample_meta_of (n ns u rv : string) (g : Z) (dt : option Z)
    (ls : gmap string string) (fins : list string) (os : list OwnerReference) : ObjectMeta := {|
  om_Name := n; om_Namespace := ns; om_UID := u; om_ResourceVersion := rv;
  om_Generation := g; om_DeletionTimestamp := (dt : option Time); om_Labels := ls;
  om_Finalizers := fins; om_OwnerReferences := os |}.

Definition sample_ObjectMeta_codec : codec ObjectMeta := {|
  Marshal m := JObject (present
    [omitted str "name" (om_Name m); omitted str "namespace" (om_Namespace m);
     omitted str "uid" (om_UID m); omitted str "resourceVersion" (om_ResourceVersion m);
     omitted (int 64) "generation" (om_Generation m);
     omitted (ptr (int 64)) "deletionTimestamp" (om_DeletionTimestamp m : option Z);
     omitted labels_codec "labels" (om_Labels m);
     omitted (slice str) "finalizers" (om_Finalizers m);
     omitted (slice owner_codec) "ownerReferences" (om_OwnerReferences m)]);
  Unmarshal v :=
    fs ← members v;
    n ← Unmarshal str (field fs "name");
    ns ← Unmarshal str (field fs "namespace");
    u ← Unmarshal str (field fs "uid");
    rv ← Unmarshal str (field fs "resourceVersion");
    g ← Unmarshal (int 64) (field fs "generation");
    dt ← Unmarshal (ptr (int 64)) (field fs "deletionTimestamp");
    ls ← Unmarshal labels_codec (field fs "labels");
    fins ← Unmarshal (slice str) (field fs "finalizers");
    os ← Unmarshal (slice owner_codec) (field fs "ownerReferences");
    Some (sample_meta_of n ns u rv g dt ls fins os);
  isZero _ := false;
  fits m := fits (int 64) (om_Generation m) /\
    fits (ptr (int 64)) (om_DeletionTimestamp m : option Z);
|}.

#[export] Instance sample_lawful_ObjectMeta : Lawful sample_ObjectMeta_codec.
Proof.
  split; [|done]. intros [] [H1 H2].
  cbn [Marshal Unmarshal sample_ObjectMeta_codec members mbind option_bind]. reads_struct.
  same_values.
Qed.

(** The metadata of a list: its resource version. *)
Definition sample_ListMeta_codec : codec string := {|
  Marshal rv := JObject (present [omitted str "resourceVersion" rv]);
  Unmarshal v := fs ← members v; Unmarshal str (field fs "resourceVersion");
  isZero := isZero str;
  fits _ := True;
|}.

#[export] Instance sample_lawful_ListMeta : Lawful sample_ListMeta_codec.
Proof.
  split.
  - intros rv _. cbn [Marshal Unmarshal sample_ListMeta_codec members mbind option_bind].
    rewrite field_omitted, field_none. by apply (reads_omitted str).
  - intros [|] Hz; done.
Qed.

#[export] Instance sample_json : LibJson := {|
  quantity_json := sample_quantity_codec;
  ObjectMeta_json := sample_ObjectMeta_codec;
  Condition_json := sample_Condition_codec;
  is_date_time := String.eqb sample_time;
  ListMeta_value := string;
  ListMeta_json := sample_ListMeta_codec;
|}.

#[export] Instance sample_json_laws : LibJsonLaws.
Proof. split; try apply _. reflexivity. Qed.

#[export] Instance sample_condition_laws : ConditionJsonLaws.
Proof.
  split; [intros c; by exists sample_time| |done].
  intros fs gs H. repeat apply Forall_cons in H as [? H].
  cbn [Unmarshal Condition_json sample_json sample_Condition_codec members mbind option_bind].
  by repeat match goal with E : field fs _ = _ |- _ => rewrite E; clear E end.
Qed.

(** A Tenant read back from its JSON. *)
Lemma tenant_survives_storage_witness :
  exists t', Unmarshal Tenant_json (Marshal Tenant_json
      ({| Kind := "Tenant"; APIVersion := "platform.idp.io/v1alpha1" |}, modest)) =
    Some ({| Kind := "Tenant"; APIVersion := "platform.idp.io/v1alpha1" |}, t') /\
    quotaHard (Resources (t_Spec t')) ≡ quotaHard (Resources (t_Spec modest)).
Proof.
  destruct (tenant_survives_storage {| Kind := "Tenant"; APIVersion := "platform.idp.io/v1alpha1" |}
    modest) as (t' & H & _ & _ & _ & _ & _ & Hq).
  - repeat split; try reflexivity. constructor.
  - by exists t'.
Defined.
