(* ===== verification/ServiceClaimController.v ===== *)
(** * The ServiceClaim reconciler (internal/controller/serviceclaim_controller.go)

    The whole handler: the deletion branch that drains the ArgoCD Application,
    the gate on the Tenant, the rendering of the Application, the status
    conditions and the write-back, over the calls of [Client].  A method that
    changes the claim it is given returns it.  The log lines are left out. *)
From S2P Require Import Prelude Prog Kube Api Client Finalizers Indexes.
Open Scope prog_scope.

Section controller.
Context `{K : Kube}.

Definition argoCDNamespace : string := "argocd".
Definition argoAppProject : string := "default".
Definition argoDestinationServer : string := "https://kubernetes.default.svc".
Definition argoImagePlaceholder : string := "app".
Definition argoResourcesFinalizer : string :=
  "resources-finalizer.argocd.argoproj.io".
Definition teamLabel : string := "platform.idp.io/team".
Definition claimLabel : string := "platform.idp.io/claim".

Definition applicationGVK : GroupVersionKind := {|
  gvk_Group := "argoproj.io";
  gvk_Version := "v1alpha1";
  gvk_Kind := "Application" |}.

(** [Client] and [TeamReader] are the readers of the calls. *)
Record ServiceClaimReconciler := {
  sr_Scheme : Scheme;
  WorkloadsRepoURL : string;
  WorkloadsTargetRevision : string;
}.

Definition ServiceClaimKind : string := "ServiceClaim".

Definition setCondition (claim : ServiceClaim) (condType : string)
    (status : ConditionStatus) (reason message : string) : ServiceClaim :=
  sc_set_Conditions
    (SetStatusCondition (cs_Conditions (sc_Status claim)) {|
       c_Type := condType;
       c_Status := status;
       c_ObservedGeneration := om_Generation (sc_ObjectMeta claim);
       c_Reason := reason;
       c_Message := message |}) claim.

Definition aggregateReady (claim : ServiceClaim) : ServiceClaim :=
  let conds := cs_Conditions (sc_Status claim) in
  let ready := IsStatusConditionTrue conds ConditionTenantReady
    && IsStatusConditionTrue conds ConditionArgoAppCreated in
  let claim := sc_set_ObservedGeneration (om_Generation (sc_ObjectMeta claim)) claim in
  if ready then
    let claim := sc_set_Phase PhaseReady claim in
    setCondition claim ConditionReady ConditionTrue
      "AllResourcesReady" "tenant is ready and the ArgoCD Application is applied"
  else
    let claim := sc_set_Phase PhasePending claim in
    setCondition claim ConditionReady ConditionFalse
      "ResourcesNotReady" "waiting on the tenant or the ArgoCD Application".

(** The kustomize overrides of a claim: only the fields it declares. *)
Definition kustomizeOf (claim : ServiceClaim) : list (string * any) :=
  let kustomize := [] in
  let kustomize :=
    if negb (String.eqb (Image (sc_Spec claim)) "")
    then any_set "images"
           (ASlice [AString (argoImagePlaceholder +:+ "=" +:+ Image (sc_Spec claim))])
           kustomize
    else kustomize in
  let kustomize :=
    match Replicas (sc_Spec claim) with
    | Some n => any_set "replicas"
                  (ASlice [AMap [("name", AString (sc_Name claim));
                                 ("count", AInt64 n)]])
                  kustomize
    | None => kustomize
    end in
  kustomize.

Definition sourceOf (r : ServiceClaimReconciler) (claim : ServiceClaim)
    (path : string) : list (string * any) :=
  let source := [("repoURL", AString (WorkloadsRepoURL r));
                 ("path", AString path);
                 ("targetRevision", AString (WorkloadsTargetRevision r))] in
  let kustomize := kustomizeOf claim in
  if 0 <? length kustomize then any_set "kustomize" (AMap kustomize) source
  else source.

(** The mutate function passed to [CreateOrUpdate]. *)
Definition mutateApplication (r : ServiceClaimReconciler) (claim : ServiceClaim)
    (nsName path : string) (app : Unstructured) : error + Unstructured :=
  let m := SetLabels (<[teamLabel := Team (sc_Spec claim)]>
                        {[claimLabel := sc_Name claim]}) (u_ObjectMeta app) in
  let m := AddFinalizer m argoResourcesFinalizer in
  match SetNestedMap (u_Object app) (sourceOf r claim path) ["spec"; "source"] with
  | inl err => inl err
  | inr obj =>
      let destination := [("server", AString argoDestinationServer);
                          ("namespace", AString nsName)] in
      match SetNestedMap obj destination ["spec"; "destination"] with
      | inl err => inl err
      | inr obj =>
          match SetNestedField obj (AString argoAppProject) ["spec"; "project"] with
          | inl err => inl err
          | inr obj =>
              let syncPolicy :=
                [("automated", AMap [("selfHeal", ABool true);
                                     ("prune", ABool true)])] in
              match SetNestedMap obj syncPolicy ["spec"; "syncPolicy"] with
              | inl err => inl err
              | inr obj =>
                  match SetControllerReference (sr_Scheme r) ServiceClaimKind
                          (sc_ObjectMeta claim) m with
                  | inl err => inl err
                  | inr m => inr {| u_GVK := u_GVK app; u_ObjectMeta := m;
                                    u_Object := obj |}
                  end
              end
          end
      end
  end.

(** The object handed to [CreateOrUpdate] and to [Get]. *)
Definition newApplication (name ns : string) : Unstructured :=
  {| u_GVK := applicationGVK; u_ObjectMeta := NewObjectMeta name ns;
     u_Object := [] |}.

Definition appliedMessage (claim : ServiceClaim) (app : Unstructured) : string :=
  let '(health, _, _) := NestedString (u_Object app) ["status"; "health"; "status"] in
  let '(sync, _, _) := NestedString (u_Object app) ["status"; "sync"; "status"] in
  if negb (String.eqb health "") || negb (String.eqb sync "")
  then "application " +:+ sc_Name claim +:+ ": health=" +:+ health +:+ " sync=" +:+ sync
  else "application " +:+ sc_Name claim +:+ " applied; awaiting ArgoCD".

Definition ensureArgoApplication (r : ServiceClaimReconciler)
    (claim : ServiceClaim) (nsName : string)
  : prog call (ServiceClaim * option error) :=
  let app := newApplication (sc_Name claim) argoCDNamespace in
  let path := "workloads/" +:+ Team (sc_Spec claim) +:+ "/" +:+ sc_Name claim in
  let* res := trigger (CreateOrUpdate KApplication app
                (mutateApplication r claim nsName path)) in
  match res with
  | inl err =>
      Ret (setCondition claim ConditionArgoAppCreated ConditionFalse
             "ArgoAppError" (Error err), Some err)
  | inr (_, app) =>
      Ret (setCondition claim ConditionArgoAppCreated ConditionTrue
             "ApplicationApplied" (appliedMessage claim app), None)
  end.

Definition reconcileClaim (r : ServiceClaimReconciler) (claim : ServiceClaim)
  : prog call (ServiceClaim * option error) :=
  let team := Team (sc_Spec claim) in
  let* res := trigger (Get Client KTenant
                {| nn_Namespace := ""; nn_Name := team |}) in
  match res with
  | inl err =>
      if IsNotFound (Some err) then
        Ret (setCondition claim ConditionTenantReady ConditionFalse
               "TenantNotFound"
               ("tenant " +:+ quote team +:+ " does not exist yet"), None)
      else
        Ret (setCondition claim ConditionTenantReady ConditionFalse
               "TenantError" (Error err), Some err)
  | inr tenant =>
      if negb (IsStatusConditionTrue (ts_Conditions (t_Status tenant)) ConditionReady)
      then
        Ret (setCondition claim ConditionTenantReady ConditionFalse
               "TenantNotReady"
               ("tenant " +:+ quote team +:+ " is not ready yet"), None)
      else
        let claim := setCondition claim ConditionTenantReady ConditionTrue
                       "TenantReady" ("tenant " +:+ quote team +:+ " is ready") in
        let nsName := teamNamespace team in
        ensureArgoApplication r claim nsName
  end.

Definition reconcileDelete (claim : ServiceClaim)
  : prog call (Result * option error) :=
  if negb (ContainsFinalizer (sc_ObjectMeta claim) ServiceClaimFinalizer)
  then Ret (emptyResult, None)
  else
    let statusBase := MergeFrom claim in
    let claim := sc_set_Phase PhaseTerminating claim in
    let* res := trigger (Get Client KApplication
                  {| nn_Namespace := argoCDNamespace; nn_Name := sc_Name claim |}) in
    match res with
    | inl err =>
        if IsNotFound (Some err) then
          let claim := setCondition claim ConditionApplicationDrained ConditionTrue
            "ApplicationDeleted"
            ("argocd Application " +:+ quote (sc_Name claim) +:+ " is gone") in
          let* p := trigger (PatchStatus KServiceClaim claim statusBase) in
          match p with
          | inl patchErr => Ret (emptyResult, IgnoreNotFound (Some patchErr))
          | inr claim =>
              let* ' (_, relErr) := releaseFinalizer claim ServiceClaimFinalizer in
              match relErr with
              | Some relErr => Ret (emptyResult, Some relErr)
              | None => Ret (emptyResult, None)
              end
          end
        else Ret (emptyResult, Some err)
    | inr app =>
        match om_DeletionTimestamp (u_ObjectMeta app) with
        | None =>
            let uid := om_UID (u_ObjectMeta app) in
            let* delErr := trigger (Delete KApplication app (Some uid)) in
            match delErr with
            | Some delErr => Ret (emptyResult, IgnoreNotFound (Some delErr))
            | None =>
                let claim := setCondition claim ConditionApplicationDrained
                  ConditionFalse "DeletingApplication"
                  ("requested deletion of Application " +:+ quote (sc_Name claim)
                   +:+ "; waiting for ArgoCD to prune the workload") in
                let* p := trigger (PatchStatus KServiceClaim claim statusBase) in
                match p with
                | inl patchErr => Ret (emptyResult, Some patchErr)
                | inr _ => Ret ({| RequeueAfter := 5 * Second |}, None)
                end
            end
        | Some _ =>
            let claim := setCondition claim ConditionApplicationDrained
              ConditionFalse "ApplicationDeletionBlocked"
              ("Application " +:+ quote (sc_Name claim)
               +:+ " is terminating; remaining finalizers: "
               +:+ show_strings (om_Finalizers (u_ObjectMeta app))) in
            let* p := trigger (PatchStatus KServiceClaim claim statusBase) in
            match p with
            | inl patchErr => Ret (emptyResult, Some patchErr)
            | inr _ => Ret ({| RequeueAfter := 10 * Second |}, None)
            end
        end
    end.

(** [Reconcile] from [ensureFinalizer] on: the claim is not being deleted. *)
Definition reconcileLive (r : ServiceClaimReconciler) (claim : ServiceClaim)
  : prog call (Result * option error) :=
  let* ' (claim, err) := ensureFinalizer claim ServiceClaimFinalizer in
  match err with
  | Some err => Ret (emptyResult, Some err)
  | None =>
      let statusBase := MergeFrom claim in
      let* ' (claim, reconcileErr) := reconcileClaim r claim in
      let claim := aggregateReady claim in
      let* p := trigger (PatchStatus KServiceClaim claim statusBase) in
      match p with
      | inl err =>
          match reconcileErr with
          | Some _ => Ret (emptyResult, reconcileErr)
          | None => Ret (emptyResult, Some err)
          end
      | inr _ => Ret (emptyResult, reconcileErr)
      end
  end.

Definition Reconcile (r : ServiceClaimReconciler) (req : Request)
  : prog call (Result * option error) :=
  let* res := trigger (Get Client KServiceClaim (req_NamespacedName req)) in
  match res with
  | inl err => Ret (emptyResult, IgnoreNotFound (Some err))
  | inr claim =>
      if negb (TimeIsZero (om_DeletionTimestamp (sc_ObjectMeta claim)))
      then reconcileDelete claim
      else reconcileLive r claim
  end.

Definition claimsForTenant (tenant : Object)
  : prog call (option (list Request)) :=
  let* res := trigger (ListClaims TeamReader ClaimTeamIndexKey (GetName tenant)) in
  match res with
  | inl _ => Ret (Some [])
  | inr claims =>
      Ret (Some (map (fun c => {| req_NamespacedName :=
                        {| nn_Namespace := ""; nn_Name := sc_Name c |} |}) claims))
  end.

Definition SetupWithManager : Builder := {|
  b_For := NServiceClaim;
  b_Owns := [NApplication];
  b_Watches := [(NTenant, claimsForTenant)];
  b_Named := "serviceclaim";
|}.
End controller.
