(* ===== verification/ServiceClaimControllerSpec.v ===== *)
(** * What the ServiceClaim reconciler promises

    Theorems about every run of [ServiceClaimController.Reconcile], whatever
    the API answers: the gate on the Tenant, the status written back, the
    teardown that waits for the Application and never for the Tenant. *)
From S2P Require Import Prelude Prog Kube Api Client Finalizers Indexes.
From S2P Require Import ServiceClaimController Sample SampleApi.
Open Scope prog_scope.

Section spec.
Context `{K : Kube}.

(** ** Reading a trace *)

(** The statuses sent to the API, in order. *)
Definition statusPatch (e : event call) : option ServiceClaimStatus :=
  match e with
  | Ev c _ =>
      match c with
      | PatchStatus k obj _ =>
          match k in kind T return T -> option ServiceClaimStatus with
          | KServiceClaim => fun c => Some (sc_Status c)
          | _ => fun _ => None
          end obj
      | _ => None
      end
  end.

Definition statuses (tr : list (event call)) : list ServiceClaimStatus :=
  omap statusPatch tr.

Definition cond_is (st : ServiceClaimStatus) (t : string) (s : ConditionStatus)
    (reason message : string) (gen : Z) : Prop :=
  exists c, findCondition (cs_Conditions st) t = Some c /\ c_Status c = s /\
    c_Reason c = reason /\ c_Message c = message /\ c_ObservedGeneration c = gen.

(** The read of the Tenant of a team. *)
Definition getTenant (team : string) : call (error + Tenant) :=
  Get Client KTenant {| nn_Namespace := ""; nn_Name := team |}.

Definition isReady (t : Tenant) : bool :=
  IsStatusConditionTrue (ts_Conditions (t_Status t)) ConditionReady.

(** The Tenant of the team was read, and it was Ready. *)
Definition tenant_ready (team : string) (e : event call) : Prop :=
  exists t, e = Ev (getTenant team) (inr t) /\ isReady t = true.

(** The one request that applies the Application of a claim. *)
Definition applyApplication (r : ServiceClaimReconciler) (c : ServiceClaim)
  : call (error + OperationResult * Unstructured) :=
  CreateOrUpdate KApplication (newApplication (sc_Name c) "argocd")
    (mutateApplication r c ("team-" +:+ Team (sc_Spec c))
       ("workloads/" +:+ Team (sc_Spec c) +:+ "/" +:+ sc_Name c)).

(** Any request that creates or updates. *)
Definition applies (e : event call) : Prop := exists s, stepResult e = Some s.

(** What the gate and the rendering can come to. *)
Inductive gate :=
| TenantMissing (e : error)
| TenantUnreadable (e : error)
| TenantPending (t : Tenant)
| ApplyFailed (t : Tenant) (e : error)
| Applied (t : Tenant) (op : OperationResult) (app : Unstructured).

(** The events of each, for a claim. *)
Definition gate_events (r : ServiceClaimReconciler) (c : ServiceClaim) (g : gate)
  : list (event call) :=
  let get x := Ev (getTenant (Team (sc_Spec c))) x in
  let apply x := Ev (applyApplication r c) x in
  match g with
  | TenantMissing e | TenantUnreadable e => [get (inl e)]
  | TenantPending t => [get (inr t)]
  | ApplyFailed t e => [get (inr t); apply (inl e)]
  | Applied t op app => [get (inr t); apply (inr (op, app))]
  end.

(** When each happens. *)
Definition gate_ok (g : gate) : Prop :=
  match g with
  | TenantMissing e => IsNotFound (Some e) = true
  | TenantUnreadable e => IsNotFound (Some e) = false
  | TenantPending t => isReady t = false
  | ApplyFailed t _ | Applied t _ _ => isReady t = true
  end.

(** The error each returns: a missing or pending Tenant is not one. *)
Definition gate_error (g : gate) : option error :=
  match g with
  | TenantMissing _ | TenantPending _ | Applied _ _ _ => None
  | TenantUnreadable e | ApplyFailed _ e => Some e
  end.

Definition gate_ready (g : gate) : bool :=
  match g with Applied _ _ _ => true | _ => false end.

(** The conditions each leaves: TenantReady with its reason and, when the
    Application was asked for, ArgoAppCreated. *)
Definition gate_tenant_condition (g : gate) : ConditionStatus * string :=
  match g with
  | TenantMissing _ => (ConditionFalse, "TenantNotFound")
  | TenantUnreadable _ => (ConditionFalse, "TenantError")
  | TenantPending _ => (ConditionFalse, "TenantNotReady")
  | ApplyFailed _ _ | Applied _ _ _ => (ConditionTrue, "TenantReady")
  end.

Definition gate_app_condition (g : gate) : option (ConditionStatus * string) :=
  match g with
  | ApplyFailed _ _ => Some (ConditionFalse, "ArgoAppError")
  | Applied _ _ _ => Some (ConditionTrue, "ApplicationApplied")
  | _ => None
  end.

Definition cond_shows (st : ServiceClaimStatus) (t : string)
    (v : ConditionStatus * string) (gen : Z) : Prop :=
  exists msg, cond_is st t v.1 v.2 msg gen.

(** [c'] is [c] up to its status. *)
Definition same_object (c c' : ServiceClaim) : Prop :=
  sc_ObjectMeta c' = sc_ObjectMeta c /\ sc_Spec c' = sc_Spec c.

Context `{L : !KubeLaws}.

(** ** Lemmas *)

(** The gate and the rendering, run. *)
Lemma reconcileClaim_runs r c tr c' err :
  runs (reconcileClaim r c) tr (c', err) ->
  exists g, gate_ok g /\ tr = gate_events r c g /\ err = gate_error g /\
    same_object c c' /\
    cond_shows (sc_Status c') ConditionTenantReady (gate_tenant_condition g)
      (om_Generation (sc_ObjectMeta c)) /\
    (forall v, gate_app_condition g = Some v ->
     cond_shows (sc_Status c') ConditionArgoAppCreated v
       (om_Generation (sc_ObjectMeta c))).
Proof.
  intros H. unfold reconcileClaim, ensureArgoApplication in H.
  remember (c', err) as out eqn:Eo.
  run_steps; injection Eo as <- <-.
  1: exists (TenantMissing e).
  2: exists (TenantUnreadable e).
  3: exists (TenantPending t).
  4: exists (ApplyFailed t e).
  5: exists (Applied t o u).
  all: cbn; unfold isReady, cond_shows, cond_is; cbn;
    repeat match goal with
    | E : negb _ = true |- _ => apply negb_true_iff in E
    | E : negb _ = false |- _ => apply negb_false_iff in E
    end; simpl_conditions; split_and!; try done;
    try (intros v [= <-]; cbn); eexists _, _; simpl_conditions; repeat split.
Qed.

(** The aggregate follows the gate. *)
Lemma aggregateReady_gate c g gen :
  cond_shows (sc_Status c) ConditionTenantReady (gate_tenant_condition g) gen ->
  (forall v, gate_app_condition g = Some v ->
     cond_shows (sc_Status c) ConditionArgoAppCreated v gen) ->
  let st := sc_Status (aggregateReady c) in
  cs_Phase st = (if gate_ready g then PhaseReady else PhasePending) /\
  IsStatusConditionTrue (cs_Conditions st) ConditionReady = gate_ready g /\
  cs_ObservedGeneration st = om_Generation (sc_ObjectMeta c) /\
  cond_shows st ConditionTenantReady (gate_tenant_condition g) gen /\
  same_object c (aggregateReady c).
Proof.
  intros (m1 & c1 & F1 & S1 & R1) H2.
  assert (Hr : IsStatusConditionTrue (cs_Conditions (sc_Status c)) ConditionTenantReady
    && IsStatusConditionTrue (cs_Conditions (sc_Status c)) ConditionArgoAppCreated
    = gate_ready g).
  { rewrite (IsStatusConditionTrue_find _ ConditionTenantReady), F1, S1.
    destruct g; try reflexivity;
      destruct (H2 _ eq_refl) as (m2 & c2 & F2 & S2 & _);
      by rewrite IsStatusConditionTrue_find, F2, S2. }
  cbn zeta. unfold aggregateReady. rewrite Hr.
  destruct (gate_ready g); cbn; simpl_conditions; split_and!; try done;
    exists m1, c1; cbn; simpl_conditions; auto.
Qed.

Lemma ensureFinalizer_claim c tr c' err :
  runs (ensureFinalizer c ServiceClaimFinalizer) tr (c', err) ->
  statuses tr = [] /\ Forall (fun e => ~ applies e) tr /\
  (ContainsFinalizer (sc_ObjectMeta c) ServiceClaimFinalizer = true ->
   tr = [] /\ c' = c) /\
  Forall (fun e => ~ releases NServiceClaim ServiceClaimFinalizer e) tr.
Proof.
  intros H. unfold ensureFinalizer in H. remember (c', err) as o eqn:Eo.
  run_steps; injection Eo as <- <-; cbn in *; split_and!; try done; try congruence;
    repeat constructor; first [by intros [? [=]]|intros []; cbn in *; congruence].
Qed.

(** The locked patch that adds the finalizer, answered [p]. *)
Definition finalizer_request (c : ServiceClaim) (p : error + ServiceClaim) : event call :=
  Ev (PatchObject KServiceClaim
        (SetMeta (AddFinalizer (sc_ObjectMeta c) ServiceClaimFinalizer) c)
        (MergeFromWithOptimisticLock c)) p.

(** Nothing, or the request. *)
Lemma ensureFinalizer_request c tr c1 err :
  runs (ensureFinalizer c ServiceClaimFinalizer) tr (c1, err) ->
  if ContainsFinalizer (sc_ObjectMeta c) ServiceClaimFinalizer
  then tr = [] /\ c1 = c /\ err = None
  else tr = [finalizer_request c (match err with Some e => inl e | None => inr c1 end)].
Proof.
  intros H. unfold ensureFinalizer in H. cbn [GetMeta ServiceClaim_ClientObject] in H.
  destruct (ContainsFinalizer _ _); cbn in H; [by destruct H as [-> [= -> ->]]|].
  destruct H as ([e|o] & tr' & -> & H); destruct H as [-> [= -> ->]]; reflexivity.
Qed.

(** The live branch as one list of events. *)
Lemma reconcileLive_runs r c tr out :
  runs (reconcileLive r c) tr out ->
  exists tr1 c1 e1, runs (ensureFinalizer c ServiceClaimFinalizer) tr1 (c1, e1) /\
  ((exists e, e1 = Some e /\ tr = tr1 /\ out = (emptyResult, Some e)) \/
   exists g c2 x, e1 = None /\ gate_ok g /\
     tr = tr1 ++ gate_events r c1 g ++
       [Ev (PatchStatus KServiceClaim (aggregateReady c2) (MergeFrom c1)) x] /\
     same_object c1 c2 /\
     cond_shows (sc_Status c2) ConditionTenantReady (gate_tenant_condition g)
       (om_Generation (sc_ObjectMeta c1)) /\
     (forall v, gate_app_condition g = Some v ->
       cond_shows (sc_Status c2) ConditionArgoAppCreated v
         (om_Generation (sc_ObjectMeta c1))) /\
     out = (emptyResult,
       match gate_error g with
       | Some e => Some e
       | None => match x with inl e => Some e | inr _ => None end
       end)).
Proof.
  intros H. unfold reconcileLive in H.
  apply runs_bind in H as (tr1 & [c1 e1] & tr2 & -> & H1 & H).
  exists tr1, c1, e1. split; [exact H1|]. clear H1.
  destruct e1 as [e1|]; [left; run_steps; rewrite app_nil_r; eauto|right].
  apply runs_bind in H as (tr3 & [c2 e2] & tr4 & -> & H2 & H).
  apply reconcileClaim_runs in H2 as (g & Hg & -> & -> & Ho & Ht & Ha).
  destruct H as (x & tr5 & -> & H). exists g, c2, x.
  destruct x, (gate_error g); destruct H as [-> ->]; split_and!; auto.
Qed.

(** The two branches of a run that found its claim. *)
Lemma Reconcile_found r req tr out :
  runs (Reconcile r req) tr out ->
  (exists e, tr = [Ev (Get Client KServiceClaim (req_NamespacedName req)) (inl e)] /\
     out = (emptyResult, IgnoreNotFound (Some e))) \/
  exists c tr', tr = Ev (Get Client KServiceClaim (req_NamespacedName req)) (inr c) :: tr' /\
    runs (if TimeIsZero (om_DeletionTimestamp (sc_ObjectMeta c))
          then reconcileLive r c else reconcileDelete c) tr' out.
Proof.
  intros H. destruct H as (x & tr0 & -> & H). destruct x as [e|c].
  - left. run_steps. eauto.
  - right. exists c, tr0. cbn [runs bind] in H. split; [done|]. by destruct (TimeIsZero _).
Qed.

(** ** Properties: a claim that is not being deleted *)

(** C15: whatever the API answers, reconciling a claim that is not being
    deleted ends in one of these ways.  If the finalizer is missing and the patch
    that adds it fails, that is all that happens, and its error is returned.
    Otherwise the reconcile reads the Tenant of the claim's team, asks for the
    Application only if that Tenant was read Ready, and then writes exactly one
    status: Ready exactly when the Application was applied in this very
    reconcile, with a TenantReady condition that gives the reason.  It returns
    the error of the read or of the apply, even when the status write fails too;
    without one, the error of the status write; and without that, none.  A Tenant
    that is missing or not ready is no error, so the claim is pending and not
    retried with back-off. *)
Theorem claim_reconcile_outcome r req c e0 tr out :
  runs (Reconcile r req) (e0 :: tr) out -> fetched KServiceClaim c e0 ->
  TimeIsZero (om_DeletionTimestamp (sc_ObjectMeta c)) = true ->
  let has_finalizer := ContainsFinalizer (sc_ObjectMeta c) ServiceClaimFinalizer in
  (exists e, has_finalizer = false /\ tr = [finalizer_request c (inl e)] /\
     out = (emptyResult, Some e)) \/
  exists g c1 c2 tr1 p, gate_ok g /\
    (if has_finalizer then tr1 = [] /\ c1 = c else tr1 = [finalizer_request c (inr c1)]) /\
    tr = tr1 ++ gate_events r c1 g ++ [Ev (PatchStatus KServiceClaim c2 (MergeFrom c1)) p] /\
    same_object c1 c2 /\ statuses tr = [sc_Status c2] /\
    cs_Phase (sc_Status c2) = (if gate_ready g then PhaseReady else PhasePending) /\
    IsStatusConditionTrue (cs_Conditions (sc_Status c2)) ConditionReady = gate_ready g /\
    cs_ObservedGeneration (sc_Status c2) = om_Generation (sc_ObjectMeta c1) /\
    cond_shows (sc_Status c2) ConditionTenantReady (gate_tenant_condition g)
      (om_Generation (sc_ObjectMeta c1)) /\
    out = (emptyResult,
      match gate_error g, p with
      | Some e, _ => Some e
      | None, inl e => Some e
      | None, inr _ => None
      end).
Proof.
  intros H Hf Hlive has_finalizer.
  apply Reconcile_found in H as [(e & [= -> _] & _)|(c' & tr' & [= -> ->] & H)];
    [by cbn in Hf|]. cbn in Hf. injection Hf as ->. rewrite Hlive in H.
  apply reconcileLive_runs in H as (tr1 & c1 & e1 & H1 & H).
  apply ensureFinalizer_request in H1.
  destruct H as [(e & -> & -> & ->)|(g & c2 & x & -> & Hg & -> & [Hm Hs] & Ht & Ha & ->)].
  - left. unfold has_finalizer. destruct (ContainsFinalizer _ _); [by destruct H1 as (_ & _ & [=])|eauto].
  - right. destruct (aggregateReady_gate c2 g _ Ht Ha) as (P & R & G & T & [Hm' Hs']).
    exists g, c1, (aggregateReady c2), tr1, x.
    assert (Hst : statuses (gate_events r c1 g) = []) by (by destruct g).
    assert (S1 : statuses tr1 = []).
    { destruct (ContainsFinalizer _ _); [by destruct H1 as (-> & _)|by rewrite H1]. }
    split_and!; try done.
    + unfold has_finalizer. destruct (ContainsFinalizer _ _); naive_solver.
    + split; congruence.
    + unfold statuses in *. by rewrite !omap_app, S1, Hst.
    + by rewrite G, Hm.
Qed.

(** The Application request of a claim. *)
Definition applies_for (r : ServiceClaimReconciler) (c : ServiceClaim)
    (e : event call) : Prop :=
  exists res, e = Ev (applyApplication r c) res.

(** C8: no reconcile creates or updates anything but the Application of its
    claim, always in the argocd namespace and aimed at [team-<spec.team>], and
    never before it has read a Ready Tenant of that same team; for a claim that
    is being deleted it applies nothing. *)
Theorem application_only_for_ready_tenant r req c0 e0 tr out :
  runs (Reconcile r req) (e0 :: tr) out -> fetched KServiceClaim c0 e0 ->
  exists c,
    (ContainsFinalizer (sc_ObjectMeta c0) ServiceClaimFinalizer = true -> c = c0) /\
    before (tenant_ready (Team (sc_Spec c))) applies tr /\
    Forall (fun e => applies e -> applies_for r c e) tr /\
    (TimeIsZero (om_DeletionTimestamp (sc_ObjectMeta c0)) = false ->
     Forall (fun e => ~ applies e) tr).
Proof.
  intros H Hf. apply Reconcile_found in H as [(e & [= -> _] & _)|(c & tr' & [= -> ->] & H)];
    [by cbn in Hf|]. cbn in Hf. injection Hf as ->.
  destruct (TimeIsZero _) eqn:Htz.
  - apply reconcileLive_runs in H as (tr1 & c1 & e1 & H1 & H).
    apply ensureFinalizer_claim in H1 as (_ & A1 & F1 & _). exists c1.
    split; [apply F1|]. clear F1.
    destruct H as [(e & -> & -> & ->)|(g & c2 & x & -> & Hg & -> & _)].
    + split; [by apply before_never|]. split; [|done].
      by (eapply Forall_impl; [exact A1|]; intros ? Hn Ha; destruct (Hn Ha)).
    + split_and!; [|apply Forall_app; split|done].
      * apply before_app_never; [exact A1|].
        destruct g; (split; [by intros [? [=]]|]);
          first [left; red; by eauto|right; split; [by intros [? [=]]|by right]].
      * by (eapply Forall_impl; [exact A1|]; intros ? Hn Ha; destruct (Hn Ha)).
      * destruct g; repeat constructor; intros [? [=]]; red; eauto.
  - exists c0. assert (Hq : Forall (fun e => ~ applies e) tr').
    { unfold reconcileDelete in H. run_steps;
      release_cases;
      repeat constructor; by intros [? [=]]. }
    split_and!; [done|by apply before_never| |done].
    by (eapply Forall_impl; [exact Hq|]; intros ? Hn Ha; destruct (Hn Ha)).
Qed.

(** Nothing is applied before the claim is known to carry its finalizer:
    either it was read with it, or the patch that adds it succeeded. *)
Theorem claim_finalizer_first r req tr out :
  runs (Reconcile r req) tr out ->
  before (carries NServiceClaim ServiceClaimFinalizer) applies tr.
Proof.
  intros H. apply Reconcile_found in H as [(e & -> & _)|(c & tr' & -> & H)].
  { apply before_never. repeat constructor. by intros [? [=]]. }
  split; [by intros [? [=]]|].
  destruct (TimeIsZero _).
  - destruct (ContainsFinalizer (sc_ObjectMeta c) ServiceClaimFinalizer) eqn:Ef;
      [left; cbn; eauto|right].
    unfold reconcileLive, ensureFinalizer in H. cbn in H. rewrite Ef in H. cbn in H.
    destruct H as (x & tr1 & -> & H). split; [by intros [? [=]]|].
    destruct x as [e|c1]; [|left; cbn; eauto]. run_steps. by right.
  - right. unfold reconcileDelete in H. run_steps;
      release_cases;
       apply before_never; repeat constructor; by intros [? [=]].
Qed.

(** A reconcile of a claim makes at most five calls, whatever it is
    answered. *)
Theorem claim_reconcile_bounded r req : at_most 5 (Reconcile r req).
Proof.
  unfold Reconcile, reconcileDelete, reconcileLive, ensureFinalizer,
    releaseFinalizer, reconcileClaim, ensureArgoApplication.
  walk done.
Qed.

(** ** Properties: a claim that is being deleted *)

Definition getApplication (c : ServiceClaim) : call (error + Unstructured) :=
  Get Client KApplication {| nn_Namespace := "argocd"; nn_Name := sc_Name c |}.

(** The status a drain writes: Terminating, one condition, the rest kept. *)
Definition drain_status (c : ServiceClaim) (s : ConditionStatus)
    (reason message : string) (st : ServiceClaimStatus) : Prop :=
  cs_Phase st = "Terminating" /\
  cond_is st ConditionApplicationDrained s reason message
    (om_Generation (sc_ObjectMeta c)) /\
  forall t, t <> ConditionApplicationDrained ->
    findCondition (cs_Conditions st) t = findCondition (cs_Conditions (sc_Status c)) t.

(** One status write of that kind, answered [p]. *)
Definition writes_drain (c : ServiceClaim) (s : ConditionStatus)
    (reason message : string) (p : error + ServiceClaim) (e : event call) : Prop :=
  exists c', e = Ev (PatchStatus KServiceClaim c' (MergeFrom c)) p /\
    same_object c c' /\ drain_status c s reason message (sc_Status c').

(** What a drain does after reading the Application. *)
Definition drain_step (c : ServiceClaim) (x : error + Unstructured)
    (tr : list (event call)) (out : Result * option error) : Prop :=
  match x with
  | inl e =>
      if IsNotFound (Some e) then
        exists p e1 tr1, tr = e1 :: tr1 /\
          writes_drain c ConditionTrue "ApplicationDeleted"
            ("argocd Application " +:+ quote (sc_Name c) +:+ " is gone") p e1 /\
          match p with
          | inl e => tr1 = [] /\ out = (emptyResult, IgnoreNotFound (Some e))
          | inr c1 => exists out', runs (releaseFinalizer c1 ServiceClaimFinalizer) tr1 out' /\
              out = (emptyResult, snd out')
          end
      else tr = [] /\ out = (emptyResult, Some e)
  | inr app =>
      match om_DeletionTimestamp (u_ObjectMeta app) with
      | None =>
          exists d tr1,
            tr = Ev (Delete KApplication app (Some (om_UID (u_ObjectMeta app)))) d :: tr1 /\
            match d with
            | Some e => tr1 = [] /\ out = (emptyResult, IgnoreNotFound (Some e))
            | None => exists p e1, tr1 = [e1] /\
                writes_drain c ConditionFalse "DeletingApplication"
                  ("requested deletion of Application " +:+ quote (sc_Name c) +:+
                   "; waiting for ArgoCD to prune the workload") p e1 /\
                out = match p with
                      | inl e => (emptyResult, Some e)
                      | inr _ => ({| RequeueAfter := 5 * Second |}, None)
                      end
            end
      | Some _ =>
          exists p e1, tr = [e1] /\
            writes_drain c ConditionFalse "ApplicationDeletionBlocked"
              ("Application " +:+ quote (sc_Name c) +:+
               " is terminating; remaining finalizers: " +:+
               show_strings (om_Finalizers (u_ObjectMeta app))) p e1 /\
            out = match p with
                  | inl e => (emptyResult, Some e)
                  | inr _ => ({| RequeueAfter := 10 * Second |}, None)
                  end
      end
  end.

Lemma reconcileDelete_runs c tr out :
  runs (reconcileDelete c) tr out ->
  if ContainsFinalizer (sc_ObjectMeta c) ServiceClaimFinalizer
  then exists x tr', tr = Ev (getApplication c) x :: tr' /\ drain_step c x tr' out
  else tr = [] /\ out = (emptyResult, None).
Proof.
  intros H. unfold reconcileDelete in H.
  destruct (ContainsFinalizer _ _); cbn [negb] in H; [|by run_steps].
  cbn [runs bind trigger] in H. destruct H as (x & tr' & -> & H). exists x, tr'. split; [done|].
  assert (Hst : forall s reason msg,
    drain_status c s reason msg (sc_Status (setCondition (sc_set_Phase "Terminating" c)
      ConditionApplicationDrained s reason msg))).
  { intros s reason msg. split_and!; [done| |].
    - eexists. cbn. simpl_conditions. repeat split.
    - intros t Ht%String.eqb_neq. cbn. rewrite findCondition_set. cbn. by rewrite Ht. }
  destruct x as [e|app]; cbn [drain_step].
  - cbn beta iota in H. destruct (IsNotFound (Some e)); [|by run_steps].
    destruct H as (p & tr1 & -> & H). eexists p, _, tr1. split; [done|].
    split; [eexists; split; [done|]; split; [done|apply Hst]|].
    destruct p as [pe|c1]; [by run_steps|].
    apply runs_bind in H as (tr2 & [c2 re] & tr3 & -> & H1 & H).
    exists (c2, re). destruct re; destruct H as [-> ->]; by rewrite app_nil_r.
  - cbn beta iota in H. destruct (om_DeletionTimestamp (u_ObjectMeta app)).
    + destruct H as (p & tr1 & -> & H). exists p.
      destruct p; destruct H as [-> ->]; eexists; (split; [done|]);
        (split; [|done]); eexists; (split; [done|]); (split; [done|apply Hst]).
    + destruct H as (d & tr1 & -> & H). exists d, tr1. split; [done|].
      destruct d as [e|]; [by run_steps|].
      destruct H as (p & tr2 & -> & H). exists p.
      destruct p; destruct H as [-> ->]; eexists; (split; [done|]);
        (split; [|done]); eexists; (split; [done|]); (split; [done|apply Hst]).
Qed.

(** C16: draining a claim, branch by branch: without the finalizer nothing
    happens; otherwise the Application is read, and what is deleted, written and
    returned follows [drain_step] on every answer: deletion with the UID that
    was read and a retry in 5 seconds; a status naming the remaining finalizers
    and a retry in 10 seconds; or, once the Application is gone, the status and
    then the release. *)
Theorem claim_drain_outcome r req c e0 tr out :
  runs (Reconcile r req) (e0 :: tr) out -> fetched KServiceClaim c e0 ->
  TimeIsZero (om_DeletionTimestamp (sc_ObjectMeta c)) = false ->
  if ContainsFinalizer (sc_ObjectMeta c) ServiceClaimFinalizer
  then exists x tr', tr = Ev (getApplication c) x :: tr' /\ drain_step c x tr' out
  else tr = [] /\ out = (emptyResult, None).
Proof.
  intros H Hf Hd. apply Reconcile_found in H as [(e & [= -> _] & _)|(c' & tr' & [= -> ->] & H)];
    [by cbn in Hf|]. cbn in Hf. injection Hf as ->. rewrite Hd in H.
  by apply reconcileDelete_runs.
Qed.

(** The teardown of a claim never reads, waits for or writes its Tenant,
    whatever is answered: every call it makes is on the claim itself or on the
    Application, so it cannot deadlock with the Tenant's finalizer, and it makes
    at most three of them. *)
Theorem claim_drain_ignores_tenant r req c e0 tr out :
  runs (Reconcile r req) (e0 :: tr) out -> fetched KServiceClaim c e0 ->
  TimeIsZero (om_DeletionTimestamp (sc_ObjectMeta c)) = false ->
  Forall (fun e => event_kind e = NApplication \/ event_kind e = NServiceClaim) tr /\
  length tr <= 3.
Proof.
  intros H Hf Hd. apply Reconcile_found in H as [(e & [= -> _] & _)|(c' & tr' & [= -> ->] & H)];
    [by cbn in Hf|]. cbn in Hf. injection Hf as ->. rewrite Hd in H.
  assert (Hc : all_calls (fun R c => callKind c = NApplication \/
                                     callKind c = NServiceClaim) (reconcileDelete c)).
  { unfold reconcileDelete, releaseFinalizer. walk ltac:(auto). }
  split; [eapply Forall_impl; [exact (all_calls_runs _ _ _ _ Hc H)|]; by intros []|].
  apply (at_most_runs 3 _ _ _) in H; [done|].
  unfold reconcileDelete, releaseFinalizer. walk done.
Qed.

(** The Application of a claim was read and found gone. *)
Definition application_gone (name : string) (e : event call) : Prop :=
  exists err, IsNotFound (Some err) = true /\
  e = Ev (Get Client KApplication {| nn_Namespace := "argocd"; nn_Name := name |}) (inl err).

(** C9: whatever the API answers, a claim's finalizer is released only after
    the read of its Application answered NotFound in this same reconcile, and
    only after the status that says so was written; the live branch never
    releases it. *)
Theorem claim_outlives_application r req tr out :
  runs (Reconcile r req) tr out -> Forall answer_named tr ->
  before (application_gone (nn_Name (req_NamespacedName req)))
    (releases NServiceClaim ServiceClaimFinalizer) tr /\
  before status_written (releases NServiceClaim ServiceClaimFinalizer) tr.
Proof.
  intros H Hn. apply Reconcile_found in H as [(e & -> & _)|(c & tr' & -> & H)].
  { by split; split; [intros []|right|intros []|right]. }
  apply Forall_cons in Hn as [Hname Hn]. cbn in Hname. rewrite <- Hname.
  fold (sc_Name c). destruct (TimeIsZero _).
  - apply reconcileLive_runs in H as (tr1 & c1 & e1 & H1 & H).
    assert (Forall (fun e => ~ releases NServiceClaim ServiceClaimFinalizer e) tr') as Hq.
    { apply ensureFinalizer_claim in H1 as (_ & _ & _ & H1).
      destruct H as [(e & -> & -> & ->)|(g & c2 & x & -> & Hg & -> & _)]; [done|].
      repeat (apply Forall_app; split); [done| |repeat constructor; by intros []].
      destruct g; repeat constructor; by intros []. }
    by split; apply before_never; constructor; [intros []| |intros []|].
  - apply reconcileDelete_runs in H.
    destruct (ContainsFinalizer (sc_ObjectMeta c) _);
      [|destruct H as [-> _]; by split; (split; [intros []|right])].
    destruct H as (x & tr1 & -> & H). destruct x as [e|app]; cbn [drain_step] in H.
    + destruct (IsNotFound (Some e)) eqn:En.
      * destruct H as (p & e1 & tr2 & -> & (c' & -> & _) & H).
        split; (split; [by intros []|right]); (split; [by intros []|]).
        -- left. red. eauto.
        -- right. split; [by intros []|].
           destruct p; [destruct H as [-> _]; by right|left; red; eauto].
      * destruct H as [-> _]. split; by repeat (split; [intros []|right]).
    + destruct (om_DeletionTimestamp (u_ObjectMeta app)).
      * destruct H as (p & e1 & -> & (c' & -> & _) & _).
        split; by repeat (split; [intros []|right]).
      * destruct H as (d & tr2 & -> & H). destruct d.
        -- destruct H as [-> _]. split; by repeat (split; [intros []|right]).
        -- destruct H as (p & e1 & -> & (c' & -> & _) & _).
           split; by repeat (split; [intros []|right]).
Qed.

(** A success without a requeue. *)
Definition settled (out : Result * option error) : Prop := out = (emptyResult, None).

(** A release that was accepted; a write that found its object gone. *)
Definition released (e : event call) : Prop :=
  exists c c' p, e = Ev (PatchObject KServiceClaim c p) (inr c').

Definition write_not_found (e : event call) : Prop :=
  match e with
  | Ev c r =>
      match c in call R return R -> Prop with
      | PatchStatus _ _ _ => fun r => exists e, r = inl e /\ IsNotFound (Some e) = true
      | Delete _ _ _ => fun r => IsNotFound r = true
      | _ => fun _ => False
      end r
  end.

(** A drain does not stall: a reconcile of a claim that is being deleted
    and holds the finalizer either returns an error or a requeue, or it has
    released the finalizer, or the claim or the Application it was writing had
    vanished, or the status answer showed the finalizer already removed by
    someone else. *)
Theorem claim_drain_never_stalls r req c e0 tr out :
  runs (Reconcile r req) (e0 :: tr) out -> fetched KServiceClaim c e0 ->
  TimeIsZero (om_DeletionTimestamp (sc_ObjectMeta c)) = false ->
  ContainsFinalizer (sc_ObjectMeta c) ServiceClaimFinalizer = true -> settled out ->
  Exists released tr \/ Exists write_not_found tr \/
  exists c', Exists (fun e => exists o p, e = Ev (PatchStatus KServiceClaim o p) (inr c')) tr /\
    ContainsFinalizer (sc_ObjectMeta c') ServiceClaimFinalizer = false.
Proof.
  intros H Hf Hd Hfin Hs.
  apply Reconcile_found in H as [(e & [= -> _] & _)|(c' & tr' & [= -> ->] & H)];
    [by cbn in Hf|]. cbn in Hf. injection Hf as ->. rewrite Hd in H.
  apply reconcileDelete_runs in H. rewrite Hfin in H.
  destruct H as (x & tr1 & -> & H). destruct x as [e|app]; cbn [drain_step] in H.
  - destruct (IsNotFound (Some e)); [|by destruct H as [_ ->]].
    destruct H as (p & e1 & tr2 & -> & (c' & -> & _) & H). destruct p as [pe|c1].
    + destruct H as [-> ->]. right. left. right. left. exists pe. split; [done|].
      injection Hs as Hs. rewrite IgnoreNotFound_spec in Hs. by destruct (IsNotFound _).
    + destruct H as ([c2 re] & H & ->). injection Hs as ->.
      unfold releaseFinalizer in H. cbn [GetMeta ServiceClaim_ClientObject] in H.
      destruct (ContainsFinalizer (sc_ObjectMeta c1) _) eqn:E1; cbn [negb] in H.
      * remember (c2, None) as o eqn:Eo. run_steps; [done|].
        left. right. right. left. red. eauto.
      * right. right. exists c1. split; [|done]. right. left. eauto.
  - destruct (om_DeletionTimestamp (u_ObjectMeta app)).
    + destruct H as (p & e1 & -> & _ & ->). by destruct p.
    + destruct H as (d & tr2 & -> & H). destruct d as [e|].
      * destruct H as [-> ->]. right. left. right. left. injection Hs as Hs. cbn.
        rewrite IgnoreNotFound_spec in Hs. by destruct (IsNotFound _).
      * destruct H as (p & e1 & -> & _ & ->). by destruct p.
Qed.
End spec.

(** ** Witnesses: runs against the sample API server *)

Section witnesses.
#[local] Existing Instance sample_kube.
#[local] Existing Instance sample_kube_laws.

Definition the_claim_reconciler : ServiceClaimReconciler := {|
  sr_Scheme := []; WorkloadsRepoURL := "https://git/workloads";
  WorkloadsTargetRevision := "HEAD" |}.

Definition reconcile_api : prog call (Result * option error) :=
  Reconcile the_claim_reconciler (request "api").

Definition api_claim (fins : list string) (dt : option Z) : ServiceClaim :=
  sample_claim "api" "payments" "nginx:1.25" (Some 2%Z) fins dt.

Definition get_api (c : ServiceClaim) : event call :=
  Ev (Get Client KServiceClaim (req_NamespacedName (request "api"))) (inr c).

(** The Tenant as its own reconciler leaves it. *)
Definition ready_payments : Tenant :=
  let t := sample_tenant "payments" None [TenantFinalizer] None in
  t_set_status t {| ts_Phase := PhaseReady; ts_ObservedGeneration := 1;
    ts_Conditions := [{| c_Type := "Ready"; c_Status := ConditionTrue;
      c_ObservedGeneration := 1; c_Reason := ""; c_Message := "" |}] |}.

Definition new_claim : ServiceClaim := api_claim [] None.
Definition lonely_cluster : cluster := put KServiceClaim new_claim empty_cluster.
Definition ready_cluster : cluster := put KTenant ready_payments lonely_cluster.

Definition dying_claim : ServiceClaim := api_claim [ServiceClaimFinalizer] (Some 5%Z).
Definition drained_cluster : cluster := put KServiceClaim dying_claim empty_cluster.
Definition api_app (fins : list string) (dt : option Z) : Unstructured := {|
  u_GVK := applicationGVK; u_Object := [];
  u_ObjectMeta := {| om_Name := "api"; om_Namespace := "argocd"; om_UID := "uid-app";
    om_ResourceVersion := "1"; om_Generation := 1; om_DeletionTimestamp := dt;
    om_Labels := ∅; om_Finalizers := fins; om_OwnerReferences := [] |} |}.
Definition draining_cluster : cluster :=
  put KApplication (api_app [argoResourcesFinalizer] None) drained_cluster.

Example claim_becomes_ready :
  let s := after reconcile_api ready_cluster in
  cs_Phase ∘ sc_Status <$> (cl_claims s !! ("", "api")) = Some PhaseReady /\
  (u_Object <$> (cl_apps s !! ("argocd", "api"))) ≫= (fun o => nested o ["spec"; "source"; "path"])
    = Some (AString "workloads/payments/api").
Proof. split; vm_compute; reflexivity. Qed.

(** Deletion, ArgoCD's own step, and the second reconcile. *)
Example claim_drains :
  let s := after reconcile_api draining_cluster in
  let gone := set_store KApplication ∅ s in
  fst (result_of reconcile_api draining_cluster) = {| RequeueAfter := 5 * Second |} /\
  is_Some (cl_claims s !! ("", "api")) /\
  cl_claims (after reconcile_api gone) !! ("", "api") = None.
Proof. split_and!; vm_compute; eauto. Qed.

Lemma claim_reconcile_outcome_witness :
  let tr := tail (trace_of reconcile_api ready_cluster) in
  exists g st, gate_ok g /\ statuses tr = [st] /\
    IsStatusConditionTrue (cs_Conditions st) ConditionReady = gate_ready g.
Proof.
  intros tr.
  destruct (claim_reconcile_outcome the_claim_reconciler (request "api") new_claim
    (get_api new_claim) tr (result_of reconcile_api ready_cluster))
    as [(e & _ & H & _)|(g & c1 & c2 & tr1 & p & H1 & _ & _ & _ & H2 & _ & H3 & _)].
  - exact (run_runs_cons reconcile_api ready_cluster _ eq_refl).
  - reflexivity.
  - reflexivity.
  - apply (f_equal length) in H. vm_compute in H. discriminate H.
  - by exists g, (sc_Status c2).
Defined.

Lemma application_only_for_ready_tenant_witness :
  exists c, before (tenant_ready (Team (sc_Spec c))) applies
    (tail (trace_of reconcile_api ready_cluster)).
Proof.
  destruct (application_only_for_ready_tenant the_claim_reconciler (request "api")
    new_claim (get_api new_claim) (tail (trace_of reconcile_api ready_cluster))
    (result_of reconcile_api ready_cluster)) as (c & _ & H & _).
  - exact (run_runs_cons reconcile_api ready_cluster _ eq_refl).
  - reflexivity.
  - by exists c.
Defined.

Lemma claim_finalizer_first_witness :
  before (carries NServiceClaim ServiceClaimFinalizer) applies
    (trace_of reconcile_api ready_cluster).
Proof.
  apply (claim_finalizer_first the_claim_reconciler (request "api") _
    (result_of reconcile_api ready_cluster)). apply run_runs.
Defined.

Lemma claim_drain_outcome_witness :
  exists x tr', tail (trace_of reconcile_api draining_cluster) =
      Ev (getApplication dying_claim) x :: tr' /\
    drain_step dying_claim x tr' (result_of reconcile_api draining_cluster).
Proof.
  apply (claim_drain_outcome the_claim_reconciler (request "api") dying_claim
    (get_api dying_claim)).
  - exact (run_runs_cons reconcile_api draining_cluster _ eq_refl).
  - reflexivity.
  - reflexivity.
Defined.

Lemma claim_drain_ignores_tenant_witness :
  length (tail (trace_of reconcile_api draining_cluster)) <= 3.
Proof.
  apply (claim_drain_ignores_tenant the_claim_reconciler (request "api") dying_claim
    (get_api dying_claim) _ (result_of reconcile_api draining_cluster)).
  - exact (run_runs_cons reconcile_api draining_cluster _ eq_refl).
  - reflexivity.
  - reflexivity.
Defined.

Lemma claim_outlives_application_witness :
  before (application_gone "api") (releases NServiceClaim ServiceClaimFinalizer)
    (trace_of reconcile_api drained_cluster).
Proof.
  apply (claim_outlives_application the_claim_reconciler (request "api") _
    (result_of reconcile_api drained_cluster)).
  - apply run_runs.
  - repeat constructor.
Defined.

Lemma claim_drain_never_stalls_witness :
  let tr := tail (trace_of reconcile_api drained_cluster) in
  settled (result_of reconcile_api drained_cluster) /\
  (Exists released tr \/ Exists write_not_found tr \/
   exists c', Exists (fun e => exists o p,
       e = Ev (PatchStatus KServiceClaim o p) (inr c')) tr /\
     ContainsFinalizer (sc_ObjectMeta c') ServiceClaimFinalizer = false).
Proof.
  intros tr. split; [by vm_compute|].
  apply (claim_drain_never_stalls the_claim_reconciler (request "api") dying_claim
    (get_api dying_claim) tr (result_of reconcile_api drained_cluster)).
  - exact (run_runs_cons reconcile_api drained_cluster _ eq_refl).
  - reflexivity.
  - reflexivity.
  - reflexivity.
  - by vm_compute.
Defined.
End witnesses.
