(* ===== verification/ApplicationSpec.v ===== *)
(** * The rendered ArgoCD Application

    What the mutate function of [ServiceClaimController] makes of an
    Application: the contents of the object, when rendering succeeds, and that
    rendering again changes nothing. *)
From S2P Require Import Prelude Prog Kube Api Client Finalizers.
From S2P Require Import ServiceClaimController Sample SampleApi.
Open Scope prog_scope.

Section spec.
Context `{K : Kube}.

(** The four subtrees the controller writes. *)
Definition p_source : list string := ["spec"; "source"].
Definition p_destination : list string := ["spec"; "destination"].
Definition p_project : list string := ["spec"; "project"].
Definition p_syncPolicy : list string := ["spec"; "syncPolicy"].
Definition written_paths : list (list string) :=
  [p_source; p_destination; p_project; p_syncPolicy].

Definition desired (r : ServiceClaimReconciler) (c : ServiceClaim)
    (nsName path : string) (p : list string) : option any :=
  if decide (p = p_source) then Some (AMap (sourceOf r c path))
  else if decide (p = p_destination) then
    Some (AMap [("server", AString "https://kubernetes.default.svc");
                ("namespace", AString nsName)])
  else if decide (p = p_project) then Some (AString "default")
  else if decide (p = p_syncPolicy) then
    Some (AMap [("automated", AMap [("selfHeal", ABool true); ("prune", ABool true)])])
  else None.

(** Two object trees that agree on every path but the root and [spec], whose
    values are whole maps (of which Go does not know the order). *)
Definition tree_eq (a b : list (string * any)) : Prop :=
  forall q, q <> [] -> q <> ["spec"] -> nested a q = nested b q.

#[global] Instance tree_eq_equivalence : Equivalence tree_eq.
Proof.
  split; unfold tree_eq; [by intros a|intros a b H q; symmetry; auto|].
  intros a b c H1 H2 q Hq Hs. by rewrite H1, H2.
Qed.

(** The labels, and the metadata before the owner reference is set. *)
Definition claimLabels (c : ServiceClaim) : gmap string string :=
  <["platform.idp.io/team" := Team (sc_Spec c)]>
    {["platform.idp.io/claim" := sc_Name c]}.

Definition preparedMeta (c : ServiceClaim) (m : ObjectMeta) : ObjectMeta :=
  AddFinalizer (SetLabels (claimLabels c) m) "resources-finalizer.argocd.argoproj.io".

Context `{L : !KubeLaws}.

(** ** Lemmas *)

Lemma preparedMeta_spec c m :
  exists fins, preparedMeta c m = SetFinalizers fins (SetLabels (claimLabels c) m) /\
    forall f, f ∈ fins <->
      f = "resources-finalizer.argocd.argoproj.io" \/ f ∈ om_Finalizers m.
Proof.
  destruct (AddFinalizer_spec (SetLabels (claimLabels c) m)
    "resources-finalizer.argocd.argoproj.io") as [H1 H2].
  eexists. split; [exact H1|exact H2].
Qed.

Lemma spec_paths_disjoint k1 k2 :
  k1 <> k2 -> disjoint_paths ["spec"; k1] ["spec"; k2].
Proof.
  intros Hk. split; intros Hp; apply prefix_cons_inv_2, prefix_cons_inv_1 in Hp; congruence.
Qed.

(** A path that follows a subtree goes on inside it. *)
Lemma nested_app m p q : p <> [] -> q <> [] ->
  nested m (p ++ q) =
  match nested m p with Some (AMap m') => nested m' q | _ => None end.
Proof.
  revert m. induction p as [|k [|k' p] IH]; intros m Hp Hq; [done| |].
  - cbn. destruct (any_get k m) as [v|]; [|done]. destruct q; [done|]. by destruct v.
  - cbn [app nested]. destruct (any_get k m) as [v|]; [|done].
    destruct v; try done. by apply (IH m0).
Qed.

(** After a two-key write the first key holds a map. *)
Lemma nested_spec_map (obj : list (string * any)) k v :
  nested obj ["spec"; k] = Some v -> exists m, any_get "spec" obj = Some (AMap m).
Proof. cbn. destruct (any_get "spec" obj) as [[]|]; try done. eauto. Qed.

(** The metadata a render leaves. *)
Lemma mutateApplication_inv r c ns path app app' :
  mutateApplication r c ns path app = inr app' ->
  u_GVK app' = u_GVK app /\
  SetControllerReference (sr_Scheme r) "ServiceClaim" (sc_ObjectMeta c)
    (preparedMeta c (u_ObjectMeta app)) = inr (u_ObjectMeta app') /\
  (forall p, p ∈ written_paths -> nested (u_Object app') p = desired r c ns path p) /\
  (forall q, Forall (fun p => disjoint_paths p q) written_paths ->
     nested (u_Object app') q = nested (u_Object app) q).
Proof.
  unfold mutateApplication.
  destruct (SetNestedMap _ _ _) as [|o1] eqn:E1; [done|].
  destruct (SetNestedMap o1 _ _) as [|o2] eqn:E2; [done|].
  destruct (SetNestedField o2 _ _) as [|o3] eqn:E3; [done|].
  destruct (SetNestedMap o3 _ _) as [|o4] eqn:E4; [done|].
  destruct (SetControllerReference _ _ _ _) as [|m] eqn:E5; [done|].
  intros [= <-]. split_and!; [done|done| |].
  - cbn [u_Object]. intros p Hp. unfold written_paths in Hp.
    repeat (apply elem_of_cons in Hp as [->|Hp]); [..|by apply not_elem_of_nil in Hp].
    + rewrite (SetNestedMap_ne _ _ _ _ _ E4), (SetNestedField_ne _ _ _ _ _ E3),
        (SetNestedMap_ne _ _ _ _ _ E2) by (by apply spec_paths_disjoint).
      exact (SetNestedMap_eq _ _ _ _ E1).
    + rewrite (SetNestedMap_ne _ _ _ _ _ E4), (SetNestedField_ne _ _ _ _ _ E3)
        by (by apply spec_paths_disjoint).
      exact (SetNestedMap_eq _ _ _ _ E2).
    + rewrite (SetNestedMap_ne _ _ _ _ _ E4) by (by apply spec_paths_disjoint).
      exact (SetNestedField_eq _ _ _ _ E3).
    + exact (SetNestedMap_eq _ _ _ _ E4).
  - cbn [u_Object]. unfold written_paths. intros q.
    rewrite !Forall_cons. intros (D1 & D2 & D3 & D4 & _).
    by rewrite (SetNestedMap_ne _ _ _ _ _ E4), (SetNestedField_ne _ _ _ _ _ E3),
      (SetNestedMap_ne _ _ _ _ _ E2), (SetNestedMap_ne _ _ _ _ _ E1).
Qed.

(** Rendering fails only where the owner reference does. *)
Lemma mutateApplication_ok r c ns path app m :
  (any_get "spec" (u_Object app) = None \/
   exists m, any_get "spec" (u_Object app) = Some (AMap m)) ->
  SetControllerReference (sr_Scheme r) "ServiceClaim" (sc_ObjectMeta c)
    (preparedMeta c (u_ObjectMeta app)) = inr m ->
  exists app', mutateApplication r c ns path app = inr app' /\ u_ObjectMeta app' = m.
Proof.
  intros Hs Hm. unfold mutateApplication.
  destruct (SetNestedMap_ok (u_Object app) (sourceOf r c path) "spec" "source" Hs) as [o1 E1].
  rewrite E1. pose proof (nested_spec_map _ _ _ (SetNestedMap_eq _ _ _ _ E1)) as H1.
  match goal with |- context [SetNestedMap o1 ?v _] =>
    destruct (SetNestedMap_ok o1 v "spec" "destination" (or_intror H1)) as [o2 E2] end.
  rewrite E2. pose proof (nested_spec_map _ _ _ (SetNestedMap_eq _ _ _ _ E2)) as H2.
  match goal with |- context [SetNestedField o2 ?v _] =>
    destruct (SetNestedField_ok o2 v "spec" "project" (or_intror H2)) as [o3 E3] end.
  rewrite E3. pose proof (nested_spec_map _ _ _ (SetNestedField_eq _ _ _ _ E3)) as H3.
  match goal with |- context [SetNestedMap o3 ?v _] =>
    destruct (SetNestedMap_ok o3 v "spec" "syncPolicy" (or_intror H3)) as [o4 E4] end.
  rewrite E4. change ServiceClaimKind with "ServiceClaim".
  change (AddFinalizer _ _) with (preparedMeta c (u_ObjectMeta app)).
  rewrite Hm. eauto.
Qed.

Lemma spec_tail_disjoint k' k q : k' <> k -> disjoint_paths ["spec"; k'] ("spec" :: k :: q).
Proof.
  intros Hk. split; intros Hp; apply prefix_cons_inv_2, prefix_cons_inv_1 in Hp; congruence.
Qed.

Lemma written_nonempty p : p ∈ written_paths -> p <> [].
Proof. revert p. apply Forall_forall. repeat constructor; discriminate. Qed.

(** A path is one the controller leaves alone, or leads into one it writes. *)
Lemma path_cases q : q <> [] -> q <> ["spec"] ->
  Forall (fun p => disjoint_paths p q) written_paths \/
  exists p q', p ∈ written_paths /\ q = p ++ q'.
Proof.
  intros H1 H2. destruct q as [|k q]; [done|].
  destruct (decide (k = "spec")) as [->|Hk].
  2: { left. repeat constructor; intros Hp; apply prefix_cons_inv_1 in Hp; congruence. }
  destruct q as [|k q]; [done|].
  destruct (decide (["spec"; k] ∈ written_paths)) as [Hin|Hn];
    [right; by exists ["spec"; k], q|left].
  assert (Hk : forall k', ["spec"; k'] ∈ written_paths -> k' <> k) by (by intros k' Hk' ->).
  repeat constructor; apply spec_tail_disjoint, Hk; unfold written_paths;
    rewrite !elem_of_cons; tauto.
Qed.

(** ** Properties *)

(** C31: a rendered Application carries exactly the team and claim labels, keeps
    every finalizer it had and gains ArgoCD's cascade finalizer, is controlled by
    the claim, holds the desired source, destination, project and sync policy,
    and is otherwise unchanged: kind, name, and every path outside those four,
    ArgoCD's status among them. *)
Theorem application_rendered r c ns path app app' :
  mutateApplication r c ns path app = inr app' ->
  let m := u_ObjectMeta app in
  let m' := u_ObjectMeta app' in
  u_GVK app' = u_GVK app /\
  m' = SetOwnerReferences (om_OwnerReferences m')
         (SetFinalizers (om_Finalizers m') (SetLabels (claimLabels c) m)) /\
  (forall f, f ∈ om_Finalizers m' <->
     f = "resources-finalizer.argocd.argoproj.io" \/ f ∈ om_Finalizers m) /\
  (exists ref, controllerOf m' = Some ref /\ or_Kind ref = "ServiceClaim" /\
     or_Name ref = sc_Name c /\ or_UID ref = om_UID (sc_ObjectMeta c)) /\
  (forall p, p ∈ written_paths -> nested (u_Object app') p = desired r c ns path p) /\
  (forall q, Forall (fun p => disjoint_paths p q) written_paths ->
     nested (u_Object app') q = nested (u_Object app) q) /\
  nested (u_Object app') ["status"; "health"; "status"] =
    nested (u_Object app) ["status"; "health"; "status"].
Proof.
  intros H. apply mutateApplication_inv in H as (Hg & Hm & Hp & Hq).
  apply SetControllerReference_ok in Hm as [Em Hr].
  destruct (preparedMeta_spec c (u_ObjectMeta app)) as (fins & Ef & Hf).
  cbn zeta. rewrite Ef in Em.
  split_and!; [done| | |exact Hr|exact Hp|exact Hq|].
  - by rewrite Em.
  - intros f. rewrite Em. apply Hf.
  - apply Hq. repeat constructor; intros Hpre; by apply prefix_cons_inv_1 in Hpre.
Qed.

(** The source of an Application names the platform's repository and
    revision and the directory of the claim, and overrides the image and the
    replica count exactly when the claim declares them: with neither there is
    no kustomize section, so the base manifest's values win. *)
Theorem source_fields r c path k :
  any_get k (sourceOf r c path) =
    (if String.eqb k "repoURL" then Some (AString (WorkloadsRepoURL r))
     else if String.eqb k "path" then Some (AString path)
     else if String.eqb k "targetRevision" then Some (AString (WorkloadsTargetRevision r))
     else if String.eqb k "kustomize" then
       match Replicas (sc_Spec c), String.eqb (Image (sc_Spec c)) "" with
       | None, true => None
       | _, _ => Some (AMap (kustomizeOf c))
       end
     else None) /\
  any_get k (kustomizeOf c) =
    (if String.eqb k "images" then
       if String.eqb (Image (sc_Spec c)) "" then None
       else Some (ASlice [AString ("app=" +:+ Image (sc_Spec c))])
     else if String.eqb k "replicas" then
       match Replicas (sc_Spec c) with
       | None => None
       | Some n => Some (ASlice [AMap [("name", AString (sc_Name c)); ("count", AInt64 n)]])
       end
     else None).
Proof.
  unfold sourceOf, kustomizeOf.
  destruct (String.eqb (Image (sc_Spec c)) ""), (Replicas (sc_Spec c)); cbn;
    split; repeat match goal with
    | |- context [String.eqb k ?s] =>
        destruct (String.eqb_spec k s) as [->|_]; [reflexivity|]
    end; reflexivity.
Qed.

(** Rendering a fresh Application, or one that exists without a controller
    and whose spec is a map, never fails, so for a cluster-scoped claim an
    apply error is the API server's. *)
Theorem rendering_total r c ns path app :
  om_Namespace (sc_ObjectMeta c) = "" -> controllerOf (u_ObjectMeta app) = None ->
  (any_get "spec" (u_Object app) = None \/
   exists m, any_get "spec" (u_Object app) = Some (AMap m)) ->
  exists app', mutateApplication r c ns path app = inr app'.
Proof.
  intros Hn Hc Hs.
  destruct (SetControllerReference_free (sr_Scheme r) "ServiceClaim" (sc_ObjectMeta c)
    (preparedMeta c (u_ObjectMeta app))) as [m Hm]; [|done|].
  - by destruct (preparedMeta_spec c (u_ObjectMeta app)) as (fins & -> & _).
  - destruct (mutateApplication_ok r c ns path app m Hs Hm) as (app' & H & _). eauto.
Qed.

(** Rendering is idempotent: applied to its own result it succeeds, keeps
    the metadata to the letter and every path of the object, so a reconcile of
    an unchanged claim finds nothing to update and the watch on the Application
    does not drive a loop. *)
Theorem rendering_idempotent r c ns path app app' :
  mutateApplication r c ns path app = inr app' ->
  exists app'', mutateApplication r c ns path app' = inr app'' /\
    u_ObjectMeta app'' = u_ObjectMeta app' /\ u_GVK app'' = u_GVK app' /\
    tree_eq (u_Object app') (u_Object app'').
Proof.
  intros H. apply mutateApplication_inv in H as (Hg & Hm & Hp & Hq).
  pose proof (SetControllerReference_ok _ _ _ _ _ Hm) as [Em _].
  destruct (preparedMeta_spec c (u_ObjectMeta app)) as (fins & Ef & Hf). rewrite Ef in Em.
  assert (Hsame : preparedMeta c (u_ObjectMeta app') = u_ObjectMeta app').
  { unfold preparedMeta.
    replace (SetLabels _ (u_ObjectMeta app')) with (u_ObjectMeta app') by (by rewrite Em).
    apply AddFinalizer_present. rewrite Em. apply Hf. by left. }
  destruct (mutateApplication_ok r c ns path app' (u_ObjectMeta app')) as (app'' & H & Hm').
  - right. apply (nested_spec_map _ "source" (AMap (sourceOf r c path))).
    apply (Hp p_source). by left.
  - rewrite Hsame. by apply SetControllerReference_idem in Hm.
  - exists app''. split; [done|]. split; [done|].
    apply mutateApplication_inv in H as (Hg' & _ & Hp' & Hq'). split; [done|].
    intros q H1 H2. destruct (path_cases q H1 H2) as [Hd|(p & q' & Hin & ->)].
    + by rewrite Hq'.
    + destruct q' as [|k q'].
      * by rewrite app_nil_r, Hp, Hp'.
      * pose proof (written_nonempty p Hin).
        by rewrite !nested_app, Hp, Hp'.
Qed.

(** C32: an Application that another object controls is not taken over: applying
    it fails.  Yet the teardown of a claim of that name deletes it all the same:
    it checks the UID it has just read, never the owner. *)
Theorem foreign_application_not_taken_but_deleted r c ns path app e0 tr out :
  foreign_owner "ServiceClaim" (sc_ObjectMeta c) (u_ObjectMeta app) ->
  om_DeletionTimestamp (u_ObjectMeta app) = None ->
  ContainsFinalizer (sc_ObjectMeta c) ServiceClaimFinalizer = true ->
  runs (reconcileDelete c) (e0 :: tr) out -> fetched KApplication app e0 ->
  (exists e, mutateApplication r c ns path app = inl e) /\
  exists d tr', tr = Ev (Delete KApplication app (Some (om_UID (u_ObjectMeta app)))) d :: tr'.
Proof.
  intros (ref & Hc & Hd) Ht Hf H Hx. split.
  - unfold mutateApplication.
    repeat match goal with
    | |- context [match SetNestedMap ?a ?b ?p with _ => _ end] =>
        destruct (SetNestedMap a b p); [eauto|]
    | |- context [match SetNestedField ?a ?b ?p with _ => _ end] =>
        destruct (SetNestedField a b p); [eauto|]
    end.
    change (AddFinalizer _ _) with (preparedMeta c (u_ObjectMeta app)).
    change ServiceClaimKind with "ServiceClaim".
    destruct (SetControllerReference_owned (sr_Scheme r) "ServiceClaim" (sc_ObjectMeta c)
      (preparedMeta c (u_ObjectMeta app)) ref) as [e He]; [|done|rewrite He; eauto].
    by destruct (preparedMeta_spec c (u_ObjectMeta app)) as (fins & -> & _).
  - unfold reconcileDelete in H. rewrite Hf in H. cbn [negb runs bind trigger] in H.
    destruct H as (x & tr0 & [= -> <-] & H). cbn in Hx. subst x.
    cbn beta iota in H. rewrite Ht in H. destruct H as (d & tr1 & -> & _). eauto.
Qed.
End spec.

Section witnesses.
#[local] Existing Instance sample_kube.
#[local] Existing Instance sample_kube_laws.

Definition app_reconciler : ServiceClaimReconciler := {|
  sr_Scheme := []; WorkloadsRepoURL := "https://git/workloads";
  WorkloadsTargetRevision := "HEAD" |}.

Definition orders : ServiceClaim :=
  sample_claim "orders" "payments" "nginx:1.25" (Some 2%Z) [ServiceClaimFinalizer] (Some 5%Z).

Definition bare_app : Unstructured := newApplication "orders" "argocd".

Definition rendered : Unstructured :=
  match mutateApplication app_reconciler orders "team-payments" "workloads/payments/orders"
          bare_app with
  | inr app => app
  | inl _ => bare_app
  end.

(** An Application an ApplicationSet generated under the claim's name. *)
Definition generated_app : Unstructured := {|
  u_GVK := applicationGVK; u_Object := [];
  u_ObjectMeta := SetOwnerReferences
    [sample_ref "ApplicationSet" (NewObjectMeta "all-services" "argocd")]
    (NewObjectMeta "orders" "argocd") |}.
Definition generated_cluster : cluster := put KApplication generated_app empty_cluster.

Example rendered_image :
  nested (u_Object rendered) ["spec"; "source"; "kustomize"; "images"] =
  Some (ASlice [AString "app=nginx:1.25"]).
Proof. reflexivity. Qed.

Lemma application_rendered_witness :
  nested (u_Object rendered) p_project = Some (AString "default").
Proof.
  destruct (application_rendered app_reconciler orders "team-payments"
    "workloads/payments/orders" bare_app rendered eq_refl) as (_ & _ & _ & _ & H & _).
  rewrite (H p_project); [reflexivity|]. right. right. by left.
Defined.

Lemma rendering_total_witness :
  exists app', mutateApplication app_reconciler orders "team-payments"
    "workloads/payments/orders" bare_app = inr app'.
Proof. apply rendering_total; [reflexivity|reflexivity|by left]. Defined.

Lemma rendering_idempotent_witness :
  exists app'', mutateApplication app_reconciler orders "team-payments"
    "workloads/payments/orders" rendered = inr app'' /\
    u_ObjectMeta app'' = u_ObjectMeta rendered.
Proof.
  destruct (rendering_idempotent app_reconciler orders "team-payments"
    "workloads/payments/orders" bare_app rendered eq_refl) as (app'' & H1 & H2 & _).
  by exists app''.
Defined.

Lemma foreign_application_not_taken_but_deleted_witness :
  exists e, mutateApplication app_reconciler orders "team-payments"
    "workloads/payments/orders" generated_app = inl e.
Proof.
  destruct (foreign_application_not_taken_but_deleted app_reconciler orders
    "team-payments" "workloads/payments/orders" generated_app
    (Ev (Get Client KApplication {| nn_Namespace := "argocd"; nn_Name := "orders" |})
       (inr generated_app))
    (tail (trace_of (reconcileDelete orders) generated_cluster))
    (result_of (reconcileDelete orders) generated_cluster)) as [H _].
  - eexists. split; [reflexivity|]. by left.
  - reflexivity.
  - reflexivity.
  - exact (run_runs_cons (reconcileDelete orders) generated_cluster _ eq_refl).
  - reflexivity.
  - exact H.
Defined.
End witnesses.
