(* ===== verification/ClaimSchema.v ===== *)
(** * The schema of a ServiceClaim (serviceclaim_types.go)

    The markers of the struct fields as a schema of [Schema]: a claim's team is
    not empty, its replicas are not negative and default to one.  The theorems say
    what the controllers can rely on in a claim the API server admitted, and what
    becomes of a claim they write. *)
From S2P Require Import Prelude Regexp Prog Kube Json Schema Api ApiJson ConditionSchema Client.
From S2P Require Import ServiceClaimController ApplicationSpec Sample SampleApi SampleJson.

Definition ServiceClaimSpec_schema : schema :=
  SObject [optional "image" (SString 0);
           Property "replicas" false (Some (JInt 1)) (SInteger 32 (Some 0%Z));
           required "team" (SString 1)] [].

Definition ServiceClaimStatus_schema `{LJ : LibJson} : schema :=
  SObject [optional "conditions" Conditions_schema;
           optional "observedGeneration" (SInteger 64 None); optional "phase" (SString 0)] [].

Definition ServiceClaim_schema `{LJ : LibJson} : schema :=
  SObject [optional "apiVersion" (SString 0); optional "kind" (SString 0);
           optional "metadata" SOpaque; required "spec" ServiceClaimSpec_schema;
           optional "status" ServiceClaimStatus_schema] [].

Section claims.
Context `{LJ : LibJson} `{CL : !ConditionJsonLaws}.

(** What the JSON of a claim says of the replicas, and the spec that may be decoded
    from an admitted claim: the number it declares, or one. *)
Definition declared_replicas (v : json) : json := select (select v "spec") "replicas".

Definition sound_spec (v : json) (sp : ServiceClaimSpec) : Prop :=
  Team sp <> "" /\
  exists n, Replicas sp = Some n /\ (0 <= n < 2 ^ 31)%Z /\
    (declared_replicas v = JInt n \/ declared_replicas v = JNull /\ n = 1%Z).

(** ** Lemmas *)

Lemma admitted_spec_decodes v :
  admitted ServiceClaimSpec_schema v = true ->
  exists sp, Unmarshal ServiceClaimSpec_json (stored ServiceClaimSpec_schema v) = Some sp /\
    sound_spec (JObject [("spec", v)]) sp.
Proof.
  intros (fs & gs & -> & Es & Hp & _)%admitted_object; [|compute_done].
  assert (Hi : exists i, Unmarshal str (field gs "image") = Some i).
  { rewrite Forall_forall in Hp. unfold field.
    destruct (Hp (optional "image" (SString 0)) ltac:(in_list)) as [(_ & -> & _)|(_ & -> & Ha)];
      [by eexists|]. apply admitted_string in Ha as (t & -> & _). by eexists. }
  assert (Hr : exists n, field gs "replicas" = JInt n /\ (0 <= n < 2 ^ 31)%Z /\
    (field fs "replicas" = JInt n \/ field fs "replicas" = JNull /\ n = 1%Z)).
  { rewrite Forall_forall in Hp. unfold field at 1.
    destruct (Hp (Property "replicas" false (Some (JInt 1)) (SInteger 32 (Some 0%Z))) ltac:(in_list))
      as [(E & -> & _)|(_ & -> & Ha)]; [exists 1%Z; split_and!; auto; lia|].
    apply admitted_integer in Ha as (z & -> & Hr & Hz). exists z.
    unfold in_range in Hr. apply andb_true_iff in Hr as [_ Hr]. cbn in Hz, Hr.
    split_and!; [done|lia|lia|by left]. }
  assert (Ht : exists t, field gs "team" = JString t /\ t <> "").
  { rewrite Forall_forall in Hp. unfold field.
    destruct (Hp (required "team" (SString 1)) ltac:(in_list)) as [(_ & _ & [=])|(_ & -> & Ha)].
    apply admitted_string in Ha as (t & -> & Ht). exists t. split; [done|]. by intros ->; cbn in Ht; lia. }
  destruct Hi as [i Ei], Hr as (n & En & Hn & Hd), Ht as (t & Et & Ht).
  exists {| Team := t; Image := i; Replicas := Some n |}. split.
  - assert (E : stored ServiceClaimSpec_schema (JObject fs) = JObject gs) by exact Es. rewrite E.
    cbn [Unmarshal ServiceClaimSpec_json members mbind option_bind]. rewrite Et, Ei, En.
    assert (Hrange : in_range 32 n = true) by (unfold in_range; cbn; lia).
    cbn [mbind option_bind Unmarshal str ptr int]. by rewrite Hrange.
  - split; [done|]. exists n. split_and!; [done|lia|lia|exact Hd].
Qed.

(** What an admitted claim's stored form has under each name. *)
Lemma admitted_claim_members v :
  admitted ServiceClaim_schema v = true ->
  let u := stored ServiceClaim_schema v in
  exists gs, u = JObject gs /\
    (exists k, Unmarshal str (field gs "kind") = Some k) /\
    (exists a, Unmarshal str (field gs "apiVersion") = Some a) /\
    field gs "metadata" = select v "metadata" /\
    (exists sp, Unmarshal ServiceClaimSpec_json (field gs "spec") = Some sp /\ sound_spec v sp) /\
    (field gs "status" = JNull \/
     admitted ServiceClaimStatus_schema (select v "status") = true /\
     field gs "status" = stored ServiceClaimStatus_schema (select v "status")).
Proof.
  intros (fs & gs & -> & Es & Hp & _)%admitted_object; [|compute_done].
  exists gs. split; [exact Es|]. rewrite Forall_forall in Hp. cbn [select].
  assert (Hs : forall k, optional k (SString 0) ∈ [optional "apiVersion" (SString 0); optional "kind" (SString 0);
           optional "metadata" SOpaque; required "spec" ServiceClaimSpec_schema;
           optional "status" ServiceClaimStatus_schema] -> exists t, Unmarshal str (field gs k) = Some t).
  { intros k Hin. unfold field. destruct (Hp _ Hin) as [(_ & -> & _)|(_ & -> & Ha)]; [by eexists|].
    apply admitted_string in Ha as (t & -> & _). by eexists. }
  split_and!; [apply Hs; in_list|apply Hs; in_list| | |].
  - unfold field at 1.
    destruct (Hp (optional "metadata" SOpaque) ltac:(in_list)) as [(E & -> & _)|(_ & -> & _)];
      [by rewrite E|by destruct (field fs "metadata")].
  - destruct (Hp (required "spec" ServiceClaimSpec_schema) ltac:(in_list)) as [(_ & _ & [=])|(_ & Eg & Ha)].
    destruct (admitted_spec_decodes _ Ha) as (sp & Hu & Hsound). exists sp.
    unfold field at 1. rewrite Eg. split; [exact Hu|exact Hsound].
  - destruct (Hp (optional "status" ServiceClaimStatus_schema) ltac:(in_list))
      as [(_ & Eg & _)|(_ & Eg & Ha)]; unfold field at 1; rewrite Eg; auto.
    right. split; [done|]. by unfold field; rewrite Eg.
Qed.

(** A status as stored is read as it was sent. *)
Lemma status_reads fs :
  Unmarshal ServiceClaimStatus_json (stored ServiceClaimStatus_schema (JObject fs)) =
  Unmarshal ServiceClaimStatus_json (JObject fs).
Proof.
  unfold ServiceClaimStatus_schema.
  match goal with |- context [stored (SObject ?ps ?rs) _] =>
    pose proof (field_leaf ps rs fs) as H; pose proof (field_stored ps rs fs) as Hs;
    set (u := stored (SObject ps rs) (JObject fs)) in * end.
  assert (Hnd := H "phase" false (SString 0) ltac:(compute_done) ltac:(in_list) eq_refl).
  assert (Hng := H "observedGeneration" false (SInteger 64 None) ltac:(compute_done) ltac:(in_list) eq_refl).
  assert (Hnc := Hs "conditions" false None Conditions_schema ltac:(compute_done) ltac:(in_list)).
  assert (exists gs, u = JObject gs) as [gs E] by (by eexists). rewrite E in *. clear H Hs.
  cbn [select] in *.
  assert (Hc : Unmarshal (slice Condition_json) (field gs "conditions") =
    Unmarshal (slice Condition_json) (field fs "conditions")).
  { rewrite Hnc. rewrite <- (conditions_read (field fs "conditions")). by destruct (field fs "conditions"). }
  cbn [Unmarshal ServiceClaimStatus_json members mbind option_bind]. by rewrite Hnd, Hng, Hc.
Qed.

Lemma admitted_status_decodes v :
  admitted ServiceClaimStatus_schema v = true ->
  is_Some (Unmarshal (slice Condition_json) (select v "conditions")) ->
  is_Some (Unmarshal ServiceClaimStatus_json (stored ServiceClaimStatus_schema v)).
Proof.
  intros Ha [cs Hcs]. pose proof Ha as Ha'.
  apply admitted_object in Ha' as (fs & gs & -> & _ & Hp & _); [|compute_done].
  rewrite status_reads. rewrite Forall_forall in Hp. cbn [select] in Hcs.
  assert (Hs : is_Some (Unmarshal str (field fs "phase"))).
  { destruct (Hp (optional "phase" (SString 0)) ltac:(in_list)) as [(-> & _)|(_ & _ & Hs)]; [by eexists|].
    apply admitted_string in Hs as (t & -> & _). by eexists. }
  assert (Hg : is_Some (Unmarshal (int 64) (field fs "observedGeneration"))).
  { destruct (Hp (optional "observedGeneration" (SInteger 64 None)) ltac:(in_list))
      as [(-> & _)|(_ & _ & Hg)]; [by eexists|].
    apply admitted_integer in Hg as (z & -> & Hz & _). cbn [Unmarshal int]. rewrite Hz. by eexists. }
  destruct Hs as [p Hs], Hg as [g Hg].
  cbn [Unmarshal ServiceClaimStatus_json members mbind option_bind]. rewrite Hs, Hg.
  cbn [mbind option_bind]. rewrite Hcs. by eexists.
Qed.

Lemma replicas_overridden c n :
  Replicas (sc_Spec c) = Some n -> forall r path,
  any_get "kustomize" (sourceOf r c path) = Some (AMap (kustomizeOf c)) /\
  any_get "replicas" (kustomizeOf c) =
    Some (ASlice [AMap [("name", AString (sc_Name c)); ("count", AInt64 n)]]).
Proof.
  intros Hn r path. unfold sourceOf, kustomizeOf. rewrite Hn.
  by destruct (String.eqb (Image (sc_Spec c)) "").
Qed.

(** ** Properties *)

(** C28: no claim the API server admits is one the controllers cannot read: if the
    library reads the metadata and the conditions, what is stored decodes to a
    claim, and of that claim the team is not empty, so that a claim always names
    a Tenant, and the replicas are the number declared, or one, and an int32 that
    is not negative.  So a claim that says nothing of its replicas does not leave
    the base manifest's number alone, although ensureArgoApplication sets the
    override only for a field that is present: the schema's default has made it
    present, and every source rendered from an admitted claim overrides the
    replicas, with one where none were declared. *)
Theorem admitted_claim_decodes v :
  admitted ServiceClaim_schema v = true ->
  is_Some (Unmarshal ObjectMeta_json (select v "metadata")) ->
  is_Some (Unmarshal (slice Condition_json) (select (select v "status") "conditions")) ->
  exists m c n, Unmarshal ServiceClaim_json (stored ServiceClaim_schema v) = Some (m, c) /\
    Team (sc_Spec c) <> "" /\ Replicas (sc_Spec c) = Some n /\ (0 <= n < 2 ^ 31)%Z /\
    (declared_replicas v = JInt n \/ declared_replicas v = JNull /\ n = 1%Z) /\
    forall r path,
      any_get "kustomize" (sourceOf r c path) = Some (AMap (kustomizeOf c)) /\
      any_get "replicas" (kustomizeOf c) =
        Some (ASlice [AMap [("name", AString (sc_Name c)); ("count", AInt64 n)]]).
Proof.
  intros (gs & -> & [k Hk] & [a Ha] & Hm & (sp & Hsp & Ht & n & Hn & Hb & Hd) & Hst)%admitted_claim_members
    [om Hom] Hcs.
  assert (is_Some (Unmarshal ServiceClaimStatus_json (field gs "status"))) as [st Est].
  { destruct Hst as [->|[Hst ->]]; [by eexists|]. by apply admitted_status_decodes. }
  exists {| Kind := k; APIVersion := a |},
    {| sc_ObjectMeta := om; sc_Spec := sp; sc_Status := st |}, n.
  split_and!; [|done|done|apply Hb|apply Hb|done|by apply replicas_overridden].
  cbn [Unmarshal ServiceClaim_json members mbind option_bind]. unfold read_TypeMeta.
  rewrite Hk. cbn [mbind option_bind]. rewrite Ha. cbn [mbind option_bind].
  rewrite Hm, Hom. cbn [mbind option_bind]. rewrite Hsp. cbn [mbind option_bind]. by rewrite Est.
Qed.

(** What the API server makes of a claim it is sent. *)
Definition defaulted (c : ServiceClaim) : ServiceClaim := {|
  sc_ObjectMeta := sc_ObjectMeta c;
  sc_Spec := {| Team := Team (sc_Spec c); Image := Image (sc_Spec c);
                Replicas := Some (default 1%Z (Replicas (sc_Spec c))) |};
  sc_Status := sc_Status c |}.

Context `{LL : !LibJsonLaws}.

Lemma written_spec_stored sp :
  fits ServiceClaimSpec_json sp ->
  Unmarshal ServiceClaimSpec_json
    (stored ServiceClaimSpec_schema (Marshal ServiceClaimSpec_json sp)) =
  Some {| Team := Team sp; Image := Image sp; Replicas := Some (default 1%Z (Replicas sp)) |}.
Proof.
  intros Hf. destruct sp as [t i r]. cbn [fits ServiceClaimSpec_json Replicas] in Hf.
  cbn [Marshal ServiceClaimSpec_json Team Image Replicas].
  unfold always, omitted. cbn [isZero str ptr Marshal].
  destruct (String.eqb_spec "" i) as [<-|Hi], r as [n|]; cbn [isNone present];
    cbn in Hf |- *; rewrite ?Hf; done.
Qed.

Lemma written_spec_admitted sp :
  fits ServiceClaimSpec_json sp ->
  admitted ServiceClaimSpec_schema (Marshal ServiceClaimSpec_json sp) = true <->
  Team sp <> "" /\ (forall n, Replicas sp = Some n -> 0 <= n)%Z.
Proof.
  intros Hf. destruct sp as [t i r]. cbn [fits ServiceClaimSpec_json Replicas Team] in *.
  cbn [Marshal ServiceClaimSpec_json Team Image Replicas].
  unfold always, omitted. cbn [isZero str ptr Marshal]. rewrite <- characters_positive.
  destruct (String.eqb_spec "" i) as [<-|Hi], r as [n|]; cbn [isNone present];
    unfold admitted; cbn -[characters Nat.leb Z.leb in_range];
    cbn in Hf; rewrite ?Hf, ?andb_true_r, ?andb_true_l, ?andb_true_iff, ?Z.leb_le;
    naive_solver.
Qed.

Lemma written_status_admitted st :
  fits ServiceClaimStatus_json st ->
  admitted ServiceClaimStatus_schema (Marshal ServiceClaimStatus_json st) = true <->
  Forall sound_condition (cs_Conditions st) /\ NoDup (map c_Type (cs_Conditions st)).
Proof.
  intros [Hg Hc]. destruct st as [p g cs]. cbn [cs_ObservedGeneration fits int cs_Conditions] in *.
  rewrite <- (conditions_admitted cs Hc). unfold ServiceClaimStatus_schema.
  cbn [Marshal ServiceClaimStatus_json cs_Phase cs_ObservedGeneration cs_Conditions].
  rewrite property_admits by compute_done. unfold optional.
  rewrite !Forall_cons. split.
  - intros (H & _). revert H. reads_struct. by destruct cs.
  - intros H. split_and!; [..|constructor].
    + reads_struct. by apply (omitted_admitted (slice Condition_json)).
    + reads_struct. apply (omitted_admitted (int 64)). unfold admitted. cbn. by rewrite Hg.
    + reads_struct. by apply (omitted_admitted str).
Qed.

(** The stored form of an object whose members are those of a written claim. *)
Lemma written_claim_reads fs m c :
  Unmarshal ServiceClaim_json (JObject fs) = Some (m, c) ->
  field fs "spec" = Marshal ServiceClaimSpec_json (sc_Spec c) ->
  fits ServiceClaimSpec_json (sc_Spec c) ->
  Unmarshal ServiceClaim_json (stored ServiceClaim_schema (JObject fs)) = Some (m, defaulted c).
Proof.
  intros H Hspec Hf. unfold ServiceClaim_schema.
  match goal with |- context [stored (SObject ?ps ?rs) _] =>
    pose proof (field_stored ps rs fs) as Hs; pose proof (field_leaf ps rs fs) as Hl;
    set (u := stored (SObject ps rs) (JObject fs)) in * end.
  assert (Hk := Hl "kind" false (SString 0) ltac:(compute_done) ltac:(in_list) eq_refl).
  assert (Ha := Hl "apiVersion" false (SString 0) ltac:(compute_done) ltac:(in_list) eq_refl).
  assert (Hm := Hl "metadata" false SOpaque ltac:(compute_done) ltac:(in_list) eq_refl).
  assert (Hsp := Hs "spec" true None ServiceClaimSpec_schema ltac:(compute_done) ltac:(in_list)).
  assert (Hst := Hs "status" false None ServiceClaimStatus_schema ltac:(compute_done) ltac:(in_list)).
  assert (exists gs, u = JObject gs) as [gs E] by (by eexists). rewrite E in *. clear Hs Hl.
  cbn [select] in *.
  cbn [Unmarshal ServiceClaim_json members mbind option_bind] in H |- *.
  unfold read_TypeMeta in *. rewrite Hk, Ha, Hm, Hsp, Hst. clear Hk Ha Hm Hsp Hst.
  destruct (Unmarshal str (field fs "kind")); [|done]. cbn [mbind option_bind] in *.
  destruct (Unmarshal str (field fs "apiVersion")); [|done]. cbn [mbind option_bind] in *.
  destruct (Unmarshal ObjectMeta_json _); [|done]. cbn [mbind option_bind] in *.
  destruct (Unmarshal ServiceClaimSpec_json (field fs "spec")); [|done]. cbn [mbind option_bind] in *.
  destruct (Unmarshal ServiceClaimStatus_json (field fs "status")) as [st|] eqn:Est; [|done].
  injection H as <- <-. cbn [sc_Spec] in *. rewrite Hspec.
  assert (Hu := written_spec_stored _ Hf).
  destruct (Marshal ServiceClaimSpec_json s1) eqn:Ew; try done. cbn [default] in *. rewrite Hu.
  cbn [mbind option_bind].
  destruct (field fs "status"); try discriminate Est; [by injection Est as <-|].
  by rewrite status_reads, Est.
Qed.

(** C27: of a claim a client writes, the schema makes the claim itself with its
    replicas made explicit, one where none were given, its status untouched; and
    the claim is admitted exactly when its team is not empty, its replicas are not
    negative, and of the conditions in its status none has the type of another and
    each keeps to the bounds of metav1.Condition: a type and a reason of the
    required form, texts that are not too long, a generation that is not
    negative. *)
Theorem written_claim_stored m c :
  fits ServiceClaim_json (m, c) ->
  let v := Marshal ServiceClaim_json (m, c) in
  Unmarshal ServiceClaim_json (stored ServiceClaim_schema v) = Some (m, defaulted c) /\
  (admitted ServiceClaim_schema v = true <->
   Team (sc_Spec c) <> "" /\ (forall n, Replicas (sc_Spec c) = Some n -> 0 <= n)%Z /\
   Forall sound_condition (cs_Conditions (sc_Status c)) /\
   NoDup (map c_Type (cs_Conditions (sc_Status c)))).
Proof.
  intros Hf v. pose proof Hf as (_ & Hsp & Hst). split.
  - apply written_claim_reads; [by apply claim_reads_back| |done].
    unfold TypeMeta_members. cbn [app]. by reads_struct.
  - assert (Hpair : forall A B C D, A /\ B /\ C /\ D <-> (A /\ B) /\ C /\ D) by tauto.
    rewrite Hpair, <- (written_status_admitted _ Hst), <- (written_spec_admitted _ Hsp).
    unfold ServiceClaim_schema, v. cbn [Marshal ServiceClaim_json].
    rewrite property_admits by compute_done.
    unfold optional, required. rewrite !Forall_cons. unfold TypeMeta_members. cbn [app].
    split.
    + intros (_ & _ & _ & H1 & H2 & _). split.
      * revert H1. by reads_struct.
      * revert H2. reads_struct. destruct (isZero _ _) eqn:Hz; [intros _|by intros H; destruct (Marshal _ _)].
        apply written_status_admitted; [done|]. destruct (sc_Status c) as [p g [|]]; cbn in Hz |- *;
          [by split; constructor|by rewrite andb_false_r in Hz].
    + intros [H1 H2]. split_and!; [..|constructor]; reads_struct;
        try done; by apply omitted_admitted.
Qed.
End claims.

(** ** Witnesses *)

Section witnesses.
#[local] Existing Instance sample_kube.
#[local] Existing Instance sample_kube_laws.

(** A claim applied with nothing said of its replicas. *)
Definition applied_claim : json :=
  JObject [("apiVersion", JString "platform.idp.io/v1alpha1"); ("kind", JString "ServiceClaim");
    ("metadata", JObject [("name", JString "orders")]);
    ("spec", JObject [("team", JString "payments"); ("image", JString "nginx:1.25")])].

Definition claim_type : TypeMeta :=
  {| Kind := "ServiceClaim"; APIVersion := "platform.idp.io/v1alpha1" |}.

Lemma admitted_claim_decodes_witness :
  admitted ServiceClaim_schema applied_claim = true /\
  exists m c, Unmarshal ServiceClaim_json (stored ServiceClaim_schema applied_claim) = Some (m, c) /\
    Replicas (sc_Spec c) = Some 1%Z.
Proof.
  split; [reflexivity|].
  destruct (admitted_claim_decodes applied_claim) as (m & c & n & H1 & _ & H2 & _ & [Hd|[_ ->]] & _);
    [reflexivity|by eexists..|discriminate Hd|eauto].
Defined.

(** A claim with a status as the reconciler writes it, and one with a reason that
    is not of the required form. *)
Definition reported (reason : string) : ServiceClaim :=
  sc_set_Conditions [{| c_Type := ConditionReady; c_Status := ConditionTrue;
    c_ObservedGeneration := 1; c_Reason := reason; c_Message := "all components ready" |}] orders.

Lemma reported_fits reason : fits ServiceClaim_json (claim_type, reported reason).
Proof. repeat split; try reflexivity. by repeat constructor. Qed.

Lemma written_claim_stored_witness :
  let v reason := Marshal ServiceClaim_json (claim_type, reported reason) in
  Unmarshal ServiceClaim_json (stored ServiceClaim_schema (v "Reconciled")) =
    Some (claim_type, defaulted (reported "Reconciled")) /\
  admitted ServiceClaim_schema (v "Reconciled") = true /\
  admitted ServiceClaim_schema (v "all ready") = false.
Proof.
  destruct (written_claim_stored claim_type (reported "Reconciled") (reported_fits _)) as [H1 H2].
  split; [exact H1|]. split; [|reflexivity].
  apply H2. split_and!; [discriminate|by intros n [= <-]| |by repeat constructor; apply not_elem_of_nil].
  repeat constructor; try (by apply test_spec); try discriminate; by vm_compute.
Defined.
End witnesses.
