(* ===== verification/Watches.v ===== *)
(** * What wakes the reconcilers, and what they may do

    The two watch maps ([tenantForClaim], [claimsForTenant]) against each other
    through the field index, the kinds each controller owns against the kinds
    it creates, and the kubebuilder RBAC markers against the calls made. *)
From S2P Require Import Prelude Prog Kube Api Client Finalizers Indexes.
From S2P Require TenantController ServiceClaimController.
From S2P Require Import Sample SampleApi.
Open Scope prog_scope.

(** ** RBAC markers

    [+kubebuilder:rbac:groups=g,resources=r,verbs=v1;v2]; the generated
    ClusterRole is their union. *)
Record Marker := {
  m_groups : string;
  m_resources : string;
  m_verbs : list string;
  m_resourceNames : list string;
}.

Definition marker (g r : string) (vs : list string) : Marker :=
  {| m_groups := g; m_resources := r; m_verbs := vs; m_resourceNames := [] |}.

Definition allVerbs : list string :=
  ["get"; "list"; "watch"; "create"; "update"; "patch"; "delete"].

Definition tenantMarkers : list Marker := [
  marker "platform.idp.io" "tenants" allVerbs;
  marker "platform.idp.io" "tenants/status" ["get"; "update"; "patch"];
  marker "platform.idp.io" "tenants/finalizers" ["update"];
  marker "" "namespaces" allVerbs;
  marker "" "resourcequotas" allVerbs;
  marker "rbac.authorization.k8s.io" "rolebindings" allVerbs;
  {| m_groups := "rbac.authorization.k8s.io"; m_resources := "clusterroles";
     m_verbs := ["bind"]; m_resourceNames := ["edit"] |} ].

Definition serviceClaimMarkers : list Marker := [
  marker "platform.idp.io" "serviceclaims" allVerbs;
  marker "platform.idp.io" "serviceclaims/status" ["get"; "update"; "patch"];
  marker "platform.idp.io" "serviceclaims/finalizers" ["update"];
  marker "platform.idp.io" "tenants" ["get"; "list"; "watch"];
  marker "argoproj.io" "applications" allVerbs ].

Definition managerRole : list Marker := tenantMarkers ++ serviceClaimMarkers.

(** A rule that is not limited to named objects allows the verb. *)
Definition allows (rules : list Marker) (g r v : string) : bool :=
  existsb (fun m => String.eqb (m_groups m) g && String.eqb (m_resources m) r &&
    existsb (String.eqb v) (m_verbs m) &&
    match m_resourceNames m with [] => true | _ => false end) rules.

(** Both handlers, down to their calls. *)
Ltac unfold_reconcilers :=
  unfold TenantController.Reconcile, TenantController.reconcileDelete,
    TenantController.reconcileLive, TenantController.reconcileResources,
    TenantController.ensureNamespace, TenantController.ensureRoleBinding,
    TenantController.ensureQuota, ServiceClaimController.Reconcile,
    ServiceClaimController.reconcileDelete, ServiceClaimController.reconcileLive,
    ServiceClaimController.reconcileClaim, ServiceClaimController.ensureArgoApplication,
    ensureFinalizer, releaseFinalizer.

Section watches.
Context `{K : Kube}.

(** The API group and resource of a kind. *)
Definition resourceOf (n : kindName) : string * string :=
  match n with
  | NTenant => ("platform.idp.io", "tenants")
  | NServiceClaim => ("platform.idp.io", "serviceclaims")
  | NNamespace => ("", "namespaces")
  | NRoleBinding => ("rbac.authorization.k8s.io", "rolebindings")
  | NResourceQuota => ("", "resourcequotas")
  | NApplication => ("argoproj.io", "applications")
  end.

(** The verbs the API server checks for a call of the client library: a read
    through the cache lists and watches, [CreateOrUpdate] gets, creates or
    updates, a status patch is one on the status subresource. *)
Definition verbsOf {R} (c : call R) : string * list string :=
  match c with
  | Get _ _ _ => ("", ["get"; "list"; "watch"])
  | ListClaims _ _ _ => ("", ["list"; "watch"])
  | CreateOrUpdate _ _ _ => ("", ["get"; "list"; "watch"; "create"; "update"])
  | PatchObject _ _ _ => ("", ["patch"])
  | PatchStatus _ _ _ => ("/status", ["patch"])
  | Delete _ _ _ => ("", ["delete"])
  end.

Definition authorised (rules : list Marker) {R} (c : call R) : bool :=
  let '(g, r) := resourceOf (callKind c) in
  let '(sub, vs) := verbsOf c in
  forallb (allows rules g (r +:+ sub)) vs.

Definition event_authorised (rules : list Marker) (e : event call) : bool :=
  match e with Ev c _ => authorised rules c end.

(** The two watch maps mirror each other through the index: over a cache
    that holds the claim, an event on a Tenant enqueues the claim exactly when
    an event on the claim enqueues that Tenant, so neither side of the gate and
    the drain can miss the other; a claim without a team wakes no Tenant. *)
Theorem watches_mirror (cache : list ServiceClaim) (c : ServiceClaim) (t : Tenant)
    (e : event call) (tr : list (event call)) (reqs : list Request) :
  runs (ServiceClaimController.claimsForTenant (ObjTenant t)) (e :: tr) (Some reqs) ->
  lists (t_Name t) (indexed_list cache (t_Name t)) e ->
  NoDup (map sc_Name cache) -> c ∈ cache ->
  let req name := {| req_NamespacedName := {| nn_Namespace := ""; nn_Name := name |} |} in
  exists reqs', TenantController.tenantForClaim (ObjServiceClaim c) = Ret (Some reqs') /\
  (req (sc_Name c) ∈ reqs <-> req (t_Name t) ∈ reqs') /\
  (Team (sc_Spec c) = "" -> reqs' = []).
Proof.
  intros H Hl Hnd Hc req. unfold ServiceClaimController.claimsForTenant in H.
  cbn [runs bind trigger GetName] in H. destruct H as (x & tr0 & [= -> <-] & H).
  destruct Hl as (_ & _ & ->). destruct H as [_ [= ->]].
  assert (Hin : req (sc_Name c) ∈ map (fun c => req (sc_Name c)) (indexed_list cache (t_Name t))
    <-> Team (sc_Spec c) = t_Name t /\ t_Name t <> "").
  { rewrite list_elem_of_fmap. split.
    - intros (c' & [= Hn] & Hc'). apply list_elem_of_filter in Hc' as [Ht Hc'].
      apply claimTeamIndexer_elem in Ht as [Ht Hne].
      assert (c' = c) as ->; [|done].
      destruct (proj1 (list_elem_of_lookup _ _) Hc') as [i Hi].
      destruct (proj1 (list_elem_of_lookup _ _) Hc) as [j Hj].
      assert (i = j) as ->; [|congruence].
      eapply (NoDup_lookup _ i j (sc_Name c) Hnd); by rewrite list_lookup_fmap, ?Hi, ?Hj; cbn; congruence.
    - intros Ht. exists c. split; [done|]. apply list_elem_of_filter. split; [|done].
      by apply claimTeamIndexer_elem. }
  unfold TenantController.tenantForClaim.
  destruct (String.eqb_spec (Team (sc_Spec c)) "") as [E|E].
  - exists []. split; [done|]. split; [|done]. unfold req in *. rewrite Hin, E.
    split; [by intros [<- ?]|by intros ?%not_elem_of_nil].
  - eexists. split; [done|]. split; [|done]. unfold req in *.
    rewrite Hin, list_elem_of_singleton. split; [by intros [-> _]|].
    intros [= Hq]. split; congruence.
Qed.

(** Waking up never fails: [claimsForTenant] makes one cached, indexed list
    and enqueues nothing when that fails; [tenantForClaim] calls nothing, and
    panics only on an object that is not a ServiceClaim, which its watch never
    delivers. *)
Theorem wake_ups_total (o : Object) (tr : list (event call)) out :
  (runs (ServiceClaimController.claimsForTenant o) tr out ->
   exists x, tr = [Ev (ListClaims TeamReader "spec.team" (GetName o)) x] /\
     out = Some (match x with
                 | inl _ => []
                 | inr cs => map (fun c => {| req_NamespacedName :=
                     {| nn_Namespace := ""; nn_Name := sc_Name c |} |}) cs
                 end)) /\
  (runs (TenantController.tenantForClaim o) tr out ->
   tr = [] /\ (out = None <-> forall c, o <> ObjServiceClaim c)).
Proof.
  split; intros H.
  - unfold ServiceClaimController.claimsForTenant in H. cbn [runs bind trigger] in H.
    destruct H as (x & tr0 & -> & H). exists x. by destruct x; destruct H as [-> ->].
  - unfold TenantController.tenantForClaim in H. destruct o as [t|c|m].
    1,3: by destruct H as [-> ->].
    run_steps; (split; [done|]); (split; [done|]); intros Hn; by destruct (Hn c).
Qed.

(** Each controller watches, as owner, exactly the kinds it creates: every
    [CreateOrUpdate] a reconcile can make is on a kind of its builder's [Owns],
    so a change to any owned object brings its owner back to the queue, and it
    never creates an object of its own kind. *)
Theorem created_kinds_are_owned rt rs req :
  all_calls (fun R c => match c with
    | CreateOrUpdate k _ _ =>
        kindOf k ∈ b_Owns TenantController.SetupWithManager /\
        kindOf k <> b_For TenantController.SetupWithManager
    | _ => True end) (TenantController.Reconcile rt req) /\
  all_calls (fun R c => match c with
    | CreateOrUpdate k _ _ =>
        kindOf k ∈ b_Owns ServiceClaimController.SetupWithManager /\
        kindOf k <> b_For ServiceClaimController.SetupWithManager
    | _ => True end) (ServiceClaimController.Reconcile rs req).
Proof.
  unfold_reconcilers.
  split; walk ltac:(first [exact I|split; [set_solver|done]]).
Qed.

(** The role the markers generate allows every call either reconciler can
    make, whatever it is answered, and the bind permission is for the one
    ClusterRole that every RoleBinding the controller writes refers to. *)
Theorem role_allows_every_call rt rs req :
  all_calls (fun R c => authorised managerRole c = true)
    (TenantController.Reconcile rt req) /\
  all_calls (fun R c => authorised managerRole c = true)
    (ServiceClaimController.Reconcile rs req) /\
  (forall t g rb rb', TenantController.mutateRoleBinding rt t g rb = inr rb' ->
     exists m, m ∈ managerRole /\ m_resources m = "clusterroles" /\
       "bind" ∈ m_verbs m /\ rr_Kind (rb_RoleRef rb') = "ClusterRole" /\
       rr_Name (rb_RoleRef rb') ∈ m_resourceNames m).
Proof.
  unfold_reconcilers.
  split_and!; [walk ltac:(vm_compute; reflexivity)..|].
  intros t g rb rb'. unfold TenantController.mutateRoleBinding.
  destruct (SetControllerReference _ _ _ _); [done|]. intros [= <-].
  eexists. split; [unfold managerRole, tenantMarkers; do 6 right; by left|].
  split_and!; [done| |done|]; by left.
Qed.
End watches.

Section witnesses.
#[local] Existing Instance sample_kube.
#[local] Existing Instance sample_kube_laws.

Definition w_tenant : Tenant := sample_tenant "payments" None [] None.
Definition w_claim : ServiceClaim := sample_claim "api" "payments" "" None [] None.
Definition w_cluster : cluster := put KServiceClaim w_claim empty_cluster.
Definition w_wake : prog call (option (list Request)) :=
  ServiceClaimController.claimsForTenant (ObjTenant w_tenant).

Lemma watches_mirror_witness :
  exists reqs', TenantController.tenantForClaim (ObjServiceClaim w_claim) = Ret (Some reqs') /\
    request "payments" ∈ reqs'.
Proof.
  destruct (watches_mirror [w_claim] w_claim w_tenant
    (Ev (ListClaims TeamReader ClaimTeamIndexKey "payments") (inr [w_claim])) []
    [request "api"]) as (reqs' & H1 & H2 & _).
  - exact (run_runs_cons w_wake w_cluster _ eq_refl).
  - by vm_compute.
  - apply NoDup_singleton.
  - by left.
  - exists reqs'. split; [exact H1|]. apply H2. by left.
Defined.

Lemma wake_ups_total_witness :
  exists x, trace_of w_wake w_cluster = [Ev (ListClaims TeamReader "spec.team" "payments") x].
Proof.
  destruct (wake_ups_total (ObjTenant w_tenant) (trace_of w_wake w_cluster)
    (result_of w_wake w_cluster)) as [H _].
  destruct (H (run_runs w_wake w_cluster)) as (x & Hx & _). by exists x.
Defined.

(** The Tenant reconciler alone could not list the claims: it relies on the
    other controller's markers in the shared role. *)
Example tenant_markers_need_the_others :
  event_authorised tenantMarkers
    (Ev (ListClaims TeamReader ClaimTeamIndexKey "payments") (inr [])) = false.
Proof. by vm_compute. Qed.
End witnesses.
