(* ===== verification/StatusSpec.v ===== *)
(** * The status both reconcilers write is well formed

    A status is typed data: the conditions are a map keyed by type
    (listType=map), the phase is one of three words, and a condition belongs to
    one of the two kinds.  [typed] programs keep that: given well-formed objects
    in every answer, every object in a call is well formed. *)
From S2P Require Import Prelude Prog Kube Api Client Finalizers Watches Sample SampleApi.
From S2P Require TenantController ServiceClaimController.
Open Scope prog_scope.

Section status.
Context `{K : Kube}.

(** The conditions of an object of a kind, and its phase. *)
Definition statusOf {T} (k : kind T) : T -> option (string * list Condition) :=
  match k with
  | KTenant => fun t => Some (ts_Phase (t_Status t), ts_Conditions (t_Status t))
  | KServiceClaim => fun c => Some (cs_Phase (sc_Status c), cs_Conditions (sc_Status c))
  | _ => fun _ => None
  end.

Definition types (cs : list Condition) : list string := map c_Type cs.

(** [listType=map] with [listMapKey=type]. *)
Definition keyed {T} (k : kind T) (o : T) : Prop :=
  match statusOf k o with Some (_, cs) => NoDup (types cs) | None => True end.

(** The condition types of a kind, as serviceclaim_types.go assigns them. *)
Definition kindConditions (n : kindName) : list string :=
  match n with
  | NTenant => ["Ready"; "NamespaceReady"; "RBACReady"; "QuotaApplied"; "ClaimsDrained"]
  | NServiceClaim => ["Ready"; "TenantReady"; "ArgoAppCreated"; "ApplicationDrained"]
  | _ => []
  end.

Definition phases : list string := ["Pending"; "Ready"; "Terminating"].

(** Conditions made from [cs0] for a kind: keyed, and none of the other kind
    that was not there before. *)
Definition made_for (n : kindName) (cs0 cs : list Condition) : Prop :=
  NoDup (types cs) /\ forall t, t ∈ types cs -> t ∈ types cs0 \/ t ∈ kindConditions n.

(** A written status, over the object it is a patch of. *)
Definition wellFormedStatus {T} (k : kind T) (obj base : T) : Prop :=
  match statusOf k obj, statusOf k base with
  | Some (ph, cs), Some (_, cs0) => ph ∈ phases /\ made_for (kindOf k) cs0 cs
  | _, _ => True
  end.

(** Every object the API server answers with is keyed. *)
Definition keyedAnswer (e : event call) : Prop :=
  match e with
  | Ev c r =>
      match c in call R return R -> Prop with
      | Get _ k _ | PatchObject k _ _ | PatchStatus k _ _ => fun r =>
          match r with inr o => keyed k o | inl _ => True end
      | _ => fun _ => True
      end r
  end.

(** A status update is well formed, and a patch of the object leaves the
    status alone. *)
Definition wellFormedCall {R} (c : call R) : Prop :=
  match c with
  | PatchStatus k obj p => wellFormedStatus k obj (patch_from _ p)
  | PatchObject k obj p => statusOf k obj = statusOf k (patch_from _ p)
  | _ => True
  end.

Context `{L : !KubeLaws}.

Lemma types_set cs c t :
  t ∈ types (SetStatusCondition cs c) <-> t = c_Type c \/ t ∈ types cs.
Proof.
  unfold types. rewrite SetStatusCondition_types. case_decide as H.
  - split; [auto|]. by intros [->|].
  - rewrite elem_of_app, list_elem_of_singleton. tauto.
Qed.

Lemma keyed_set cs c : NoDup (types cs) -> NoDup (types (SetStatusCondition cs c)).
Proof.
  unfold types. rewrite SetStatusCondition_types. case_decide as H; [done|].
  intros Hn. apply NoDup_app. split_and!; [done| |apply NoDup_singleton].
  intros x Hx ->%list_elem_of_singleton. done.
Qed.

Lemma made_for_refl n cs : NoDup (types cs) -> made_for n cs cs.
Proof. split; auto. Qed.

Lemma made_for_set n cs0 cs c :
  c_Type c ∈ kindConditions n -> made_for n cs0 cs -> made_for n cs0 (SetStatusCondition cs c).
Proof.
  intros Hc [Hn Ht]. split; [by apply keyed_set|]. intros t [-> |H]%types_set; auto.
Qed.

Lemma claim_aggregate (c base : ServiceClaim) :
  made_for NServiceClaim (cs_Conditions (sc_Status base)) (cs_Conditions (sc_Status c)) ->
  wellFormedStatus KServiceClaim (ServiceClaimController.aggregateReady c) base.
Proof.
  intros H. unfold ServiceClaimController.aggregateReady.
  destruct (_ && _); (split; [set_solver|]; apply made_for_set; [set_solver|done]).
Qed.

Lemma tenant_aggregate (t base : Tenant) :
  made_for NTenant (ts_Conditions (t_Status base)) (ts_Conditions (t_Status t)) ->
  wellFormedStatus KTenant (TenantController.aggregateReady t) base.
Proof.
  intros H. unfold TenantController.aggregateReady.
  destruct (_ && _); (split; [set_solver|]; apply made_for_set; [set_solver|done]).
Qed.

(** A status made by setting conditions one after another. *)
Ltac made_for_sets :=
  cbn; repeat (apply made_for_set; [by set_solver|]); by apply made_for_refl.

Ltac status_call :=
  first [ exact I | reflexivity | apply claim_aggregate; made_for_sets
        | apply tenant_aggregate; made_for_sets
        | split; [set_solver|made_for_sets] ].

(** C24: given that every object the API server answers with is keyed by
    condition type, every status either reconciler writes is too, its phase is
    Pending, Ready or Terminating, it holds no condition but those of its kind
    and those the object already had, and a patch of an object never touches its
    status: on every path of both handlers. *)
Theorem written_status_well_formed rt rs req :
  typed keyedAnswer (fun R c => wellFormedCall c) (TenantController.Reconcile rt req) /\
  typed keyedAnswer (fun R c => wellFormedCall c) (ServiceClaimController.Reconcile rs req).
Proof.
  unfold_reconcilers. split; walk_typed status_call.
Qed.
End status.

(** ** Witness *)

Section witnesses.
#[local] Existing Instance sample_kube.
#[local] Existing Instance sample_kube_laws.

Definition status_rt : TenantController.TenantReconciler := {| TenantController.tr_Scheme := [] |}.
Definition status_rs : ServiceClaimController.ServiceClaimReconciler := {|
  ServiceClaimController.sr_Scheme := [];
  ServiceClaimController.WorkloadsRepoURL := "https://git/w";
  ServiceClaimController.WorkloadsTargetRevision := "HEAD" |}.
Definition status_request : Request :=
  {| req_NamespacedName := {| nn_Namespace := ""; nn_Name := "payments" |} |}.

(** The sample's conditions of a live claim are keyed, so the handler may be
    answered with it. *)
Lemma written_status_well_formed_witness :
  keyedAnswer (Ev (Get Client KServiceClaim (req_NamespacedName status_request))
    (inr (sample_claim "payments" "search" "" None [] None))) /\
  typed keyedAnswer (fun R c => wellFormedCall c)
    (ServiceClaimController.Reconcile status_rs status_request).
Proof.
  split; [cbn; constructor|].
  apply (written_status_well_formed status_rt status_rs status_request).
Defined.
End witnesses.
