(* ===== verification/CelRules.v ===== *)
(** * The schema of a Tenant (tenant_types.go)

    The markers of the struct fields as a schema of [Schema], with the two CEL
    rules, which run in the API server before anything is decoded.  The theorems
    join it with the decoding of [ApiJson] and with the quota the reconciler
    computes. *)
From S2P Require Import Prelude Regexp Kube Json Schema Api ApiJson ConditionSchema TenantController.
From S2P Require Import Sample SampleJson.

(** ** The rules *)

(** [(!has(self.cpu) || !self.cpu.startsWith('-')) &&
    (!has(self.memory) || !self.memory.startsWith('-'))] *)
Definition resourcesRule (self : json) : cel :=
  celAnd (celOr (celNot (has self "cpu")) (celNot (startsWith (select self "cpu") "-")))
         (celOr (celNot (has self "memory")) (celNot (startsWith (select self "memory") "-"))).

(** The rule on the name, [tenantNameRule], on [self.metadata.name]. *)
Definition nameRule (self : json) : cel :=
  match select (select self "metadata") "name" with
  | JString name => Some (tenantNameRule name)
  | _ => None
  end.

(** The pattern of a quantity: a sign, digits with a fraction or a fraction alone,
    and a binary suffix, a decimal suffix or an exponent. *)
Definition signPart : regexp := ROpt (RChar (one_of "+-")).
Definition numberPart : regexp :=
  RAlt (RSeq (RPlus (RChar digit)) (ROpt (RSeq (RChar (one_of ".")) (RStar (RChar digit)))))
       (RSeq (RChar (one_of ".")) (RPlus (RChar digit))).
Definition suffixPart : regexp :=
  RAlt (RSeq (RChar (one_of "KMGTPE")) (RChar (one_of "i")))
    (RAlt (RChar (one_of "numkMGTPE"))
          (RSeq (RChar (one_of "eE")) (RSeq signPart numberPart))).
Definition quantityPattern : regexp := RSeq signPart (RSeq numberPart (ROpt suffixPart)).

Example quantity_texts :
  map (test quantityPattern) ["500m"; "4Gi"; "-1.5e3"; ".5"; "+2"; "4gi"; "two"; ""] =
  [true; true; true; true; true; false; false; false].
Proof. reflexivity. Qed.

(** ** The schema *)

Definition ResourceRequests_schema : schema :=
  SObject [optional "cpu" (SIntOrString quantityPattern);
           optional "memory" (SIntOrString quantityPattern);
           optional "pods" (SInteger 32 (Some 0%Z))] [resourcesRule].

Definition TenantSpec_schema : schema :=
  SObject [optional "resources" ResourceRequests_schema] [].

Definition TenantStatus_schema `{LJ : LibJson} : schema :=
  SObject [optional "conditions" Conditions_schema;
           optional "observedGeneration" (SInteger 64 None); optional "phase" (SString 0)] [].

Definition Tenant_schema `{LJ : LibJson} : schema :=
  SObject [optional "apiVersion" (SString 0); optional "kind" (SString 0);
           optional "metadata" SOpaque; required "spec" TenantSpec_schema;
           optional "status" TenantStatus_schema] [nameRule].

(** The syntax of a quantity puts a sign first, so a value below zero was written
    with a minus; and [NewQuantity 0] is zero. *)
Class QuantityTextLaws `{LJ : LibJson} : Prop := {
  Parse_negative v q : Unmarshal quantity_json v = Some q -> (Cmp q zeroQuantity < 0)%Z ->
    match v with
    | JInt z => (z < 0)%Z
    | JString s => String.prefix "-" s = true
    | _ => False
    end;
  NewQuantity_zero f : IsZero (NewQuantity 0 f) = true;
}.

Section rules.
Context `{LJ : LibJson}.

(** ** What the rules are for *)

(** A figure the rule lets through. *)
Definition unsigned (v : option json) : Prop :=
  match v with
  | None => True
  | Some (JString s) => String.prefix "-" s = false
  | Some _ => False
  end.

Lemma rule_cases fs : resourcesRule (JObject fs) = Some true <->
  unsigned (member fs "cpu") /\ unsigned (member fs "memory").
Proof.
  unfold resourcesRule, has, select, field.
  destruct (member fs "cpu") as [[]|], (member fs "memory") as [[]|];
    cbn -[String.prefix];
    repeat match goal with |- context [String.prefix ?a ?b] =>
      let E := fresh "E" in destruct (String.prefix a b) eqn:E end;
    cbn; naive_solver.
Qed.

(** What is stored of admitted resources: figures the rule lets through, and a
    number of pods that is not negative.  No figure was an integer. *)
Definition sound_resources (rs : list (string * json)) : Prop :=
  unsigned (member rs "cpu") /\ unsigned (member rs "memory") /\
  match member rs "pods" with
  | None => True
  | Some p => exists n, p = JInt n /\ (0 <= n)%Z
  end.

Lemma admitted_resources v :
  admitted ResourceRequests_schema v = true ->
  exists rs, stored ResourceRequests_schema v = JObject rs /\ sound_resources rs /\
    forall z, select v "cpu" <> JInt z /\ select v "memory" <> JInt z.
Proof.
  intros (rs0 & rs & -> & Er & Hp & Hr)%admitted_object; [|compute_done].
  exists rs. split; [exact Er|]. rewrite Forall_forall in Hp. unfold sound_resources.
  apply Forall_inv, rule_cases in Hr as [Hc Hm]. split; [split_and!; [done|done|]|].
  - destruct (Hp (optional "pods" (SInteger 32 (Some 0%Z))) ltac:(in_list))
      as [(_ & -> & _)|(_ & -> & Ha)]; [done|].
    unfold admitted in Ha. destruct (field rs0 "pods"); try done. exists z. split; [done|].
    cbn in Ha. apply andb_true_iff in Ha as [_ Ha]. lia.
  - assert (Hint : forall k z, optional k (SIntOrString quantityPattern) ∈
      [optional "cpu" (SIntOrString quantityPattern); optional "memory" (SIntOrString quantityPattern);
       optional "pods" (SInteger 32 (Some 0%Z))] ->
      unsigned (member rs k) -> field rs0 k <> JInt z).
    { intros k z Hin Hk E. destruct (Hp _ Hin) as [(E' & _)|(_ & Em & _)]; [congruence|].
      by rewrite Em, E in Hk. }
    intros z. split; apply Hint; (done || in_list).
Qed.

(** An admitted Tenant's spec, and the resources in it if there are any. *)
Lemma admitted_spec v :
  admitted Tenant_schema v = true ->
  let rv := select (select v "spec") "resources" in
  exists gs ss, stored Tenant_schema v = JObject gs /\ field gs "spec" = JObject ss /\
    (rv = JNull /\ member ss "resources" = None \/
     admitted ResourceRequests_schema rv = true /\
     member ss "resources" = Some (stored ResourceRequests_schema rv)).
Proof.
  intros (fs & gs & -> & Hs & Hp & _)%admitted_object; [|compute_done].
  exists gs. rewrite Forall_forall in Hp.
  destruct (Hp (required "spec" TenantSpec_schema) ltac:(in_list)) as [(_ & _ & [=])|(_ & Eg & Ha)].
  apply admitted_object in Ha as (ss0 & ss & E & Es & Hq & _); [|compute_done].
  exists ss. split_and!; [exact Hs|unfold field; rewrite Eg; exact Es|].
  rewrite Forall_forall in Hq. cbn [select]. rewrite E.
  by destruct (Hq (optional "resources" ResourceRequests_schema) ltac:(in_list))
    as [(? & ? & _)|(_ & ? & ?)]; [left|right].
Qed.

Context `{KL : !KubeLaws} `{LL : !LibJsonLaws} `{QL : !QuantityTextLaws}.

(** What is read of a figure the rule let through is not below zero. *)
Lemma decoded_not_negative fs k q :
  unsigned (member fs k) -> Unmarshal quantity_json (field fs k) = Some q ->
  (0 <= Cmp q zeroQuantity)%Z.
Proof.
  unfold field. intros Hf Hq. destruct (Z.lt_ge_cases (Cmp q zeroQuantity) 0) as [Hn|]; [exfalso|done].
  destruct (member fs k) as [v|]; cbn in Hq, Hf.
  - apply (Parse_negative v q Hq) in Hn. destruct v; try done. congruence.
  - rewrite quantity_absent in Hq. injection Hq as <-. rewrite Cmp_refl in Hn. lia.
Qed.

Lemma NewQuantity_positive n f : (0 < n)%Z -> (0 < Cmp (NewQuantity n f) zeroQuantity)%Z.
Proof.
  intros Hn. destruct (Z.lt_ge_cases 0 (Cmp (NewQuantity n f) zeroQuantity)) as [|Hle]; [done|].
  pose proof (NewQuantity_zero f) as Hz%IsZero_Cmp.
  assert (H0 : (Cmp zeroQuantity (NewQuantity 0 f) <= 0)%Z) by (rewrite Cmp_antisym; lia).
  pose proof (Cmp_trans _ _ _ Hle H0) as H1. rewrite NewQuantity_Cmp in H1.
  destruct (Z.compare_spec n 0); lia.
Qed.

(** The figures read of an admitted declaration. *)
Lemma decoded_resources rs r :
  sound_resources rs -> Unmarshal ResourceRequests_json (JObject rs) = Some r ->
  (0 <= Cmp (CPU r) zeroQuantity /\ 0 <= Cmp (Memory r) zeroQuantity /\ 0 <= Pods r)%Z.
Proof.
  intros (Hc & Hm & Hp) H. cbn [Unmarshal ResourceRequests_json members mbind option_bind] in H.
  destruct (Unmarshal quantity_json (field rs "cpu")) as [cpu|] eqn:Ec; [|done].
  destruct (Unmarshal quantity_json (field rs "memory")) as [memory|] eqn:Em; [|done].
  destruct (Unmarshal (int 32) (field rs "pods")) as [pods|] eqn:Ep; [|done].
  injection H as <-. cbn [CPU Memory Pods].
  split_and!; [exact (decoded_not_negative _ _ _ Hc Ec)|exact (decoded_not_negative _ _ _ Hm Em)|].
  unfold field in Ep. destruct (member rs "pods") as [v|]; [|by injection Ep as <-].
  destruct Hp as (n & -> & Hn). cbn in Ep. destruct (in_range 32 n); [|done]. by injection Ep as <-.
Qed.

(** A quota computed from figures that are not negative. *)
Lemma quota_positive r :
  (0 <= Cmp (CPU r) zeroQuantity /\ 0 <= Cmp (Memory r) zeroQuantity /\ 0 <= Pods r)%Z ->
  map_Forall (fun _ q => (0 < Cmp q zeroQuantity)%Z) (quotaHard (Some r)) /\
  (quotaHard (Some r) = ∅ <->
   IsZero (CPU r) = true /\ IsZero (Memory r) = true /\ Pods r = 0%Z).
Proof.
  intros (Hc & Hm & Hp).
  assert (Hpos : forall q, IsZero q = false -> (0 <= Cmp q zeroQuantity)%Z ->
    (0 < Cmp q zeroQuantity)%Z).
  { intros q Hq Hq0. destruct (Z.eq_dec (Cmp q zeroQuantity) 0%Z) as [E%IsZero_Cmp|]; [congruence|lia]. }
  unfold quotaHard.
  destruct (IsZero (CPU r)) eqn:Ec, (IsZero (Memory r)) eqn:Em, (Z.gtb_spec (Pods r) 0) as [Hp'|Hp'];
    cbn [negb]; (split; [repeat (apply map_Forall_insert_2; [by auto using NewQuantity_positive|]);
      apply map_Forall_empty|]);
    (split; [try (intros H%insert_non_empty; done) | intros (? & ? & ?); try done; try lia]).
  by intros _; split_and!; [..|lia].
Qed.

(** C25: a declaration the schema admits never makes a ResourceQuota the API
    server would reject for a negative figure.  Of any JSON that is admitted as a
    Tenant and decodes: every entry of the quota computed from it is greater than
    zero, and there is none exactly when nothing was declared or every figure is
    zero. *)
Theorem admitted_quota_positive v m t :
  admitted Tenant_schema v = true ->
  Unmarshal Tenant_json (stored Tenant_schema v) = Some (m, t) ->
  let hard := quotaHard (Resources (t_Spec t)) in
  map_Forall (fun _ q => (0 < Cmp q zeroQuantity)%Z) hard /\
  (hard = ∅ <->
   match Resources (t_Spec t) with
   | None => True
   | Some r => IsZero (CPU r) = true /\ IsZero (Memory r) = true /\ Pods r = 0%Z
   end).
Proof.
  intros (gs & ss & -> & Ess & Hr)%admitted_spec H.
  cbn [Unmarshal Tenant_json members mbind option_bind] in H.
  destruct (read_TypeMeta gs); [|done]. cbn [mbind option_bind] in H.
  destruct (Unmarshal ObjectMeta_json (field gs "metadata")); [|done]. cbn [mbind option_bind] in H.
  destruct (Unmarshal TenantSpec_json (field gs "spec")) as [sp|] eqn:Esp; [|done].
  cbn [mbind option_bind] in H.
  destruct (Unmarshal TenantStatus_json _); [|done]. injection H as <- <-. cbn [t_Spec].
  rewrite Ess in Esp. cbn [Unmarshal TenantSpec_json members mbind option_bind] in Esp.
  unfold field in Esp. destruct Hr as [[_ Em]|[Ha Em]]; rewrite Em in Esp.
  - injection Esp as <-. cbn. split; [apply map_Forall_empty|done].
  - apply admitted_resources in Ha as (rs & Ers & Hrs & _). rewrite Ers in Esp.
    cbn [default id Unmarshal ptr] in Esp.
    destruct (Unmarshal ResourceRequests_json (JObject rs)) as [r|] eqn:Er; [|done].
    injection Esp as <-. cbn [Resources]. by eapply quota_positive, decoded_resources.
Qed.

(** C29: an integer is always turned away: the schema declares cpu and memory as
    int-or-string, but the rule fails to evaluate on an integer, whatever its
    sign and whatever else is declared, so that [cpu: 2] without quotes is
    denied although 2 is not negative. *)
Theorem integer_quantity_denied v z :
  let resources := select (select v "spec") "resources" in
  select resources "cpu" = JInt z \/ select resources "memory" = JInt z ->
  admitted Tenant_schema v = false.
Proof.
  intros res Hz. destruct (admitted Tenant_schema v) eqn:Ha; [exfalso|done].
  apply admitted_spec in Ha as (gs & ss & _ & _ & [[E _]|[Ha _]]).
  - fold res in E. rewrite E in Hz. by destruct Hz.
  - apply admitted_resources in Ha as (_ & _ & _ & Hn). destruct (Hn z). by destruct Hz.
Qed.
End rules.

(** ** Witnesses *)

Section witnesses.
#[local] Existing Instance sample_kube.
#[local] Existing Instance sample_kube_laws.

#[local] Instance sample_text_laws : QuantityTextLaws.
Proof.
  split; [|done]. intros v q Hq Hneg. cbn in Hneg.
  assert (Hq0 : (q < 0)%Z) by (destruct (Z.compare_spec q 0); lia).
  destruct v as [|b|z|l|s|l|fs]; cbn in Hq; try done.
  - by injection Hq as <-.
  - injection Hq as <-. lia.
  - destruct s as [|a s]; cbn in Hq; [by injection Hq as <-|].
    destruct (Ascii.eqb_spec a (Ascii.ascii_of_N 45)) as [->|Hne]; [by destruct s|exfalso].
    apply Ascii.eqb_neq in Hne. cbn in Hne. rewrite Hne in Hq.
    destruct (DecimalString.uint_of_char _ _) as [d|]; [|done]. injection Hq as <-.
    change (Z.of_N (Pos.of_uint d) < 0)%Z in Hq0. lia.
Qed.

Definition two_cpus (cpu : json) : json :=
  JObject [("kind", JString "Tenant"); ("metadata", JObject [("name", JString "payments")]);
    ("spec", JObject [("resources", JObject [("cpu", cpu); ("pods", JInt 10)])])].

Lemma admitted_quota_positive_witness :
  admitted Tenant_schema (two_cpus (JString "2000")) = true /\
  exists t, Unmarshal Tenant_json (stored Tenant_schema (two_cpus (JString "2000"))) =
              Some ({| Kind := "Tenant"; APIVersion := "" |}, t) /\
    map_Forall (fun _ q => (0 < Cmp q zeroQuantity)%Z) (quotaHard (Resources (t_Spec t))).
Proof.
  split; [reflexivity|]. eexists. split; [reflexivity|].
  apply (admitted_quota_positive (two_cpus (JString "2000")) {| Kind := "Tenant"; APIVersion := "" |});
    reflexivity.
Defined.

Example minus_one_denied : admitted Tenant_schema (two_cpus (JString "-1")) = false.
Proof. reflexivity. Qed.

Lemma integer_quantity_denied_witness : admitted Tenant_schema (two_cpus (JInt 2)) = false.
Proof. apply (integer_quantity_denied _ 2). left. reflexivity. Defined.
End witnesses.
