(* ===== verification/StatusBounds.v ===== *)
(** * The bound on a condition's message

    What the schema of a Tenant's status admits of the statuses that are written,
    and that the message of a blocked teardown, which names every remaining claim,
    has no bound while the schema sets one. *)
From S2P Require Import Prelude Regexp Kube Json Schema Api ApiJson ConditionSchema CelRules.
From S2P Require Import TenantController TenantControllerSpec Sample SampleJson.

(** ** Characters of texts put together *)

Lemma starts_app s t : starts (s +:+ t) = starts s + starts t.
Proof.
  induction s as [|a s IH]; [done|]. change (String a s +:+ t) with (String a (s +:+ t)).
  cbn [starts]. rewrite IH. by destruct (between 128 191 a).
Qed.

Lemma characters_starts s : starts s <= characters s.
Proof. destruct s as [|a s]; cbn; [done|]. destruct (between 128 191 a); lia. Qed.

Lemma findCondition_elem cs t c : findCondition cs t = Some c -> c ∈ cs.
Proof.
  induction cs as [|c' cs IH]; cbn; [done|]. destruct (String.eqb _ _); [intros [= ->]; by left|].
  intros H. right. by apply IH.
Qed.

Section message.
Context `{K : Kube}.

(** An entry takes at least the fourteen characters behind the name. *)
Lemma starts_entry c : 14 <= starts (remainingEntry c).
Proof.
  unfold remainingEntry. rewrite starts_app.
  assert (Hs : forall b : bool,
    14 <= starts (" (" +:+ (if b then "terminating" else "not deleted") +:+ ")"))
    by (intros []; apply Nat.leb_le; reflexivity).
  specialize (Hs (negb (TimeIsZero (om_DeletionTimestamp (sc_ObjectMeta c))))). lia.
Qed.

Lemma starts_Join c cs : 16 * length cs + 14 <= starts (Join (map remainingEntry (c :: cs)) ", ").
Proof.
  revert c. induction cs as [|c' cs IH]; intros c; [apply starts_entry|].
  specialize (IH c'). pose proof (starts_entry c) as Hc.
  change (Join (map remainingEntry (c :: c' :: cs)) ", ") with
    (remainingEntry c +:+ ", " +:+ Join (map remainingEntry (c' :: cs)) ", ").
  rewrite !starts_app. cbn [length]. change (starts ", ") with 2. lia.
Qed.

Lemma long_message claims :
  (2048 <= Z.of_nat (length claims) ->
   32768 < Z.of_nat (characters (remainingMessage claims)))%Z.
Proof.
  intros Hl. pose proof (characters_starts (remainingMessage claims)) as Hcs.
  enough (32768 < Z.of_nat (starts (remainingMessage claims)))%Z by lia. clear Hcs.
  destruct claims as [|c cs]; cbn [length] in Hl; [lia|].
  unfold remainingMessage. rewrite !starts_app. pose proof (starts_Join c cs) as H.
  change (starts " ServiceClaim(s) still reference this tenant: ") with 46. lia.
Qed.

End message.

(** ** What is admitted *)

Section bounds.
Context `{LJ : LibJson} `{CL : !ConditionJsonLaws}.

Lemma tenant_status_admitted st :
  fits TenantStatus_json st ->
  admitted TenantStatus_schema (Marshal TenantStatus_json st) = true <->
  Forall sound_condition (ts_Conditions st) /\ NoDup (map c_Type (ts_Conditions st)).
Proof.
  intros [Hg Hc]. destruct st as [p g cs]. cbn [ts_ObservedGeneration fits int ts_Conditions] in *.
  rewrite <- (conditions_admitted cs Hc). unfold TenantStatus_schema.
  cbn [Marshal TenantStatus_json ts_Phase ts_ObservedGeneration ts_Conditions].
  rewrite property_admits by compute_done. unfold optional.
  rewrite !Forall_cons. split.
  - intros (H & _). revert H. reads_struct. by destruct cs.
  - intros H. split_and!; [..|constructor].
    + reads_struct. by apply (omitted_admitted (slice Condition_json)).
    + reads_struct. apply (omitted_admitted (int 64)). unfold admitted. cbn. by rewrite Hg.
    + reads_struct. by apply (omitted_admitted str).
Qed.

(** The status of a Tenant whose teardown 2048 claims or more block, which
    [blocked_while_claims_remain] says is the one that is written, is longer than
    the schema lets a message be: the write is refused, and the Tenant does not
    report that it is Terminating nor what it waits for. *)
Theorem blocked_status_denied st claims reason t gen :
  fits TenantStatus_json st ->
  cond_is st t ConditionFalse reason (remainingMessage claims) gen ->
  (2048 <= Z.of_nat (length claims))%Z ->
  admitted TenantStatus_schema (Marshal TenantStatus_json st) = false.
Proof.
  intros Hf (c & Hc & _ & _ & Hm & _) Hl%long_message.
  destruct (admitted _ _) eqn:E; [exfalso|done].
  apply (tenant_status_admitted st Hf) in E as [Hs _]. rewrite Forall_forall in Hs.
  apply findCondition_elem, Hs in Hc as (_ & _ & Hb & _). rewrite Hm in Hb. lia.
Qed.
End bounds.
