(* ===== verification/System.v ===== *)
(** * Both controllers at work on one cluster

    The reconcilers as concurrent workers: a worker advances one API call at a
    time, interleaved with the others and with the users, and may crash between
    any two calls.  What the API server does is a parameter with the documented
    behaviour as laws; new claims come in through this repository's admission
    webhook.  [SystemTeams] and [SystemClaims] prove what the two finalizers are for,
    by the rely-guarantee reasoning set up here. *)
From stdpp Require Import relations.
From S2P Require Import Prelude Prog Kube Api Client Finalizers Indexes.
From S2P Require TenantController ServiceClaimController ServiceClaimWebhook.
Open Scope prog_scope.

Section system.
Context `{K : Kube}.

(** ** The API server *)

(** [serve c s r s']: in state [s] the server can answer call [c] with [r] and
    leave the state [s'].  [claims], [tenant] and [application] are what it
    stores, an Application by its name in the argocd namespace. *)
Class ApiServer := {
  state : Type;
  serve : forall R, call R -> state -> R -> state -> Prop;
  claims : state -> list ServiceClaim;
  tenant : state -> string -> option Tenant;
  application : state -> string -> option Unstructured;
}.

(** A call that can take the finalizer [f] away from the object of a kind and
    name: a patch whose result lacks it, or an update by an arbitrary function. *)
Definition drops (kd : kindName) (f n : string) {R} (c : call R) : Prop :=
  match c with
  | PatchObject k obj _ => kindOf k = kd /\ om_Name (kindMeta k obj) = n /\
      ContainsFinalizer (kindMeta k obj) f = false
  | CreateOrUpdate k _ _ => kindOf k = kd
  | _ => False
  end.

(** A call that can change the spec of a claim, or make one. *)
Definition retargets {R} (c : call R) : Prop :=
  match c with
  | PatchObject k obj p | PatchStatus k obj p =>
      match k in kind T return T -> T -> Prop with
      | KServiceClaim => fun a b => sc_Spec a <> sc_Spec b
      | _ => fun _ _ => False
      end obj (patch_from _ p)
  | CreateOrUpdate k _ _ => kindOf k = NServiceClaim
  | _ => False
  end.

(** A call that can create the Application of a name. *)
Definition makes (n : string) {R} (c : call R) : Prop :=
  match c with
  | CreateOrUpdate k obj _ => kindOf k = NApplication /\ om_Name (kindMeta k obj) = n
  | _ => False
  end.

(** The namespace a call deletes. *)
Definition deletesNamespace (ns : string) {R} (c : call R) : Prop :=
  match c with
  | Delete k obj _ => kindOf k = NNamespace /\ om_Name (kindMeta k obj) = ns
  | _ => False
  end.

Context `{A : !ApiServer}.

(** The Tenant is being deleted and the platform's finalizer holds it. *)
Definition held (s : state) (n : string) : Prop :=
  exists t, tenant s n = Some t /\
    TimeIsZero (om_DeletionTimestamp (t_ObjectMeta t)) = false /\
    ContainsFinalizer (t_ObjectMeta t) TenantFinalizer = true.

(** No claim refers to the team. *)
Definition drained (s : state) (n : string) : Prop :=
  forall c, c ∈ claims s -> Team (sc_Spec c) <> n.

(** No claim of a team [s] has none of. *)
Definition no_new_team (s s' : state) : Prop :=
  forall c, c ∈ claims s' -> exists c0, c0 ∈ claims s /\ Team (sc_Spec c0) = Team (sc_Spec c).

(** The documented behaviour: a read changes nothing, and the webhook's reader,
    which has no cache, answers what is stored, as does the client for
    Applications, which are unstructured; a request is answered with the object
    it was for; a deletion timestamp is never taken back and an object with
    finalizers stays, so only a call that drops the finalizer can release a
    held Tenant; a patch changes only what differs from its base; an object
    comes into being only where it is created.  Nothing is said of what the
    manager's cache answers for a Tenant or a list of claims. *)
Class ApiServerLaws : Prop := {
  serve_named R (c : call R) s r s' : serve _ c s r s' -> answer_named (Ev c r);
  serve_read R (c : call R) s r s' : serve _ c s r s' -> writes c = false -> s' = s;
  serve_get_some key s t s' :
    serve _ (Get APIReader KTenant key) s (inr t) s' -> tenant s (nn_Name key) = Some t;
  serve_get_none key s e s' :
    serve _ (Get APIReader KTenant key) s (inl e) s' -> IsNotFound (Some e) = true ->
    tenant s (nn_Name key) = None;
  serve_app_none rd key s e s' :
    serve _ (Get rd KApplication key) s (inl e) s' -> IsNotFound (Some e) = true ->
    nn_Namespace key = "argocd" -> application s (nn_Name key) = None;
  serve_held R (c : call R) s r s' n :
    serve _ c s r s' -> ~ drops NTenant TenantFinalizer n c -> held s n -> held s' n;
  serve_claims R (c : call R) s r s' :
    serve _ c s r s' -> ~ retargets c -> no_new_team s s';
  serve_app R (c : call R) s r s' n :
    serve _ c s r s' -> ~ makes n c ->
    application s n = None -> application s' n = None;
}.

(** An answer that is not behind: a Tenant, or the list of a team's claims, as it
    is stored at that moment.  The manager's cache promises this only after it
    has caught up, so it is no law but something that an answer is or is not. *)
Definition up_to_date (s : state) {R} (c : call R) : R -> Prop :=
  match c in call R return R -> Prop with
  | Get _ k key => fun r =>
      match k in kind T return error + T -> Prop with
      | KTenant => fun r =>
          match r with inr t => tenant s (nn_Name key) = Some t | inl _ => True end
      | _ => fun _ => True
      end r
  | ListClaims _ key n => fun r =>
      match r with
      | inr cs => key = ClaimTeamIndexKey -> cs = indexed_list (claims s) n
      | inl _ => True
      end
  | _ => fun _ => True
  end.

(** ** The rest of the world *)

(** The webhook admits the creation of a claim in a state: some run of
    [ValidateCreate] whose reads are answered in that state ends without an
    error. *)
Definition admitted (s : state) (c : ServiceClaim) : Prop :=
  exists tr w, runs (ServiceClaimWebhook.ValidateCreate c) tr (w, None) /\
    Forall (fun e => match e with Ev c r => serve _ c s r s end) tr.

(** No Application appears. *)
Definition no_new_application (s s' : state) : Prop :=
  forall n, application s n = None -> application s' n = None.

(** What users, ArgoCD, the garbage collector and the rest of the control plane
    may do: create an admitted claim, or anything that moves no claim to a new
    team, releases no held Tenant, and makes no Application. *)
Inductive env (s s' : state) : Prop :=
| env_create c : admitted s c ->
    (forall x, x ∈ claims s' -> x = c \/ x ∈ claims s) ->
    (forall n, tenant s' n = tenant s n) -> no_new_application s s' -> env s s'
| env_other : no_new_team s s' -> (forall n, held s n -> held s' n) ->
    no_new_application s s' -> env s s'.

(** An update of a claim that the webhook admits; the system below leaves it
    out, see [SystemTeams]. *)
Definition admitted_update (s s' : state) : Prop :=
  exists old new w, old ∈ claims s /\ sc_ObjectMeta new = sc_ObjectMeta old /\
    runs (ServiceClaimWebhook.ValidateUpdate old new) [] (w, None) /\
    (forall x, x ∈ claims s' <-> x = new \/ x ∈ claims s /\ sc_Name x <> sc_Name old) /\
    forall n, tenant s' n = tenant s n.

(** ** The system *)

Definition worker : Type := prog call (Result * option error).

(** A worker of one of the two controllers, for the object of a name. *)
Inductive wid := WTenant (n : string) | WClaim (n : string).

#[global] Instance wid_eq_dec : EqDecision wid.
Proof. solve_decision. Defined.

Definition wname (i : wid) : string := match i with WTenant n | WClaim n => n end.

(** One worker per object key, as the work queue guarantees; object names are
    not empty.  [informed s i]: every read of the reconcile that worker [i] is in
    was answered up to date. *)
Record sys := { api : state; workers : wid -> option worker; informed : wid -> Prop }.

Definition update {X} (f : wid -> X) (i : wid) (x : X) : wid -> X :=
  fun j => if decide (j = i) then x else f j.

Definition requestFor (n : string) : Request :=
  {| req_NamespacedName := {| nn_Namespace := ""; nn_Name := n |} |}.

Variables (rt : TenantController.TenantReconciler)
  (rs : ServiceClaimController.ServiceClaimReconciler).

Definition handlerOf (i : wid) : worker :=
  match i with
  | WTenant n => TenantController.Reconcile rt (requestFor n)
  | WClaim n => ServiceClaimController.Reconcile rs (requestFor n)
  end.

Inductive step (s : sys) : sys -> Prop :=
| step_env σ : env (api s) σ ->
    step s {| api := σ; workers := workers s; informed := informed s |}
| step_start i : wname i <> "" -> workers s i = None ->
    step s {| api := api s; workers := update (workers s) i (Some (handlerOf i));
              informed := update (informed s) i True |}
| step_call i R (c : call R) k r σ :
    workers s i = Some (Vis c k) -> serve _ c (api s) r σ ->
    step s {| api := σ; workers := update (workers s) i (Some (k r));
              informed := update (informed s) i (informed s i /\ up_to_date (api s) c r) |}
| step_end i : step s {| api := api s; workers := update (workers s) i None;
                         informed := informed s |}.

Definition initial (s : sys) : Prop := forall i, workers s i = None.

(** Some worker's next call has a property. *)
Definition about_to (P : forall R, call R -> Prop) (s : sys) : Prop :=
  exists i R (c : call R) k, workers s i = Some (Vis c k) /\ P R c.

Lemma about_to_intro (P : forall R, call R -> Prop) s i :
  match workers s i with Some (Vis c _) => P _ c | _ => False end -> about_to P s.
Proof.
  destruct (workers s i) as [[a|R c k]|] eqn:E; try done. intros H. by exists i, R, c, k.
Qed.

(** ** Rely-guarantee reasoning

    [rely i] is what worker [i] lets the others do between two of its calls;
    [ok i p s c] is what holds of a call [c] it makes in state [s], [p] being that
    it is informed. *)

Section rely_guarantee.
Context (rely : wid -> state -> state -> Prop) {PO : forall i, PreOrder (rely i)}.
Context (ok : wid -> Prop -> forall R, state -> call R -> Prop).

(** Whatever happens in between, every further call of the worker is ok. *)
Fixpoint safe (i : wid) (p : Prop) (w : worker) (s : state) : Prop :=
  match w with
  | Ret _ => True
  | Vis c k => forall s1, rely i s s1 ->
      ok i p _ s1 c /\
      forall r s2, serve _ c s1 r s2 -> safe i (p /\ up_to_date s1 c r) (k r) s2
  end.

Lemma safe_rely i p w s s' : rely i s s' -> safe i p w s -> safe i p w s'.
Proof.
  intros Hr. destruct w as [|R c k]; [done|]. intros H s1 H1. apply H. by etransitivity.
Qed.

(** A program all of whose calls are ok in every state. *)
Lemma all_calls_safe i p w s :
  all_calls (fun R c => forall p s, ok i p R s c) w -> safe i p w s.
Proof.
  revert p s. induction w as [a|R c k IH]; intros p s; [done|]. intros [Hc Hk] s1 _.
  split; [done|]. intros r s2 _. by apply IH.
Qed.

Context (start_safe : forall i s, wname i <> "" -> safe i True (handlerOf i) s).
Context (guarantee : forall i j p R (c : call R) s r s',
  i <> j -> ok i p R s c -> serve _ c s r s' -> rely j s s').
Context (env_rely : forall i s s', env s s' -> rely i s s').

Definition workers_safe (s : sys) : Prop :=
  forall i w, workers s i = Some w -> safe i (informed s i) w (api s).

Lemma step_workers_safe s s' : step s s' -> workers_safe s -> workers_safe s'.
Proof.
  intros Hstep Hs. destruct Hstep as [σ He|i Hn _|i R c k r σ Hw Hc|i];
    intros j w Hj; cbn in *; unfold update in *.
  - eapply safe_rely; [by apply env_rely|by apply Hs].
  - destruct (decide (j = i)) as [->|]; [injection Hj as <-; by apply start_safe|by apply Hs].
  - destruct (Hs i _ Hw (api s) (reflexivity _)) as [Hok Hk].
    destruct (decide (j = i)) as [->|Hne]; [injection Hj as <-; by apply Hk|].
    eapply safe_rely; [|by apply Hs]. eapply guarantee; [|exact Hok|exact Hc]. congruence.
  - destruct (decide (j = i)); [done|by apply Hs].
Qed.

(** In a reachable state every worker's next call is ok. *)
Lemma reachable_ok s0 s i R (c : call R) k :
  initial s0 -> rtc step s0 s -> workers s i = Some (Vis c k) ->
  ok i (informed s i) R (api s) c.
Proof.
  intros Hi Hr Hw. assert (H0 : workers_safe s0) by (intros j w; by rewrite Hi).
  assert (Hs : workers_safe s) by (clear Hi Hw; induction Hr; eauto using step_workers_safe).
  by destruct (Hs i _ Hw (api s) (reflexivity _)) as [Hok _].
Qed.
End rely_guarantee.

(** ** Finalizers and names *)

Context `{L : !KubeLaws}.

Lemma AddFinalizer_contains m f : ContainsFinalizer (AddFinalizer m f) f = true.
Proof. apply ContainsFinalizer_spec. apply AddFinalizer_spec. by left. Qed.

Lemma RemoveFinalizer_name m f : om_Name (RemoveFinalizer m f) = om_Name m.
Proof. destruct (RemoveFinalizer_spec m f) as [He _]. by rewrite He. Qed.

Lemma AddFinalizer_name m f : om_Name (AddFinalizer m f) = om_Name m.
Proof. destruct (AddFinalizer_spec m f) as [He _]. by rewrite He. Qed.
End system.
