(* ===== verification/SystemSample.v ===== *)
(** * A small API server that satisfies the laws of [System]

    For the witnesses: it stores Tenants and claims, releases a Tenant whose
    finalizer a patch drops, turns every creation down and holds no
    Application. *)
From stdpp Require Import relations.
From S2P Require Import Prelude Prog Kube Api Client Finalizers Indexes.
From S2P Require TenantController ServiceClaimController.
From S2P Require Import System Sample SampleApi.

#[local] Existing Instance sample_kube.
#[local] Existing Instance sample_kube_laws.

Record small_state := {
  small_tenants : gmap string Tenant;
  small_claims : gmap string ServiceClaim;
}.

(** What is stored under a name and has that name. *)
Definition named {T} (f : T -> string) (m : gmap string T) (n : string) : option T :=
  match m !! n with
  | Some o => if String.eqb (f o) n then Some o else None
  | None => None
  end.

Definition small_tenant (s : small_state) (n : string) : option Tenant :=
  named t_Name (small_tenants s) n.

Definition claim_list (s : small_state) : list ServiceClaim :=
  map snd (map_to_list (small_claims s)).

Lemma one_claim ts n c :
  claim_list {| small_tenants := ts; small_claims := {[n := c]} |} = [c].
Proof. unfold claim_list. cbn. by rewrite map_to_list_singleton. Qed.

Definition found {T} (o : option T) : sample_err + T :=
  match o with Some x => inr x | None => inl ENotFound end.

Definition small_server : handler call small_state := fun R c s =>
  match c in call R return R * small_state with
  | Get _ k key =>
      (match k in kind T return sample_err + T with
       | KTenant => found (small_tenant s (nn_Name key))
       | KServiceClaim => found (named sc_Name (small_claims s) (nn_Name key))
       | _ => inl ENotFound
       end, s)
  | ListClaims _ _ v => (inr (indexed_list (claim_list s) v), s)
  | CreateOrUpdate _ _ _ => (inl (EMessage "unavailable"), s)
  | PatchObject k obj _ =>
      (inr obj, match k in kind T return T -> small_state with
                | KTenant => fun obj =>
                    if ContainsFinalizer (t_ObjectMeta obj) TenantFinalizer then s
                    else {| small_tenants := delete (t_Name obj) (small_tenants s);
                            small_claims := small_claims s |}
                | _ => fun _ => s
                end obj)
  | PatchStatus _ obj _ => (inr obj, s)
  | Delete _ _ _ => (None, s)
  end.

#[local] Instance small_api : ApiServer := {|
  state := small_state;
  serve R c s r s' := small_server R c s = (r, s');
  claims := claim_list;
  tenant := small_tenant;
  application _ _ := None;
|}.

Lemma named_name {T} (f : T -> string) m n o : named f m n = Some o -> f o = n.
Proof.
  unfold named. destruct (m !! n) as [o'|]; [|done].
  destruct (String.eqb_spec (f o') n) as [<-|]; [|done]. by intros [= ->].
Qed.

Lemma small_claims_stay R (c : call R) s r s' :
  small_server R c s = (r, s') -> small_claims s' = small_claims s.
Proof.
  intros H. destruct c as [T rd k key|rd f v|T k obj mu|T k obj p|T k obj p|T k obj u];
    cbn in H; try (by injection H as _ <-).
  destruct k; try (by injection H as _ <-).
  injection H as _ <-. by destruct (bool_decide _).
Qed.

#[local] Instance small_api_laws : ApiServerLaws.
Proof.
  split; cbn.
  - intros R c s r s' H. destruct c as [T rd k key|rd f v|T k obj mu|T k obj p|T k obj p|T k obj u];
      cbn in H; try (by injection H as <- _).
    destruct k; injection H as <- _; try done.
    + destruct (small_tenant s (nn_Name key)) as [t|] eqn:E; [|done].
      by apply named_name in E.
    + destruct (named sc_Name (small_claims s) (nn_Name key)) as [t|] eqn:E; [|done].
      by apply named_name in E.
  - intros R c s r s' H Hc. destruct c as [T rd k key|rd f v|T k obj mu|T k obj p|T k obj p|T k obj u];
      try discriminate Hc; by injection H as _ <-.
  - intros key s t s'. destruct (small_tenant s (nn_Name key)) as [t'|] eqn:E; [|done].
    by intros [= <- <-].
  - intros key s e s'. by destruct (small_tenant s (nn_Name key)).
  - done.
  - intros R c s r s' n H Hd (t & Ht & Hh).
    assert (small_tenant s' n = small_tenant s n) as He; [|exists t; cbn; by rewrite He].
    destruct c as [T rd k key|rd f v|T k obj mu|T k obj p|T k obj p|T k obj u];
      cbn in H; try (by injection H as _ <-).
    destruct k; try (by injection H as _ <-). injection H as _ <-.
    cbn [kindMeta] in Hd. destruct (bool_decide _) eqn:Ef; [done|].
    unfold small_tenant, named. cbn. destruct (decide (t_Name obj = n)) as [<-|Hne].
    + destruct Hd. by split_and!.
    + by rewrite lookup_delete_ne.
  - intros R c s r s' H%small_claims_stay _. unfold no_new_team, claims, small_api, claim_list.
    rewrite H. eauto.
  - done.
Qed.

Definition small_rt : TenantController.TenantReconciler := {| TenantController.tr_Scheme := [] |}.
Definition small_rs : ServiceClaimController.ServiceClaimReconciler := {|
  ServiceClaimController.sr_Scheme := [];
  ServiceClaimController.WorkloadsRepoURL := "https://git/w";
  ServiceClaimController.WorkloadsTargetRevision := "HEAD" |}.

(** A worker started, and one call of a worker run. *)
Definition launch (i : wid) (s : sys) : sys :=
  {| api := api s; workers := update (workers s) i (Some (handlerOf small_rt small_rs i));
     informed := update (informed s) i True |}.

Definition advance (i : wid) (s : sys) : sys :=
  match workers s i with
  | Some (Vis c k) =>
      let '(r, σ) := small_server _ c (api s) in
      {| api := σ; workers := update (workers s) i (Some (k r));
         informed := update (informed s) i (informed s i /\ up_to_date (api s) c r) |}
  | _ => s
  end.

Lemma advance_step i s : rtc (step small_rt small_rs) s (advance i s).
Proof.
  unfold advance. destruct (workers s i) as [[a|R c k]|] eqn:E; try reflexivity.
  destruct (small_server R c (api s)) as [r σ] eqn:Es.
  apply rtc_once. by eapply step_call.
Qed.

(** Starting a worker and running three of its calls. *)
Definition three_calls (i : wid) (s : sys) : sys :=
  advance i (advance i (advance i (launch i s))).

Lemma three_calls_reachable i s : wname i <> "" -> workers s i = None ->
  rtc (step small_rt small_rs) s (three_calls i s).
Proof.
  intros Hn Hw. eapply rtc_l; [by apply step_start|]. unfold three_calls.
  etransitivity; [|apply advance_step]. etransitivity; [|apply advance_step].
  apply advance_step.
Qed.

Lemma advance_claims i s : small_claims (api (advance i s)) = small_claims (api s).
Proof.
  unfold advance. destruct (workers s i) as [[a|R c k]|]; try done.
  destruct (small_server R c (api s)) as [r σ] eqn:Es. by apply small_claims_stay in Es.
Qed.

Lemma three_calls_claims i s : claim_list (api (three_calls i s)) = claim_list (api s).
Proof. unfold claim_list, three_calls. by rewrite !advance_claims. Qed.

Definition idle (s : small_state) : sys := {| api := s; workers := fun _ => None;
  informed := fun _ => True |}.
