(* ===== verification/SystemTeams.v ===== *)
(** * No namespace goes while a claim of its team exists

    The first rely-guarantee instance over [System]: what a Tenant's worker
    relies on is what the webhook and the finalizer give it. *)
From stdpp Require Import relations.
From S2P Require Import Prelude Prog Kube Api Client Finalizers Indexes.
From S2P Require TenantController ServiceClaimController ServiceClaimWebhook.
From S2P Require Import System Sample SampleApi SystemSample.
Open Scope prog_scope.

Section teams.
Context `{K : Kube} `{A : !ApiServer} `{L : !KubeLaws} `{AL : !ApiServerLaws}.
Context (rt : TenantController.TenantReconciler)
  (rs : ServiceClaimController.ServiceClaimReconciler).
#[local] Abbreviation handlerOf := (handlerOf rt rs).
#[local] Abbreviation step := (step rt rs).

(** Between two calls of a Tenant's worker: what is held stays held, and once
    held, what is drained stays drained. *)
Definition team_rely (i : wid) (s s' : state) : Prop :=
  match i with
  | WTenant n => (held s n -> held s' n) /\ (held s n -> drained s n -> drained s' n)
  | WClaim _ => True
  end.

#[local] Instance team_rely_preorder i : PreOrder (team_rely i).
Proof.
  destruct i as [n|n]; [|by split]. split; [by intros s; split|].
  intros s1 s2 s3 [A1 A2] [B1 B2]. split; auto.
Qed.









(** An admitted claim is of a team whose Tenant is not held. *)
Lemma admitted_not_held s c : admitted s c -> ~ held s (Team (sc_Spec c)).
Proof.
  intros (tr & w & H & Ht) (t & Hn & Hdt & _).
  unfold ServiceClaimWebhook.ValidateCreate in H. remember (w, None) as out eqn:Eo.
  cbn [runs bind trigger] in H. destruct H as (x & tr1 & -> & H).
  apply Forall_cons in Ht as [Hs _]. destruct x as [e|t1]; cbn beta iota in H.
  - destruct (IsNotFound (Some e)) eqn:En.
    + eapply serve_get_none in Hs; [|done]. cbn in Hs. congruence.
    + destruct H as [_ ->]. discriminate.
  - apply serve_get_some in Hs. cbn in Hs.
    assert (t1 = t) as -> by congruence. rewrite Hdt in H. cbn in H.
    destruct H as [_ ->]. discriminate.
Qed.










(** ** The property *)

End teams.

(** ** Witnesses *)

Section witnesses.
#[local] Existing Instance sample_kube.
#[local] Existing Instance sample_kube_laws.
#[local] Existing Instance small_api.
#[local] Existing Instance small_api_laws.

Definition dying_payments : Tenant :=
  sample_tenant "payments" None [TenantFinalizer] (Some 5%Z).
Definition web : ServiceClaim := sample_claim "web" "search" "" None [] None.
Definition two_teams : sys := idle {|
  small_tenants := {["payments" := dying_payments]};
  small_claims := {["web" := web]} |}.

(** After the read, the list and the status the namespace is next. *)
Definition at_deletion : sys := three_calls (WTenant "payments") two_teams.

Lemma at_deletion_next :
  about_to (fun R c => deletesNamespace "team-payments" c) at_deletion.
Proof. apply (about_to_intro _ _ (WTenant "payments")). by vm_compute. Qed.




(** The claim moved to the dying Tenant's team. *)
Definition web_moved : ServiceClaim := sample_claim "web" "payments" "" None [] None.
Definition after_move : sys := {|
  api := {| small_tenants := small_tenants (api at_deletion);
            small_claims := {["web" := web_moved]} |};
  workers := workers at_deletion; informed := informed at_deletion |}.

(** C35: the webhook admits every update of a claim, so a claim can be moved to
    a team whose Tenant is going: from a state the system reaches, one admitted
    update leads to a state in which a worker is about to delete the namespace
    of a team that has a claim.  Creating that claim there would be refused. *)
Theorem retargeting_defeats_the_finalizer :
  exists s s' : sys,
    rtc (step small_rt small_rs) two_teams s /\
    admitted_update (api s) (api s') /\ workers s' = workers s /\
    about_to (fun R c => deletesNamespace "team-payments" c) s' /\
    exists c, c ∈ claims (api s') /\ teamNamespace (Team (sc_Spec c)) = "team-payments" /\
      ~ admitted (api s) c.
Proof.
  assert (H1 : claims (api at_deletion) = [web])
    by (etransitivity; [apply three_calls_claims|apply one_claim]).
  assert (H2 : claims (api after_move) = [web_moved]) by apply one_claim.
  exists at_deletion, after_move. split_and!.
  - by apply three_calls_reachable.
  - exists web, web_moved, []. rewrite H1, H2. split_and!; [by left|done|by split| |done].
    intros x. rewrite !list_elem_of_singleton. split; [by left|]. by intros [->|[-> []]].
  - done.
  - exact at_deletion_next.
  - exists web_moved. rewrite H2. split_and!; [by left|done|].
    intros Ha%admitted_not_held. apply Ha. exists dying_payments.
    split_and!; vm_compute; reflexivity.
Qed.
End witnesses.
