(* ===== verification/SystemClaims.v ===== *)
(** * No claim goes while its Application exists

    The second rely-guarantee instance over [System]: the worker of a claim is
    the only one that creates the Application of its name, so once it has found
    that Application gone, it is still gone when the finalizer is released. *)
From stdpp Require Import relations.
From S2P Require Import Prelude Prog Kube Api Client Finalizers Indexes.
From S2P Require TenantController ServiceClaimController.
From S2P Require Import Sample SampleApi System SystemSample.
Open Scope prog_scope.

Section claims.
Context `{K : Kube} `{A : !ApiServer} `{L : !KubeLaws} `{AL : !ApiServerLaws}.
Context (rt : TenantController.TenantReconciler)
  (rs : ServiceClaimController.ServiceClaimReconciler).
#[local] Abbreviation handlerOf := (handlerOf rt rs).
#[local] Abbreviation step := (step rt rs).

(** Taking the platform's finalizer off a claim. *)
Definition releasesClaim (n : string) {R} (c : call R) : Prop :=
  drops NServiceClaim ServiceClaimFinalizer n c.

(** Nobody else makes the Application of a claim. *)
Definition app_rely (i : wid) (s s' : state) : Prop :=
  match i with
  | WClaim n => application s n = None -> application s' n = None
  | WTenant _ => True
  end.

#[local] Instance app_rely_preorder i : PreOrder (app_rely i).
Proof.
  destruct i as [n|n]; [by split|]. split; [by intros s H|].
  intros s1 s2 s3 H1 H2 H. auto.
Qed.

(** A claim is released only by its own worker, its Application gone; and no
    worker makes the Application of another claim. *)
Definition app_ok (i : wid) (_ : Prop) (R : Type) (s : state) (c : call R) : Prop :=
  (forall n, releasesClaim n c -> i = WClaim n /\ application s n = None) /\
  forall m, i <> WClaim m -> ~ makes m c.

Lemma app_guarantee i j p R (c : call R) s r s' :
  i <> j -> app_ok i p R s c -> serve _ c s r s' -> app_rely j s s'.
Proof.
  intros Hij [_ Hok] Hs. destruct j as [n|n]; [done|]. intros Hg.
  eapply serve_app; [exact Hs|by apply Hok|exact Hg].
Qed.

Lemma app_env_rely i s s' : env s s' -> app_rely i s s'.
Proof. destruct i as [n|n]; [done|]. by intros [c _ _ _ H|_ _ H] Hg; apply H. Qed.

(** Calls that neither release a claim nor make an Application. *)
Definition quiet {R} (c : call R) : Prop :=
  (forall n, ~ releasesClaim n c) /\ forall m, ~ makes m c.

Lemma quiet_ok i p s R (c : call R) : quiet c -> app_ok i p R s c.
Proof. intros [H1 H2]. split; [by intros n ?%H1|auto]. Qed.

Ltac quiet_call :=
  split; intros ?; cbn; unfold releasesClaim; cbn; rewrite ?AddFinalizer_contains;
  intuition discriminate.

Lemma tenant_worker_quiet n : all_calls (fun R c => quiet c) (handlerOf (WTenant n)).
Proof.
  unfold System.handlerOf, TenantController.Reconcile, TenantController.reconcileDelete,
    TenantController.reconcileLive, TenantController.reconcileResources,
    TenantController.ensureNamespace, TenantController.ensureRoleBinding,
    TenantController.ensureQuota, ensureFinalizer, releaseFinalizer.
  walk quiet_call.
Qed.

(** Past the finalizer: the gate, the Application of that name, the status. *)
Lemma provision_safe n p (c base : ServiceClaim) s :
  sc_Name c = n ->
  safe app_rely app_ok (WClaim n) p
    (let* ' (claim, reconcileErr) := ServiceClaimController.reconcileClaim rs c in
     let claim := ServiceClaimController.aggregateReady claim in
     let* p := trigger (PatchStatus KServiceClaim claim (MergeFrom base)) in
     match p with
     | inl err =>
         match reconcileErr with
         | Some _ => Ret (emptyResult, reconcileErr)
         | None => Ret (emptyResult, Some err)
         end
     | inr _ => Ret (emptyResult, reconcileErr)
     end) s.
Proof.
  intros Hn. apply all_calls_safe.
  unfold ServiceClaimController.reconcileClaim, ServiceClaimController.ensureArgoApplication.
  walk ltac:(intros p' s'; first
    [ apply quiet_ok; quiet_call
    | split; [intros ? Hr; unfold releasesClaim in Hr; cbn in Hr; discriminate|];
      intros m Hm [_ Hname]; apply Hm; f_equal; cbn in Hname; unfold sc_Name in *; cbn in Hname; congruence ]).
Qed.

Lemma claim_release_safe n p (c : ServiceClaim) s (k : ServiceClaim * option error -> worker) :
  sc_Name c = n -> application s n = None -> (forall x, exists a, k x = Ret a) ->
  safe app_rely app_ok (WClaim n) p (bind (releaseFinalizer c ServiceClaimFinalizer) k) s.
Proof.
  intros Hn Hgone Hk.
  assert (Hret : forall p x s, safe app_rely app_ok (WClaim n) p (k x) s)
    by (intros p' x s'; by destruct (Hk x) as [a ->]).
  unfold releaseFinalizer. destruct (ContainsFinalizer _ _); cbn; [|auto].
  intros s1 R1. split; [|intros [e|o] s2 _; cbn; auto].
  split; [|by intros m _ []]. intros m (_ & Hm & _). cbn in Hm, R1.
  rewrite RemoveFinalizer_name in Hm. unfold sc_Name in Hn. split; [congruence|].
  rewrite <- Hm, Hn. auto.
Qed.

(** The teardown: the finalizer goes last, the Application found gone. *)
Lemma claim_delete_safe n p (c : ServiceClaim) s : sc_Name c = n ->
  safe app_rely app_ok (WClaim n) p (ServiceClaimController.reconcileDelete c) s.
Proof.
  intros Hn. unfold ServiceClaimController.reconcileDelete.
  destruct (negb _); [done|]. cbn [safe bind trigger].
  intros s1 _. split; [apply quiet_ok; quiet_call|].
  intros [e|app] s2 Hget.
  - destruct (IsNotFound (Some e)) eqn:En; [|done].
    pose proof (serve_read _ _ _ _ _ Hget eq_refl) as ->.
    eapply serve_app_none in Hget as Hgone; [|done|done].
    cbn in Hgone. change (sc_Name (sc_set_Phase _ c)) with (sc_Name c) in Hgone.
    rewrite Hn in Hgone.
    cbn [safe bind trigger]. intros s3 R3. split; [apply quiet_ok; quiet_call|].
    intros [e'|o] s4 Hs; [done|]. pose proof (serve_named _ _ _ _ _ Hs) as Ho. cbn in Ho.
    apply claim_release_safe; [unfold sc_Name in *; congruence| |intros [? [?|]]; eauto].
    eapply serve_app; [exact Hs|by intros []|by apply R3].
  - apply all_calls_safe. walk ltac:(intros p' s'; apply quiet_ok; quiet_call).
Qed.

Lemma claim_live_safe n p (c : ServiceClaim) s : sc_Name c = n ->
  safe app_rely app_ok (WClaim n) p (ServiceClaimController.reconcileLive rs c) s.
Proof.
  intros Hn. unfold ServiceClaimController.reconcileLive, ensureFinalizer.
  destruct (ContainsFinalizer _ _); cbn [bind]; [by apply provision_safe|].
  cbn [safe bind trigger]. intros s1 _. split; [apply quiet_ok; quiet_call|].
  intros [e|o] s2 Hs; [done|]. pose proof (serve_named _ _ _ _ _ Hs) as Ho. cbn in Ho.
  rewrite AddFinalizer_name in Ho. apply provision_safe. unfold sc_Name in *. congruence.
Qed.

Lemma app_start_safe i s : wname i <> "" -> safe app_rely app_ok i True (handlerOf i) s.
Proof.
  intros _. destruct i as [n|n].
  - apply all_calls_safe. eapply all_calls_mono; [|apply tenant_worker_quiet].
    intros R c Hq p' s'. by apply quiet_ok.
  - unfold System.handlerOf, ServiceClaimController.Reconcile.
    cbn [safe bind trigger requestFor req_NamespacedName].
    intros s1 _. split; [apply quiet_ok; quiet_call|].
    intros [e|c] s2 Hs; [done|]. pose proof (serve_named _ _ _ _ _ Hs) as Hn. cbn in Hn.
    destruct (negb _); [by apply claim_delete_safe|by apply claim_live_safe].
Qed.

(** C4: in every reachable state of the system, with any number of workers of
    both controllers interleaved call by call, crashing and restarting, whatever
    the manager's cache answers them, nobody else creating Applications: whenever
    some worker's next call takes the platform's finalizer off a ServiceClaim, it is
    the worker of that very claim, and at that moment the claim's ArgoCD Application
    does not exist, whoever deleted it. *)
Theorem no_claim_released_over_its_application s0 s n :
  initial s0 -> rtc step s0 s -> about_to (fun R c => releasesClaim n c) s ->
  application (api s) n = None /\
  exists R (c : call R) k, workers s (WClaim n) = Some (Vis c k) /\ releasesClaim n c.
Proof.
  intros Hi Hr (i & R & c & k & Hw & Hd).
  destruct (reachable_ok rt rs app_rely app_ok app_start_safe app_guarantee
    app_env_rely _ _ _ _ _ _ Hi Hr Hw) as [Hok _].
  destruct (Hok n Hd) as [-> Hgone]. split; [done|]. by exists R, c, k.
Qed.
End claims.

(** ** Witness *)

Section witnesses.
#[local] Existing Instance sample_kube.
#[local] Existing Instance sample_kube_laws.
#[local] Existing Instance small_api.
#[local] Existing Instance small_api_laws.

Definition dying_web : ServiceClaim :=
  sample_claim "web" "search" "" None [ServiceClaimFinalizer] (Some 5%Z).
Definition one_dying_claim : sys := idle {|
  small_tenants := ∅; small_claims := {["web" := dying_web]} |}.

(** After the two reads and the status the finalizer is next. *)
Definition at_release : sys := three_calls (WClaim "web") one_dying_claim.

Lemma at_release_next : about_to (fun R c => releasesClaim "web" c) at_release.
Proof. apply (about_to_intro _ _ (WClaim "web")). by vm_compute. Qed.

Lemma no_claim_released_over_its_application_witness :
  initial one_dying_claim /\ application (api at_release) "web" = None.
Proof.
  split; [done|].
  destruct (no_claim_released_over_its_application small_rt small_rs one_dying_claim at_release
    "web") as [H _].
  - done.
  - by apply three_calls_reachable.
  - exact at_release_next.
  - exact H.
Defined.
End witnesses.
