(* ===== verification/SystemCache.v ===== *)
(** * What a lagging cache costs

    The Tenant controller lists claims through the manager's client, which is a
    cache over a watch and may lag.  The server of this file satisfies every law of
    [System], and its list is what the claims were at the last synchronisation.
    The worker that lists from it is not informed, in the words of [SystemTeams],
    and the teardown then does not protect a claim that was created just before
    its Tenant was deleted. *)
From stdpp Require Import relations.
From S2P Require Import Prelude Prog Kube Api Client Finalizers Indexes.
From S2P Require TenantController ServiceClaimController ServiceClaimWebhook.
From S2P Require Import System Sample SampleApi SystemSample.

#[local] Existing Instance sample_kube.
#[local] Existing Instance sample_kube_laws.

(** The small server and the claims its cache knows. *)
Record cached_state := { stored : small_state; cache : list ServiceClaim }.

Definition cached_server : handler call cached_state := fun R c s =>
  match c in call R return R * cached_state with
  | ListClaims _ _ v => (inr (indexed_list (cache s) v), s)
  | c => let '(r, st) := small_server _ c (stored s) in (r, {| stored := st; cache := cache s |})
  end.

#[local] Instance cached_api : ApiServer := {|
  state := cached_state;
  serve R c s r s' := cached_server R c s = (r, s');
  claims s := claim_list (stored s);
  tenant s := small_tenant (stored s);
  application _ _ := None;
|}.

(** The cache catches up. *)
Definition synced (s : cached_state) : cached_state :=
  {| stored := stored s; cache := claim_list (stored s) |}.

(** Apart from the lists the cached server is the small one. *)
Lemma cached_small R (c : call R) s r s' : cached_server R c s = (r, s') ->
  match c with ListClaims _ _ _ => False | _ => True end ->
  serve (ApiServer:=small_api) R c (stored s) r (stored s').
Proof.
  intros H Hc. destruct c as [T rd k key|rd f v|T k obj mu|T k obj p|T k obj p|T k obj u];
    try done; unfold cached_server in H; cbn [serve small_api];
    (destruct (small_server _ _ _) as [r1 st] eqn:E; injection H as <- <-; done).
Qed.

(** A call is a list, or the small server's. *)
Lemma cached_cases R (c : call R) s r s' : cached_server R c s = (r, s') ->
  (s' = s /\ answer_named (Ev c r)) \/ serve (ApiServer:=small_api) R c (stored s) r (stored s').
Proof.
  intros H. destruct c as [T rd k key|rd f v|T k obj mu|T k obj p|T k obj p|T k obj u];
    try (right; by apply (cached_small _ _ _ _ _ H)).
  left. by injection H as <- <-.
Qed.

#[local] Instance cached_api_laws : ApiServerLaws.
Proof.
  pose proof small_api_laws as SL. split.
  - intros R c s r s' [[_ H]|H]%cached_cases; [done|by eapply (serve_named (A:=small_api))].
  - intros R c s r s' H Hc. destruct c as [T rd k key|rd f v|T k obj mu|T k obj p|T k obj p|T k obj u];
      try discriminate Hc; injection H as _ <-; by destruct s.
  - intros key s t s' H. pose proof (cached_small _ _ _ _ _ H I) as Hs.
    by apply (serve_get_some (A:=small_api)) in Hs.
  - intros key s e s' H He. pose proof (cached_small _ _ _ _ _ H I) as Hs.
    by apply (serve_get_none (A:=small_api)) in Hs.
  - done.
  - intros R c s r s' n H Hd Hh. apply cached_cases in H as [[-> _]|H]; [done|].
    exact (serve_held (A:=small_api) _ _ _ _ _ _ H Hd Hh).
  - intros R c s r s' H Hr. apply cached_cases in H as [[-> _]|H].
    + intros x Hx. by exists x.
    + exact (serve_claims (A:=small_api) _ _ _ _ _ H Hr).
  - done.
Qed.

Definition cached_launch (i : wid) (s : sys) : sys :=
  {| api := api s; workers := update (workers s) i (Some (handlerOf small_rt small_rs i));
     informed := update (informed s) i True |}.

Definition cached_advance (i : wid) (s : sys) : sys :=
  match workers s i with
  | Some (Vis c k) =>
      let '(r, σ) := cached_server _ c (api s) in
      {| api := σ; workers := update (workers s) i (Some (k r));
         informed := update (informed s) i (informed s i /\ up_to_date (api s) c r) |}
  | _ => s
  end.

Lemma cached_advance_step i s : rtc (step small_rt small_rs) s (cached_advance i s).
Proof.
  unfold cached_advance. destruct (workers s i) as [[a|R c k]|] eqn:E; try reflexivity.
  destruct (cached_server R c (api s)) as [r σ] eqn:Es.
  apply rtc_once. by eapply step_call.
Qed.

(** A Tenant that lives, and the same one being deleted. *)
Definition payments : Tenant := sample_tenant "payments" None [TenantFinalizer] None.
Definition payments_dying : Tenant := sample_tenant "payments" None [TenantFinalizer] (Some 5%Z).
Definition shop : ServiceClaim := sample_claim "shop" "payments" "" None [] None.

Definition cluster (t : Tenant) (cs : gmap string ServiceClaim) (known : list ServiceClaim)
  : sys := {|
  api := {| stored := {| small_tenants := {["payments" := t]}; small_claims := cs |};
            cache := known |};
  workers := fun _ => None; informed := fun _ => True |}.

(** A synchronised cluster; then a claim is created, and the Tenant deleted;
    then the Tenant's worker runs up to its fourth call. *)
Definition calm : sys := cluster payments ∅ [].
Definition created : sys := cluster payments {["shop" := shop]} [].
Definition deleted : sys := cluster payments_dying {["shop" := shop]} [].
Definition stale : sys :=
  let w := WTenant "payments" in
  cached_advance w (cached_advance w (cached_advance w (cached_launch w deleted))).

Lemma created_by_env : env (api calm) (api created).
Proof.
  apply (env_create _ _ shop).
  - unfold admitted. eexists [_], []. split.
    + unfold ServiceClaimWebhook.ValidateCreate. cbn [runs bind trigger].
      exists (inr payments), []. split; [reflexivity|]. by split.
    + constructor; [reflexivity|constructor].
  - intros x. change (claims (api created)) with (claim_list (stored (api created))).
    unfold created, cluster. cbn [api stored]. rewrite one_claim.
    intros ->%list_elem_of_singleton. by left.
  - done.
  - done.
Qed.

Lemma deleted_by_env : env (api created) (api deleted).
Proof.
  apply env_other.
  - intros c Hc. by exists c.
  - intros n (t & Ht & Hdt & Hf). exfalso. cbn in Ht. unfold small_tenant, named in Ht. cbn in Ht.
    destruct (decide (n = "payments")) as [->|Hn].
    + rewrite lookup_singleton_eq in Ht. cbn in Ht. injection Ht as <-. by vm_compute in Hdt.
    + rewrite lookup_singleton_ne in Ht by done. done.
  - done.
Qed.

(** C36: with every law of the API server in place, but a list that is behind,
    the ordering of the teardown fails: from a cluster whose cache is up to
    date, a claim the webhook admits while the Tenant lives, then the deletion
    of the Tenant, then the Tenant's worker listing from a cache that has seen
    neither, lead to a state in which it is about to delete the namespace of the
    team whose claim exists. *)
Theorem stale_list_defeats_the_finalizer :
  synced (api calm) = api calm /\ rtc (step small_rt small_rs) calm stale /\
  about_to (fun R c => deletesNamespace "team-payments" c) stale /\
  exists c, c ∈ claims (api stale) /\ teamNamespace (Team (sc_Spec c)) = "team-payments".
Proof.
  split_and!.
  - vm_compute. reflexivity.
  - eapply rtc_l; [apply (step_env _ _ _ _ created_by_env)|].
    eapply rtc_l; [apply (step_env _ _ _ _ deleted_by_env)|].
    eapply rtc_l; [by apply (step_start _ _ _ (WTenant "payments"))|].
    unfold stale. etransitivity; [|apply cached_advance_step].
    etransitivity; [|apply cached_advance_step]. apply cached_advance_step.
  - apply (about_to_intro _ _ (WTenant "payments")). by vm_compute.
  - exists shop. split; [|done].
    assert (H : claims (api stale) = [shop]) by (vm_compute; reflexivity).
    rewrite H. by left.
Qed.
