(* ===== verification/SampleServer.v ===== *)
(** * A small API server that stores what it is sent

    For the witnesses of [SystemProgress] and of [Convergence] and the files after
    it: it keeps Tenants, claims and Applications by name and the objects of the
    Tenants by namespace and name, stores finalizers and statuses that are patched
    and objects that are applied, refuses a locked patch that was computed from something
    else, drops an object being deleted when its last finalizer goes, and marks an
    Application it is told to delete if it is the one with the UID asked for. *)
From S2P Require Import Prelude Prog Kube Api Client Finalizers Indexes.
From S2P Require Import System Sample SampleApi SystemSample.

#[local] Existing Instance sample_kube.
#[local] Existing Instance sample_kube_laws.

(** The objects of the Tenants, by namespace and name. *)
Record owned_objects := {
  tidy_namespaces : gmap (string * string) Namespace;
  tidy_bindings : gmap (string * string) RoleBinding;
  tidy_quotas : gmap (string * string) ResourceQuota;
}.

Definition no_objects : owned_objects :=
  {| tidy_namespaces := ∅; tidy_bindings := ∅; tidy_quotas := ∅ |}.

Record tidy_state := {
  tidy_tenants : gmap string Tenant;
  tidy_claims : gmap string ServiceClaim;
  tidy_apps : gmap string Unstructured;
  tidy_owned : owned_objects;
}.

Definition tidy_claim (s : tidy_state) (n : string) : option ServiceClaim :=
  named sc_Name (tidy_claims s) n.
Definition tidy_tenant (s : tidy_state) (n : string) : option Tenant :=
  named t_Name (tidy_tenants s) n.
Definition app_name (a : Unstructured) : string := om_Name (u_ObjectMeta a).
Definition tidy_app (s : tidy_state) (n : string) : option Unstructured :=
  named app_name (tidy_apps s) n.

Definition tidy_list (s : tidy_state) : list ServiceClaim :=
  omap (fun x => tidy_claim s (fst x)) (map_to_list (tidy_claims s)).

Definition with_claims (m : gmap string ServiceClaim) (s : tidy_state) : tidy_state :=
  {| tidy_tenants := tidy_tenants s; tidy_claims := m; tidy_apps := tidy_apps s;
     tidy_owned := tidy_owned s |}.
Definition with_tenants (m : gmap string Tenant) (s : tidy_state) : tidy_state :=
  {| tidy_tenants := m; tidy_claims := tidy_claims s; tidy_apps := tidy_apps s;
     tidy_owned := tidy_owned s |}.
Definition with_apps (m : gmap string Unstructured) (s : tidy_state) : tidy_state :=
  {| tidy_tenants := tidy_tenants s; tidy_claims := tidy_claims s; tidy_apps := m;
     tidy_owned := tidy_owned s |}.
Definition with_owned (o : owned_objects) (s : tidy_state) : tidy_state :=
  {| tidy_tenants := tidy_tenants s; tidy_claims := tidy_claims s; tidy_apps := tidy_apps s;
     tidy_owned := o |}.
Definition with_namespaces (m : gmap (string * string) Namespace) (o : owned_objects) :=
  {| tidy_namespaces := m; tidy_bindings := tidy_bindings o; tidy_quotas := tidy_quotas o |}.
Definition with_bindings (m : gmap (string * string) RoleBinding) (o : owned_objects) :=
  {| tidy_namespaces := tidy_namespaces o; tidy_bindings := m; tidy_quotas := tidy_quotas o |}.
Definition with_quotas (m : gmap (string * string) ResourceQuota) (o : owned_objects) :=
  {| tidy_namespaces := tidy_namespaces o; tidy_bindings := tidy_bindings o; tidy_quotas := m |}.

(** The key of an object, a namespace having none of its own, and applying an
    object under its key. *)
Definition metaKey (m : ObjectMeta) : string * string := (om_Namespace m, om_Name m).
Definition nsKey (o : Namespace) : string * string := ("", om_Name (ns_ObjectMeta o)).
Definition rbKey (o : RoleBinding) : string * string := metaKey (rb_ObjectMeta o).
Definition rqKey (o : ResourceQuota) : string * string := metaKey (rq_ObjectMeta o).

Definition applies {T} (key : T -> string * string) (m : gmap (string * string) T) (obj : T)
    (mutate : T -> sample_err + T) : sample_err + T :=
  match mutate (default obj (m !! key obj)) with
  | inl e => inl e
  | inr o => if decide (key o = key obj) then inr o
             else inl (EMessage "the name was changed")
  end.

(** Storing an object over an old one, or dropping it when the old one is being
    deleted and no finalizer is left. *)
Definition lands {T} (f : T -> string) (meta : T -> ObjectMeta) (old o : T) (m : gmap string T)
  : gmap string T :=
  match om_DeletionTimestamp (meta old), om_Finalizers (meta o) with
  | Some _, [] => delete (f o) m
  | _, _ => <[f o := o]> m
  end.

(** A locked patch is a conflict unless the stored object is the one it was computed
    from, as far as this server tells: the deletion, the finalizers, the team. *)
Definition metaVersion (m : ObjectMeta) : bool * list string :=
  (TimeIsZero (om_DeletionTimestamp m), om_Finalizers m).
Definition claimVersion (c : ServiceClaim) : string * (bool * list string) :=
  (Team (sc_Spec c), metaVersion (sc_ObjectMeta c)).

Definition conflicts {T V} `{EqDecision V} (version : T -> V) (stored : T) (p : Patch T) : bool :=
  patch_lock _ p && negb (bool_decide (version stored = version (patch_from _ p))).

Definition marked (a : Unstructured) : Unstructured :=
  with_meta KApplication
    (meta_update (om_UID (u_ObjectMeta a)) (om_ResourceVersion (u_ObjectMeta a)) (Some 1%Z)
       (u_ObjectMeta a)) a.

Definition tidy_server : handler call tidy_state := fun R c s =>
  match c in call R return R * tidy_state with
  | Get _ k key =>
      (match k in kind T return sample_err + T with
       | KTenant => found (tidy_tenant s (nn_Name key))
       | KServiceClaim => found (tidy_claim s (nn_Name key))
       | KApplication => found (tidy_app s (nn_Name key))
       | _ => inl ENotFound
       end, s)
  | ListClaims _ _ v => (inr (indexed_list (tidy_list s) v), s)
  | CreateOrUpdate k obj mutate =>
      match k in kind T return T -> (T -> sample_err + T) ->
              (sample_err + OperationResult * T) * tidy_state with
      | KApplication => fun obj mutate =>
          match mutate (default obj (tidy_app s (app_name obj))) with
          | inl e => (inl e, s)
          | inr o => if String.eqb (app_name o) (app_name obj)
                     then (inr (OperationResultUpdated, o), with_apps (<[app_name o := o]> (tidy_apps s)) s)
                     else (inl (EMessage "the name was changed"), s)
          end
      | KNamespace => fun obj mutate =>
          let m := tidy_namespaces (tidy_owned s) in
          match applies nsKey m obj mutate with
          | inl e => (inl e, s)
          | inr o => (inr (OperationResultUpdated, o),
              with_owned (with_namespaces (<[nsKey obj := o]> m) (tidy_owned s)) s)
          end
      | KRoleBinding => fun obj mutate =>
          let m := tidy_bindings (tidy_owned s) in
          match applies rbKey m obj mutate with
          | inl e => (inl e, s)
          | inr o => (inr (OperationResultUpdated, o),
              with_owned (with_bindings (<[rbKey obj := o]> m) (tidy_owned s)) s)
          end
      | KResourceQuota => fun obj mutate =>
          let m := tidy_quotas (tidy_owned s) in
          match applies rqKey m obj mutate with
          | inl e => (inl e, s)
          | inr o => (inr (OperationResultUpdated, o),
              with_owned (with_quotas (<[rqKey obj := o]> m) (tidy_owned s)) s)
          end
      | _ => fun _ _ => (inl (EMessage "unavailable"), s)
      end obj mutate
  | PatchObject k obj p =>
      match k in kind T return T -> Patch T -> (sample_err + T) * tidy_state with
      | KTenant => fun obj p =>
          match tidy_tenant s (t_Name obj) with
          | None => (inl ENotFound, s)
          | Some t =>
              if conflicts (fun t => metaVersion (t_ObjectMeta t)) t p then (inl EConflict, s)
              else (inr obj, with_tenants (lands t_Name t_ObjectMeta t obj (tidy_tenants s)) s)
          end
      | KServiceClaim => fun obj p =>
          match tidy_claim s (sc_Name obj) with
          | None => (inl ENotFound, s)
          | Some c =>
              if conflicts claimVersion c p then (inl EConflict, s)
              else (inr obj, with_claims (lands sc_Name sc_ObjectMeta c obj (tidy_claims s)) s)
          end
      | _ => fun _ _ => (inl (EMessage "unavailable"), s)
      end obj p
  | PatchStatus k obj _ =>
      match k in kind T return T -> (sample_err + T) * tidy_state with
      | KTenant => fun obj =>
          match tidy_tenant s (t_Name obj) with
          | None => (inl ENotFound, s)
          | Some t => let t := t_set_status t (t_Status obj) in
                      (inr t, with_tenants (<[t_Name t := t]> (tidy_tenants s)) s)
          end
      | KServiceClaim => fun obj =>
          match tidy_claim s (sc_Name obj) with
          | None => (inl ENotFound, s)
          | Some c => let c := sc_set_status c (sc_Status obj) in
                      (inr c, with_claims (<[sc_Name c := c]> (tidy_claims s)) s)
          end
      | _ => fun _ => (inl (EMessage "unavailable"), s)
      end obj
  | Delete k obj u =>
      match k in kind T return T -> option sample_err * tidy_state with
      | KApplication => fun obj =>
          match tidy_app s (app_name obj) with
          | None => (Some ENotFound, s)
          | Some a =>
              if String.eqb (default (om_UID (u_ObjectMeta a)) u) (om_UID (u_ObjectMeta a))
              then (None, with_apps (<[app_name a := marked a]> (tidy_apps s)) s)
              else (Some EConflict, s)
          end
      | KNamespace => fun obj => (None, with_owned (with_namespaces
          (delete (nsKey obj) (tidy_namespaces (tidy_owned s))) (tidy_owned s)) s)
      | KResourceQuota => fun obj => (None, with_owned (with_quotas
          (delete (rqKey obj) (tidy_quotas (tidy_owned s))) (tidy_owned s)) s)
      | _ => fun _ => (None, s)
      end obj
  end.

(** One call of a worker. *)
Definition next (w : worker) (s : tidy_state) : worker * tidy_state :=
  match w with
  | Ret _ => (w, s)
  | Vis c k => let '(r, s') := tidy_server _ c s in (k r, s')
  end.

#[export] Instance tidy_api : ApiServer := {|
  state := tidy_state;
  serve R c s r s' := tidy_server R c s = (r, s');
  claims := tidy_list;
  tenant := tidy_tenant;
  application := tidy_app;
|}.

Lemma no_conflict {T V} `{EqDecision V} (version : T -> V) (t base : T) :
  conflicts version t (MergeFromWithOptimisticLock base) = false <-> version t = version base.
Proof. unfold conflicts. cbn. by rewrite negb_false_iff, bool_decide_eq_true. Qed.

Lemma named_delete {T} (f : T -> string) m n : named f (delete n m) n = None.
Proof. unfold named. by rewrite lookup_delete_eq. Qed.

Lemma named_delete_ne {T} (f : T -> string) m n k : k <> n -> named f (delete n m) k = named f m k.
Proof. intros Hn. unfold named. by rewrite lookup_delete_ne. Qed.

Lemma named_insert_ne {T} (f : T -> string) m n o k :
  k <> n -> named f (<[n := o]> m) k = named f m k.
Proof. intros Hn. unfold named. by rewrite lookup_insert_ne. Qed.

Lemma named_insert {T} (f : T -> string) m o : named f (<[f o := o]> m) (f o) = Some o.
Proof. unfold named. by rewrite lookup_insert_eq, String.eqb_refl. Qed.

Lemma named_lookup {T} (f : T -> string) m n o : named f m n = Some o -> m !! n = Some o.
Proof.
  unfold named. destruct (m !! n) as [o'|]; [|done]. by destruct (String.eqb (f o') n).
Qed.

Lemma tidy_list_elem s c : c ∈ tidy_list s <-> tidy_claim s (sc_Name c) = Some c.
Proof.
  unfold tidy_list. rewrite list_elem_of_omap. split.
  - intros ([n c'] & _ & Hc). cbn in Hc. pose proof (named_name _ _ _ _ Hc) as ->. done.
  - intros Hc. exists (sc_Name c, c). split; [|done].
    apply elem_of_map_to_list. by eapply named_lookup.
Qed.

Lemma lands_cases {T} (f : T -> string) meta (old o : T) m :
  lands f meta old o m = <[f o := o]> m \/ lands f meta old o m = delete (f o) m.
Proof. unfold lands. repeat case_match; auto. Qed.
