(* ===== verification/SystemTeardown.v ===== *)
(** * A team being deleted: what its workers do to it

    What the teardown of a team sees of the cluster, what each request can do to it
    ([EffectLaws]), what a worker does whatever it was told ([modest]), and what one
    reconcile of a claim or of the Tenant achieves, when its reads are up to date
    and its requests accepted, while ArgoCD prunes, the other workers run and calls
    fail: the reasoning behind [SystemProgress]. *)
From stdpp Require Import relations.
From S2P Require Import Prelude Prog Kube Api Client Finalizers Indexes.
From S2P Require TenantController ServiceClaimController.
From S2P Require Import System.
Open Scope prog_scope.

Section teardown.
Context `{K : Kube} `{A : !ApiServer}.

(** ** What matters of the cluster *)

(** Being deleted, and the finalizers. *)
Definition metaView (m : ObjectMeta) : bool * list string :=
  (negb (TimeIsZero (om_DeletionTimestamp m)), om_Finalizers m).

Definition isDeleted (app : Unstructured) : bool :=
  match om_DeletionTimestamp (u_ObjectMeta app) with Some _ => true | None => false end.

Context (claimAt : state -> string -> option ServiceClaim).

Definition cview (s : state) (n : string) : option (string * (bool * list string)) :=
  match claimAt s n with
  | Some c => Some (Team (sc_Spec c), metaView (sc_ObjectMeta c))
  | None => None
  end.

Definition tview (s : state) (n : string) : option (bool * list string) :=
  match tenant s n with Some t => Some (metaView (t_ObjectMeta t)) | None => None end.

(** Which Application it is, and whether it is being deleted. *)
Definition aview (s : state) (n : string) : option (string * bool) :=
  match application s n with
  | Some app => Some (om_UID (u_ObjectMeta app), isDeleted app)
  | None => None
  end.

(** Nothing of this changes, except for the object of a kind and name. *)
Definition keeps (kd : kindName) (n : string) (s s' : state) : Prop :=
  (forall m, ~ (kd = NServiceClaim /\ m = n) -> cview s' m = cview s m) /\
  (forall m, ~ (kd = NTenant /\ m = n) -> tview s' m = tview s m) /\
  (forall m, ~ (kd = NApplication /\ m = n) -> aview s' m = aview s m).

Definition unchanged (s s' : state) : Prop :=
  forall m, cview s' m = cview s m /\ tview s' m = tview s m /\ aview s' m = aview s m.

(** The answer to a read of what is stored. *)
Definition answers {T} (r : error + T) (o : option T) : Prop :=
  match o with
  | Some x => r = inr x
  | None => exists e, r = inl e /\ IsNotFound (Some e) = true
  end.

(** ArgoCD's turn: an Application being deleted is pruned and goes. *)
Definition prunes (n : string) (s s' : state) : Prop :=
  match aview s n with
  | Some (_, true) => aview s' n = None /\ keeps NApplication n s s'
  | _ => unchanged s s'
  end.

(** An answer that is not behind and not a failure: a read is answered with what is
    stored, a request is accepted.  This is no law: the cache may lag and a request
    may fail, and then the answer is not a clean one. *)
Definition clean (s : state) {R} (c : call R) : R -> Prop :=
  match c in call R return R -> Prop with
  | Get _ k key => fun r =>
      match k in kind T return error + T -> Prop with
      | KServiceClaim => fun r => answers r (claimAt s (nn_Name key))
      | KTenant => fun r => answers r (tenant s (nn_Name key))
      | KApplication => fun r =>
          nn_Namespace key = "argocd" -> answers r (application s (nn_Name key))
      | _ => fun _ => True
      end r
  | ListClaims _ key n => fun r =>
      key = ClaimTeamIndexKey -> r = inr (indexed_list (claims s) n)
  | CreateOrUpdate _ _ _ | PatchObject _ _ _ | PatchStatus _ _ _ => fun r => exists o, r = inr o
  | Delete _ _ _ => fun r => r = None \/ IsNotFound r = true
  end.

(** What is documented of the requests: a read changes nothing.  A status patch
    changes nothing but the status, and is answered with the stored object.  A
    locked patch is accepted only if the object is still the one it was computed
    from, and if it empties the finalizers of an object being deleted, the object
    goes.  Applying or deleting an object touches no other; a deletion with a UID
    deletes the object of that UID or reports that there is none. *)
Class EffectLaws : Prop := {
  stored_claim_name s n c : claimAt s n = Some c -> sc_Name c = n;
  stored_tenant_name s n t : tenant s n = Some t -> t_Name t = n;
  stored_app_name s n app : application s n = Some app -> om_Name (u_ObjectMeta app) = n;
  stored_claims s c : c ∈ claims s <-> claimAt s (sc_Name c) = Some c;
  effect_named R (c : call R) s r s' : serve _ c s r s' -> answer_named (Ev c r);
  effect_read R (c : call R) s r s' : serve _ c s r s' -> writes c = false -> s' = s;
  effect_status T (k : kind T) obj p s r s' :
    serve _ (PatchStatus k obj p) s r s' -> unchanged s s';
  answer_status_claim obj p s o s' : serve _ (PatchStatus KServiceClaim obj p) s (inr o) s' ->
    cview s (sc_Name obj) = Some (Team (sc_Spec o), metaView (sc_ObjectMeta o));
  answer_status_tenant obj p s o s' : serve _ (PatchStatus KTenant obj p) s (inr o) s' ->
    tview s (t_Name obj) = Some (metaView (t_ObjectMeta o));
  locked_claim obj base s o s' :
    serve _ (PatchObject KServiceClaim obj (MergeFromWithOptimisticLock base)) s (inr o) s' ->
    sc_Name obj = sc_Name base ->
    cview s (sc_Name base) = Some (Team (sc_Spec base), metaView (sc_ObjectMeta base));
  locked_tenant obj base s o s' :
    serve _ (PatchObject KTenant obj (MergeFromWithOptimisticLock base)) s (inr o) s' ->
    t_Name obj = t_Name base -> tview s (t_Name base) = Some (metaView (t_ObjectMeta base));
  release_claim obj base s o s' :
    serve _ (PatchObject KServiceClaim obj (MergeFromWithOptimisticLock base)) s (inr o) s' ->
    fst (metaView (sc_ObjectMeta base)) = true -> om_Finalizers (sc_ObjectMeta obj) = [] ->
    cview s' (sc_Name obj) = None /\ keeps NServiceClaim (sc_Name obj) s s';
  release_tenant obj base s o s' :
    serve _ (PatchObject KTenant obj (MergeFromWithOptimisticLock base)) s (inr o) s' ->
    fst (metaView (t_ObjectMeta base)) = true -> om_Finalizers (t_ObjectMeta obj) = [] ->
    tview s' (t_Name obj) = None /\ keeps NTenant (t_Name obj) s s';
  effect_apply_app obj mutate s r s' : serve _ (CreateOrUpdate KApplication obj mutate) s r s' ->
    keeps NApplication (om_Name (u_ObjectMeta obj)) s s';
  effect_apply_owned T (k : kind T) obj mutate s r s' :
    serve _ (CreateOrUpdate k obj mutate) s r s' ->
    kindOf k ∈ [NNamespace; NRoleBinding; NResourceQuota] -> unchanged s s';
  effect_delete_app app u s r s' : serve _ (Delete KApplication app (Some u)) s r s' ->
    keeps NApplication (om_Name (u_ObjectMeta app)) s s' /\
    (r = None \/ IsNotFound r = true ->
     let a := aview s' (om_Name (u_ObjectMeta app)) in a = None \/ a = Some (u, true));
  effect_delete_owned T (k : kind T) obj u s r s' : serve _ (Delete k obj u) s r s' ->
    kindOf k ∈ [NNamespace; NResourceQuota] -> unchanged s s';
}.

(** And what can happen: the cache can be up to date; a request that nothing stands
    in the way of can be accepted, a locked one if the object is the one it was
    computed from; ArgoCD can take its turn. *)
Class PossibleLaws : Prop := {
  can_read R (c : call R) s : writes c = false -> exists r, serve _ c s r s /\ clean s c r;
  can_prune n s : exists s', prunes n s s';
  can_status_claim obj p s :
    cview s (sc_Name obj) = Some (Team (sc_Spec obj), metaView (sc_ObjectMeta obj)) ->
    exists o s', serve _ (PatchStatus KServiceClaim obj p) s (inr o) s' /\
      claimAt s' (sc_Name obj) = Some o;
  can_status_tenant obj p s :
    tview s (t_Name obj) = Some (metaView (t_ObjectMeta obj)) ->
    exists o s', serve _ (PatchStatus KTenant obj p) s (inr o) s' /\
      tenant s' (t_Name obj) = Some o;
  can_release_claim obj base s : claimAt s (sc_Name obj) = Some base ->
    exists o s', serve _ (PatchObject KServiceClaim obj (MergeFromWithOptimisticLock base)) s (inr o) s';
  can_release_tenant obj base s : tenant s (t_Name obj) = Some base ->
    exists o s', serve _ (PatchObject KTenant obj (MergeFromWithOptimisticLock base)) s (inr o) s';
  can_delete_app app u d s : aview s (om_Name (u_ObjectMeta app)) = Some (u, d) ->
    exists s', serve _ (Delete KApplication app (Some u)) s None s';
  can_delete_ns ns u s : exists r s', serve _ (Delete KNamespace ns u) s r s' /\
    (r = None \/ IsNotFound r = true) /\ forall n, tenant s' n = tenant s n;
}.

Lemma unchanged_keeps kd n s s' : unchanged s s' -> keeps kd n s s'.
Proof. intros Hu. split_and!; intros m _; apply Hu. Qed.

Lemma unchanged_refl s : unchanged s s.
Proof. by intros m. Qed.

(** ** Rely and guarantee *)

(** How far a claim is from gone: its Application is there, is being deleted,
    is gone; the claim is gone. *)
Definition level (s : state) (n : string) : nat :=
  match cview s n with
  | None => 0
  | Some _ => match aview s n with None => 1 | Some (_, true) => 2 | Some (_, false) => 3 end
  end.

(** What a worker lets the others do: the claim's may find its Application
    pruned, the Tenant's may find claims gone. *)
Definition bears (i : wid) (s s' : state) : Prop :=
  match i with
  | WClaim n => cview s' n = cview s n /\
      (aview s' n = aview s n \/ aview s' n = None /\ exists u, aview s n = Some (u, true))
  | WTenant n => tview s' n = tview s n /\
      forall m v, cview s' m = Some (n, v) -> exists v', cview s m = Some (n, v')
  end.

#[export] Instance bears_preorder i : PreOrder (bears i).
Proof.
  destruct i as [n|n]; split; unfold bears.
  - intros s. eauto.
  - intros s1 s2 s3 [T1 C1] [T2 C2]. split; [congruence|]. intros m v (v' & H)%C2. eauto.
  - intros s. auto.
  - intros s1 s2 s3 [C1 A1] [C2 A2]. split; [congruence|].
    destruct A2 as [A2|[A2 (u & U2)]]; [destruct A1 as [A1|[A1 U1]]|].
    + left. congruence.
    + right. split; [congruence|done].
    + right. split; [done|]. destruct A1 as [A1|[A1 U1]]; [exists u; congruence|done].
Qed.

(** What a worker does at most, and what it does at most if it was not misled. *)
Definition does (i : wid) (s s' : state) : Prop :=
  match i with
  | WClaim n => (forall m, m <> n -> cview s' m = cview s m /\ aview s' m = aview s m) /\
      (forall m, tview s' m = tview s m) /\ (cview s' n = cview s n \/ cview s' n = None)
  | WTenant n => (forall m, cview s' m = cview s m /\ aview s' m = aview s m) /\
      (forall m, m <> n -> tview s' m = tview s m) /\
      (tview s' n = tview s n \/ tview s' n = None)
  end.

Definition lowers (i : wid) (s s' : state) : Prop :=
  match i with WClaim n => level s' n <= level s n | WTenant _ => True end.

Lemma unchanged_bears i s s' : unchanged s s' -> bears i s s'.
Proof.
  intros Hu. destruct i as [n|n]; split; try apply Hu; [|by left; apply Hu].
  intros m v. rewrite (proj1 (Hu m)). eauto.
Qed.

Lemma unchanged_level s s' n : unchanged s s' -> level s' n = level s n.
Proof. intros Hu. unfold level. destruct (Hu n) as (-> & _ & ->). done. Qed.

Lemma unchanged_does i s s' : unchanged s s' -> does i s s'.
Proof.
  intros Hu. destruct i as [n|n]; split_and!; try (intros m; intros); try (left; apply Hu);
    try split; apply Hu.
Qed.

Lemma unchanged_lowers i s s' : unchanged s s' -> lowers i s s'.
Proof. intros Hu. destruct i as [n|n]; cbn; [done|]. by rewrite (unchanged_level _ _ _ Hu). Qed.

Lemma bears_level n s s' : bears (WClaim n) s s' -> level s' n <= level s n.
Proof.
  unfold bears, level. intros [-> [->|[-> (u & ->)]]]; destruct (cview s n); lia.
Qed.

(** ** Calls that fail *)

(** An answer that is an error, and for a read not the news that there is no
    object. *)
Definition failed {R} (c : call R) : R -> Prop :=
  match c in call R return R -> Prop with
  | Get _ _ _ | ListClaims _ _ _ => fun r => exists e, r = inl e /\ IsNotFound (Some e) = false
  | CreateOrUpdate _ _ _ | PatchObject _ _ _ | PatchStatus _ _ _ => fun r => exists e, r = inl e
  | Delete _ _ _ => fun r => exists e, r = Some e /\ IsNotFound (Some e) = false
  end.

(** It may have had its effect all the same. *)
Definition fault {R} (c : call R) (s s' : state) : Prop :=
  unchanged s s' \/ exists r, clean s c r /\ serve _ c s r s'.

(** Whatever the others do in between, a call that is answered cleanly lowers the
    claim, and if no call of it fails the worker ends in [Q]. *)
Fixpoint good (i : wid) (Q : state -> Prop) (w : worker) (s : state) : Prop :=
  match w with
  | Ret _ => forall s1, bears i s s1 -> Q s1
  | Vis c k => forall s1, bears i s s1 ->
      (forall r s2, clean s1 c r -> serve _ c s1 r s2 -> lowers i s1 s2 /\ good i Q (k r) s2) /\
      (forall r s2, failed c r -> fault c s1 s2 -> good i (fun _ => True) (k r) s2)
  end.

Lemma good_bears i Q w s s' : bears i s s' -> good i Q w s -> good i Q w s'.
Proof. intros Hb. destruct w; intros H s1 H1; apply H; by etransitivity. Qed.

Lemma good_mono i (Q Q' : state -> Prop) w s :
  (forall s, Q s -> Q' s) -> good i Q w s -> good i Q' w s.
Proof.
  intros HQ. revert s. induction w as [a|R c k IH]; intros s; cbn; [eauto|].
  intros H s1 H1. destruct (H s1 H1) as [Hs Hf]. split; [|done].
  intros r s2 Hc H2. destruct (Hs r s2 Hc H2). auto.
Qed.

Lemma good_vis i Q R (c : call R) k s :
  (forall s1, bears i s s1 ->
    (forall r s2, clean s1 c r -> serve _ c s1 r s2 -> lowers i s1 s2 /\ good i Q (k r) s2) /\
    (forall r s2, failed c r -> fault c s1 s2 -> good i (fun _ => True) (k r) s2)) ->
  good i Q (Vis c k) s.
Proof. done. Qed.

(** A call that changes nothing when it succeeds, and ends the run when it
    fails. *)
Lemma good_unchanged i Q R (c : call R) k s :
  (forall s1 s2 r, bears i s s1 -> clean s1 c r -> serve _ c s1 r s2 ->
     unchanged s1 s2 /\ (bears i s s2 -> good i Q (k r) s2)) ->
  (forall r, failed c r -> exists a, k r = Ret a) ->
  good i Q (Vis c k) s.
Proof.
  intros H Hf. apply good_vis. intros s1 H1. split.
  - intros r s2 Hc Hs. destruct (H s1 s2 r H1 Hc Hs) as [Hu Hg]. split; [by apply unchanged_lowers|].
    apply Hg. etransitivity; [exact H1|by apply unchanged_bears].
  - intros r s2 [a ->]%Hf _. by intros s3 _.
Qed.

(** ** The claim's worker *)

Context {H : EffectLaws} `{L : !KubeLaws}.
Context (rt : TenantController.TenantReconciler)
  (rs : ServiceClaimController.ServiceClaimReconciler).

Lemma sole_finalizer m f : om_Finalizers m = [f] ->
  ContainsFinalizer m f = true /\ om_Finalizers (RemoveFinalizer m f) = [].
Proof.
  intros Hm. split.
  - apply ContainsFinalizer_spec. rewrite Hm. by left.
  - destruct (RemoveFinalizer_spec m f) as [_ Hg].
    destruct (om_Finalizers (RemoveFinalizer m f)) as [|g l]; [done|].
    destruct (proj1 (Hg g)) as [Hne Hin]; [by left|]. rewrite Hm in Hin.
    by apply list_elem_of_singleton in Hin.
Qed.

(** Being deleted, held by the platform's finalizer alone. *)
Definition dying (f : string) : bool * list string := (true, [f]).

Definition dyingClaim (s : state) (n : string) : Prop :=
  exists team, cview s n = Some (team, dying ServiceClaimFinalizer).

Definition dyingTenant (s : state) (n : string) : Prop :=
  tview s n = Some (dying TenantFinalizer).

Lemma dying_meta m f : metaView m = dying f ->
  TimeIsZero (om_DeletionTimestamp m) = false /\ ContainsFinalizer m f = true /\
  om_Finalizers (RemoveFinalizer m f) = [].
Proof.
  intros Hm. injection Hm as Hd Hf. apply negb_true_iff in Hd.
  by destruct (sole_finalizer m f Hf).
Qed.

(** What failed calls of the deletion paths lead to. *)
Ltac fails := let e := fresh "e" in intros r (e & -> & Hnf); cbn;
  rewrite ?Hnf, ?IgnoreNotFound_spec, ?Hnf; eauto.

Lemma good_ret i Q a s : (forall s', bears i s s' -> Q s') -> good i Q (Ret a) s.
Proof. done. Qed.

(** The status patch of a claim stored with this metadata and team, then the
    rest. *)
Lemma good_claim_status n Q (c obj : ServiceClaim) p k s :
  sc_Name c = n -> cview s n = Some (Team (sc_Spec c), metaView (sc_ObjectMeta c)) ->
  sc_ObjectMeta obj = sc_ObjectMeta c -> sc_Spec obj = sc_Spec c ->
  (forall e, exists a, k (inl e) = Ret a) ->
  (forall o s1 s2, bears (WClaim n) s s1 -> unchanged s1 s2 ->
     Team (sc_Spec o) = Team (sc_Spec c) -> sc_Name o = n ->
     metaView (sc_ObjectMeta o) = metaView (sc_ObjectMeta c) ->
     good (WClaim n) Q (k (inr o)) s2) ->
  good (WClaim n) Q (bind (trigger (PatchStatus KServiceClaim obj p)) k) s.
Proof.
  intros Hn Hc Hm Hsp Hke Hk. cbn [bind trigger].
  assert (Hno : sc_Name obj = n) by (unfold sc_Name in *; congruence).
  apply good_unchanged.
  - intros s1 s2 r H1 [o ->] Hs. pose proof (proj1 H1) as Hc1.
    pose proof (effect_status _ _ _ _ _ _ _ Hs) as Hu. split; [done|]. intros _.
    pose proof (effect_named _ _ _ _ _ Hs) as Ho. cbn in Ho.
    apply answer_status_claim in Hs. rewrite Hno, Hc1, Hc in Hs. injection Hs as Ht Hd Hf.
    apply (Hk o s1 s2); [done|done|unfold sc_Name, metaView in *; congruence..].
  - intros r (e & ->). apply Hke.
Qed.

(** The release: the claim goes. *)
Lemma good_claim_release n Q (o : ServiceClaim) k s :
  sc_Name o = n ->
  metaView (sc_ObjectMeta o) = dying ServiceClaimFinalizer ->
  (forall x, exists a, k x = Ret a) -> (forall s', level s' n = 0 -> Q s') ->
  good (WClaim n) Q (bind (releaseFinalizer o ServiceClaimFinalizer) k) s.
Proof.
  intros Hn Hv Hk HQ. destruct (dying_meta _ _ Hv) as (_ & Hcont & Hrem).
  unfold releaseFinalizer. cbn [GetMeta ServiceClaim_ClientObject]. rewrite Hcont.
  cbn [negb bind trigger]. apply good_vis. intros s1 H1. split.
  - intros r s2 [o' ->] Hs. apply release_claim in Hs as [Hgone _]; [|by rewrite Hv|done].
    unfold sc_Name in Hgone. cbn in Hgone. rewrite RemoveFinalizer_name in Hgone.
    fold (sc_Name o) in Hgone. rewrite Hn in Hgone.
    assert (Hl : level s2 n = 0) by (unfold level; by rewrite Hgone).
    split; [cbn; lia|]. cbn [bind]. destruct (Hk (o', None)) as [a ->]. apply good_ret.
    intros s3 H3. apply HQ. pose proof (bears_level _ _ _ H3). lia.
  - intros r s2 (e & ->) _. cbn [bind]. by destruct (Hk
      (SetMeta (RemoveFinalizer (sc_ObjectMeta o) ServiceClaimFinalizer) o, Some e)) as [a ->].
Qed.

(** What one clean reconcile of a claim brings its level to. *)
Definition brings (l : nat) : nat := match l with 0 | 1 => 0 | _ => 2 end.

Lemma dyingClaim_at s n c : dyingClaim s n -> claimAt s n = Some c ->
  cview s n = Some (Team (sc_Spec c), metaView (sc_ObjectMeta c)) /\
  metaView (sc_ObjectMeta c) = dying ServiceClaimFinalizer.
Proof. intros [team Hv] Hc. unfold cview in *. rewrite Hc in *. split; [done|congruence]. Qed.

Lemma level_gone s n : cview s n = None -> level s n = 0.
Proof. intros Hc. unfold level. by rewrite Hc. Qed.

Lemma level_keeps_app n s s' u : keeps NApplication n s s' -> aview s n = Some (u, false) ->
  (aview s' n = None \/ aview s' n = Some (u, true)) ->
  level s' n <= 2 /\ level s' n <= level s n.
Proof.
  intros (K1 & K2 & K3) Ha Ha'. assert (Hc : cview s' n = cview s n) by (apply K1; by intros [? _]).
  unfold level. rewrite Hc, Ha. destruct (cview s n); [|lia]. destruct Ha' as [-> | ->]; lia.
Qed.

(** The drain of a claim that is being deleted. *)
Lemma drain_good n c l s : claimAt s n = Some c -> dyingClaim s n -> level s n <= l ->
  good (WClaim n) (fun s' => level s' n <= brings l) (ServiceClaimController.reconcileDelete c) s.
Proof.
  intros Hc Hd Hl. pose proof (stored_claim_name _ _ _ Hc) as Hn.
  destruct (dyingClaim_at _ _ _ Hd Hc) as [Hcv Hv].
  destruct (dying_meta _ _ Hv) as (_ & Hcont & _).
  unfold ServiceClaimController.reconcileDelete. rewrite Hcont. cbn [negb bind trigger].
  apply good_unchanged; [|fails].
  intros s1 s2 r H1 Ha Hget. apply effect_read in Hget as ->; [|done].
  split; [apply unchanged_refl|]. intros _. specialize (Ha eq_refl). cbn in Ha.
  change (sc_Name (sc_set_Phase PhaseTerminating c)) with (sc_Name c) in Ha. rewrite Hn in Ha.
  pose proof (proj1 H1) as Hc1. rewrite Hcv in Hc1.
  pose proof (bears_level _ _ _ H1) as Hl1.
  assert (Hend : forall s', level s' n <= 2 -> 2 <= level s1 n -> forall s'', bears (WClaim n) s' s'' ->
    level s'' n <= brings l).
  { intros s' H2 Hle s'' Hb%bears_level. destruct l as [|[|l]]; cbn; lia. }
  destruct (application s1 n) as [app|] eqn:Happ; unfold answers in Ha.
  - subst r. assert (Hav : aview s1 n = Some (om_UID (u_ObjectMeta app), isDeleted app))
      by (unfold aview; by rewrite Happ).
    assert (Hlev : 2 <= level s1 n) by (unfold level; rewrite Hc1, Hav; destruct (isDeleted app); lia).
    pose proof (stored_app_name _ _ _ Happ) as Han.
    destruct (om_DeletionTimestamp (u_ObjectMeta app)) eqn:Hdel.
    + apply (good_claim_status n _ c); [done..|by eauto|]. intros o s2 s3 H2 Hu _ _ _.
      apply good_ret. intros s4 H4. apply (Hend s3); [|done|done].
      rewrite (unchanged_level _ _ _ Hu). pose proof (bears_level _ _ _ H2).
      unfold level in *. rewrite Hc1, Hav in *. unfold isDeleted in *. rewrite Hdel in *. lia.
    + assert (Hnd : isDeleted app = false) by (unfold isDeleted; by rewrite Hdel).
      rewrite Hnd in Hav. apply good_vis. intros s2 H2.
      assert (Hav2 : aview s2 n = Some (om_UID (u_ObjectMeta app), false)).
      { destruct H2 as [_ [->|[_ [u Hu]]]]; [done|congruence]. }
      split; [|intros r s3 (e & -> & _) _; by apply good_ret].
      intros r s3 Hr Hdl. apply effect_delete_app in Hdl as [Hk Ha']. specialize (Ha' Hr).
      rewrite Han in Hk, Ha'.
      destruct (level_keeps_app n s2 s3 _ Hk Hav2 Ha') as [Hl3 Hdo]. split; [done|].
      destruct r as [e|].
      { apply good_ret. intros s4 H4. apply (Hend s3); [done|done|done]. }
      apply (good_claim_status n _ c); [done| |done|done|by eauto|].
      { destruct Hk as (K1 & _). rewrite K1 by (by intros []). by rewrite (proj1 H2), Hc1. }
      intros o s4 s5 H4 Hu _ _ _. apply good_ret. intros s6 H6. apply (Hend s5); [|done|done].
      rewrite (unchanged_level _ _ _ Hu). pose proof (bears_level _ _ _ H4). lia.
  - destruct Ha as (e & -> & He). rewrite He.
    apply (good_claim_status n _ c); [done|by rewrite Hc1|done|done|by eauto|].
    intros o s2 s3 H2 Hu Ht Ho Hmv.
    eapply good_claim_release; [done|by rewrite Hmv| |].
    + intros [? [x|]]; eauto.
    + intros s' ->. lia.
Qed.

Lemma claim_good n l s : dyingClaim s n \/ cview s n = None -> level s n <= l ->
  good (WClaim n) (fun s' => level s' n <= brings l) (handlerOf rt rs (WClaim n)) s.
Proof.
  intros Hd Hl. unfold handlerOf, ServiceClaimController.Reconcile. cbn [bind trigger].
  apply good_unchanged; [|fails].
  intros s1 s2 r H1 Ha Hget. apply effect_read in Hget as ->; [|done]. cbn in Ha.
  split; [apply unchanged_refl|]. intros _. pose proof (bears_level _ _ _ H1).
  assert (Hd1 : dyingClaim s1 n \/ cview s1 n = None)
    by (unfold dyingClaim; by rewrite (proj1 H1)).
  destruct (claimAt s1 n) as [c|] eqn:Hc; unfold answers in Ha.
  - subst r. destruct Hd1 as [Hd1|Hd1]; [|unfold cview in Hd1; by rewrite Hc in Hd1].
    destruct (dyingClaim_at _ _ _ Hd1 Hc) as [_ Hv].
    destruct (dying_meta _ _ Hv) as (-> & _ & _). cbn [negb]. apply drain_good; [done|done|lia].
  - destruct Ha as (e & -> & He). apply good_ret. intros s3 H3%bears_level.
    rewrite (level_gone s1) in H3; [lia|]. unfold cview. by rewrite Hc.
Qed.

(** ** The Tenant's worker *)

(** No claim names the team. *)
Definition noClaims (T : string) (s : state) : Prop := forall m v, cview s m <> Some (T, v).

Lemma noClaims_list T s : T <> "" -> noClaims T s -> indexed_list (claims s) T = [].
Proof.
  intros HT Hno. destruct (indexed_list (claims s) T) as [|c cs] eqn:E; [done|].
  assert (Hin : c ∈ indexed_list (claims s) T) by (rewrite E; by left).
  apply list_elem_of_filter in Hin as [[Hteam _]%claimTeamIndexer_elem Hc].
  apply stored_claims in Hc. destruct (Hno (sc_Name c) (metaView (sc_ObjectMeta c))).
  unfold cview. by rewrite Hc, Hteam.
Qed.

Lemma noClaims_bears T s s' : bears (WTenant T) s s' -> noClaims T s -> noClaims T s'.
Proof. intros [_ Hb] Hno m v (v' & Hv)%Hb. by apply (Hno m v'). Qed.

Lemma good_tenant_status n Q (t obj : Tenant) p k s :
  t_Name t = n -> tview s n = Some (metaView (t_ObjectMeta t)) ->
  t_ObjectMeta obj = t_ObjectMeta t ->
  (forall e, exists a, k (inl e) = Ret a) ->
  (forall o s1 s2, bears (WTenant n) s s1 -> unchanged s1 s2 -> t_Name o = n ->
     metaView (t_ObjectMeta o) = metaView (t_ObjectMeta t) ->
     good (WTenant n) Q (k (inr o)) s2) ->
  good (WTenant n) Q (bind (trigger (PatchStatus KTenant obj p)) k) s.
Proof.
  intros Hn Ht Hm Hke Hk. cbn [bind trigger].
  assert (Hno : t_Name obj = n) by (unfold t_Name in *; congruence).
  apply good_unchanged.
  - intros s1 s2 r H1 [o ->] Hs. pose proof (proj1 H1) as Ht1.
    pose proof (effect_status _ _ _ _ _ _ _ Hs) as Hu. split; [done|]. intros _.
    pose proof (effect_named _ _ _ _ _ Hs) as Ho. cbn in Ho.
    apply answer_status_tenant in Hs. rewrite Hno, Ht1, Ht in Hs. injection Hs as Hd Hf.
    apply (Hk o s1 s2); [done|done|unfold t_Name, metaView in *; congruence..].
  - intros r (e & ->). apply Hke.
Qed.

Lemma good_tenant_release n Q (o : Tenant) k s :
  t_Name o = n ->
  metaView (t_ObjectMeta o) = dying TenantFinalizer ->
  (forall x, exists a, k x = Ret a) -> (forall s', tview s' n = None -> Q s') ->
  good (WTenant n) Q (bind (releaseFinalizer o TenantFinalizer) k) s.
Proof.
  intros Hn Hv Hk HQ. destruct (dying_meta _ _ Hv) as (_ & Hcont & Hrem).
  unfold releaseFinalizer. cbn [GetMeta Tenant_ClientObject]. rewrite Hcont.
  cbn [negb bind trigger]. apply good_vis. intros s1 H1. split.
  - intros r s2 [o' ->] Hs. apply release_tenant in Hs as [Hgone _]; [|by rewrite Hv|done].
    unfold t_Name in Hgone. cbn in Hgone. rewrite RemoveFinalizer_name in Hgone.
    fold (t_Name o) in Hgone. rewrite Hn in Hgone. split; [done|].
    cbn [bind]. destruct (Hk (o', None)) as [a ->]. apply good_ret. intros s3 H3. apply HQ.
    by rewrite (proj1 H3).
  - intros r s2 (e & ->) _. cbn [bind]. by destruct (Hk
      (SetMeta (RemoveFinalizer (t_ObjectMeta o) TenantFinalizer) o, Some e)) as [a ->].
Qed.

(** It waits for the claims, and lets go when there are none. *)
Lemma tenant_drain_good T t s : T <> "" -> tenant s T = Some t -> dyingTenant s T ->
  good (WTenant T) (fun s' => noClaims T s -> tview s' T = None)
    (TenantController.reconcileDelete t) s.
Proof.
  intros HT Ht Hd. pose proof (stored_tenant_name _ _ _ Ht) as Hn.
  assert (Htv : tview s T = Some (metaView (t_ObjectMeta t))) by (unfold tview; by rewrite Ht).
  assert (Hv : metaView (t_ObjectMeta t) = dying TenantFinalizer)
    by (unfold dyingTenant in Hd; congruence).
  destruct (dying_meta _ _ Hv) as (_ & Hcont & _).
  unfold TenantController.reconcileDelete. rewrite Hcont. cbn [negb bind trigger].
  apply good_unchanged; [|fails]. intros s1 s2 r H1 Hl Hlist.
  apply effect_read in Hlist as ->; [|done]. pose proof (Hl eq_refl) as ->. clear Hl.
  change (t_Name (t_set_Phase PhaseTerminating t)) with (t_Name t). rewrite Hn.
  split; [apply unchanged_refl|]. intros _. pose proof (proj1 H1) as Ht1. rewrite Htv in Ht1.
  destruct (indexed_list (claims s1) T) as [|c cs] eqn:E; cbn [length Nat.ltb Nat.leb].
  - apply (good_tenant_status T _ t); [done..|by eauto|].
    intros o s2 s3 H2 Hu Ho Hmv. cbn [bind trigger]. apply good_unchanged.
    + intros s4 s5 r H4 Hr Hdel. apply effect_delete_owned in Hdel as Hu5; [|by left].
      split; [done|]. intros _.
      assert (Hrel : good (WTenant T) (fun s' => noClaims T s -> tview s' T = None)
        (bind (releaseFinalizer o TenantFinalizer)
          (fun x => let '(_, rerr) := x in Ret (emptyResult, rerr))) s5).
      { apply good_tenant_release; [done|by rewrite Hmv|by intros [? rerr]; eauto|auto]. }
      destruct r as [e|]; [|exact Hrel]. destruct Hr as [?|Hr]; [done|]. rewrite Hr. exact Hrel.
    + fails.
  - apply (good_tenant_status T _ t); [done..|by eauto|]. intros o s2 s3 _ _ _ _.
    apply good_ret. intros s4 _ Hno. exfalso.
    rewrite noClaims_list in E; [done|done|by eapply noClaims_bears].
Qed.

Lemma tenant_good T s : T <> "" -> dyingTenant s T \/ tview s T = None ->
  good (WTenant T) (fun s' => noClaims T s -> tview s' T = None) (handlerOf rt rs (WTenant T)) s.
Proof.
  intros HT Hd. unfold handlerOf, TenantController.Reconcile. cbn [bind trigger].
  apply good_unchanged; [|fails].
  intros s1 s2 r H1 Ha Hget. apply effect_read in Hget as ->; [|done]. cbn in Ha.
  split; [apply unchanged_refl|]. intros _.
  assert (Hd1 : dyingTenant s1 T \/ tview s1 T = None)
    by (unfold dyingTenant; by rewrite (proj1 H1)).
  destruct (tenant s1 T) as [t|] eqn:Ht; unfold answers in Ha.
  - subst r. destruct Hd1 as [Hd1|Hd1]; [|unfold tview in Hd1; by rewrite Ht in Hd1].
    assert (Hv : metaView (t_ObjectMeta t) = dying TenantFinalizer)
      by (unfold dyingTenant, tview in Hd1; rewrite Ht in Hd1; congruence).
    destruct (dying_meta _ _ Hv) as (-> & _ & _). cbn [negb].
    eapply good_mono; [|by apply tenant_drain_good]. cbn. intros s' Hs' Hno.
    by apply Hs', (noClaims_bears _ s).
  - destruct Ha as (e & -> & He). apply good_ret. intros s3 H3 _.
    rewrite (proj1 H3). unfold tview. by rewrite Ht.
Qed.
End teardown.
