(* ===== verification/SystemRequests.v ===== *)
(** * What a worker of the teardown asks for, whatever it was told

    A worker whose reads were behind may take the branch of a live object, ask for
    the Application again or send patches that come too late.  [asks] says what its
    requests are for all that: status patches, locked patches of its own object's
    finalizer, and applying and deleting its own Application or namespace; so it can
    change nothing of the other objects, nor un-delete its own.  The last part says
    that a clean reconcile is always possible. *)
From stdpp Require Import relations.
From S2P Require Import Prelude Prog Kube Api Client Finalizers Indexes.
From S2P Require TenantController ServiceClaimController.
From S2P Require Import Watches System SystemTeardown.
Open Scope prog_scope.

Section requests.
Context `{K : Kube} `{A : !ApiServer} `{L : !KubeLaws}.
Context (rt : TenantController.TenantReconciler)
  (rs : ServiceClaimController.ServiceClaimReconciler).

(** ** The requests *)

(** A locked patch of the object of a name that adds the finalizer it lacks, or
    takes it off. *)
Definition finalizer_change {T} `{!ClientObject T} (f n : string) (obj : T) (p : Patch T) : Prop :=
  exists base, p = MergeFromWithOptimisticLock base /\ om_Name (GetMeta base) = n /\
    (ContainsFinalizer (GetMeta base) f = false /\
       obj = SetMeta (AddFinalizer (GetMeta base) f) base \/
     obj = SetMeta (RemoveFinalizer (GetMeta base) f) base).

Definition asks (i : wid) (R : Type) (c : call R) : Prop :=
  match c with
  | Get _ _ _ | ListClaims _ _ _ | PatchStatus _ _ _ => True
  | CreateOrUpdate k obj _ =>
      match i with
      | WClaim n => kindOf k = NApplication /\ om_Name (kindMeta k obj) = n
      | WTenant _ => kindOf k ∈ [NNamespace; NRoleBinding; NResourceQuota]
      end
  | PatchObject k obj p =>
      match k in kind T return T -> Patch T -> Prop with
      | KServiceClaim => fun obj p =>
          match i with
          | WClaim n => finalizer_change ServiceClaimFinalizer n obj p
          | WTenant _ => False
          end
      | KTenant => fun obj p =>
          match i with
          | WTenant n => finalizer_change TenantFinalizer n obj p
          | WClaim _ => False
          end
      | _ => fun _ _ => False
      end obj p
  | Delete k obj u =>
      match i with
      | WClaim n => kindOf k = NApplication /\ om_Name (kindMeta k obj) = n /\ exists uid, u = Some uid
      | WTenant _ => kindOf k ∈ [NNamespace; NResourceQuota]
      end
  end.

(** Every request of a worker, as long as the answers are about the objects asked
    for. *)
Definition modest (i : wid) (w : worker) : Prop := typed answer_named (asks i) w.

Ltac named_objects :=
  unfold t_Name, sc_Name in *; cbn in *; repeat (rewrite AddFinalizer_name in * ); congruence.

Ltac ask :=
  cbn; first
    [ exact I
    | by set_solver
    | split_and!; first [done|named_objects|by eexists]
    | eexists; split; [reflexivity|]; split; [named_objects|]; first [by left|by right] ].

Lemma handler_modest i : modest i (handlerOf rt rs i).
Proof.
  destruct i as [n|n]; unfold modest, handlerOf; unfold_reconcilers.
  - cbn. split; [done|]. intros [e|t] Hn; [exact I|]. cbn in Hn. walk_typed ask.
  - cbn. split; [done|]. intros [e|c] Hn; [exact I|]. cbn in Hn. walk_typed ask.
Qed.
(** ** What they can do *)

Context (claimAt : state -> string -> option ServiceClaim) {EL : EffectLaws claimAt}.
#[local] Abbreviation cview := (cview claimAt).
#[local] Abbreviation does := (does claimAt).
#[local] Abbreviation clean := (clean claimAt).

(** The object of a worker is being deleted, held by the platform's finalizer
    alone, or gone. *)
Definition going (i : wid) (s : state) : Prop :=
  match i with
  | WTenant n => dyingTenant s n \/ tview s n = None
  | WClaim n => dyingClaim claimAt s n \/ cview s n = None
  end.

Lemma keeps_app_does n s s' : keeps claimAt NApplication n s s' -> does (WClaim n) s s'.
Proof.
  intros (K1 & K2 & K3). split_and!.
  - intros m Hm. split; [apply K1; by intros [? _]|apply K3; by intros [_ ?]].
  - intros m. apply K2. by intros [? _].
  - left. apply K1. by intros [? _].
Qed.

(** A finalizer is not added to an object that is being deleted with it, and taking
    it off, the last one, makes the object go. *)
Lemma claim_change_does n obj p s o s' :
  finalizer_change ServiceClaimFinalizer n obj p -> going (WClaim n) s ->
  serve _ (PatchObject KServiceClaim obj p) s (inr o) s' -> does (WClaim n) s s'.
Proof.
  intros (base & -> & Hn & Hobj) Hg Hs. cbn in Hn. fold (sc_Name base) in Hn.
  assert (Hname : sc_Name obj = sc_Name base).
  { unfold sc_Name. destruct Hobj as [[_ ->]| ->]; cbn;
      by rewrite ?AddFinalizer_name, ?RemoveFinalizer_name. }
  pose proof (locked_claim _ _ _ _ _ _ Hs Hname) as Hl. rewrite Hn in Hl.
  assert (Hv : metaView (sc_ObjectMeta base) = dying ServiceClaimFinalizer).
  { destruct Hg as [[team Hd]|Hd]; congruence. }
  destruct (dying_meta _ _ Hv) as (_ & Hc & Hr).
  destruct Hobj as [[Hf _]| ->]; [cbn in Hf; congruence|].
  apply (release_claim claimAt) in Hs as [Hgone (K1 & K2 & K3)]; [|by rewrite Hv|done].
  rewrite Hname, Hn in *. split_and!; [intros m Hm; split|intros m|by right].
  - apply K1. by intros [_ ?].
  - apply K3. by intros [? _].
  - apply K2. by intros [? _].
Qed.

Lemma tenant_change_does n obj p s o s' :
  finalizer_change TenantFinalizer n obj p -> going (WTenant n) s ->
  serve _ (PatchObject KTenant obj p) s (inr o) s' -> does (WTenant n) s s'.
Proof.
  intros (base & -> & Hn & Hobj) Hg Hs. cbn in Hn. fold (t_Name base) in Hn.
  assert (Hname : t_Name obj = t_Name base).
  { unfold t_Name. destruct Hobj as [[_ ->]| ->]; cbn;
      by rewrite ?AddFinalizer_name, ?RemoveFinalizer_name. }
  pose proof (locked_tenant claimAt _ _ _ _ _ Hs Hname) as Hl. rewrite Hn in Hl.
  assert (Hv : metaView (t_ObjectMeta base) = dying TenantFinalizer).
  { unfold going, dyingTenant in Hg. destruct Hg as [Hd|Hd]; congruence. }
  destruct (dying_meta _ _ Hv) as (_ & Hc & Hr).
  destruct Hobj as [[Hf _]| ->]; [cbn in Hf; congruence|].
  apply (release_tenant claimAt) in Hs as [Hgone (K1 & K2 & K3)]; [|by rewrite Hv|done].
  rewrite Hname, Hn in *. split_and!; [intros m; split|intros m Hm|by right].
  - apply K1. by intros [? _].
  - apply K3. by intros [? _].
  - apply K2. by intros [_ ?].
Qed.

(** An accepted request of a worker does no more than it may. *)
Lemma asks_does i R (c : call R) s r s' :
  asks i R c -> going i s -> clean s c r -> serve _ c s r s' -> does i s s'.
Proof.
  intros Ha Hg Hc Hs.
  destruct c as [T rd k key|rd f v|T k obj mu|T k obj p|T k obj p|T k obj u]; cbn [asks] in Ha.
  - apply (effect_read claimAt) in Hs as ->; [|done]. apply unchanged_does, unchanged_refl.
  - apply (effect_read claimAt) in Hs as ->; [|done]. apply unchanged_does, unchanged_refl.
  - destruct i as [n|n]; [by eapply unchanged_does, effect_apply_owned|].
    destruct Ha as [Hk <-]. destruct k; try discriminate Hk.
    by eapply keeps_app_does, effect_apply_app.
  - destruct Hc as [o ->]. destruct k; try done; destruct i as [n|n]; try done;
      [by eapply tenant_change_does|by eapply claim_change_does].
  - by eapply unchanged_does, effect_status.
  - destruct i as [n|n]; [by eapply unchanged_does, effect_delete_owned|].
    destruct Ha as (Hk & <- & uid & ->). destruct k; try discriminate Hk.
    apply (effect_delete_app claimAt) in Hs as [Hs _]. by apply keeps_app_does.
Qed.

(** ** A clean reconcile is possible *)

Context {PL : PossibleLaws claimAt}.

(** One way a program can be answered cleanly, with nothing in between. *)
Fixpoint executes {X} (p : prog call X) (s : state) (a : X) (s' : state) : Prop :=
  match p with
  | Ret x => a = x /\ s' = s
  | Vis c k => exists r s1, clean s c r /\ serve _ c s r s1 /\ executes (k r) s1 a s'
  end.

Definition can_end {X} (p : prog call X) (s : state) : Prop := exists a s', executes p s a s'.

Lemma can_end_ret {X} (x : X) s : can_end (Ret x) s.
Proof. by exists x, s. Qed.

Lemma can_end_vis {X} R (c : call R) (k : R -> prog call X) s r s1 :
  clean s c r -> serve _ c s r s1 -> can_end (k r) s1 -> can_end (Vis c k) s.
Proof. intros Hc Hs (a & s' & H). exists a, s', r, s1. auto. Qed.

(** A read is answered cleanly. *)
Lemma can_end_read {X} R (c : call R) (k : R -> prog call X) s :
  writes c = false -> (forall r, clean s c r -> can_end (k r) s) -> can_end (Vis c k) s.
Proof.
  intros Hc Hk. destruct (can_read claimAt R c s Hc) as (r & Hs & Hr).
  eapply can_end_vis; eauto.
Qed.

Lemma claim_release_ends (o : ServiceClaim) s (k : ServiceClaim * option error -> worker) :
  claimAt s (sc_Name o) = Some o -> (forall x s, can_end (k x) s) ->
  can_end (bind (releaseFinalizer o ServiceClaimFinalizer) k) s.
Proof.
  intros Ho Hk. unfold releaseFinalizer. destruct (ContainsFinalizer _ _); cbn; [|auto].
  match goal with |- can_end (Vis (PatchObject _ ?obj _) _) _ =>
    destruct (can_release_claim claimAt obj o s) as (o' & s' & Hs) end.
  { unfold sc_Name in *. cbn. by rewrite RemoveFinalizer_name. }
  eapply can_end_vis; [by eexists|exact Hs|]. cbn. auto.
Qed.

Lemma tenant_release_ends (o : Tenant) s (k : Tenant * option error -> worker) :
  tenant s (t_Name o) = Some o -> (forall x s, can_end (k x) s) ->
  can_end (bind (releaseFinalizer o TenantFinalizer) k) s.
Proof.
  intros Ho Hk. unfold releaseFinalizer. destruct (ContainsFinalizer _ _); cbn; [|auto].
  match goal with |- can_end (Vis (PatchObject _ ?obj _) _) _ =>
    destruct (can_release_tenant claimAt obj o s) as (o' & s' & Hs) end.
  { unfold t_Name in *. cbn. by rewrite RemoveFinalizer_name. }
  eapply can_end_vis; [by eexists|exact Hs|]. cbn. auto.
Qed.

(** The status patch of a claim as it is stored, and what is left to do. *)
Lemma claim_status_ends (c obj : ServiceClaim) p s (k : error + ServiceClaim -> worker) :
  cview s (sc_Name c) = Some (Team (sc_Spec c), metaView (sc_ObjectMeta c)) ->
  sc_ObjectMeta obj = sc_ObjectMeta c -> sc_Spec obj = sc_Spec c ->
  (forall o s', claimAt s' (sc_Name o) = Some o -> can_end (k (inr o)) s') ->
  can_end (bind (trigger (PatchStatus KServiceClaim obj p)) k) s.
Proof.
  intros Hc Hm Hsp Hk. assert (Hn : sc_Name obj = sc_Name c) by (unfold sc_Name; congruence).
  destruct (can_status_claim claimAt obj p s) as (o & s' & Hs & Ho); [by rewrite Hn, Hm, Hsp|].
  pose proof (effect_named claimAt _ _ _ _ _ Hs) as Hname.
  change (sc_Name o = sc_Name obj) in Hname.
  cbn [bind trigger]. eapply can_end_vis; [by eexists|exact Hs|]. apply Hk. by rewrite Hname.
Qed.

Lemma tenant_status_ends (t obj : Tenant) p s (k : error + Tenant -> worker) :
  tview s (t_Name t) = Some (metaView (t_ObjectMeta t)) -> t_ObjectMeta obj = t_ObjectMeta t ->
  (forall o s', tenant s' (t_Name o) = Some o -> can_end (k (inr o)) s') ->
  can_end (bind (trigger (PatchStatus KTenant obj p)) k) s.
Proof.
  intros Hc Hm Hk. assert (Hn : t_Name obj = t_Name t) by (unfold t_Name; congruence).
  destruct (can_status_tenant claimAt obj p s) as (o & s' & Hs & Ho); [by rewrite Hn, Hm|].
  pose proof (effect_named claimAt _ _ _ _ _ Hs) as Hname.
  change (t_Name o = t_Name obj) in Hname.
  cbn [bind trigger]. eapply can_end_vis; [by eexists|exact Hs|]. apply Hk. by rewrite Hname.
Qed.

Lemma claim_drain_ends (c : ServiceClaim) s : claimAt s (sc_Name c) = Some c ->
  can_end (ServiceClaimController.reconcileDelete c) s.
Proof.
  intros Hc. assert (Hv : cview s (sc_Name c) = Some (Team (sc_Spec c), metaView (sc_ObjectMeta c)))
    by (unfold SystemTeardown.cview; by rewrite Hc).
  unfold ServiceClaimController.reconcileDelete. destruct (negb _); [apply can_end_ret|].
  cbn [bind trigger]. apply can_end_read; [done|]. intros r Ha. specialize (Ha eq_refl).
  cbn [nn_Name] in Ha. change (sc_Name (sc_set_Phase PhaseTerminating c)) with (sc_Name c) in Ha.
  destruct (application s (sc_Name c)) as [app|] eqn:Happ; unfold answers in Ha.
  - subst r. destruct (om_DeletionTimestamp (u_ObjectMeta app)).
    + apply (claim_status_ends c); [done..|]. intros o s' _. apply can_end_ret.
    + pose proof (stored_app_name claimAt _ _ _ Happ) as Hn.
      destruct (can_delete_app claimAt app (om_UID (u_ObjectMeta app)) (isDeleted app) s) as (s1 & Hs).
      { unfold aview. by rewrite Hn, Happ. }
      eapply can_end_vis; [by left|exact Hs|]. cbn beta iota.
      apply (claim_status_ends c); [|done..|intros o s' _; apply can_end_ret].
      apply (effect_delete_app claimAt) in Hs as [(K1 & _) _]. rewrite K1; [done|by intros [? _]].
  - destruct Ha as (e & -> & ->). apply (claim_status_ends c); [done..|].
    intros o s' Ho. apply claim_release_ends; [done|]. intros [? [?|]] s2; apply can_end_ret.
Qed.

Lemma tenant_drain_ends (t : Tenant) s : tenant s (t_Name t) = Some t ->
  can_end (TenantController.reconcileDelete t) s.
Proof.
  intros Ht. assert (Hv : tview s (t_Name t) = Some (metaView (t_ObjectMeta t)))
    by (unfold tview; by rewrite Ht).
  unfold TenantController.reconcileDelete. destruct (negb _); [apply can_end_ret|].
  cbn [bind trigger]. apply can_end_read; [done|]. intros r Hl.
  pose proof (Hl eq_refl) as ->. cbn beta iota.
  destruct (0 <? _).
  - apply (tenant_status_ends t); [done..|]. intros o s' _. apply can_end_ret.
  - apply (tenant_status_ends t); [done..|]. intros o s1 Ho. cbn [bind trigger].
    destruct (can_delete_ns claimAt {| ns_ObjectMeta := NewObjectMeta (teamNamespace (t_Name o)) "" |}
      None s1) as (d & s2 & Hs & Hd & Hsame).
    eapply can_end_vis; [exact Hd|exact Hs|].
    assert (Hrel : can_end (bind (releaseFinalizer o TenantFinalizer)
      (fun x => let '(_, rerr) := x in Ret (emptyResult, rerr))) s2).
    { apply tenant_release_ends; [by rewrite Hsame|]. intros [? rerr] s3. apply can_end_ret. }
    destruct d as [e|]; [|exact Hrel]. destruct Hd as [?|Hd]; [done|]. rewrite Hd. exact Hrel.
Qed.

(** A reconcile of an object that is going has a clean end. *)
Lemma handler_ends i s : going i s -> can_end (handlerOf rt rs i) s.
Proof.
  destruct i as [n|n]; intros Hg; unfold handlerOf;
    [unfold TenantController.Reconcile|unfold ServiceClaimController.Reconcile];
    cbn [bind trigger]; (apply can_end_read; [done|]); intros r Ha; cbn in Ha.
  - destruct (tenant s n) as [t|] eqn:Ht; unfold answers in Ha;
      [subst r|by destruct Ha as (e & -> & _); apply can_end_ret].
    assert (Hv : metaView (t_ObjectMeta t) = dying TenantFinalizer).
    { unfold going, dyingTenant, tview in Hg. rewrite Ht in Hg. destruct Hg; congruence. }
    destruct (dying_meta _ _ Hv) as (-> & _ & _). cbn [negb].
    apply tenant_drain_ends. by rewrite (stored_tenant_name claimAt _ _ _ Ht).
  - destruct (claimAt s n) as [c|] eqn:Hc; unfold answers in Ha;
      [subst r|by destruct Ha as (e & -> & _); apply can_end_ret].
    assert (Hv : metaView (sc_ObjectMeta c) = dying ServiceClaimFinalizer).
    { destruct Hg as [[team Hg]|Hg]; unfold SystemTeardown.cview in Hg; rewrite Hc in Hg; congruence. }
    destruct (dying_meta _ _ Hv) as (-> & _ & _). cbn [negb].
    apply claim_drain_ends. by rewrite (stored_claim_name claimAt _ _ _ Hc).
Qed.
End requests.
