(* ===== verification/SystemProgress.v ===== *)
(** * The teardown ends: no deadlock between the two finalizers

    [SystemTeams] and [SystemClaims] say what never happens; this file says that
    the teardown of a team happens.  The workers of the team's objects run
    interleaved call by call, reads are answered out of date, calls fail and
    workers crash, ArgoCD prunes the Applications being deleted, and everybody else
    does what they like with other objects.  Once the cache has caught up, a
    clean reconcile of a claim, a prune and another clean reconcile lower its level
    to zero, whatever the other workers do meanwhile; then a clean reconcile of the
    Tenant lets the Tenant go. *)
From stdpp Require Import relations.
From S2P Require Import Prelude Prog Kube Api Client Finalizers Indexes.
From S2P Require TenantController ServiceClaimController.
From S2P Require Import System SystemTeardown SystemRequests Sample SampleApi SystemSample SampleServer.
Open Scope prog_scope.

Section progress.
Context `{K : Kube} `{A : !ApiServer} `{L : !KubeLaws}.
Context (claimAt : state -> string -> option ServiceClaim).
Context {EL : EffectLaws claimAt} {PL : PossibleLaws claimAt}.
Context (rt : TenantController.TenantReconciler)
  (rs : ServiceClaimController.ServiceClaimReconciler).
Context (T : string) (N : list string).

#[local] Abbreviation cview := (cview claimAt).
#[local] Abbreviation level := (level claimAt).
#[local] Abbreviation bears := (bears claimAt).
#[local] Abbreviation good := (good claimAt).
#[local] Abbreviation clean := (clean claimAt).
#[local] Abbreviation does := (does claimAt).
#[local] Abbreviation executes := (executes claimAt).

(** ** The system of one team *)

(** The Tenant and all claims of the team are being deleted, or gone; [N] names
    the claims. *)
Definition tearingDown (s : state) : Prop :=
  (dyingTenant s T \/ tview s T = None) /\
  (forall n, n ∈ N -> dyingClaim claimAt s n \/ cview s n = None) /\
  (forall m v, cview s m = Some (T, v) -> m ∈ N).

(** A worker, and how its run has gone so far: every call was answered cleanly;
    some call failed; some read was not up to date. *)
Inductive verdict := Clean | Faulty | Misled.

Record psys := { papi : state; pworkers : wid -> option (worker * verdict) }.

Definition setw (f : wid -> option (worker * verdict)) (i : wid) (w : option (worker * verdict))
  : wid -> option (worker * verdict) :=
  fun j => if decide (j = i) then w else f j.

Definition after_failure (v : verdict) : verdict :=
  match v with Misled => Misled | _ => Faulty end.

(** The workers of the team. *)
Definition teamWid (i : wid) : Prop :=
  match i with WTenant n => n = T | WClaim n => n ∈ N end.

(** What everybody else does: whatever they like, but to the team's objects nothing
    that shows in the views (another team, deletion, finalizers, a new
    Application), and no new claim of the team. *)
Definition elsewhere (s s' : state) : Prop :=
  tview s' T = tview s T /\
  (forall n, n ∈ N -> cview s' n = cview s n /\ aview s' n = aview s n) /\
  (forall m v, cview s' m = Some (T, v) -> m ∈ N).

(** The steps that count: a run begins, a run ends all of whose calls were answered
    cleanly, ArgoCD prunes, a read is answered by a cache that lags. *)
Inductive mark := MStart (i : wid) | MDone (i : wid) | MPrune (n : string) | MStale | MOther.

(** A call is answered cleanly; it fails, before or after it had its effect; or a
    read is answered with anything at all of the name that was asked for, be it
    out of date, not there, or an error. *)
Inductive pstep (x : psys) : mark -> psys -> Prop :=
| p_start i : teamWid i -> pworkers x i = None ->
    pstep x (MStart i) {| papi := papi x; pworkers := setw (pworkers x) i (Some (handlerOf rt rs i, Clean)) |}
| p_call i R (c : call R) k v r s' : pworkers x i = Some (Vis c k, v) ->
    clean (papi x) c r -> serve _ c (papi x) r s' ->
    pstep x MOther {| papi := s'; pworkers := setw (pworkers x) i (Some (k r, v)) |}
| p_fail i R (c : call R) k v r s' : pworkers x i = Some (Vis c k, v) ->
    failed c r -> fault claimAt c (papi x) s' ->
    pstep x MOther {| papi := s'; pworkers := setw (pworkers x) i (Some (k r, after_failure v)) |}
| p_stale i R (c : call R) k v r : pworkers x i = Some (Vis c k, v) ->
    writes c = false -> answer_named (Ev c r) ->
    pstep x MStale {| papi := papi x; pworkers := setw (pworkers x) i (Some (k r, Misled)) |}
| p_done i a v : pworkers x i = Some (Ret a, v) ->
    pstep x (match v with Clean => MDone i | _ => MOther end)
      {| papi := papi x; pworkers := setw (pworkers x) i None |}
| p_crash i : pstep x MOther {| papi := papi x; pworkers := setw (pworkers x) i None |}
| p_prune n s' : prunes claimAt n (papi x) s' ->
    pstep x (MPrune n) {| papi := s'; pworkers := pworkers x |}
| p_elsewhere s' : elsewhere (papi x) s' ->
    pstep x MOther {| papi := s'; pworkers := pworkers x |}.

Fixpoint psteps (x : psys) (tr : list mark) (x' : psys) : Prop :=
  match tr with
  | [] => x' = x
  | m :: tr => exists x1, pstep x m x1 /\ psteps x1 tr x'
  end.

(** A run of a worker, from its beginning to a clean end. *)
Definition round (i : wid) (tr : list mark) : Prop :=
  exists a b c, tr = a ++ MStart i :: b ++ MDone i :: c.

(** ** What every step keeps *)

(** What is gone stays away, what is being deleted stays so. *)
Definition tame (s s' : state) : Prop :=
  (forall n, n ∈ N -> cview s' n = cview s n \/ cview s' n = None) /\
  (tview s' T = tview s T \/ tview s' T = None) /\
  (forall m v, cview s' m = Some (T, v) -> m ∈ N).

Lemma tame_tearingDown s s' : tame s s' -> tearingDown s -> tearingDown s'.
Proof.
  intros (H1 & H2 & H3) (D1 & D2 & D3). split_and!; [|intros n Hn|done].
  - unfold dyingTenant in *. destruct H2 as [-> | ->]; auto.
  - unfold dyingClaim in *. destruct (H1 n Hn) as [-> | ->]; auto.
Qed.

Lemma tearingDown_going i s : tearingDown s -> teamWid i -> going claimAt i s.
Proof. intros (D1 & D2 & _) Hi. destruct i as [n|n]; cbn in *; [by subst n|auto]. Qed.

Lemma does_tame i s s' : tearingDown s -> teamWid i -> does i s s' -> tame s s'.
Proof.
  intros (_ & _ & D3) Hi. destruct i as [n|n]; cbn in Hi; [subst n|].
  - intros (H1 & _ & H3). split_and!; [|done|].
    + intros n _. left. apply H1.
    + intros m v. destruct (H1 m) as [-> _]. apply D3.
  - intros (H1 & H2 & H3). split_and!; [|left; apply H2|].
    + intros m _. destruct (decide (m = n)) as [->|Hm]; [done|]. left. by apply H1.
    + intros m v. destruct (decide (m = n)) as [->|Hm].
      * destruct H3 as [-> | ->]; [apply D3|done].
      * destruct (H1 m Hm) as [-> _]. apply D3.
Qed.

Lemma does_bears i j s s' : i <> j -> does i s s' -> bears j s s'.
Proof.
  intros Hne. destruct i as [n|n], j as [m|m]; cbn.
  - intros (H1 & H2 & _). split; [apply H2; congruence|]. intros k v.
    destruct (H1 k) as [-> _]. eauto.
  - intros (H1 & _). destruct (H1 m) as [? ?]. auto.
  - intros (H1 & H2 & H3). split; [apply H2|]. intros k v.
    destruct (decide (k = n)) as [->|Hk]; [destruct H3 as [-> | ->]; eauto; done|].
    destruct (H1 k Hk) as [-> _]. eauto.
  - intros (H1 & _). destruct (H1 m) as [? ?]; [congruence|]. auto.
Qed.

Lemma prunes_effect n s s' : tearingDown s -> prunes claimAt n s s' ->
  tame s s' /\ forall i, bears i s s'.
Proof.
  intros Hd Hp. unfold prunes in Hp.
  assert (Hcases : unchanged claimAt s s' \/ exists u, aview s n = Some (u, true) /\
    aview s' n = None /\ keeps claimAt NApplication n s s').
  { destruct (aview s n) as [[u []]|]; eauto. }
  destruct Hcases as [Hu|(u & Ha & Ha' & K1 & K2 & K3)].
  - split; [|intros i; by apply unchanged_bears].
    destruct Hd as (_ & _ & D3). split_and!; [intros m _|left; apply Hu|intros m v];
      destruct (Hu m) as (-> & _); auto. apply D3.
  - assert (Hc : forall m, cview s' m = cview s m) by (intros m; apply K1; by intros [? _]).
    assert (Ht : forall m, tview s' m = tview s m) by (intros m; apply K2; by intros [? _]).
    assert (Hb : forall m, aview s' m = aview s m \/
      aview s' m = None /\ exists u, aview s m = Some (u, true)).
    { intros m. destruct (decide (m = n)) as [->|Hm]; [by right; eauto|left].
      apply K3. by intros [_ ?]. }
    split; [|intros [m|m]; split; [done| |done|done]; intros k v; rewrite Hc; eauto].
    destruct Hd as (_ & _ & D3). split_and!; [by left|by left|]. intros m v. rewrite Hc. apply D3.
Qed.

Lemma elsewhere_effect s s' : elsewhere s s' ->
  tame s s' /\ forall i, teamWid i -> bears i s s'.
Proof.
  intros (H1 & H2 & H3). split.
  - split_and!; [|by left|done]. intros n Hn. left. by apply H2.
  - intros [n|n] Hn; cbn in *; [subst n|destruct (H2 n Hn); auto]. split; [done|].
    intros m v Hv. destruct (H2 m (H3 _ _ Hv)) as [Hc _]. exists v. by rewrite <- Hc.
Qed.

(** A worker that was not misled does what its run is good for. *)
Definition watched (i : wid) (Q : state -> Prop) (x : psys) : Prop :=
  forall w v, pworkers x i = Some (w, v) -> v <> Misled ->
    good i (fun s => v = Clean -> Q s) w (papi x).

(** The team is being torn down, only its workers run, and each asks for no more
    than it may and, if it was not misled, does what its run is good for. *)
Definition sound (x : psys) : Prop :=
  tearingDown (papi x) /\
  (forall i w v, pworkers x i = Some (w, v) -> teamWid i /\ modest i w) /\
  forall i, watched i (fun _ => True) x.

Lemma setw_eq f i w : setw f i w i = w.
Proof. unfold setw. by rewrite decide_True. Qed.

Lemma setw_ne f i w j : j <> i -> setw f i w j = f j.
Proof. intros Hj. unfold setw. by rewrite decide_False. Qed.

(** Another worker's step, or the world's. *)
Lemma watched_bears i Q x s' f : watched i Q x -> f i = pworkers x i -> bears i (papi x) s' ->
  watched i Q {| papi := s'; pworkers := f |}.
Proof.
  intros Hw Hf Hb w v Hi Hv. cbn in *. rewrite Hf in Hi.
  eapply good_bears; [exact Hb|by apply Hw].
Qed.

Lemma watched_none i Q s f : f i = None -> watched i Q {| papi := s; pworkers := f |}.
Proof. intros Hf w v. cbn. by rewrite Hf. Qed.

(** A worker's call: what it does, misled or not. *)
Lemma call_does x i R (c : call R) k v r s' : sound x -> pworkers x i = Some (Vis c k, v) ->
  clean (papi x) c r -> serve _ c (papi x) r s' -> does i (papi x) s'.
Proof.
  intros (Hd & Hw & _) Hi Hc Hs. destruct (Hw _ _ _ Hi) as [Ht [Ha _]].
  apply (asks_does claimAt i R c _ r); [done| |done|done]. by apply tearingDown_going.
Qed.

Lemma fault_does x i R (c : call R) k v s' : sound x -> pworkers x i = Some (Vis c k, v) ->
  fault claimAt c (papi x) s' -> does i (papi x) s'.
Proof.
  intros Hw Hi [Hu|(r & Hc & Hs)]; [by apply unchanged_does|by eapply call_does].
Qed.

Lemma failed_named R (c : call R) r : failed c r -> answer_named (Ev c r).
Proof. destruct c; try done; cbn; try (by intros (e & -> & _)); by intros (e & ->). Qed.

(** A step is one of the object of a worker, or nothing that it does not bear. *)
Lemma pstep_watched i Q x m x' : sound x -> good i Q (handlerOf rt rs i) (papi x) ->
  watched i Q x -> pstep x m x' -> watched i Q x'.
Proof.
  intros Hs Hg Hw Hstep. pose proof Hs as (Hd & Ht & _).
  destruct Hstep as [j Hj Hn|j R c k b r s' Hj Hcl Hc|j R c k b r s' Hj Hf Hc|j R c k b r Hj Hr Hc
    |j a b Hj|j|n s' Hp|s' He].
  - destruct (decide (i = j)) as [<-|Hne].
    + intros w b. cbn. rewrite setw_eq. intros [= <- <-] _. eapply good_mono; [|exact Hg]. auto.
    + apply (watched_bears _ _ x); [done|by apply setw_ne|done].
  - destruct (decide (i = j)) as [<-|Hne].
    + intros w b'. cbn. rewrite setw_eq. intros [= <- <-] Hb.
      destruct (Hw _ _ Hj Hb (papi x) (reflexivity _)) as [Hk _]. by apply (Hk r s').
    + apply (watched_bears _ _ x); [done|by apply setw_ne|].
      apply (does_bears j); [done|]. by eapply call_does.
  - destruct (decide (i = j)) as [<-|Hne].
    + intros w b'. cbn. rewrite setw_eq. intros [= <- <-] Hb.
      assert (Hb' : b <> Misled) by (by destruct b).
      destruct (Hw _ _ Hj Hb' (papi x) (reflexivity _)) as [_ Hk].
      eapply good_mono; [|by apply (Hk r s')]. intros s _ E. by destruct b.
    + apply (watched_bears _ _ x); [done|by apply setw_ne|].
      apply (does_bears j); [done|]. by eapply fault_does.
  - destruct (decide (i = j)) as [<-|Hne].
    + intros w b'. cbn. rewrite setw_eq. by intros [= <- <-].
    + apply (watched_bears _ _ x); [done|by apply setw_ne|done].
  - destruct (decide (i = j)) as [<-|Hne]; [apply watched_none, setw_eq|].
    apply (watched_bears _ _ x); [done|by apply setw_ne|done].
  - destruct (decide (i = j)) as [<-|Hne]; [apply watched_none, setw_eq|].
    apply (watched_bears _ _ x); [done|by apply setw_ne|done].
  - apply (watched_bears _ _ x); [done|done|]. by apply (prunes_effect n).
  - destruct (pworkers x i) as [[w v]|] eqn:Hi; [|by apply watched_none].
    apply (watched_bears _ _ x); [done|done|]. apply elsewhere_effect in He as [_ He].
    apply He. by destruct (Ht _ _ _ Hi).
Qed.

Context (T_named : T <> "").

Lemma start_good i s : tearingDown s -> teamWid i -> good i (fun _ => True) (handlerOf rt rs i) s.
Proof.
  intros (D1 & D2 & _) Hi. destruct i as [n|n]; cbn in Hi.
  - subst n. eapply good_mono; [|by apply tenant_good]. done.
  - eapply good_mono; [|apply (claim_good claimAt rt rs n (level s n)); auto]. done.
Qed.

Lemma pstep_tame x m x' : sound x -> pstep x m x' -> tame (papi x) (papi x').
Proof.
  intros Hs Hstep. pose proof Hs as (Hd & Ht & _).
  assert (Hsame : tame (papi x) (papi x))
    by (destruct Hd as (_ & _ & D3); split_and!; [by left|by left|exact D3]).
  destruct Hstep as [j Hj Hn|j R c k b r s' Hj Hcl Hc|j R c k b r s' Hj Hf Hc|j R c k b r Hj Hr Hc
    |j a b Hj|j|n s' Hp|s' He]; try exact Hsame; cbn.
  - eapply does_tame; [done|by destruct (Ht _ _ _ Hj)|by eapply call_does].
  - eapply does_tame; [done|by destruct (Ht _ _ _ Hj)|by eapply fault_does].
  - by apply (prunes_effect n).
  - by apply elsewhere_effect.
Qed.

(** The workers after a step: they are the team's, and ask for no more. *)
Lemma pstep_modest x m x' : sound x -> pstep x m x' ->
  forall i w v, pworkers x' i = Some (w, v) -> teamWid i /\ modest i w.
Proof.
  intros (_ & Ht & _) Hstep i w v Hi.
  destruct Hstep as [j Hj Hn|j R c k b r s' Hj Hcl Hc|j R c k b r s' Hj Hf Hc|j R c k b r Hj Hr Hc
    |j a b Hj|j|n s' Hp|s' He]; cbn in Hi; try (by eapply Ht);
    (destruct (decide (i = j)) as [->|Hne]; [rewrite setw_eq in Hi|rewrite setw_ne in Hi by done; by eapply Ht]);
    try discriminate Hi; injection Hi as <- _.
  - split; [done|apply handler_modest].
  - destruct (Ht _ _ _ Hj) as [? [_ Hm]]. split; [done|].
    by eapply Hm, (effect_named claimAt).
  - destruct (Ht _ _ _ Hj) as [? [_ Hm]]. split; [done|]. by apply Hm, failed_named.
  - destruct (Ht _ _ _ Hj) as [? [_ Hm]]. split; [done|]. by apply Hm.
Qed.

Lemma pstep_sound x m x' : sound x -> pstep x m x' -> sound x'.
Proof.
  intros Hs Hstep. pose proof Hs as (Hd & _ & Hw). pose proof (pstep_modest _ _ _ Hs Hstep) as Ht'.
  split_and!; [|done|].
  - eapply tame_tearingDown; [by eapply pstep_tame|done].
  - intros i w v Hi. eapply (pstep_watched i); [done| |apply Hw|exact Hstep|done].
    apply start_good; [done|]. by destruct (Ht' _ _ _ Hi).
Qed.

(** ** Levels *)

Definition level_le (n : string) (l : nat) (s : state) : Prop := level s n <= l.

(** The claim's worker, if it runs, was not misled. *)
Definition told (n : string) (x : psys) : Prop :=
  forall w v, pworkers x (WClaim n) = Some (w, v) -> v <> Misled.

Definition held_at (n : string) (l : nat) (x : psys) : Prop := level_le n l (papi x) /\ told n x.

Lemma bears_le n l s s' : bears (WClaim n) s s' -> level_le n l s -> level_le n l s'.
Proof. intros Hb%bears_level. unfold level_le. lia. Qed.

(** A call of a worker that was not misled. *)
Lemma call_lowers n l x R (c : call R) k v r s' : sound x -> told n x ->
  pworkers x (WClaim n) = Some (Vis c k, v) -> clean (papi x) c r -> serve _ c (papi x) r s' ->
  level_le n l (papi x) -> level_le n l s'.
Proof.
  intros (_ & _ & Hw) Ht Hi Hc Hs Hl.
  destruct (Hw _ _ _ Hi (Ht _ _ Hi) (papi x) (reflexivity _)) as [Hk _].
  destruct (Hk r s' Hc Hs) as [Hlow _]. unfold lowers, level_le in *. lia.
Qed.

(** While no read is out of date, no step raises the level of a claim whose worker
    was not misled. *)
Lemma pstep_held n l x m x' : n ∈ N -> sound x -> m <> MStale -> held_at n l x -> pstep x m x' ->
  held_at n l x'.
Proof.
  intros Hn Hs Hm [Hl Ht] Hstep. pose proof Hs as (Hd & _ & _). split.
  - destruct Hstep as [j Hj Hj'|j R c k b r s' Hj Hcl Hc|j R c k b r s' Hj Hf Hc|j R c k b r Hj Hr Hc
      |j a b Hj|j|k s' Hp|s' He]; cbn; try done.
    + destruct (decide (j = WClaim n)) as [->|Hne]; [by eapply call_lowers|].
      eapply bears_le; [eapply does_bears; [exact Hne|by eapply call_does]|done].
    + destruct (decide (j = WClaim n)) as [->|Hne].
      * destruct Hc as [Hu|(r' & Hcl & Hc)]; [|by eapply call_lowers].
        unfold level_le in *. by rewrite (unchanged_level _ _ _ _ Hu).
      * eapply bears_le; [eapply does_bears; [exact Hne|by eapply fault_does]|done].
    + eapply bears_le; [|done]. by apply (prunes_effect k).
    + eapply bears_le; [|done]. by apply elsewhere_effect.
  - intros w v Hi.
    destruct Hstep as [j Hj Hj'|j R c k b r s' Hj Hcl Hc|j R c k b r s' Hj Hf Hc|j R c k b r Hj Hr Hc
      |j a b Hj|j|k s' Hp|s' He]; cbn in Hi; try done; try (by eapply Ht);
      (destruct (decide (WClaim n = j)) as [<-|Hne];
        [rewrite setw_eq in Hi|rewrite setw_ne in Hi by done; by eapply Ht]);
      try discriminate Hi; injection Hi as _ <-; try done.
    + by eapply Ht.
    + pose proof (Ht _ _ Hj). by destruct b.
Qed.

(** ** What a round achieves *)

Definition current (tr : list mark) : Prop := Forall (fun m => m <> MStale) tr.

Lemma current_app tr us : current (tr ++ us) <-> current tr /\ current us.
Proof. apply Forall_app. Qed.

(** Something kept by the steps that are not out of date is kept by the runs. *)
Lemma psteps_keep (P : psys -> Prop) x tr x' :
  (forall x m x', sound x -> m <> MStale -> P x -> pstep x m x' -> P x') ->
  sound x -> P x -> current tr -> psteps x tr x' -> sound x' /\ P x'.
Proof.
  intros HP. revert x. induction tr as [|m tr IH]; intros x Hs Hx Hcur; cbn; [by intros ->|].
  apply Forall_cons in Hcur as [Hm Hcur]. intros (x1 & H1 & H2).
  apply (IH x1); [by eapply pstep_sound|by eapply HP|done|done].
Qed.

Lemma psteps_sound x tr x' : sound x -> psteps x tr x' -> sound x'.
Proof.
  revert x. induction tr as [|m tr IH]; intros x Hs; cbn; [by intros ->|].
  intros (x1 & H1 & H2). apply (IH x1); [by eapply pstep_sound|done].
Qed.

Lemma psteps_split tr us x x' : psteps x (tr ++ us) x' <->
  exists x1, psteps x tr x1 /\ psteps x1 us x'.
Proof.
  revert x. induction tr as [|m tr IH]; intros x; cbn.
  - split; [eauto|]. by intros (x1 & -> & ?).
  - setoid_rewrite IH. naive_solver.
Qed.

Section achieves.
Context (i : wid) (B C : psys -> Prop) (Q : state -> Prop).
Context (B_kept : forall x m x', sound x -> m <> MStale -> B x -> pstep x m x' -> B x').
Context (B_C : forall x x', sound x -> B x -> pstep x (MStart i) x' -> C x').
Context (C_kept : forall x m x', sound x -> m <> MStale -> C x -> pstep x m x' -> C x').
Context (Q_kept : forall x m x', sound x -> m <> MStale -> C x -> Q (papi x) -> pstep x m x' -> Q (papi x')).
Context (B_good : forall x, sound x -> B x -> good i Q (handlerOf rt rs i) (papi x)).
Context (C_good : forall x, sound x -> C x -> good i Q (handlerOf rt rs i) (papi x)).

(** Achieved, or under way without failures so far. *)
Definition underway (x : psys) : Prop := C x /\ (Q (papi x) \/ watched i Q x).

Lemma pstep_underway x m x' : sound x -> m <> MStale -> underway x -> pstep x m x' -> underway x'.
Proof.
  intros Hs Hm [Hc [HQ|Hw]] Hstep; (split; [by eapply C_kept|]).
  - left. by eapply Q_kept.
  - right. eapply pstep_watched; [done| |done|done]. by apply C_good.
Qed.

(** [B] holds until the run begins, [C] from then on; at its end, [Q]. *)
Lemma round_achieves x tr x' : sound x -> B x -> current tr -> round i tr -> psteps x tr x' ->
  Q (papi x') /\ sound x' /\ C x'.
Proof.
  intros Hs Hb Hcur (a & b & c & ->) (x1 & H1 & x2 & Hst & H2)%psteps_split.
  apply current_app in Hcur as [Ca Hcur]. apply Forall_cons in Hcur as [_ Hcur].
  apply current_app in Hcur as [Cb Hcur]. apply Forall_cons in Hcur as [_ Cc].
  destruct (psteps_keep B x a x1) as (Hs1 & Hb1); [exact B_kept|done..|].
  assert (Hu : underway x2).
  { split; [by apply (B_C x1)|]. right.
    inversion Hst as [j Ht Hn E| | | |j w v Hw| | |]; subst; [|by destruct v].
    intros w v. cbn. rewrite setw_eq.
    intros [= <- <-] _. eapply good_mono; [|by apply B_good]. auto. }
  assert (Hs2 : sound x2) by exact (pstep_sound _ _ _ Hs1 Hst).
  apply psteps_split in H2 as (x3 & H3 & x4 & Hdn & H4).
  destruct (psteps_keep underway x2 b x3) as (Hs3 & Hc3 & Hu3); [exact pstep_underway|done..|].
  assert (HQ : Q (papi x4)).
  { inversion Hdn as [| | | |j out v Hj E| | |]; subst. destruct v; try discriminate E.
    injection E as ->. cbn. destruct Hu3 as [?|Hw]; [done|].
    by apply (Hw _ _ Hj ltac:(done) (papi x3) (reflexivity _)). }
  assert (Hs4 : sound x4) by exact (pstep_sound _ _ _ Hs3 Hdn).
  assert (Hc4 : C x4) by exact (C_kept x3 (MDone i) x4 Hs3 ltac:(done) Hc3 Hdn).
  destruct (psteps_keep (fun x => C x /\ Q (papi x)) x4 c x') as (? & ? & ?); [|done..].
  intros y m y' Hy Hm [HCy HQy] Hy'. split; [by eapply C_kept|by eapply Q_kept].
Qed.
End achieves.

(** ** Fair schedules *)

Lemma level_le_three n s : level_le n 3 s.
Proof.
  unfold level_le, SystemTeardown.level. destruct (SystemTeardown.cview _ _ _); [|lia].
  destruct (aview _ _) as [[? []]|]; lia.
Qed.

(** A worker that has just started has not been misled. *)
Lemma started_told n x x' : pstep x (MStart (WClaim n)) x' -> told n x'.
Proof.
  intros Hst. inversion Hst as [j Ht Hn E| | | |j w v Hw| | |]; subst; [|by destruct v].
  intros w v. cbn. rewrite setw_eq. by intros [= _ <-].
Qed.

Lemma level_good n l s : n ∈ N -> tearingDown s -> level_le n l s ->
  good (WClaim n) (level_le n (brings l)) (handlerOf rt rs (WClaim n)) s.
Proof. intros Hn (_ & D2 & _) Hl. apply claim_good; auto. Qed.

Lemma level_kept n l l' x m x' : n ∈ N -> sound x -> m <> MStale -> held_at n l x ->
  level_le n l' (papi x) -> pstep x m x' -> level_le n l' (papi x').
Proof.
  intros Hn Hs Hm [_ Ht] Hl Hstep.
  by destruct (pstep_held n l' x m x') as [H _].
Qed.

(** The first round of a claim, whatever its worker was doing before. *)
Lemma claim_first_round n x tr x' : n ∈ N -> sound x -> current tr ->
  round (WClaim n) tr -> psteps x tr x' -> held_at n 2 x' /\ sound x'.
Proof.
  intros Hn Hs Hcur Hr Hx.
  destruct (round_achieves (WClaim n) (fun _ => True) (held_at n 3) (level_le n 2)) with x tr x'
    as (? & ? & ?); try done.
  - intros y y' Hy _ Hst. split; [apply level_le_three|by eapply started_told].
  - intros y m y' Hy Hm Hc Hst. by eapply pstep_held.
  - intros y m y' Hy Hm Hc Hq Hst. by eapply level_kept.
  - intros y Hy _. apply (level_good n 3); [done|apply Hy|apply level_le_three].
  - intros y Hy _. apply (level_good n 3); [done|apply Hy|apply level_le_three].
  - split; [split; [done|apply H1]|done].
Qed.

(** The last one, the Application being gone. *)
Lemma claim_last_round n x tr x' : n ∈ N -> sound x -> held_at n 1 x -> current tr ->
  round (WClaim n) tr -> psteps x tr x' -> level_le n 0 (papi x').
Proof.
  intros Hn Hs Hl Hcur Hr Hx.
  destruct (round_achieves (WClaim n) (held_at n 1) (held_at n 1) (level_le n 0)) with x tr x'
    as (? & ? & ?); try done.
  - intros y m y' Hy Hm Hc Hst. by eapply pstep_held.
  - intros y y' Hy Hc Hst. by apply (pstep_held n 1 y (MStart (WClaim n))).
  - intros y m y' Hy Hm Hc Hst. by eapply pstep_held.
  - intros y m y' Hy Hm Hc Hq Hst. by eapply level_kept.
  - intros y Hy [Hc _]. apply (level_good n 1); [done|apply Hy|done].
  - intros y Hy [Hc _]. apply (level_good n 1); [done|apply Hy|done].
Qed.

Lemma prune_lowers n x tr x' : n ∈ N -> sound x -> held_at n 2 x -> current tr -> MPrune n ∈ tr ->
  psteps x tr x' -> held_at n 1 x' /\ sound x'.
Proof.
  intros Hn Hs Hl Hcur (a & b & ->)%list_elem_of_split (x1 & H1 & x2 & Hp & H2)%psteps_split.
  apply current_app in Hcur as [Ca [_ Cb]%Forall_cons].
  destruct (psteps_keep (held_at n 2) x a x1) as [Hs1 Hl1]; [by intros; eapply pstep_held|done..|].
  assert (Hs2 : sound x2) by exact (pstep_sound _ _ _ Hs1 Hp).
  assert (Hl2 : held_at n 2 x2) by (by apply (pstep_held n 2 x1 (MPrune n))).
  enough (Hd : level_le n 1 (papi x2)).
  { destruct (psteps_keep (held_at n 1) x2 b x') as [? ?]; [by intros; eapply pstep_held|done| |done|done|done].
    split; [done|apply Hl2]. }
  destruct Hl1 as [Hl1 _].
  inversion Hp as [| | | |? ? v| |m s' Hpr|]; subst; [by destruct v|]. cbn.
  unfold level_le, SystemTeardown.level, prunes in *.
  destruct (aview (papi x1) n) as [[u []]|] eqn:Ha.
  - destruct Hpr as [-> _]. destruct (SystemTeardown.cview claimAt s' n); lia.
  - destruct (Hpr n) as (-> & _ & ->). rewrite Ha in *. revert Hl1.
    destruct (SystemTeardown.cview claimAt (papi x1) n); lia.
  - destruct (Hpr n) as (-> & _ & ->). rewrite Ha in *. revert Hl1.
    destruct (SystemTeardown.cview claimAt (papi x1) n); lia.
Qed.

(** What a claim needs: a clean reconcile, a prune of its Application, and another
    clean reconcile, each begun after the last ended. *)
Definition served (n : string) (tr : list mark) : Prop :=
  exists t1 t2 t3, tr = t1 ++ t2 ++ t3 /\
    round (WClaim n) t1 /\ MPrune n ∈ t2 /\ round (WClaim n) t3.

(** The cache has caught up, so that no read is out of date; every claim is served,
    and then the Tenant has a clean reconcile. *)
Definition fair (tr : list mark) : Prop :=
  current tr /\
  exists t1 t2, tr = t1 ++ t2 /\ (forall n, n ∈ N -> served n t1) /\ round (WTenant T) t2.

Lemma served_level n x tr x' : n ∈ N -> sound x -> current tr -> served n tr -> psteps x tr x' ->
  level_le n 0 (papi x').
Proof.
  intros Hn Hs Hcur (t1 & t2 & t3 & -> & Hr1 & Hp & Hr3)
    (x1 & H1 & (x2 & H2 & H3)%psteps_split)%psteps_split.
  apply current_app in Hcur as [C1 [C2 C3]%current_app].
  destruct (claim_first_round n x t1 x1) as [Hl1 Hs1]; [done..|].
  destruct (prune_lowers n x1 t2 x2) as [Hl2 Hs2]; [done..|].
  by apply (claim_last_round n x2 t3 x').
Qed.

Lemma level_zero s n : level s n = 0 -> cview s n = None.
Proof. unfold SystemTeardown.level. destruct (SystemTeardown.cview _ _ _); [|done].
  by destruct (aview s n) as [[? []]|]. Qed.

(** The Tenant and every claim of the team are gone. *)
Definition gone (s : state) : Prop := tview s T = None /\ noClaims claimAt T s.

Lemma fair_gone x tr x' : sound x -> fair tr -> psteps x tr x' -> gone (papi x').
Proof.
  intros Hs (Hcur & t1 & t2 & -> & Hserved & Hr) (x1 & H1 & H2)%psteps_split.
  apply current_app in Hcur as [C1 C2].
  pose proof (psteps_sound _ _ _ Hs H1) as Hs1.
  assert (Hno : noClaims claimAt T (papi x1)).
  { intros m v Hv. pose proof Hs1 as ((_ & _ & D3) & _). pose proof (D3 _ _ Hv) as Hm.
    pose proof (served_level m x t1 x1 Hm Hs C1 (Hserved m Hm) H1) as Hl.
    unfold level_le in Hl. rewrite level_zero in Hv; [done|lia]. }
  assert (Htame : forall y m y', sound y -> m <> MStale -> noClaims claimAt T (papi y) ->
    pstep y m y' -> noClaims claimAt T (papi y')).
  { intros y m y' Hy _ Hns Hst. pose proof (pstep_tame _ _ _ Hy Hst) as (Ht & _ & D3).
    intros k v Hv. destruct (Ht k (D3 _ _ Hv)) as [Hc|Hc]; [|congruence].
    rewrite Hc in Hv. by apply (Hns k v). }
  assert (Hgood : forall y, sound y -> noClaims claimAt T (papi y) ->
    good (WTenant T) (fun s => tview s T = None) (handlerOf rt rs (WTenant T)) (papi y)).
  { intros y ((D1 & _) & _) Hns. eapply good_mono; [|by apply tenant_good]. cbn. auto. }
  destruct (round_achieves (WTenant T) (fun y => noClaims claimAt T (papi y))
    (fun y => noClaims claimAt T (papi y)) (fun s => tview s T = None)) with x1 t2 x'
    as (HQ & _ & HC); try done.
  - intros y y' Hy Hns Hst. by apply (Htame y (MStart (WTenant T))).
  - intros y m y' Hy _ _ HQ Hst. pose proof (pstep_tame _ _ _ Hy Hst) as (_ & [-> | ->] & _); done.
Qed.

(** ** Fair schedules exist *)

Lemma round_app i a tr b : round i tr -> round i (a ++ tr ++ b).
Proof.
  intros (x & y & z & ->). exists (a ++ x), y, (z ++ b).
  by rewrite <- !app_assoc, <- !app_comm_cons, <- !app_assoc.
Qed.

Lemma served_app n a tr b : served n tr -> served n (a ++ tr ++ b).
Proof.
  intros (t1 & t2 & t3 & -> & H1 & H2 & H3). exists (a ++ t1), t2, (t3 ++ b). split_and!.
  - by rewrite !app_assoc.
  - by rewrite <- (app_nil_r t1); apply round_app.
  - done.
  - by apply (round_app _ []).
Qed.

Lemma executes_psteps x i w v a s' : pworkers x i = Some (w, v) -> executes w (papi x) a s' ->
  exists k x', psteps x (replicate k MOther) x' /\ papi x' = s' /\
    pworkers x' i = Some (Ret a, v) /\ forall j, j <> i -> pworkers x' j = pworkers x j.
Proof.
  revert x. induction w as [y|R c k IH]; intros x Hx.
  - intros [-> ->]. by exists 0, x.
  - intros (r & s1 & Hc & Hs & He).
    destruct (IH r {| papi := s1; pworkers := setw (pworkers x) i (Some (k r, v)) |})
      as (j & x' & H1 & H2 & H3 & H4); [apply setw_eq|done|].
    exists (S j), x'. split_and!; [|done|done|].
    + eexists. split; [by eapply p_call|done].
    + intros l Hl. rewrite H4 by done. by apply setw_ne.
Qed.

Lemma current_quiet k : current (replicate k MOther).
Proof. by apply Forall_replicate. Qed.

(** Whatever the workers are doing, one of them can be restarted and run to a clean
    end. *)
Lemma round_exists x i : sound x -> teamWid i ->
  exists tr x', psteps x tr x' /\ current tr /\ round i tr.
Proof.
  intros Hs Hi. set (x1 := {| papi := papi x; pworkers := setw (pworkers x) i None |}).
  set (x2 := {| papi := papi x1; pworkers := setw (pworkers x1) i (Some (handlerOf rt rs i, Clean)) |}).
  destruct (handler_ends rt rs claimAt i (papi x)) as (a & s' & He);
    [apply tearingDown_going; [apply Hs|done]|].
  destruct (executes_psteps x2 i (handlerOf rt rs i) Clean a s') as (k & x3 & H3 & _ & Ha & _);
    [apply setw_eq|done|].
  exists (MOther :: MStart i :: replicate k MOther ++ [MDone i]). eexists. split_and!.
  - exists x1. split; [apply p_crash|]. exists x2. split; [apply p_start; [done|apply setw_eq]|].
    apply psteps_split. exists x3. split; [done|]. eexists. split; [|done].
    by apply (p_done _ i a Clean).
  - repeat constructor; try done. apply current_app. split; [apply current_quiet|by repeat constructor].
  - by exists [MOther], (replicate k MOther), [].
Qed.

Lemma served_exists x n : sound x -> n ∈ N ->
  exists tr x', psteps x tr x' /\ current tr /\ served n tr.
Proof.
  intros Hs Hn. destruct (round_exists x (WClaim n) Hs Hn) as (t1 & x1 & H1 & C1 & R1).
  destruct (can_prune claimAt n (papi x1)) as (s2 & Hp).
  set (x2 := {| papi := s2; pworkers := pworkers x1 |}).
  assert (Hst : pstep x1 (MPrune n) x2) by (by apply p_prune).
  assert (Hs2 : sound x2) by (eapply pstep_sound; [by eapply psteps_sound|exact Hst]).
  destruct (round_exists x2 (WClaim n) Hs2 Hn) as (t3 & x3 & H3 & C3 & R3).
  exists (t1 ++ [MPrune n] ++ t3), x3. split_and!.
  - apply psteps_split. exists x1. split; [done|]. eexists. split; [exact Hst|done].
  - apply current_app. split; [done|]. by constructor.
  - exists t1, [MPrune n], t3. split_and!; [done|done|by left|done].
Qed.

Lemma all_served_exists x (l : list string) : sound x -> (forall n, n ∈ l -> n ∈ N) ->
  exists tr x', psteps x tr x' /\ current tr /\ forall n, n ∈ l -> served n tr.
Proof.
  revert x. induction l as [|n l IH]; intros x Hs Hl.
  - exists [], x. split_and!; [done|constructor|]. by intros n ?%not_elem_of_nil.
  - destruct (served_exists x n Hs) as (t1 & x1 & H1 & C1 & S1); [apply Hl; by left|].
    destruct (IH x1) as (t2 & x2 & H2 & C2 & S2); [by eapply psteps_sound|intros m Hm; apply Hl; by right|].
    exists (t1 ++ t2), x2. split_and!; [apply psteps_split; eauto|by apply current_app|].
    intros m [->|Hm]%elem_of_cons.
    + by apply (served_app n [] t1 t2).
    + rewrite <- (app_nil_r t2). by apply served_app, S2.
Qed.

Lemma fair_exists x : sound x -> exists tr x', psteps x tr x' /\ fair tr.
Proof.
  intros Hs. destruct (all_served_exists x N Hs) as (t1 & x1 & H1 & C1 & S1); [done|].
  destruct (round_exists x1 (WTenant T)) as (t2 & x2 & H2 & C2 & R2); [by eapply psteps_sound|done|].
  exists (t1 ++ t2), x2. split; [apply psteps_split; eauto|].
  split; [by apply current_app|]. by exists t1, t2.
Qed.

Definition idle (x : psys) : Prop := forall i, pworkers x i = None.

Lemma idle_sound x : tearingDown (papi x) -> idle x -> sound x.
Proof.
  intros Hd Hi. split_and!; [done|intros i w v Hw; by rewrite Hi in Hw|].
  intros i w v Hw. by rewrite Hi in Hw.
Qed.

(** C3: the teardown of a team survives interleaving, stale reads, failures and
    crashes.  The Tenant and the claims of the team are being deleted, each held by
    the platform's finalizer alone, and there will be no other claim of the team.
    The workers run interleaved call by call; a read may be answered with anything
    of the name asked for, as by a cache that lags; any call may fail, before or
    after it had its effect; any worker may crash and start over; ArgoCD prunes what
    is being deleted; and everybody else changes whatever is neither the team nor
    the deletion and the finalizers of these objects nor their Applications.  Then
    at every moment a fair continuation is possible: one with no stale read any
    more, in which each claim gets a reconcile all of whose calls are answered
    cleanly, a prune of its Application and another such reconcile, and then the
    Tenant one; and every fair continuation leaves neither the Tenant nor a claim of
    the team, whatever else fails in it.  The Tenant, which waits for its claims,
    and the claims, which wait for their Applications, do not deadlock. *)
Theorem teardown_survives_failures x0 pre x :
  tearingDown (papi x0) -> idle x0 -> psteps x0 pre x ->
  (exists tr x', psteps x tr x' /\ fair tr) /\
  forall tr x', psteps x tr x' -> fair tr -> gone (papi x').
Proof.
  intros Hd Hi Hpre. assert (Hs : sound x) by (eapply psteps_sound; [by apply idle_sound|done]).
  split; [by apply fair_exists|]. intros tr x' Hx Hf. by eapply fair_gone.
Qed.

(** ** Whole reconciles in turn

    The schedules in which nothing is interleaved and nothing fails. *)

Inductive turn := TurnClaim (n : string) | TurnTenant (n : string) | TurnArgo (n : string).

Definition taken (t : turn) (s s' : state) : Prop :=
  match t with
  | TurnClaim n => exists a, executes (handlerOf rt rs (WClaim n)) s a s'
  | TurnTenant n => exists a, executes (handlerOf rt rs (WTenant n)) s a s'
  | TurnArgo n => prunes claimAt n s s'
  end.

Fixpoint played (ts : list turn) (s s' : state) : Prop :=
  match ts with
  | [] => s' = s
  | t :: ts => exists s1, taken t s s1 /\ played ts s1 s'
  end.

(** The turns of the team's objects, and of ArgoCD. *)
Definition teamTurn (t : turn) : Prop :=
  match t with TurnClaim n => n ∈ N | TurnTenant n => n = T | TurnArgo _ => True end.

Definition shows (t : turn) (tr : list mark) : Prop :=
  match t with
  | TurnClaim n => round (WClaim n) tr
  | TurnTenant n => round (WTenant n) tr
  | TurnArgo n => MPrune n ∈ tr
  end.

Lemma run_psteps x i a s' : idle x -> teamWid i -> executes (handlerOf rt rs i) (papi x) a s' ->
  exists tr x', psteps x tr x' /\ papi x' = s' /\ idle x' /\ current tr /\ round i tr.
Proof.
  intros Hi Ht He.
  set (x1 := {| papi := papi x; pworkers := setw (pworkers x) i (Some (handlerOf rt rs i, Clean)) |}).
  destruct (executes_psteps x1 i (handlerOf rt rs i) Clean a s') as (k & x2 & H2 & Hp & Ha & Hj);
    [apply setw_eq|done|].
  exists (MStart i :: replicate k MOther ++ [MDone i]),
    {| papi := papi x2; pworkers := setw (pworkers x2) i None |}. split_and!.
  - exists x1. split; [by apply p_start|]. apply psteps_split. exists x2. split; [done|].
    eexists. split; [by apply (p_done _ i a Clean)|done].
  - done.
  - intros j. cbn. destruct (decide (j = i)) as [->|Hne]; [apply setw_eq|].
    rewrite setw_ne, Hj by done. unfold x1. cbn. rewrite setw_ne by done. apply Hi.
  - constructor; [done|]. apply current_app. split; [apply current_quiet|by repeat constructor].
  - by exists [], (replicate k MOther), [].
Qed.

Lemma taken_psteps x t s1 : idle x -> teamTurn t -> taken t (papi x) s1 ->
  exists tr x1, psteps x tr x1 /\ papi x1 = s1 /\ idle x1 /\ current tr /\ shows t tr.
Proof.
  intros Hi Ht H1. destruct t as [n|n|n].
  - destruct H1 as [a H1]. by eapply run_psteps.
  - destruct H1 as [a H1]. by eapply run_psteps.
  - exists [MPrune n], {| papi := s1; pworkers := pworkers x |}.
    split_and!; [|done|done|by repeat constructor|by left].
    eexists. split; [by apply p_prune|done].
Qed.

Lemma played_psteps ts x s' : idle x -> Forall teamTurn ts -> played ts (papi x) s' ->
  exists trs x', psteps x (concat trs) x' /\ papi x' = s' /\ idle x' /\ current (concat trs) /\
    Forall2 shows ts trs.
Proof.
  revert x. induction ts as [|t ts IH]; intros x Hi Hts; cbn.
  - intros ->. exists [], x. by split_and!; [..|constructor|].
  - apply Forall_cons in Hts as [Ht Hts]. intros (s1 & H1 & H2).
    destruct (taken_psteps x t s1 Hi Ht H1) as (tr & x1 & Hx & <- & Hi1 & Hc & Hsh).
    destruct (IH x1 Hi1 Hts H2) as (trs & x' & Hxs & Hp & Hi' & Hcs & Hall).
    exists (tr :: trs), x'. split_and!; [|done|done|by apply current_app|by constructor].
    cbn. apply psteps_split. eauto.
Qed.

(** A turn can be taken while the team is being torn down, which it still is
    then. *)
Lemma taken_exists t s : tearingDown s -> teamTurn t -> exists s1, taken t s s1 /\ tearingDown s1.
Proof.
  intros Hd Ht. set (x := {| papi := s; pworkers := fun _ => None |}).
  assert (exists s1, taken t s s1) as (s1 & H1).
  { destruct t as [n|n|n]; unfold taken; [| |apply can_prune; exact PL];
      match goal with |- exists s1 a, SystemRequests.executes _ (handlerOf _ _ ?i) _ _ _ =>
        destruct (handler_ends rt rs claimAt i s) as (a & s1 & He);
          [by apply tearingDown_going|by exists s1, a] end. }
  exists s1. split; [done|]. destruct (taken_psteps x t s1) as (tr & x1 & Hx & <- & _); [done..|].
  eapply psteps_sound; [|exact Hx]. by apply idle_sound.
Qed.

Lemma played_exists ts s : tearingDown s -> Forall teamTurn ts -> exists s', played ts s s'.
Proof.
  revert s. induction ts as [|t ts IH]; intros s Hd Hts; cbn; [eauto|].
  apply Forall_cons in Hts as [Ht Hts].
  destruct (taken_exists t s Hd Ht) as (s1 & H1 & Hd1). destruct (IH s1 Hd1 Hts) as (s' & H2). eauto.
Qed.

Lemma shows_served n ts trs : Forall2 shows ts trs ->
  [TurnClaim n; TurnArgo n; TurnClaim n] `sublist_of` ts -> served n (concat trs).
Proof.
  intros Hall (a & ts1 & -> & (b & ts2 & -> & (c & d & -> & _)%sublist_cons_l)%sublist_cons_l)%sublist_cons_l.
  apply Forall2_app_inv_l in Hall as (ta & r1 & _ & Hall & ->).
  apply Forall2_cons_inv_l in Hall as (t1 & r2 & H1 & Hall & ->).
  apply Forall2_app_inv_l in Hall as (tb & r3 & _ & Hall & ->).
  apply Forall2_cons_inv_l in Hall as (t2 & r4 & H2 & Hall & ->).
  apply Forall2_app_inv_l in Hall as (tc & r5 & _ & Hall & ->).
  apply Forall2_cons_inv_l in Hall as (t3 & r6 & H3 & _ & ->).
  exists (concat ta ++ t1), (concat tb ++ t2), (concat tc ++ t3 ++ concat r6). split_and!.
  - by rewrite !concat_app, !concat_cons, !concat_app, !concat_cons, !concat_app, !concat_cons,
      <- !app_assoc.
  - rewrite <- (app_nil_r t1). by apply round_app.
  - apply elem_of_app. by right.
  - by apply round_app.
Qed.

(** The teardown with whole reconciles: once every claim has had a
    reconcile, a prune of its Application and another reconcile, in any order
    with anything else in between, the next reconcile of the Tenant leaves
    neither the Tenant nor a claim of the team, and no schedule gets stuck. *)
Theorem teardown_completes ts s :
  tearingDown s -> Forall teamTurn ts ->
  (forall n, n ∈ N -> [TurnClaim n; TurnArgo n; TurnClaim n] `sublist_of` ts) ->
  (exists s', played (ts ++ [TurnTenant T]) s s') /\
  forall s', played (ts ++ [TurnTenant T]) s s' -> gone s'.
Proof.
  intros Hd Hts Hfair.
  assert (Hts' : Forall teamTurn (ts ++ [TurnTenant T])).
  { apply Forall_app. split; [done|]. by constructor. }
  split; [by apply played_exists|]. intros s' Hp.
  set (x := {| papi := s; pworkers := fun _ => None |}).
  destruct (played_psteps (ts ++ [TurnTenant T]) x s') as (trs & x' & Hx & <- & _ & Hcur & Hall); [done..|].
  apply Forall2_app_inv_l in Hall as (tr1 & tr2 & H1 & H2 & ->).
  apply (fair_gone x (concat (tr1 ++ tr2))); [by apply idle_sound| |done].
  split; [done|]. exists (concat tr1), (concat tr2). split_and!; [apply concat_app| |].
  - intros n Hn. by eapply shows_served; [|apply Hfair].
  - apply Forall2_cons_inv_l in H2 as (t & r & Ht & _ & ->). cbn.
    by apply (round_app _ [] t).
Qed.
End progress.

(** ** Witnesses *)

Section witnesses.
#[local] Existing Instance sample_kube.
#[local] Existing Instance sample_kube_laws.

#[local] Abbreviation cv := (SystemTeardown.cview tidy_claim).

(** Replacing one object leaves the views of the others. *)
Lemma claims_keeps n m s : (forall k, k <> n -> named sc_Name m k = tidy_claim s k) ->
  keeps tidy_claim NServiceClaim n s (with_claims m s).
Proof.
  intros Hm. split_and!; intros k Hk; [|done..]. unfold SystemTeardown.cview, tidy_claim at 1. cbn.
  rewrite Hm; [done|]. intros ->. by apply Hk.
Qed.

Lemma tenants_keeps n m s : (forall k, k <> n -> named t_Name m k = tidy_tenant s k) ->
  keeps tidy_claim NTenant n s (with_tenants m s).
Proof.
  intros Hm. split_and!; intros k Hk; [done| |done]. unfold tview. cbn. unfold tidy_tenant at 1. cbn.
  rewrite Hm; [done|]. intros ->. by apply Hk.
Qed.

Lemma apps_keeps n m s : (forall k, k <> n -> named app_name m k = tidy_app s k) ->
  keeps tidy_claim NApplication n s (with_apps m s).
Proof.
  intros Hm. split_and!; intros k Hk; [done..|]. unfold aview. cbn. unfold tidy_app at 1. cbn.
  rewrite Hm; [done|]. intros ->. by apply Hk.
Qed.

(** Nothing changes if that object's view does not either. *)
Lemma keeps_unchanged kd n s s' : keeps tidy_claim kd n s s' ->
  cv s' n = cv s n -> tview s' n = tview s n -> aview s' n = aview s n -> unchanged tidy_claim s s'.
Proof.
  intros (K1 & K2 & K3) Hc Ht Ha m. destruct (decide (m = n)) as [->|Hm]; [done|].
  split_and!; [apply K1|apply K2|apply K3]; by intros [_ ?].
Qed.

Lemma tidy_prune n s : exists s', prunes tidy_claim n s s'.
Proof.
  unfold prunes. destruct (aview s n) as [[u []]|].
  - exists (with_apps (delete n (tidy_apps s)) s). split.
    + unfold aview. cbn. unfold tidy_app. cbn. by rewrite named_delete.
    + apply apps_keeps. intros k Hk. by apply named_delete_ne.
  - exists s. apply unchanged_refl.
  - exists s. apply unchanged_refl.
Qed.

Lemma tidy_status_claim s c st : tidy_claim s (sc_Name c) = Some c ->
  unchanged tidy_claim s (with_claims (<[sc_Name c := sc_set_status c st]> (tidy_claims s)) s).
Proof.
  intros Hc. apply (keeps_unchanged NServiceClaim (sc_Name c)); [| |done|done].
  - apply claims_keeps. intros k Hk. by apply named_insert_ne.
  - unfold SystemTeardown.cview. rewrite Hc. unfold tidy_claim. cbn.
    assert (E : named sc_Name (<[sc_Name c := sc_set_status c st]> (tidy_claims s)) (sc_Name c) = Some (sc_set_status c st))
      by exact (named_insert sc_Name (tidy_claims s) (sc_set_status c st)).
    by rewrite E.
Qed.

Lemma tidy_status_tenant s t st : tidy_tenant s (t_Name t) = Some t ->
  unchanged tidy_claim s (with_tenants (<[t_Name t := t_set_status t st]> (tidy_tenants s)) s).
Proof.
  intros Hc. apply (keeps_unchanged NTenant (t_Name t)); [|done| |done].
  - apply tenants_keeps. intros k Hk. by apply named_insert_ne.
  - unfold tview. cbn. rewrite Hc. unfold tidy_tenant. cbn.
    assert (E : named t_Name (<[t_Name t := t_set_status t st]> (tidy_tenants s)) (t_Name t) = Some (t_set_status t st))
      by exact (named_insert t_Name (tidy_tenants s) (t_set_status t st)).
    by rewrite E.
Qed.

Lemma lands_gone {T} (f : T -> string) meta old o (m : gmap string T) :
  fst (metaView (meta old)) = true -> om_Finalizers (meta o) = [] ->
  lands f meta old o m = delete (f o) m.
Proof.
  intros Hd Hf. unfold lands. rewrite Hf.
  assert (Hx : forall d : option Time, negb (TimeIsZero d) = true ->
    match d with Some _ => delete (f o) m | None => <[f o := o]> m end = delete (f o) m)
    by (by intros [t|]).
  exact (Hx _ Hd).
Qed.

(** The patch that releases an object drops it. *)
Lemma tidy_release_claim s c o : tidy_claim s (sc_Name o) = Some c ->
  fst (metaView (sc_ObjectMeta c)) = true -> om_Finalizers (sc_ObjectMeta o) = [] ->
  let s' := with_claims (lands sc_Name sc_ObjectMeta c o (tidy_claims s)) s in
  cv s' (sc_Name o) = None /\ keeps tidy_claim NServiceClaim (sc_Name o) s s'.
Proof.
  intros _ Hd Hf s'. unfold s'. rewrite (lands_gone _ sc_ObjectMeta) by done. split.
  - unfold SystemTeardown.cview, tidy_claim. cbn. by rewrite named_delete.
  - apply claims_keeps. intros k Hk. by apply named_delete_ne.
Qed.

Lemma tidy_release_tenant s t o : tidy_tenant s (t_Name o) = Some t ->
  fst (metaView (t_ObjectMeta t)) = true -> om_Finalizers (t_ObjectMeta o) = [] ->
  let s' := with_tenants (lands t_Name t_ObjectMeta t o (tidy_tenants s)) s in
  tview s' (t_Name o) = None /\ keeps tidy_claim NTenant (t_Name o) s s'.
Proof.
  intros _ Hd Hf s'. unfold s'. rewrite (lands_gone _ t_ObjectMeta) by done. split.
  - unfold tview. cbn. unfold tidy_tenant. cbn. by rewrite named_delete.
  - apply tenants_keeps. intros k Hk. by apply named_delete_ne.
Qed.

Lemma tidy_delete_app s a n u d : tidy_app s n = Some a -> aview s n = Some (u, d) ->
  let s' := with_apps (<[app_name a := marked a]> (tidy_apps s)) s in
  aview s' n = Some (u, true) /\ keeps tidy_claim NApplication n s s'.
Proof.
  intros Happ Ha s'. pose proof (named_name _ _ _ _ Happ) as Hn. subst n. split.
  - unfold aview in *. cbn in *. rewrite Happ in Ha. injection Ha as Hu _. unfold tidy_app. cbn.
    change (app_name a) with (app_name (marked a)). rewrite named_insert. cbn. by rewrite Hu.
  - apply apps_keeps. intros k Hk. by apply named_insert_ne.
Qed.

(** What a view says of the store. *)
Lemma cview_stored s n team v : cv s n = Some (team, v) ->
  exists c, tidy_claim s n = Some c /\ Team (sc_Spec c) = team /\ metaView (sc_ObjectMeta c) = v /\
    sc_Name c = n.
Proof.
  unfold SystemTeardown.cview. destruct (tidy_claim s n) as [c|] eqn:E; [|done].
  intros Hv. exists c. pose proof (named_name _ _ _ _ E). split_and!; [done|congruence..|done].
Qed.

Lemma tview_stored s n v : tview s n = Some v ->
  exists t, tidy_tenant s n = Some t /\ metaView (t_ObjectMeta t) = v /\ t_Name t = n.
Proof.
  unfold tview. cbn. destruct (tidy_tenant s n) as [t|] eqn:E; [|done].
  intros Hv. exists t. pose proof (named_name _ _ _ _ E). split_and!; [done|congruence|done].
Qed.

Lemma found_answers {T} (o : option T) : answers (found o) o.
Proof. destruct o; [done|]. by exists ENotFound. Qed.

(** A patch that is no conflict. *)
Lemma version_view m m' : metaVersion m = metaVersion m' <-> metaView m = metaView m'.
Proof.
  assert (Hneg : forall a b, negb a = negb b -> a = b) by (by intros [] []).
  unfold metaVersion, metaView. split; intros H; injection H as E1 E2; f_equal; try done.
  - by f_equal.
  - exact (Hneg _ _ E1).
Qed.

Lemma claimVersion_view c c' : claimVersion c = claimVersion c' <->
  Team (sc_Spec c) = Team (sc_Spec c') /\ metaView (sc_ObjectMeta c) = metaView (sc_ObjectMeta c').
Proof.
  rewrite <- version_view. unfold claimVersion. split; [|by intros [-> ->]].
  intros H. injection H as E1 E2 E3. split; [done|exact (f_equal2 pair E2 E3)].
Qed.

(** An accepted locked patch: what was stored, and what is. *)
Lemma tidy_patch_claim obj base s o s' :
  tidy_server _ (PatchObject KServiceClaim obj (MergeFromWithOptimisticLock base)) s = (inr o, s') ->
  exists c, tidy_claim s (sc_Name obj) = Some c /\ o = obj /\
    Team (sc_Spec c) = Team (sc_Spec base) /\ metaView (sc_ObjectMeta c) = metaView (sc_ObjectMeta base) /\
    s' = with_claims (lands sc_Name sc_ObjectMeta c obj (tidy_claims s)) s.
Proof.
  cbn -[conflicts MergeFromWithOptimisticLock].
  destruct (tidy_claim s (sc_Name obj)) as [c|]; [|done].
  destruct (conflicts claimVersion c (MergeFromWithOptimisticLock base)) eqn:Hc; [done|]. apply no_conflict, claimVersion_view in Hc as [H1 H2].
  intros [= <- <-]. by exists c.
Qed.

Lemma tidy_patch_tenant obj base s o s' :
  tidy_server _ (PatchObject KTenant obj (MergeFromWithOptimisticLock base)) s = (inr o, s') ->
  exists t, tidy_tenant s (t_Name obj) = Some t /\ o = obj /\
    metaView (t_ObjectMeta t) = metaView (t_ObjectMeta base) /\
    s' = with_tenants (lands t_Name t_ObjectMeta t obj (tidy_tenants s)) s.
Proof.
  cbn -[conflicts MergeFromWithOptimisticLock].
  destruct (tidy_tenant s (t_Name obj)) as [t|]; [|done].
  destruct (conflicts (fun t => metaVersion (t_ObjectMeta t)) t (MergeFromWithOptimisticLock base)) eqn:Hc; [done|].
  apply no_conflict, version_view in Hc.
  intros [= <- <-]. by exists t.
Qed.

Lemma tidy_named R (c : call R) s r s' : tidy_server R c s = (r, s') -> answer_named (Ev c r).
Proof.
  intros H. destruct c as [T rd k key|rd f v|T k obj mu|T k obj p|T k obj p|T k obj u]; try done;
    destruct k; cbn in H |- *; repeat case_match; simplify_eq; try done;
    unfold found in *; repeat case_match; simplify_eq;
    first [done | by eapply named_name | by match goal with
      E : _ = Some _ |- _ => apply named_name in E end].
Qed.

Lemma tidy_read R (c : call R) s r s' : tidy_server R c s = (r, s') -> writes c = false -> s' = s.
Proof. destruct c; try done; cbn; by intros [= _ <-]. Qed.

Lemma tidy_status T (k : kind T) obj p s r s' :
  tidy_server _ (PatchStatus k obj p) s = (r, s') -> unchanged tidy_claim s s'.
Proof.
  destruct k; cbn; try (intros [= _ <-]; apply unchanged_refl).
  - destruct (tidy_tenant s (t_Name obj)) as [t|] eqn:Ht; intros [= _ <-]; [|apply unchanged_refl].
    apply (tidy_status_tenant s t (t_Status obj)). by rewrite (named_name _ _ _ _ Ht).
  - destruct (tidy_claim s (sc_Name obj)) as [c|] eqn:Hc; intros [= _ <-]; [|apply unchanged_refl].
    apply (tidy_status_claim s c (sc_Status obj)). by rewrite (named_name _ _ _ _ Hc).
Qed.

Lemma tidy_owned_unchanged s o : unchanged tidy_claim s (with_owned o s).
Proof. by intros m. Qed.

#[local] Instance tidy_effects : EffectLaws tidy_claim.
Proof.
  split; cbn [state serve tidy_api].
  - intros s n c. apply named_name.
  - intros s n t. apply named_name.
  - intros s n app. apply (named_name app_name).
  - apply tidy_list_elem.
  - apply tidy_named.
  - apply tidy_read.
  - apply tidy_status.
  - intros obj p s o s'. cbn. unfold SystemTeardown.cview.
    destruct (tidy_claim s (sc_Name obj)) as [c|]; [|done]. by intros [= <- _].
  - intros obj p s o s'. unfold tview. cbn.
    destruct (tidy_tenant s (t_Name obj)) as [t|]; [|done]. by intros [= <- _].
  - intros obj base s o s' (c & Hc & _ & Ht & Hv & _)%tidy_patch_claim <-.
    unfold SystemTeardown.cview. by rewrite Hc, Ht, Hv.
  - intros obj base s o s' (t & Ht & _ & Hv & _)%tidy_patch_tenant <-.
    unfold tview. cbn. by rewrite Ht, Hv.
  - intros obj base s o s' (c & Hc & _ & _ & Hv & ->)%tidy_patch_claim Hd Hf.
    apply tidy_release_claim; [done|by rewrite Hv|done].
  - intros obj base s o s' (t & Ht & _ & Hv & ->)%tidy_patch_tenant Hd Hf.
    apply tidy_release_tenant; [done|by rewrite Hv|done].
  - intros obj mutate s r s' Hs. cbn in Hs. fold (app_name obj). repeat case_match; simplify_eq;
      try (apply unchanged_keeps, unchanged_refl).
    match goal with E : String.eqb _ _ = true |- _ => apply String.eqb_eq in E as <- end.
    apply apps_keeps. intros k Hk. by apply named_insert_ne.
  - intros T k obj mutate s r s' Hs Hk. destruct k; try (by set_solver); cbn in Hs;
      repeat case_match; simplify_eq; first [apply unchanged_refl|apply tidy_owned_unchanged].
  - intros app u s r s' Hs. cbn in Hs. fold (app_name app) in *.
    destruct (tidy_app s (app_name app)) as [a|] eqn:E.
    + case_match; injection Hs as <- <-;
        [|split; [apply unchanged_keeps, unchanged_refl|by intros [|]]].
      match goal with E' : String.eqb _ _ = true |- _ => apply String.eqb_eq in E'; cbn in E'; subst u end.
      assert (Ha : aview s (app_name app) = Some (om_UID (u_ObjectMeta a), isDeleted a))
        by (unfold aview; cbn; by rewrite E).
      destruct (tidy_delete_app s a _ _ _ E Ha) as [H1 H2]. split; [done|by right].
    + injection Hs as <- <-. split; [apply unchanged_keeps, unchanged_refl|]. intros _. left.
      unfold aview. cbn. by rewrite E.
  - intros T k obj u s r s' Hs Hk. destruct k; try (by set_solver); cbn in Hs;
      injection Hs as <- <-; first [apply unchanged_refl|apply tidy_owned_unchanged].
Qed.

#[local] Instance tidy_possible : PossibleLaws tidy_claim.
Proof.
  split; cbn [state serve tidy_api].
  - intros R c s Hc. destruct c as [T rd k key|rd f v|T k obj mu|T k obj p|T k obj p|T k obj u];
      try discriminate Hc; cbn; eexists; (split; [reflexivity|]).
    + destruct k; cbn; try done; try apply found_answers. by intros _; apply found_answers.
    + by intros _.
  - apply tidy_prune.
  - intros obj p s (c & Hc & _ & _ & Hn)%cview_stored. cbn. rewrite Hc.
    eexists _, _. split; [reflexivity|]. unfold tidy_claim. cbn.
    rewrite <- Hn. exact (named_insert sc_Name (tidy_claims s) (sc_set_status c (sc_Status obj))).
  - intros obj p s (t & Ht & _ & Hn)%tview_stored. cbn. rewrite Ht.
    eexists _, _. split; [reflexivity|]. unfold tidy_tenant. cbn.
    rewrite <- Hn. exact (named_insert t_Name (tidy_tenants s) (t_set_status t (t_Status obj))).
  - intros obj base s Hc. cbn -[conflicts MergeFromWithOptimisticLock]. rewrite Hc, (proj2 (no_conflict claimVersion base base) eq_refl). eauto.
  - intros obj base s Ht. cbn -[conflicts MergeFromWithOptimisticLock] in Ht |- *.
    rewrite Ht, (proj2 (no_conflict (fun t => metaVersion (t_ObjectMeta t)) base base) eq_refl). eauto.
  - intros app u d s Ha. destruct (tidy_app s (app_name app)) as [a|] eqn:E.
    + assert (Hv : aview s (app_name app) = Some (om_UID (u_ObjectMeta a), isDeleted a))
        by (unfold aview; cbn; by rewrite E).
      fold (app_name app) in Ha. rewrite Hv in Ha. injection Ha as <- _.
      cbn. fold (app_name app). rewrite E. unfold from_option, id.
      rewrite (proj2 (String.eqb_eq _ _) eq_refl). eauto.
    + assert (Hv : aview s (app_name app) = None) by (unfold aview; cbn; by rewrite E).
      fold (app_name app) in Ha. by rewrite Hv in Ha.
  - intros ns u s. cbn. eexists _, _. split; [reflexivity|]. split; [by left|done].
Qed.

(** A Tenant and a claim being deleted, with an Application still serving. *)
Definition serving_app : Unstructured := {|
  u_GVK := ServiceClaimController.applicationGVK; u_Object := [];
  u_ObjectMeta := {| om_Name := "shop"; om_Namespace := "argocd"; om_UID := "uid-app";
    om_ResourceVersion := "1"; om_Generation := 1; om_DeletionTimestamp := None;
    om_Labels := ∅; om_Finalizers := []; om_OwnerReferences := [] |} |}.

Definition leaving : tidy_state := {|
  tidy_tenants := {["payments" := sample_tenant "payments" None [TenantFinalizer] (Some 5%Z)]};
  tidy_claims :=
    {["shop" := sample_claim "shop" "payments" "" None [ServiceClaimFinalizer] (Some 5%Z)]};
  tidy_apps := {["shop" := serving_app]};
  tidy_owned := no_objects;
|}.

Lemma leaving_down : tearingDown tidy_claim "payments" ["shop"] leaving.
Proof.
  split_and!.
  - left. vm_compute. reflexivity.
  - intros n ->%list_elem_of_singleton. left. exists "payments". vm_compute. reflexivity.
  - intros m v. unfold SystemTeardown.cview, tidy_claim, named. cbn.
    destruct (decide (m = "shop")) as [->|Hm]; [by left|].
    by rewrite lookup_singleton_ne by done.
Qed.

Definition leaving_turns : list turn :=
  [TurnTenant "payments"; TurnClaim "shop"; TurnTenant "payments"; TurnArgo "shop";
   TurnClaim "shop"].

Definition all_idle (s : tidy_state) : psys := {| papi := s; pworkers := fun _ => None |}.

(** The claim's worker is told that there is no claim, and ends; started again it
    has read the claim, and crashes. *)
Definition misled_pre : list mark :=
  [MStart (WClaim "shop"); MStale; MOther; MStart (WClaim "shop"); MOther; MOther].

Definition one_started : psys := {|
  papi := leaving;
  pworkers := setw (fun _ => None) (WClaim "shop")
    (Some (handlerOf small_rt small_rs (WClaim "shop"), Clean)) |}.

Lemma misled_start : exists x,
  psteps tidy_claim small_rt small_rs "payments" ["shop"] (all_idle leaving) misled_pre x.
Proof.
  eexists. exists one_started. split; [apply p_start; [by left|done]|].
  eexists. split.
  { eapply (p_stale _ _ _ _ _ one_started (WClaim "shop") _
      (Get Client KServiceClaim {| nn_Namespace := ""; nn_Name := "shop" |}) _ Clean
      (inl ENotFound)); [reflexivity|done|done]. }
  eexists. split.
  { match goal with |- pstep _ _ _ _ _ ?y MOther _ =>
      exact (p_done _ _ _ _ _ y (WClaim "shop") (emptyResult, None) Misled eq_refl) end. }
  eexists. split; [apply p_start; [by left|apply setw_eq]|].
  eexists. split.
  { match goal with |- pstep _ _ _ _ _ ?y MOther _ =>
      eapply (p_call _ _ _ _ _ y (WClaim "shop")); [reflexivity| |cbn; reflexivity] end.
    by vm_compute. }
  eexists. split; [apply (p_crash _ _ _ _ _ _ (WClaim "shop"))|reflexivity].
Qed.

Lemma teardown_survives_failures_witness :
  tidy_tenant leaving "payments" <> None /\
  exists x tr x', psteps tidy_claim small_rt small_rs "payments" ["shop"] (all_idle leaving) misled_pre x /\
    psteps tidy_claim small_rt small_rs "payments" ["shop"] x tr x' /\
    gone tidy_claim "payments" (papi x').
Proof.
  split; [by vm_compute|]. destruct misled_start as (x & Hx).
  destruct (teardown_survives_failures (A:=tidy_api) tidy_claim small_rt small_rs "payments" ["shop"]
    ltac:(done) (all_idle leaving) misled_pre x leaving_down ltac:(done) Hx)
    as [(tr & x' & Htr & Hf) Hall].
  exists x, tr, x'. split_and!; [done|done|by eapply Hall].
Defined.

Lemma teardown_completes_witness :
  tidy_tenant leaving "payments" <> None /\
  exists s', played (A:=tidy_api) tidy_claim small_rt small_rs
      (leaving_turns ++ [TurnTenant "payments"]) leaving s' /\
    gone tidy_claim "payments" s'.
Proof.
  split; [by vm_compute|].
  destruct (teardown_completes (A:=tidy_api) tidy_claim small_rt small_rs "payments" ["shop"]
    ltac:(done) leaving_turns leaving) as [[s' Hs'] Hall].
  - exact leaving_down.
  - repeat constructor.
  - intros n ->%list_elem_of_singleton. repeat constructor.
  - exists s'. split; [done|by apply Hall].
Defined.
End witnesses.
