(* ===== verification/WorkQueue.v ===== *)
(** * The work queue, the watches and the cache

    How the two controllers are woken, and what they see.  A change in the cluster
    is an event, which is on its way until the informer delivers it: then the
    cache holds the changed object, and the sources a controller's builder
    registers ([For], [Owns], [Watches] of its [SetupWithManager]) map the event
    to requests, the map function reading the cache as it is then.  Until it is
    delivered, a read from the cache may answer with what was there before.  A
    request waits in the queue until the worker of its key is free; a reconcile
    that returns an error or a delay is queued again.  The environment is
    arbitrary: users, ArgoCD and other controllers change anything at any moment,
    events are delivered in any order, and the process may restart.  The
    reasoning is per key: while it is not queued and no event it depends on is on
    its way, nothing its object depends on has changed, and what it reads of that
    is up to date. *)
From stdpp Require Import relations.
From S2P Require Import Prelude Prog Kube Api Client Indexes.
From S2P Require TenantController ServiceClaimController.
From S2P Require Import System.
Open Scope prog_scope.

(** What is stored of the kinds the controllers watch, next to [tenant] and
    [application]. *)
Class Stores `{K : Kube} `{A : !ApiServer} := {
  claimAt : state -> string -> option ServiceClaim;
  namespaceAt : state -> string -> option Namespace;
  roleBindingAt : state -> NamespacedName -> option RoleBinding;
  quotaAt : state -> NamespacedName -> option ResourceQuota;
}.

(** ** Events *)

(** A change that was reported, with the object before and after as far as there
    is one; a resync reports the object as both. *)
Record watchEvent `{K : Kube} := {
  ev_kind : kindName;
  ev_old : option Object;
  ev_new : option Object;
}.

(** [served evs c s r s']: with the events [evs] still on their way, call [c] in
    state [s] can be answered with [r] and leave the state [s'].  What the calls
    of a reconcile read through the manager's client comes from its cache, except
    for an Application, which is unstructured; writes and the reads of the
    [APIReader] go to the server. *)
Class Cache `{K : Kube} `{A : !ApiServer} :=
  served : list watchEvent -> forall R, call R -> state -> R -> state -> Prop.

Section queue.
Context `{K : Kube} `{A : !ApiServer} `{V : !Stores} `{CA : !Cache}.

Definition about (ev : watchEvent) (o : Object) : Prop :=
  ev_old ev = Some o \/ ev_new ev = Some o.

(** The cache may not have the object of a kind and name as it is stored. *)
Definition behind (evs : list watchEvent) (kd : kindName) (n : string) : Prop :=
  exists ev o, ev ∈ evs /\ ev_kind ev = kd /\ about ev o /\ GetName o = n.

Definition objectAt (s : state) (kd : kindName) (m : NamespacedName) : option Object :=
  match kd with
  | NTenant => ObjTenant <$> tenant s (nn_Name m)
  | NServiceClaim => ObjServiceClaim <$> claimAt s (nn_Name m)
  | NApplication => (fun a => ObjOther (u_ObjectMeta a)) <$> application s (nn_Name m)
  | NNamespace => (fun o => ObjOther (ns_ObjectMeta o)) <$> namespaceAt s (nn_Name m)
  | NRoleBinding => (fun o => ObjOther (rb_ObjectMeta o)) <$> roleBindingAt s m
  | NResourceQuota => (fun o => ObjOther (rq_ObjectMeta o)) <$> quotaAt s m
  end.

Definition unchangedAt (s s' : state) (kd : kindName) (m : NamespacedName) : Prop :=
  match kd with
  | NTenant => tenant s' (nn_Name m) = tenant s (nn_Name m)
  | NServiceClaim => claimAt s' (nn_Name m) = claimAt s (nn_Name m)
  | NApplication => application s' (nn_Name m) = application s (nn_Name m)
  | NNamespace => namespaceAt s' (nn_Name m) = namespaceAt s (nn_Name m)
  | NRoleBinding => roleBindingAt s' m = roleBindingAt s m
  | NResourceQuota => quotaAt s' m = quotaAt s m
  end.

Definition metaOf (o : Object) : ObjectMeta :=
  match o with
  | ObjTenant t => t_ObjectMeta t
  | ObjServiceClaim c => sc_ObjectMeta c
  | ObjOther m => m
  end.

Definition kindString (kd : kindName) : string :=
  match kd with
  | NTenant => "Tenant" | NServiceClaim => "ServiceClaim" | NNamespace => "Namespace"
  | NRoleBinding => "RoleBinding" | NResourceQuota => "ResourceQuota"
  | NApplication => "Application"
  end.

(** The controlling owner is the object of this kind and name. *)
Definition ownedBy (kind n : string) (m : ObjectMeta) : Prop :=
  exists ref, controllerOf m = Some ref /\ or_Kind ref = kind /\ or_Name ref = n.

Lemma behind_nil kd n : ~ behind [] kd n.
Proof. by intros (ev & o & ?%not_elem_of_nil & _). Qed.

(** Every stored object that changed is reported. *)
Definition reported (s s' : state) (evs : list watchEvent) : Prop :=
  forall kd m, unchangedAt s s' kd m \/
    exists ev, ev ∈ evs /\ ev_kind ev = kd /\ ev_old ev = objectAt s kd m /\
      ev_new ev = objectAt s' kd m.

(** The requests an event means to a controller: the object itself, the
    controlling owner of an object it owns, and what its map function answers. *)
Definition mapFunction : Type := Object -> prog call (option (list Request)).

Inductive enqueues (b : Builder) (answers : mapFunction -> Object -> list Request)
    (ev : watchEvent) : Request -> Prop :=
| enqueues_for o : ev_kind ev = b_For b -> about ev o ->
    enqueues b answers ev (requestFor (GetName o))
| enqueues_owner o n : ev_kind ev ∈ b_Owns b -> about ev o ->
    ownedBy (kindString (b_For b)) n (metaOf o) -> enqueues b answers ev (requestFor n)
| enqueues_watch f o req : (ev_kind ev, f) ∈ b_Watches b -> about ev o ->
    req ∈ answers f o -> enqueues b answers ev req.

(** ** The system *)

Definition builderOf (i : wid) : Builder :=
  match i with
  | WTenant _ => TenantController.SetupWithManager
  | WClaim _ => ServiceClaimController.SetupWithManager
  end.

(** The two queues as one; [queued] includes what is due for a retry later, and
    [pending] is the events on their way. *)
Record qsys := {
  world : state;
  pending : list watchEvent;
  queued : wid -> bool;
  running : wid -> option worker;
}.

(** Nothing gets lost from a queue, and anything may be added. *)
Definition grows (q q' : wid -> bool) : Prop := forall i, q i = true -> q' i = true.

(** What a map function answers about an object, run on the cache. *)
Definition mapped (evs : list watchEvent) (s : state) (f : mapFunction) (o : Object)
    (reqs : list Request) : Prop :=
  exists tr res, runs (f o) tr res /\
    Forall (fun e => match e with Ev c r => served evs _ c s r s end) tr /\
    reqs = default [] res.

(** The queues after the delivery of an event, [evs] being those that remain. *)
Definition dispatched (evs : list watchEvent) (s : state) (ev : watchEvent)
    (q q' : wid -> bool) : Prop :=
  grows q q' /\
  exists answers,
    (forall i f o, (ev_kind ev, f) ∈ b_Watches (builderOf i) -> about ev o ->
       mapped evs s f o (answers f o)) /\
    forall i, enqueues (builderOf i) answers ev (requestFor (wname i)) -> q' i = true.

Definition setq {X} (f : wid -> X) (i : wid) (v : X) : wid -> X :=
  fun j => if decide (j = i) then v else f j.

(** A result that puts the key back. *)
Definition again (out : Result * option error) : bool :=
  match out with
  | (_, Some _) => true
  | (res, None) => negb (Z.eqb (RequeueAfter res) 0)
  end.

Variables (rt : TenantController.TenantReconciler)
  (rs : ServiceClaimController.ServiceClaimReconciler).

(** A process that starts again lists everything, from a server that may itself be
    behind. *)
Inductive qstep (x : qsys) : qsys -> Prop :=
| q_env s' evs q' : reported (world x) s' evs -> grows (queued x) q' ->
    qstep x {| world := s'; pending := pending x ++ evs; queued := q'; running := running x |}
| q_watch evs1 ev evs2 q' : pending x = evs1 ++ ev :: evs2 ->
    dispatched (evs1 ++ evs2) (world x) ev (queued x) q' ->
    qstep x {| world := world x; pending := evs1 ++ evs2; queued := q'; running := running x |}
| q_start i : queued x i = true -> running x i = None ->
    qstep x {| world := world x; pending := pending x; queued := setq (queued x) i false;
               running := setq (running x) i (Some (handlerOf rt rs i)) |}
| q_call i R (c : call R) k r s' evs q' :
    running x i = Some (Vis c k) -> served (pending x) _ c (world x) r s' ->
    reported (world x) s' evs -> grows (queued x) q' ->
    qstep x {| world := s'; pending := pending x ++ evs; queued := q';
               running := setq (running x) i (Some (k r)) |}
| q_done i out : running x i = Some (Ret out) ->
    qstep x {| world := world x; pending := pending x;
               queued := setq (queued x) i (queued x i || again out);
               running := setq (running x) i None |}
| q_restart evs : evs ⊆ pending x ->
    qstep x {| world := world x; pending := evs; queued := fun _ => true;
               running := fun _ => None |}.

(** A process that has just started lists everything. *)
Definition fresh (x : qsys) : Prop := forall i, queued x i = true /\ running x i = None.

(** The events a key depends on: those of its own object, of the objects it
    controls, and for a claim those of the Tenant of its team. *)
Definition teamTenant (i : wid) (s : state) (kd : kindName) (o : Object) : Prop :=
  match i with
  | WClaim n => kd = NTenant /\ exists c, claimAt s n = Some c /\ Team (sc_Spec c) <> "" /\
      GetName o = Team (sc_Spec c)
  | WTenant _ => False
  end.

Definition concerns (i : wid) (s : state) (ev : watchEvent) : Prop :=
  exists o, about ev o /\
    (ev_kind ev = b_For (builderOf i) /\ GetName o = wname i \/
     ev_kind ev ∈ b_Owns (builderOf i) /\
       ownedBy (kindString (b_For (builderOf i))) (wname i) (metaOf o) \/
     teamTenant i s (ev_kind ev) o).

Definition unconcerned (i : wid) (s : state) (evs : list watchEvent) : Prop :=
  forall ev, ev ∈ evs -> ~ concerns i s ev.

(** Nothing to do for a key, and nothing on its way to it. *)
Definition resting (x : qsys) (i : wid) : Prop :=
  queued x i = false /\ running x i = None /\ unconcerned i (world x) (pending x).

Lemma setq_eq {X} (f : wid -> X) i v : setq f i v i = v.
Proof. unfold setq. by rewrite decide_True. Qed.

Lemma setq_ne {X} (f : wid -> X) i v j : j <> i -> setq f i v j = f j.
Proof. intros Hj. unfold setq. by rewrite decide_False. Qed.

(** A state of which [I] holds, as every state of an execution is assumed. *)
Definition lawful (I : state -> Prop) (x x' : qsys) : Prop := qstep x x' /\ I (world x').

Lemma rtc_lawful x x' : rtc qstep x x' -> rtc (lawful (fun _ => True)) x x'.
Proof. apply (rtc_congruence (fun x => x)). by split. Qed.

Lemma lawful_rtc I x x' : rtc (lawful I) x x' -> rtc qstep x x'.
Proof. apply (rtc_congruence (fun x => x)). by intros y z [? _]. Qed.

(** ** What does not change while a key is not queued *)

(** The names of what is stored; the cached claims answer a list through the
    field index; and what a read of a Tenant answers. *)
Class StoredNames : Prop := {
  stored_claim_name s n c : claimAt s n = Some c -> sc_Name c = n;
  stored_tenant_name s n t : tenant s n = Some t -> t_Name t = n;
  lists_claims evs s v r s' :
    served evs _ (ListClaims TeamReader ClaimTeamIndexKey v) s r s' ->
    exists l, r = inr (indexed_list l v) /\
      forall n c, claimAt s n = Some c -> ~ behind evs NServiceClaim n -> c ∈ l;
  (* both controllers read Tenants *)
  answers_tenant evs rd key s r s' : served evs _ (Get rd KTenant key) s r s' ->
    ~ behind evs NTenant (nn_Name key) -> s' = s /\
    match r with
    | inr t => tenant s (nn_Name key) = Some t
    | inl e => IsNotFound (Some e) = true -> tenant s (nn_Name key) = None
    end;
}.
Context {SN : StoredNames}.

Definition cluster (n : string) : NamespacedName := {| nn_Namespace := ""; nn_Name := n |}.

Lemma unconcerned_app i s evs1 evs2 :
  unconcerned i s (evs1 ++ evs2) <-> unconcerned i s evs1 /\ unconcerned i s evs2.
Proof. unfold unconcerned. setoid_rewrite elem_of_app. naive_solver. Qed.

(** The key's own object is read as it is stored, and so is its Tenant. *)
Lemma unconcerned_own i s evs : unconcerned i s evs -> ~ behind evs (b_For (builderOf i)) (wname i).
Proof. intros Hn (ev & o & Hin & Hk & Ho & Hname). apply (Hn ev Hin). exists o. auto. Qed.

Lemma unconcerned_team n c s evs : unconcerned (WClaim n) s evs -> claimAt s n = Some c ->
  Team (sc_Spec c) <> "" -> ~ behind evs NTenant (Team (sc_Spec c)).
Proof.
  intros Hn Hc Ht (ev & o & Hin & Hk & Ho & Hname). apply (Hn ev Hin). exists o. split; [done|].
  right. right. split; [done|]. eauto.
Qed.

(** A change of the state does not make an event of no concern, unless it is the
    claim itself that changes. *)
Lemma concerns_stable i s s' evs ev :
  reported s s' evs -> concerns i s ev -> concerns i s' ev \/ ~ unconcerned i s' evs.
Proof.
  intros Hr (o & Ho & [H|[H|H]]); [left; exists o; auto..|]. destruct i as [|n]; [done|].
  destruct H as (Hk & c & Hc & Hne & Hn). destruct (Hr NServiceClaim (cluster n)) as [Hu|He].
  - left. exists o. split; [done|]. right. right. split; [done|]. exists c. cbn in Hu. by rewrite Hu.
  - right. intros Hun. destruct He as (ev' & Hin & Hk' & Hold & _). cbn in Hold. rewrite Hc in Hold.
    apply (Hun ev' Hin). exists (ObjServiceClaim c). split; [by left|]. left. split; [done|].
    by apply (stored_claim_name s).
Qed.

Lemma unconcerned_before i s s' evs0 evs :
  reported s s' evs -> unconcerned i s' (evs0 ++ evs) -> unconcerned i s evs0.
Proof.
  intros Hr [H1 H2]%unconcerned_app ev Hin Hc.
  by destruct (concerns_stable i s s' evs ev Hr Hc) as [Hc'|Hn]; [apply (H1 ev)|].
Qed.

(** The delivery of an event a key depends on queues the key, if nothing else the
    key depends on is still on its way. *)
Lemma dispatched_wakes i s evs ev q q' :
  dispatched evs s ev q q' -> unconcerned i s evs -> concerns i s ev -> q' i = true.
Proof.
  intros (_ & answers & Hm & Hq) Hun (o & Ho & [[Hk Hn]|[[Hk Hb]|Ht]]); apply Hq.
  - rewrite <- Hn. by apply enqueues_for.
  - by eapply enqueues_owner.
  - destruct i as [|n]; [done|]. destruct Ht as (Hk & c & Hc & Hne & Hn).
    assert (Hw : (ev_kind ev, ServiceClaimController.claimsForTenant)
      ∈ b_Watches (builderOf (WClaim n))) by (rewrite Hk; by left).
    apply (enqueues_watch _ _ _ ServiceClaimController.claimsForTenant o); [done|done|].
    destruct (Hm (WClaim n) _ o Hw Ho) as (tr & res & Hrun & Hs & ->).
    unfold ServiceClaimController.claimsForTenant in Hrun. cbn [bind trigger runs] in Hrun.
    destruct Hrun as (r & tr' & -> & Hrun). apply Forall_inv in Hs.
    apply lists_claims in Hs as (l & -> & Hl). destruct Hrun as [_ ->]. cbn [default].
    apply list_elem_of_fmap. exists c. pose proof (stored_claim_name _ _ _ Hc) as Hcn.
    split; [by rewrite Hcn|]. apply list_elem_of_filter. split.
    + apply claimTeamIndexer_elem. by rewrite Hn.
    + apply (Hl n c Hc). by apply (unconcerned_own (WClaim n) s).
Qed.

Section unheard.
Context (s s' : state) (evs : list watchEvent) (i : wid).
Context (Hr : reported s s' evs) (Hun : unconcerned i s' evs).

(** An object whose events the key depends on has not changed. *)
Lemma unheard kd m o : objectAt s kd m = Some o \/ objectAt s' kd m = Some o ->
  (forall ev, ev_kind ev = kd -> about ev o -> concerns i s' ev) -> unchangedAt s s' kd m.
Proof.
  intros Ho Hc. destruct (Hr kd m) as [?|(ev & Hin & Hk & Hold & Hnew)]; [done|].
  destruct (Hun ev Hin). apply Hc; [done|]. unfold about. rewrite Hold, Hnew. done.
Qed.

Lemma for_unheard m o : let kd := b_For (builderOf i) in
  objectAt s kd m = Some o \/ objectAt s' kd m = Some o -> GetName o = wname i ->
  unchangedAt s s' kd m.
Proof. intros kd Ho Hn. eapply unheard; [exact Ho|]. intros ev Hk Ha. exists o. auto. Qed.

Lemma owned_unheard kd m o : objectAt s kd m = Some o \/ objectAt s' kd m = Some o ->
  kd ∈ b_Owns (builderOf i) ->
  ownedBy (kindString (b_For (builderOf i))) (wname i) (metaOf o) -> unchangedAt s s' kd m.
Proof.
  intros Ho Hk Hb. eapply unheard; [exact Ho|]. intros ev <- Ha. exists o. auto.
Qed.
End unheard.

(** *** Claims *)

(** The claim is the controlling owner. *)
Definition controlledBy (n : string) (a : Unstructured) : Prop :=
  ownedBy ServiceClaimController.ServiceClaimKind n (u_ObjectMeta a).

(** The claim, the Tenant of its team, and an Application it controls. *)
Definition quietClaim (n : string) (s s' : state) : Prop :=
  claimAt s' n = claimAt s n /\
  (forall c, claimAt s n = Some c -> Team (sc_Spec c) <> "" ->
     tenant s' (Team (sc_Spec c)) = tenant s (Team (sc_Spec c))) /\
  (forall a, application s n = Some a -> controlledBy n a -> application s' n = Some a).

#[global] Instance quietClaim_preorder n : PreOrder (quietClaim n).
Proof.
  split; [intros s; by repeat split|]. intros s1 s2 s3 (C1 & T1 & A1) (C2 & T2 & A2). split_and!.
  - congruence.
  - intros c Hc Hne. rewrite T2, T1; [done|done|done|congruence|done].
  - eauto.
Qed.

Lemma unheard_quietClaim n s s' evs :
  reported s s' evs -> unconcerned (WClaim n) s' evs -> quietClaim n s s'.
Proof.
  intros Hr Hun. assert (Hcl : claimAt s' n = claimAt s n).
  { destruct (claimAt s n) as [c|] eqn:E; [|destruct (claimAt s' n) as [c|] eqn:E'; [|done]].
    all: rewrite <- ?E, <- ?E'; apply (for_unheard s s' evs (WClaim n) Hr Hun (cluster n)
      (ObjServiceClaim c)); cbn; [rewrite ?E, ?E'; auto|by eapply stored_claim_name]. }
  split_and!; [done| |].
  - intros c Hc Hne. set (m := Team (sc_Spec c)).
    assert (Hw : forall t, t_Name t = m -> forall ev, ev_kind ev = NTenant ->
      about ev (ObjTenant t) -> concerns (WClaim n) s' ev).
    { intros t Ht ev Hk Ha. exists (ObjTenant t). split; [done|]. right. right. split; [done|].
      exists c. by rewrite Hcl. }
    destruct (tenant s m) as [t|] eqn:E; [|destruct (tenant s' m) as [t|] eqn:E'; [|done]].
    all: rewrite <- ?E, <- ?E'; apply (unheard s s' evs (WClaim n) Hr Hun NTenant (cluster m)
      (ObjTenant t)); cbn; [rewrite ?E, ?E'; auto|by eapply Hw, stored_tenant_name].
  - intros a Ha Hb. rewrite <- Ha. apply (owned_unheard s s' evs (WClaim n) Hr Hun NApplication
      (cluster n) (ObjOther (u_ObjectMeta a))); [|by left|done].
    left. cbn. by rewrite Ha.
Qed.

(** *** Tenants *)

Definition namespaceKey (n : string) : NamespacedName := cluster (teamNamespace n).
Definition roleBindingKey (n : string) : NamespacedName :=
  {| nn_Namespace := teamNamespace n; nn_Name := TenantController.roleBindingName |}.
Definition quotaKey (n : string) : NamespacedName :=
  {| nn_Namespace := teamNamespace n; nn_Name := TenantController.resourceQuotaName |}.

(** An object of the Tenant's is not changed, and none appears. *)
Definition keeps {O} (n : string) (meta : O -> ObjectMeta) (o o' : option O) : Prop :=
  forall x, ownedBy TenantController.TenantKind n (meta x) -> o = Some x <-> o' = Some x.

#[global] Instance keeps_preorder {O} n (meta : O -> ObjectMeta) : PreOrder (keeps n meta).
Proof.
  split; [done|]. intros o1 o2 o3 H1 H2 x Hx. by rewrite (H1 x Hx), (H2 x Hx).
Qed.

(** The Tenant, and what it controls of its namespace, binding and quota. *)
Definition quietTenant (n : string) (s s' : state) : Prop :=
  tenant s' n = tenant s n /\
  keeps n ns_ObjectMeta (namespaceAt s (teamNamespace n)) (namespaceAt s' (teamNamespace n)) /\
  keeps n rb_ObjectMeta (roleBindingAt s (roleBindingKey n)) (roleBindingAt s' (roleBindingKey n)) /\
  keeps n rq_ObjectMeta (quotaAt s (quotaKey n)) (quotaAt s' (quotaKey n)).

#[global] Instance quietTenant_preorder n : PreOrder (quietTenant n).
Proof.
  split; [intros s; split_and!; done|]. intros s1 s2 s3 (T1 & N1 & B1 & Q1) (T2 & N2 & B2 & Q2).
  split_and!; [congruence|by etransitivity..].
Qed.

Lemma keeps_unheard {O} n kd m (meta : O -> ObjectMeta) (at_ : state -> option O) s s' evs :
  reported s s' evs -> unconcerned (WTenant n) s' evs ->
  (forall s, objectAt s kd m = (fun o => ObjOther (meta o)) <$> at_ s) ->
  (unchangedAt s s' kd m -> at_ s' = at_ s) ->
  kd ∈ b_Owns TenantController.SetupWithManager -> keeps n meta (at_ s) (at_ s').
Proof.
  intros Hr Hun Ho Hu Hk x Hx. assert (Hs : at_ s = Some x \/ at_ s' = Some x -> at_ s' = at_ s).
  { intros Hin. apply Hu. apply (owned_unheard s s' evs (WTenant n) Hr Hun kd m
      (ObjOther (meta x))); [|done|done]. rewrite !Ho. destruct Hin as [-> | ->]; auto. }
  split; intros E; rewrite <- E; [|symmetry]; auto.
Qed.

Lemma unheard_quietTenant n s s' evs :
  reported s s' evs -> unconcerned (WTenant n) s' evs -> quietTenant n s s'.
Proof.
  intros Hr Hun. split_and!.
  - destruct (tenant s n) as [t|] eqn:E; [|destruct (tenant s' n) as [t|] eqn:E'; [|done]].
    all: rewrite <- ?E, <- ?E'; apply (for_unheard s s' evs (WTenant n) Hr Hun (cluster n)
      (ObjTenant t)); cbn; [rewrite ?E, ?E'; auto|by eapply stored_tenant_name].
  - by apply (keeps_unheard n NNamespace (namespaceKey n) ns_ObjectMeta
      (fun s => namespaceAt s (teamNamespace n)) s s' evs); [..|left].
  - by apply (keeps_unheard n NRoleBinding (roleBindingKey n) rb_ObjectMeta
      (fun s => roleBindingAt s (roleBindingKey n)) s s' evs); [..|right; left].
  - by apply (keeps_unheard n NResourceQuota (quotaKey n) rq_ObjectMeta
      (fun s => quotaAt s (quotaKey n)) s s' evs); [..|right; right; left].
Qed.

(** ** Reasoning about one key *)

(** What every state of an execution is assumed to satisfy, and what stays the
    same while the key is not queued. *)
Section one_key.
Context (I : state -> Prop) (i : wid) (quiet : relation state) `{!PreOrder quiet}.

(** However the rest of the run is answered, as long as it is quiet around the
    object and no event of concern is on its way, the outcome satisfies [Q]. *)
Fixpoint calm (Q : state -> Result * option error -> Prop) (w : worker) (s : state) : Prop :=
  match w with
  | Ret out => forall s1, quiet s s1 -> I s1 -> Q s1 out
  | Vis c k => forall s1, quiet s s1 -> I s1 -> forall evs, unconcerned i s1 evs ->
      forall r s2, served evs _ c s1 r s2 -> quiet s1 s2 -> I s2 -> calm Q (k r) s2
  end.

Lemma calm_vis Q R (c : call R) k s :
  (forall s1, quiet s s1 -> I s1 -> forall evs, unconcerned i s1 evs ->
     forall r s2, served evs _ c s1 r s2 -> quiet s1 s2 -> I s2 -> calm Q (k r) s2) ->
  calm Q (Vis c k) s.
Proof. done. Qed.

Lemma calm_quiet Q w s s' : quiet s s' -> calm Q w s -> calm Q w s'.
Proof. intros Hq. destruct w; intros H s1 H1; apply H; by etransitivity. Qed.

(** A fact of the quiet surroundings holds at the end. *)
Lemma calm_always Q w s : (forall s', quiet s s' -> forall out, Q s' out) -> calm Q w s.
Proof.
  revert s. induction w as [out|R c k IH]; intros s H; cbn; [by eauto|].
  intros s1 H1 _ evs _ r s2 _ H2 _. apply IH. intros s3 H3. apply H.
  by do 2 (etransitivity; [eassumption|]).
Qed.

(** What a reconcile that is not put back establishes. *)
Definition outcome (P : state -> Prop) (s : state) (out : Result * option error) : Prop :=
  again out = true \/ P s.

Lemma calm_error P s res e : calm (outcome P) (Ret (res, Some e)) s.
Proof. by intros s1 _ _; left. Qed.

Lemma calm_again P s res : RequeueAfter res <> 0%Z -> calm (outcome P) (Ret (res, None)) s.
Proof. intros Hr s' _ _. left. cbn. by apply negb_true_iff, Z.eqb_neq. Qed.

(** [P] holds of a key at rest, if it survives a quiet change and every calm
    reconcile that is not put back establishes it. *)
Section at_rest.
Context (unheard_quiet : forall s s' evs, reported s s' evs -> unconcerned i s' evs -> quiet s s').
Context (P : state -> Prop) (P_quiet : forall s s', quiet s s' -> P s -> P s').
Context (P_reconcile : forall s, calm (outcome P) (handlerOf rt rs i) s).

(** A key is queued, or an event it depends on is on its way, or all is well. *)
Definition rests (x : qsys) : Prop :=
  queued x i = true \/
  (unconcerned i (world x) (pending x) ->
   match running x i with
   | None => P (world x)
   | Some w => calm (outcome P) w (world x)
   end).

(** Somebody else's change. *)
Lemma rests_change x s' evs q' : reported (world x) s' evs -> grows (queued x) q' -> rests x ->
  rests {| world := s'; pending := pending x ++ evs; queued := q'; running := running x |}.
Proof.
  intros Hr Hg [Hx|Hx]; [left; by apply Hg|right]. cbn. intros Hun.
  pose proof (unheard_quiet _ _ _ Hr (proj2 (proj1 (unconcerned_app _ _ _ _) Hun))) as Hqu.
  specialize (Hx (unconcerned_before _ _ _ _ _ Hr Hun)).
  destruct (running x i); [by eapply calm_quiet|by eapply P_quiet].
Qed.

(** The delivery of an event. *)
Lemma rests_watch x evs1 ev evs2 q' : pending x = evs1 ++ ev :: evs2 ->
  dispatched (evs1 ++ evs2) (world x) ev (queued x) q' -> rests x ->
  rests {| world := world x; pending := evs1 ++ evs2; queued := q'; running := running x |}.
Proof.
  intros Hp Hd [Hx|Hx]; [left; by apply (proj1 Hd)|]. unfold rests; cbn.
  destruct (q' i) eqn:Hq; [by left|right]. intros Hun. apply Hx. rewrite Hp.
  intros ev' Hin Hc. assert (ev' = ev \/ ev' ∈ evs1 ++ evs2) as [->|Hin'] by set_solver.
  - pose proof (dispatched_wakes i _ _ _ _ _ Hd Hun Hc). congruence.
  - by apply (Hun ev').
Qed.

Lemma rests_step x x' : I (world x) -> lawful I x x' -> rests x -> rests x'.
Proof.
  intros HI [Hstep HI']. revert Hstep HI'.
  intros [s' evs q' Hr Hg|evs1 ev evs2 q' Hp Hd|j _ _|j R c k r s' evs q' Hj Hs Hr Hg|j out Hj|evs _]
    HI' Hx; cbn in HI'.
  - by apply rests_change.
  - by eapply rests_watch.
  - unfold rests; cbn. destruct (decide (i = j)) as [<-|Hne].
    + right. intros _. rewrite setq_eq. exact (P_reconcile (world x)).
    + by rewrite !setq_ne.
  - destruct (decide (i = j)) as [<-|Hne].
    + destruct Hx as [Hx|Hx]; [left; by apply Hg|]. right. cbn. rewrite setq_eq. intros Hun.
      pose proof (unconcerned_before _ _ _ _ _ Hr Hun) as Hun0. specialize (Hx Hun0).
      rewrite Hj in Hx. eapply Hx; [reflexivity|done|exact Hun0|exact Hs| |done].
      eapply unheard_quiet; [exact Hr|]. by apply unconcerned_app in Hun as [_ ?].
    + apply (rests_change x s' evs q' Hr Hg) in Hx. unfold rests in *; cbn in *. by rewrite setq_ne.
  - unfold rests; cbn. destruct (decide (i = j)) as [<-|Hne].
    + rewrite !setq_eq. destruct Hx as [->|Hx]; [by left|]. rewrite Hj in Hx.
      destruct (again out) eqn:Ha; [left; apply orb_true_r|right]. intros Hun.
      destruct (Hx Hun _ (reflexivity _) HI) as [Ht|HP]; [congruence|done].
    + by rewrite !setq_ne.
  - by left.
Qed.

Lemma at_rest x0 x : fresh x0 -> I (world x0) -> rtc (lawful I) x0 x -> resting x i -> P (world x).
Proof.
  intros Hf HI Hr (Hq & Hn & Hun). assert (Hx : rests x).
  { assert (rests x0) as H0 by (left; apply Hf). clear Hf Hq Hn Hun.
    induction Hr as [|x y z Hxy _ IH]; [done|]. apply IH; [apply Hxy|by eapply rests_step]. }
  unfold rests in Hx. rewrite Hq, Hn in Hx. destruct Hx as [|Hx]; [done|by apply Hx].
Qed.
End at_rest.
End one_key.
End queue.
