(* ===== verification/Settling.v ===== *)
(** * A key settles

    Writing its status and its objects wakes the controller again, since they are
    watched ([WorkQueue]).  Left alone, this comes to an end if a second reconcile
    writes only what is already stored: a write that changes nothing is no event,
    and the key leaves the queue.  [ClaimSettling] and [TenantSettling] apply
    this to the two controllers. *)
From stdpp Require Import relations.
From S2P Require Import Prelude Prog Kube Api Client.
From S2P Require TenantController ServiceClaimController.
From S2P Require Import System WorkQueue.
Open Scope prog_scope.

Section settling.
Context `{K : Kube} `{A : !ApiServer} `{V : !Stores} `{CA : !Cache}.
Context (rt : TenantController.TenantReconciler)
  (rs : ServiceClaimController.ServiceClaimReconciler).

(** A call that succeeds; a read or a deletion may find nothing. *)
Definition succeeds {R} (c : call R) : R -> Prop :=
  match c in call R return R -> Prop with
  | Get _ _ _ => fun r => match r with inl e => IsNotFound (Some e) = true | inr _ => True end
  | ListClaims _ _ _ => fun r => exists l, r = inr l
  | CreateOrUpdate _ _ _ => fun r => exists o, r = inr o
  | PatchObject _ _ _ => fun r => exists o, r = inr o
  | PatchStatus _ _ _ => fun r => exists o, r = inr o
  | Delete _ _ _ => fun r => match r with Some e => IsNotFound (Some e) = true | None => True end
  end.

(** ** Runs of bounded length *)

(** At most [j] calls, none of which changes anything, and not put back. *)
Fixpoint idle (j : nat) (w : worker) (s : state) : Prop :=
  match w with
  | Ret out => again out = false
  | Vis c k =>
      match j with
      | 0 => False
      | S j => forall r s', served [] _ c s r s' -> succeeds c r -> s' = s /\ idle j (k r) s
      end
  end.

(** At most [j] calls, not put back, and [Q] holds at the end. *)
Fixpoint ends (j : nat) (Q : state -> Prop) (w : worker) (s : state) : Prop :=
  match w with
  | Ret out => again out = false /\ Q s
  | Vis c k =>
      match j with
      | 0 => False
      | S j => forall r s', served [] _ c s r s' -> succeeds c r -> ends j Q (k r) s'
      end
  end.

Lemma idle_vis j R (c : call R) k s :
  (forall r s', served [] _ c s r s' -> succeeds c r -> s' = s /\ idle j (k r) s) ->
  idle (S j) (Vis c k) s.
Proof. done. Qed.

Lemma ends_vis j Q R (c : call R) k s :
  (forall r s', served [] _ c s r s' -> succeeds c r -> ends j Q (k r) s') ->
  ends (S j) Q (Vis c k) s.
Proof. done. Qed.

Lemma idle_more i j w s : i <= j -> idle i w s -> idle j w s.
Proof.
  revert i j s. induction w as [out|R c k IH]; intros i j s Hij; [by destruct i, j|].
  destruct i as [|i]; [by intros []|]. destruct j as [|j]; [lia|]. cbn. intros H r s' Hs Hok.
  destruct (H r s' Hs Hok) as [-> Hi]. split; [done|]. eapply IH; [|exact Hi]. lia.
Qed.

Lemma ends_more i j Q w s : i <= j -> ends i Q w s -> ends j Q w s.
Proof.
  revert i j s. induction w as [out|R c k IH]; intros i j s Hij; [by destruct i, j|].
  destruct i as [|i]; [by intros []|]. destruct j as [|j]; [lia|]. cbn. intros H r s' Hs Hok.
  eapply IH; [|by apply H]. lia.
Qed.

(** ** Only this key's reconciles run *)

Section one_key.
Context (i : wid).

(** The steps that the controller makes for one key while nobody else changes
    anything, every call succeeds and the cache keeps up with the store: the event
    of a write is delivered before the next step, so that nothing is pending when a
    call is made.  A write that changes something may queue anything; one that
    changes nothing is no event. *)
Inductive solo (x : qsys) : qsys -> Prop :=
| solo_start : queued x i = true -> running x i = None ->
    solo x {| world := world x; pending := []; queued := setq (queued x) i false;
              running := setq (running x) i (Some (handlerOf rt rs i)) |}
| solo_call R (c : call R) k r s' q' :
    running x i = Some (Vis c k) -> served [] _ c (world x) r s' -> succeeds c r ->
    (s' = world x -> q' i = queued x i) ->
    solo x {| world := s'; pending := []; queued := q'; running := setq (running x) i (Some (k r)) |}
| solo_done out : running x i = Some (Ret out) ->
    solo x {| world := world x; pending := [];
              queued := setq (queued x) i (queued x i || again out);
              running := setq (running x) i None |}.

Lemma solo_inv x y : solo x y ->
  match running x i with
  | None => queued x i = true /\ y = {| world := world x; pending := []; queued := setq (queued x) i false;
      running := setq (running x) i (Some (handlerOf rt rs i)) |}
  | Some (Ret out) => y = {| world := world x; pending := [];
      queued := setq (queued x) i (queued x i || again out); running := setq (running x) i None |}
  | Some (Vis c k) => exists r s' q', served [] _ c (world x) r s' /\ succeeds c r /\
      (s' = world x -> q' i = queued x i) /\
      y = {| world := s'; pending := []; queued := q'; running := setq (running x) i (Some (k r)) |}
  end.
Proof. intros [? Hr|? ? ? ? ? ? Hr|? Hr]; rewrite Hr; eauto 9. Qed.

(** No execution from [x] makes more than [j] steps. *)
Definition bounded (j : nat) (x : qsys) : Prop :=
  forall k y, nsteps solo k x y -> k <= j.

Lemma bounded_step j x : (forall y, solo x y -> bounded j y) -> bounded (S j) x.
Proof.
  intros H k y Hk. inversion Hk as [|k' ? z ? Hz Hk']; subst; [lia|].
  specialize (H z Hz k' _ Hk'). lia.
Qed.

Lemma bounded_more j j' x : j <= j' -> bounded j x -> bounded j' x.
Proof. intros Hj H k y Hk. specialize (H k y Hk). lia. Qed.

Lemma bounded_rest j x : queued x i = false -> running x i = None -> bounded j x.
Proof.
  intros Hq Hr k y Hk. inversion Hk as [|k' ? z ? Hz _]; subst; [lia|].
  apply solo_inv in Hz. rewrite Hr in Hz. destruct Hz. congruence.
Qed.

(** From a reconcile that changes nothing on, nothing wakes the key. *)
Lemma idle_bounded j w x : running x i = Some w -> queued x i = false ->
  idle j w (world x) -> bounded (S j) x.
Proof.
  revert j x. induction w as [out|R c w IH]; intros j x Hr Hq Hi; apply bounded_step;
    intros y Hy%solo_inv; rewrite Hr in Hy.
  - subst y. apply bounded_rest; cbn; rewrite setq_eq; [|done]. by rewrite Hq; destruct j.
  - destruct j as [|j]; [done|]. destruct Hy as (r & s' & q' & Hs & Hok & Hnq & ->).
    destruct (Hi r s' Hs Hok) as [-> Hi']. eapply IH; cbn; [apply setq_eq| |done].
    by rewrite Hnq.
Qed.

(** A state in which the reconcile has nothing to write. *)
Context (P : state -> Prop) (j0 : nat).
Context (P_idle : forall s, P s -> idle j0 (handlerOf rt rs i) s).

Lemma written_bounded x : P (world x) -> running x i = None -> bounded (2 + j0) x.
Proof.
  intros Hw Hr. apply bounded_step. intros y Hy%solo_inv. rewrite Hr in Hy.
  destruct Hy as [_ ->]. apply idle_bounded with (w := handlerOf rt rs i); cbn; [apply setq_eq..|].
  by apply P_idle.
Qed.

Lemma ends_bounded j w x : running x i = Some w -> ends j P w (world x) ->
  bounded (j + (3 + j0)) x.
Proof.
  revert j x. induction w as [out|R c w IH]; intros j x Hr Hi; cbn in Hi.
  - apply (bounded_more (3 + j0)); [lia|]. apply bounded_step. intros y Hy%solo_inv.
    rewrite Hr in Hy. subst y. apply written_bounded; cbn; [by destruct j, Hi|apply setq_eq].
  - destruct j as [|j]; [done|]. apply bounded_step. intros y Hy%solo_inv. rewrite Hr in Hy.
    destruct Hy as (r & s' & q' & Hs & Hok & _ & ->).
    eapply IH; cbn; [apply setq_eq|by apply Hi].
Qed.

(** Two reconciles: one of at most [j] calls, one of at most [j0]. *)
Lemma settles_bounded j x : running x i = None ->
  ends j P (handlerOf rt rs i) (world x) -> bounded (4 + j + j0) x.
Proof.
  intros Hr He. apply (bounded_step (3 + j + j0)). intros y Hy%solo_inv. rewrite Hr in Hy.
  destruct Hy as [_ ->]. eapply bounded_more; [|eapply ends_bounded; [apply setq_eq|exact He]]. lia.
Qed.
End one_key.
End settling.

(** Conditions of different types set again, in the same order. *)
Section conditions.
Context `{M : MetaApi} `{L : !MetaLaws}.

Lemma findCondition_set_eq cs c : findCondition (SetStatusCondition cs c) (c_Type c) = Some c.
Proof. by rewrite findCondition_set, String.eqb_refl. Qed.

Lemma findCondition_set_ne cs c t : t <> c_Type c ->
  findCondition (SetStatusCondition cs c) t = findCondition cs t.
Proof. intros Hn. rewrite findCondition_set. by destruct (String.eqb_spec t (c_Type c)). Qed.

(** Conditions of different types set again, in the same order. *)
Lemma set_again cs a b : c_Type a <> c_Type b ->
  let done := SetStatusCondition (SetStatusCondition cs a) b in
  SetStatusCondition (SetStatusCondition done a) b = done.
Proof.
  intros Hab. cbn zeta.
  rewrite (SetStatusCondition_same _ a); [apply SetStatusCondition_same, findCondition_set_eq|].
  by rewrite (findCondition_set_ne _ b), findCondition_set_eq.
Qed.

Lemma set_again3 cs a b c :
  c_Type a <> c_Type b -> c_Type a <> c_Type c -> c_Type b <> c_Type c ->
  let done := SetStatusCondition (SetStatusCondition (SetStatusCondition cs a) b) c in
  SetStatusCondition (SetStatusCondition (SetStatusCondition done a) b) c = done.
Proof.
  intros Hab Hac Hbc. cbn zeta. rewrite (SetStatusCondition_same _ a).
  - by apply set_again.
  - by rewrite (findCondition_set_ne _ c), (findCondition_set_ne _ b), findCondition_set_eq.
Qed.

Lemma set_again4 cs a b c d :
  c_Type a <> c_Type b -> c_Type a <> c_Type c -> c_Type a <> c_Type d ->
  c_Type b <> c_Type c -> c_Type b <> c_Type d -> c_Type c <> c_Type d ->
  let done := SetStatusCondition
    (SetStatusCondition (SetStatusCondition (SetStatusCondition cs a) b) c) d in
  SetStatusCondition (SetStatusCondition (SetStatusCondition (SetStatusCondition done a) b) c) d
  = done.
Proof.
  intros Hab Hac Had Hbc Hbd Hcd. cbn zeta. rewrite (SetStatusCondition_same _ a).
  - by apply set_again3.
  - by rewrite (findCondition_set_ne _ d), (findCondition_set_ne _ c), (findCondition_set_ne _ b),
      findCondition_set_eq.
Qed.
End conditions.
