(* ===== verification/SampleQueue.v ===== *)
(** * Executions of the work queue over the small server

    For the witnesses of [Convergence] and the files after it: the stores and the
    names of the server of [SampleServer], and executions of [WorkQueue] over it,
    made of calls that change nothing and of calls that change something. *)
From stdpp Require Import relations.
From S2P Require Import Prelude Prog Kube Api Client Finalizers Indexes.
From S2P Require TenantController ServiceClaimController.
From S2P Require Import System WorkQueue.
From S2P Require Import Sample SampleApi SystemSample SampleServer Settling.
Open Scope prog_scope.

#[local] Existing Instance sample_kube.
#[local] Existing Instance sample_kube_laws.

Definition keyPair (m : NamespacedName) : string * string := (nn_Namespace m, nn_Name m).

#[export] Instance tidy_stores : Stores := {|
  claimAt := tidy_claim;
  namespaceAt s n := tidy_namespaces (tidy_owned s) !! ("", n);
  roleBindingAt s m := tidy_bindings (tidy_owned s) !! keyPair m;
  quotaAt s m := tidy_quotas (tidy_owned s) !! keyPair m;
|}.

(** What a lagging cache may answer instead: a Tenant, a claim or a namespace as it
    was before an event that is on its way. *)
Definition stale (evs : list watchEvent) {R} (c : call R) : R -> Prop :=
  match c in call R return R -> Prop with
  | Get Client k key =>
      match k in kind T return error + T -> Prop with
      | KTenant => fun r => exists ev t, ev ∈ evs /\ ev_kind ev = NTenant /\
          ev_old ev = Some (ObjTenant t) /\ t_Name t = nn_Name key /\ r = inr t
      | KServiceClaim => fun r => exists ev c, ev ∈ evs /\ ev_kind ev = NServiceClaim /\
          ev_old ev = Some (ObjServiceClaim c) /\ sc_Name c = nn_Name key /\ r = inr c
      | _ => fun _ => False
      end
  | CreateOrUpdate k obj mutate =>
      match k in kind T return (T -> error + T) -> error + OperationResult * T -> Prop with
      | KNamespace => fun mutate r => exists ev o, ev ∈ evs /\ ev_kind ev = NNamespace /\
          ev_old ev = Some (ObjOther (ns_ObjectMeta o)) /\ mutate o = inr o /\
          r = inr (OperationResultNone, o)
      | _ => fun _ _ => False
      end mutate
  | _ => fun _ => False
  end.

#[export] Instance tidy_cache : Cache := fun evs R c s r s' =>
  tidy_server R c s = (r, s') \/ s' = s /\ stale evs c r.

Lemma served_now R (c : call R) (s : tidy_state) r s' :
  served [] _ c s r s' -> tidy_server R c s = (r, s').
Proof.
  intros [Hs|[_ Hst]]; [exact Hs|exfalso].
  destruct c as [? rd k key|rd ? ?|? k obj mutate|? k obj p|? k obj p|? k obj u];
    try destruct rd; try destruct k; try done;
    by destruct Hst as (ev & x & ?%not_elem_of_nil & _).
Qed.

#[export] Instance tidy_names : StoredNames.
Proof.
  split; cbn.
  - intros s n c. apply named_name.
  - intros s n t. apply named_name.
  - intros evs s v r s' [[= <- <-]|[_ []]]. exists (tidy_list s). split; [done|].
    intros n c Hc _. apply tidy_list_elem. by rewrite (named_name _ _ _ _ Hc).
  - intros evs rd key s r s' [[= <- <-]|[-> Hst]] Hb.
    + split; [done|]. by destruct (tidy_tenant s (nn_Name key)).
    + exfalso. destruct rd; try done. destruct Hst as (ev & t & Hin & Hk & Ho & Hn & _).
      apply Hb. exists ev, (ObjTenant t). split_and!; [done|done|by left|done].
Qed.

#[local] Abbreviation work := (handlerOf small_rt small_rs).
#[local] Abbreviation step := (qstep small_rt small_rs).

(** ** Runs *)

(** A run in which no call changes anything. *)
Fixpoint still (w : worker) (s : tidy_state) : Prop :=
  match w with
  | Ret _ => True
  | Vis c k => let '(r, s') := tidy_server _ c s in s' = s /\ still (k r) s
  end.

Fixpoint returns (w : worker) (s : tidy_state) : Result * option error :=
  match w with
  | Ret out => out
  | Vis c k => let '(r, s') := tidy_server _ c s in returns (k r) s'
  end.

Definition is_call (w : worker) : bool := match w with Ret _ => false | Vis _ _ => true end.

(** A still run, one call at a time. *)
Lemma still_end w s : is_call w = false -> still w s.
Proof. by destruct w. Qed.

Lemma still_call w s : snd (next w s) = s -> still (fst (next w s)) s -> still w s.
Proof.
  destruct w as [out|R c k]; [done|]. cbn. destruct (tidy_server R c s) as [r s'].
  cbn. intros ->. done.
Qed.

(** [s] is given in normal form, so that each step is one evaluation. *)
Ltac still_run s :=
  repeat first
    [ apply still_end; vm_compute; reflexivity
    | apply still_call; [vm_cast_no_check (eq_refl s)|] ].

Lemma reported_same (s : tidy_state) evs : reported s s evs.
Proof. intros kd m. left. by destruct kd. Qed.

Definition lagging_q (s : tidy_state) (evs : list watchEvent) (q : wid -> bool)
    (f : wid -> option worker) : qsys :=
  {| world := s; pending := evs; queued := q; running := f |}.

Definition tidy_q (s : tidy_state) (q : wid -> bool) (f : wid -> option worker) : qsys :=
  lagging_q s [] q f.

(** A process that has just started. *)
Definition all_queued (s : tidy_state) : qsys := tidy_q s (fun _ => true) (fun _ => None).

Lemma all_queued_fresh s : fresh (all_queued s).
Proof. done. Qed.

(** What a state of the system shows of one key, when the cache is up to date. *)
Definition shows (i : wid) (x : qsys) (s : tidy_state) (q : bool) (w : option worker) : Prop :=
  world x = s /\ pending x = [] /\ queued x i = q /\ running x i = w.

(** The other keys are as they were. *)
Definition others (i : wid) (x y : qsys) : Prop :=
  forall j, j <> i -> queued y j = queued x j /\ running y j = running x j.

#[local] Instance others_preorder i : PreOrder (others i).
Proof.
  split; [done|]. intros x y z H1 H2 j Hj. destruct (H1 j Hj), (H2 j Hj). split; congruence.
Qed.

Lemma start_step i x s : shows i x s true None -> exists y,
  step x y /\ shows i y s false (Some (work i)) /\ others i x y.
Proof.
  intros (Hw & Hp & Hq & Hr). eexists. split; [by apply (q_start _ _ x i)|].
  split; [split_and!; cbn; [done|done|apply setq_eq..]|]. intros j Hj; cbn. by rewrite !setq_ne.
Qed.

(** A call that changes nothing. *)
Lemma silent_call i x w s : shows i x s false (Some w) -> is_call w = true -> snd (next w s) = s ->
  exists y, step x y /\ shows i y s false (Some (fst (next w s))) /\ others i x y.
Proof.
  intros (Hw & Hp & Hq & Hr) Hc Hs. destruct w as [out|R c k]; [done|]. cbn [next] in *.
  destruct (tidy_server R c s) as [r s'] eqn:Es. cbn [fst snd] in *. subst s'.
  eexists. split; [|split; [split_and!|]].
  - eapply (q_call small_rt small_rs x i R c k r s [] (queued x) Hr); [|rewrite Hw; apply reported_same|by intros j].
    rewrite Hw. by left.
  - done.
  - cbn. by rewrite Hp.
  - done.
  - apply setq_eq.
  - intros j Hj; cbn. by rewrite setq_ne.
Qed.

Lemma done_step i x s out : shows i x s false (Some (Ret out)) -> again out = false ->
  exists y, step x y /\ shows i y s false None /\ others i x y.
Proof.
  intros (Hw & Hp & Hq & Hr) Ha. eexists. split; [by apply (q_done _ _ x i out)|].
  split; [split_and!; cbn; [done|done|by rewrite setq_eq, Hq, Ha|apply setq_eq]|].
  intros j Hj; cbn. by rewrite !setq_ne.
Qed.

(** The same with a cache that is behind, as steps of the system alone. *)
Lemma lagging_start i s evs q f : q i = true -> f i = None -> exists f',
  step (lagging_q s evs q f) (lagging_q s evs (setq q i false) f') /\ f' i = Some (work i).
Proof.
  intros Hq Hf. eexists. split; [by apply (q_start _ _ (lagging_q s evs q f) i)|]. apply setq_eq.
Qed.

Lemma lagging_call i s evs q f R (c : call R) k r :
  f i = Some (Vis c k) -> served evs _ c s r s -> exists f',
  step (lagging_q s evs q f) (lagging_q s evs q f') /\ f' i = Some (k r).
Proof.
  intros Hf Hs. exists (setq f i (Some (k r))). split; [|apply setq_eq].
  pose proof (q_call small_rt small_rs (lagging_q s evs q f) i R c k r s [] q Hf Hs
    (reported_same s []) ltac:(by intros j)) as H.
  cbn in H. rewrite app_nil_r in H. exact H.
Qed.

Lemma lagging_silent i s evs q f w : f i = Some w -> is_call w = true -> snd (next w s) = s ->
  exists f', step (lagging_q s evs q f) (lagging_q s evs q f') /\ f' i = Some (fst (next w s)).
Proof.
  intros Hf Hc Hs. destruct w as [out|R c k]; [done|]. cbn [next] in *.
  destruct (tidy_server R c s) as [r s'] eqn:Es. cbn [fst snd] in *. subst s'.
  eapply lagging_call; [exact Hf|by left].
Qed.

(** The rest of a still run. *)
Lemma still_steps (I : tidy_state -> Prop) i w s x : I s -> still w s -> again (returns w s) = false ->
  shows i x s false (Some w) ->
  exists y, rtc (lawful small_rt small_rs I) x y /\ shows i y s false None /\ others i x y.
Proof.
  intros HI. revert x. induction w as [out|R c k IH]; intros x Hw Ha Hx.
  - destruct (done_step i x s out Hx Ha) as (y & Hy & Hs & Ho). exists y. split; [|done].
    apply rtc_once. split; [done|]. by rewrite (proj1 Hs).
  - destruct (silent_call i x (Vis c k) s Hx eq_refl) as (y & Hy & Hs & Ho).
    { cbn in *. destruct (tidy_server R c s) as [r s']. by destruct Hw. }
    cbn [next still returns] in *. destruct (tidy_server R c s) as [r s'] eqn:Es.
    destruct Hw as [-> Hw]. cbn [fst] in Hs.
    destruct (IH r y Hw Ha Hs) as (z & Hz & Hend & Hoz). exists z.
    split; [|split; [done|by transitivity y]].
    eapply rtc_l; [|exact Hz]. split; [done|]. by rewrite (proj1 Hs).
Qed.

(** A still reconcile that is not put back leaves the key at rest. *)
Lemma still_rests (I : tidy_state -> Prop) i s x : I s -> still (work i) s ->
  again (returns (work i) s) = false -> shows i x s true None ->
  exists y, rtc (lawful small_rt small_rs I) x y /\ world y = s /\ pending y = [] /\
    resting y i /\ others i x y.
Proof.
  intros HI Hst Ha Hx. destruct (start_step i x s Hx) as (y & Hy & Hs & Ho).
  destruct (still_steps I i _ _ y HI Hst Ha Hs) as (z & Hz & (Hw & Hp & Hq & Hr) & Hoz).
  exists z. split_and!; [|done|done| |by transitivity y].
  2: { split_and!; [done|done|]. rewrite Hp. by intros ev ?%not_elem_of_nil. }
  eapply rtc_l; [|exact Hz].
  split; [done|]. by rewrite (proj1 Hs).
Qed.

(** ** Executions of one key alone ([Settling]) *)

Definition succeedsb {R} (c : call R) : R -> bool :=
  match c in call R return R -> bool with
  | Get _ _ _ => fun r => match r with inl e => IsNotFound (Some e) | inr _ => true end
  | ListClaims _ _ _ => fun r => match r with inl _ => false | inr _ => true end
  | CreateOrUpdate _ _ _ => fun r => match r with inl _ => false | inr _ => true end
  | PatchObject _ _ _ => fun r => match r with inl _ => false | inr _ => true end
  | PatchStatus _ _ _ => fun r => match r with inl _ => false | inr _ => true end
  | Delete _ _ _ => fun r => match r with None => true | Some _ => false end
  end.

Lemma succeedsb_ok {R} (c : call R) r : succeedsb c r = true -> succeeds c r.
Proof. destruct c; cbn in *; destruct r; try done; eauto. Qed.

(** The number of calls of a run all of which succeed. *)
Fixpoint smooth (w : worker) (s : tidy_state) : option nat :=
  match w with
  | Ret _ => Some 0
  | Vis c k =>
      let '(r, s') := tidy_server _ c s in
      if succeedsb c r then S <$> smooth (k r) s' else None
  end.

(** Once the claim is queued, the rest of a run. *)
Lemma busy_run i w s x m : shows i x s true (Some w) -> (forall k, queued x k = true) ->
  smooth w s = Some m ->
  exists y, nsteps (solo small_rt small_rs i) (S m) x y /\
    shows i y (snd (interp tidy_server w s)) true None.
Proof.
  revert s x m. induction w as [out|R c k IH]; intros s x m (Hw & Hp & Hq & Hr) Hall Hm; cbn in Hm.
  - injection Hm as <-. eexists. split; [apply nsteps_once; by apply solo_done|].
    split_and!; cbn; [done|done|by rewrite setq_eq, Hq|apply setq_eq].
  - destruct (tidy_server R c s) as [r s'] eqn:Es. destruct (succeedsb c r) eqn:Hok; [|done].
    destruct (smooth (k r) s') as [m'|] eqn:Hm'; [|done]. injection Hm as <-.
    destruct (IH r s' (tidy_q s' (fun _ => true) (setq (running x) i (Some (k r)))) m')
      as (y & Hy & Hs); [|done|done|].
    { split_and!; [done|done|done|apply setq_eq]. }
    exists y. split.
    + eapply nsteps_l; [|exact Hy].
      eapply solo_call; [exact Hr|rewrite Hw; by left|by apply succeedsb_ok|done].
    + cbn [interp]. rewrite Es. by destruct (interp tidy_server (k r) s') as [[tr a] s2].
Qed.

(** A run that changes nothing. *)
Lemma still_run i w s x m : shows i x s false (Some w) -> still w s -> smooth w s = Some m ->
  again (returns w s) = false ->
  exists y, nsteps (solo small_rt small_rs i) (S m) x y /\ shows i y s false None.
Proof.
  revert x m. induction w as [out|R c k IH]; intros x m (Hw & Hp & Hq & Hr) Hst Hm Ha; cbn in Hm, Hst, Ha.
  - injection Hm as <-. eexists. split; [apply nsteps_once; by apply solo_done|].
    split_and!; cbn; [done|done|by rewrite setq_eq, Hq, Ha|apply setq_eq].
  - destruct (tidy_server R c s) as [r s'] eqn:Es. destruct Hst as [-> Hst].
    destruct (succeedsb c r) eqn:Hok; [|done].
    destruct (smooth (k r) s) as [m'|] eqn:Hm'; [|done]. injection Hm as <-.
    destruct (IH r (tidy_q s (queued x) (setq (running x) i (Some (k r)))) m')
      as (y & Hy & Hs); [|done|done|done|].
    { split_and!; [done|done|done|apply setq_eq]. }
    exists y. split; [|done]. eapply nsteps_l; [|exact Hy].
    eapply solo_call; [exact Hr|rewrite Hw; by left|by apply succeedsb_ok|done].
Qed.

Lemma start_run i s x : shows i x s true None -> exists y,
  solo small_rt small_rs i x y /\ shows i y s false (Some (work i)).
Proof.
  intros (Hw & Hp & Hq & Hr). eexists. split; [by apply solo_start|].
  split_and!; cbn; [done|done|apply setq_eq..].
Qed.

(** One call; [q] is what the key's place in the queue becomes. *)
Lemma call_run i w s x (q : bool) m : shows i x s false (Some w) -> smooth w s = Some (S m) ->
  (if q then snd (next w s) <> s else snd (next w s) = s) ->
  exists y, solo small_rt small_rs i x y /\
    shows i y (snd (next w s)) q (Some (fst (next w s))) /\ (q = true -> forall k, queued y k = true).
Proof.
  intros (Hw & Hp & Hq & Hr) Hm Hch. destruct w as [out|R c k]; [done|]. cbn [smooth next] in *.
  destruct (tidy_server R c s) as [r s'] eqn:Es. destruct (succeedsb c r) eqn:Hok; [|done].
  cbn [fst snd] in *. destruct q.
  - exists (tidy_q s' (fun _ => true) (setq (running x) i (Some (k r)))). split_and!.
    + unfold tidy_q, lagging_q. eapply solo_call; [exact Hr|rewrite Hw; by left|by apply succeedsb_ok|].
      by rewrite Hw.
    + split_and!; [done|done|done|apply setq_eq].
    + done.
  - subst s'. exists (tidy_q s (queued x) (setq (running x) i (Some (k r)))). split_and!.
    + unfold tidy_q, lagging_q. eapply solo_call; [exact Hr|rewrite Hw; by left|by apply succeedsb_ok|done].
    + split_and!; [done|done|done|apply setq_eq].
    + done.
Qed.

(** Two rounds of a key: a read, a write that wakes the key, the rest of the run,
    and a run that finds everything written. *)
Section two_rounds.
Context (i : wid) (s0 : tidy_state) (m1 m2 : nat).

Definition work1 : worker := fst (next (work i) s0).
Definition work2 : worker := fst (next work1 s0).
Definition state2 : tidy_state := snd (next work1 s0).
Definition settled : tidy_state := snd (interp tidy_server work2 state2).

Lemma two_rounds :
  snd (next (work i) s0) = s0 -> state2 <> s0 ->
  smooth (work i) s0 = Some (S (S m1)) -> smooth work1 s0 = Some (S m1) ->
  smooth work2 state2 = Some m1 ->
  still (work i) settled -> smooth (work i) settled = Some m2 ->
  again (returns (work i) settled) = false ->
  exists y, nsteps (solo small_rt small_rs i) (6 + m1 + m2) (all_queued s0) y /\
    shows i y settled false None.
Proof.
  intros E1 E2 M0 M1 M2 Hst Hm Ha.
  destruct (start_run i s0 (all_queued s0)) as (x1 & S1 & V1); [done|].
  destruct (call_run i (work i) s0 x1 false (S m1) V1 M0 E1) as (x2 & S2 & V2 & _).
  rewrite E1 in V2. destruct (call_run i work1 s0 x2 true m1 V2 M1 E2) as (x3 & S3 & V3 & A3).
  destruct (busy_run i work2 state2 x3 m1 V3 (A3 eq_refl) M2) as (x4 & S4 & V4).
  destruct (start_run i settled x4 V4) as (x5 & S5 & V5).
  destruct (still_run i (work i) settled x5 m2 V5 Hst Hm Ha) as (y & S6 & V6).
  exists y. split; [|exact V6]. replace (6 + m1 + m2) with (S (S (S (S m1 + S (S m2))))) by lia.
  eapply nsteps_l; [exact S1|]. eapply nsteps_l; [exact S2|]. eapply nsteps_l; [exact S3|].
  eapply nsteps_trans; [exact S4|]. eapply nsteps_l; [exact S5|exact S6].
Qed.
End two_rounds.
