(* ===== verification/Convergence.v ===== *)
(** * A claim at rest has converged

    Over the work queue and the lagging cache of [WorkQueue], with an arbitrary
    environment: whenever a claim is neither queued nor being reconciled and no
    event it depends on is on its way, what the controller is for has happened.  A
    wake-up that is missed, a retry that is forgotten or an outcome written from a
    stale read and never looked at again would break this. *)
From stdpp Require Import relations.
From S2P Require Import Prelude Prog Kube Api Client Finalizers Indexes.
From S2P Require TenantController.
From S2P Require Import ServiceClaimController ApplicationSpec System WorkQueue.
From S2P Require Import Sample SampleApi SystemSample SampleServer SampleQueue.
Open Scope prog_scope.

Section convergence.
Context `{K : Kube} `{A : !ApiServer} `{L : !KubeLaws} `{V : !Stores} `{CA : !Cache} {SN : StoredNames}.
Context (rt : TenantController.TenantReconciler) (rs : ServiceClaimReconciler).

(** An API server and a cache as far as a claim's reconcile relies on them: a read
    that is not behind answers what is stored, a write that is accepted is stored,
    NotFound means there is no such object, and an applied object is a mutated one
    up to what the server manages.  An Application is unstructured, which the
    client reads from the server. *)
Class ClaimServer : Prop := {
  answers_claim evs rd key s r s' : served evs _ (Get rd KServiceClaim key) s r s' ->
    ~ behind evs NServiceClaim (nn_Name key) -> s' = s /\
    match r with
    | inr c => claimAt s (nn_Name key) = Some c
    | inl e => IsNotFound (Some e) = true -> claimAt s (nn_Name key) = None
    end;
  answers_application evs rd key s a s' : served evs _ (Get rd KApplication key) s (inr a) s' ->
    nn_Namespace key = argoCDNamespace -> s' = s /\
    application s (nn_Name key) = Some a /\ om_Name (u_ObjectMeta a) = nn_Name key;
  stores_finalizers evs obj p s o s' :
    served evs _ (PatchObject KServiceClaim obj p) s (inr o) s' ->
    match claimAt s' (sc_Name obj) with
    | Some c => om_Finalizers (sc_ObjectMeta c) = om_Finalizers (sc_ObjectMeta obj)
    | None => True
    end;
  stores_status evs obj base s o s' :
    served evs _ (PatchStatus KServiceClaim obj (MergeFrom base)) s (inr o) s' ->
    claimAt s (sc_Name obj) = Some base ->
    claimAt s' (sc_Name obj) = Some o /\ sc_Status o = sc_Status obj;
  stores_application evs obj mutate s res o s' :
    served evs _ (CreateOrUpdate KApplication obj mutate) s (inr (res, o)) s' ->
    om_Namespace (u_ObjectMeta obj) = argoCDNamespace ->
    application s' (om_Name (u_ObjectMeta obj)) = Some o /\
    exists o0 o1, mutate o0 = inr o1 /\ u_Object o = u_Object o1 /\
      om_Labels (u_ObjectMeta o) = om_Labels (u_ObjectMeta o1) /\
      om_Namespace (u_ObjectMeta o) = om_Namespace (u_ObjectMeta o1) /\
      om_Finalizers (u_ObjectMeta o) = om_Finalizers (u_ObjectMeta o1) /\
      om_OwnerReferences (u_ObjectMeta o) = om_OwnerReferences (u_ObjectMeta o1);
  not_found_claim evs obj p s e s' :
    served evs _ (PatchObject KServiceClaim obj p) s (inl e) s' \/
    served evs _ (PatchStatus KServiceClaim obj p) s (inl e) s' ->
    IsNotFound (Some e) = true -> claimAt s (sc_Name obj) = None;
  not_found_application evs obj u s e s' :
    served evs _ (Delete KApplication obj u) s (Some e) s' ->
    IsNotFound (Some e) = true -> application s (om_Name (u_ObjectMeta obj)) = None;
}.
Context {CS : ClaimServer}.

(** ** What convergence means *)

(** The Application is the one the claim asks for, now. *)
Definition asked (c : ServiceClaim) (a : Unstructured) : Prop :=
  om_Labels (u_ObjectMeta a) = claimLabels c /\
  "resources-finalizer.argocd.argoproj.io" ∈ om_Finalizers (u_ObjectMeta a) /\
  controlledBy (sc_Name c) a /\
  forall p, p ∈ written_paths -> nested (u_Object a) p =
    desired rs c (teamNamespace (Team (sc_Spec c)))
      ("workloads/" +:+ Team (sc_Spec c) +:+ "/" +:+ sc_Name c) p.

(** The Tenant of the claim's team is there and Ready. *)
Definition teamReady (s : state) (c : ServiceClaim) : bool :=
  match tenant s (Team (sc_Spec c)) with
  | Some t => IsStatusConditionTrue (ts_Conditions (t_Status t)) ConditionReady
  | None => false
  end.

Definition live (c : ServiceClaim) : Prop :=
  TimeIsZero (om_DeletionTimestamp (sc_ObjectMeta c)) = true.

(** The status, and the Application, of a claim that is not being deleted. *)
Definition converged (s : state) (c : ServiceClaim) : Prop :=
  ContainsFinalizer (sc_ObjectMeta c) ServiceClaimFinalizer = true /\
  cs_ObservedGeneration (sc_Status c) = om_Generation (sc_ObjectMeta c) /\
  cs_Phase (sc_Status c) = (if teamReady s c then PhaseReady else PhasePending) /\
  (teamReady s c = true -> exists a, application s (sc_Name c) = Some a /\ asked c a).

Definition at_peace (n : string) (s : state) : Prop :=
  forall c, claimAt s n = Some c -> live c -> Team (sc_Spec c) <> "" -> converged s c.

Lemma teamReady_quiet n s s' c : quietClaim n s s' -> claimAt s n = Some c ->
  Team (sc_Spec c) <> "" -> teamReady s' c = teamReady s c.
Proof. intros (_ & Ht & _) Hc Hne. unfold teamReady. by rewrite Ht. Qed.

Lemma at_peace_quiet n s s' : quietClaim n s s' -> at_peace n s -> at_peace n s'.
Proof.
  intros Hq Hp c Hc Hl Hne. pose proof Hq as (Hcl & _ & Ha). rewrite Hcl in Hc.
  pose proof (stored_claim_name _ _ _ Hc) as Hn.
  destruct (Hp c Hc Hl Hne) as (H1 & H2 & H3 & H4). unfold converged.
  rewrite (teamReady_quiet n s s' c) by done. split_and!; [done..|].
  intros [a [Happ Hask]]%H4. exists a. split; [|done].
  subst n. apply Ha; [done|apply Hask].
Qed.

(** ** The reconcile is calm *)

Section lawful.
Context (I : state -> Prop).

(** A claim whose condition lets nothing be said is at peace. *)
Lemma calm_peaceful n s w : (forall s', quietClaim n s s' -> at_peace n s') ->
  calm I (WClaim n) (quietClaim n) (outcome (at_peace n)) w s.
Proof. intros H. apply calm_always; [apply _|]. intros s' Hq out. right. by apply H. Qed.

Lemma aggregateReady_phase c : cs_Phase (sc_Status (aggregateReady c)) =
    (if IsStatusConditionTrue (cs_Conditions (sc_Status c)) ConditionTenantReady
        && IsStatusConditionTrue (cs_Conditions (sc_Status c)) ConditionArgoAppCreated
     then PhaseReady else PhasePending) /\
  cs_ObservedGeneration (sc_Status (aggregateReady c)) = om_Generation (sc_ObjectMeta c) /\
  sc_Name (aggregateReady c) = sc_Name c.
Proof. unfold aggregateReady. by destruct (_ && _). Qed.

(** The last call, the status patch, when the outcome so far is no error. *)
Lemma calm_status n s c obj :
  claimAt s n = Some c -> sc_Name obj = n ->
  (forall s', quietClaim n s s' -> sc_Status c = sc_Status obj -> at_peace n s') ->
  calm I (WClaim n) (quietClaim n) (outcome (at_peace n))
    (let* p := trigger (PatchStatus KServiceClaim obj (MergeFrom c)) in
     match p with
     | inl err => Ret (emptyResult, Some err)
     | inr _ => Ret (emptyResult, None)
     end) s.
Proof.
  intros Hc Hn HP s1 H1 _ ev1 N1 [e|o] s2 Hs H2 _; [by apply calm_error|].
  intros s3 H3 _. right. pose proof (proj1 H1) as Hc1. rewrite Hc in Hc1.
  apply stores_status in Hs as [Hc' Hst]; [|by rewrite Hn].
  rewrite Hn in Hc'. rewrite (proj1 H2), Hc1 in Hc'. injection Hc' as <-.
  apply HP; [by do 2 (etransitivity; [eassumption|])|done].
Qed.

(** The same when the reconcile has an error to return. *)
Lemma calm_status_error n P s obj c e :
  calm I (WClaim n) (quietClaim n) (outcome P)
    (let* p := trigger (PatchStatus KServiceClaim obj (MergeFrom c)) in
     match p with
     | inl err => Ret (emptyResult, Some e)
     | inr _ => Ret (emptyResult, Some e)
     end) s.
Proof. intros s1 _ _ ev1 _ [e'|o] s2 _ _ _; by apply calm_error. Qed.

(** A claim that waits for its Tenant. *)
Lemma waiting_peace n s s' c reason message :
  claimAt s n = Some c -> ContainsFinalizer (sc_ObjectMeta c) ServiceClaimFinalizer = true ->
  teamReady s c = false -> quietClaim n s s' ->
  sc_Status c = sc_Status (aggregateReady
    (setCondition c ConditionTenantReady ConditionFalse reason message)) ->
  at_peace n s'.
Proof.
  intros Hc Hf Ht Hq Hst c0 Hc0 Hl Hne. rewrite (proj1 Hq), Hc in Hc0. injection Hc0 as <-.
  destruct (aggregateReady_phase
    (setCondition c ConditionTenantReady ConditionFalse reason message)) as (Hp & Hg & _).
  unfold converged. rewrite (teamReady_quiet _ _ _ _ Hq Hc Hne), Ht.
  split_and!; [done| | |done].
  - by rewrite Hst, Hg.
  - rewrite Hst, Hp. unfold setCondition. cbn. by rewrite IsStatusConditionTrue_set.
Qed.

Lemma applied_peace n s s' c a m1 m2 r :
  claimAt s n = Some c -> ContainsFinalizer (sc_ObjectMeta c) ServiceClaimFinalizer = true ->
  (Team (sc_Spec c) <> "" -> teamReady s c = true) -> application s n = Some a -> asked c a -> quietClaim n s s' ->
  sc_Status c = sc_Status (aggregateReady (setCondition
    (setCondition c ConditionTenantReady ConditionTrue r m1)
    ConditionArgoAppCreated ConditionTrue "ApplicationApplied" m2)) ->
  at_peace n s'.
Proof.
  intros Hc Hf Ht Ha Hask Hq Hst c0 Hc0 Hl Hne. rewrite (proj1 Hq), Hc in Hc0. injection Hc0 as <-.
  pose proof (stored_claim_name _ _ _ Hc) as Hn. subst n.
  match type of Hst with _ = sc_Status (aggregateReady ?x) =>
    destruct (aggregateReady_phase x) as (Hp & Hg & _) end.
  unfold converged. rewrite (teamReady_quiet _ _ _ _ Hq Hc Hne), (Ht Hne).
  split_and!; [done| | |].
  - by rewrite Hst, Hg.
  - rewrite Hst, Hp. unfold setCondition. cbn. by rewrite !IsStatusConditionTrue_set.
  - intros _. exists a. split; [|done]. by apply Hq, Hask.
Qed.

(** An applied Application is the one asked for. *)
Lemma applied_asked c o o0 o1 :
  mutateApplication rs c (teamNamespace (Team (sc_Spec c)))
    ("workloads/" +:+ Team (sc_Spec c) +:+ "/" +:+ sc_Name c) o0 = inr o1 ->
  u_Object o = u_Object o1 ->
  om_Labels (u_ObjectMeta o) = om_Labels (u_ObjectMeta o1) ->
  om_Finalizers (u_ObjectMeta o) = om_Finalizers (u_ObjectMeta o1) ->
  om_OwnerReferences (u_ObjectMeta o) = om_OwnerReferences (u_ObjectMeta o1) -> asked c o.
Proof.
  intros Hm Ho Hl Hf Hr. apply mutateApplication_inv in Hm as (_ & Hm & Hp & _).
  apply SetControllerReference_ok in Hm as [Em (ref & Hc & Hk & Hn & _)].
  destruct (preparedMeta_spec c (u_ObjectMeta o0)) as (fins & Ef & Hfin). rewrite Ef in Em.
  unfold asked. split_and!.
  - by rewrite Hl, Em.
  - rewrite Hf, Em. apply Hfin. by left.
  - exists ref. unfold controllerOf in *. by rewrite Hr.
  - intros p Hin. rewrite Ho. by apply Hp.
Qed.

(** From the finalizer on: the gate, the Application, the status. *)
Lemma calm_gate n s c : claimAt s n = Some c ->
  ContainsFinalizer (sc_ObjectMeta c) ServiceClaimFinalizer = true ->
  calm I (WClaim n) (quietClaim n) (outcome (at_peace n))
    (let* ' (claim, reconcileErr) := reconcileClaim rs c in
     let* p := trigger (PatchStatus KServiceClaim (aggregateReady claim) (MergeFrom c)) in
     match p with
     | inl err => match reconcileErr with
                  | Some _ => Ret (emptyResult, reconcileErr)
                  | None => Ret (emptyResult, Some err)
                  end
     | inr _ => Ret (emptyResult, reconcileErr)
     end) s.
Proof.
  intros Hc Hf. pose proof (stored_claim_name _ _ _ Hc) as Hn.
  destruct (decide (Team (sc_Spec c) = "")) as [Hteam|Hteam].
  { apply calm_peaceful. intros s' Hq c' Hc' _ Hne. rewrite (proj1 Hq), Hc in Hc'. congruence. }
  unfold reconcileClaim. cbn [bind trigger]. apply calm_vis.
  intros s1 H1 I1 ev1 N1 r s2 Hs H2 I2.
  assert (Hc1 : claimAt s1 n = Some c) by (by rewrite (proj1 H1)).
  apply answers_tenant in Hs as [-> Hr]; [|by eapply unconcerned_team]. cbn in Hr.
  assert (Hname : forall x, sc_Name x = n -> sc_Name (aggregateReady x) = n)
    by (intros x <-; apply aggregateReady_phase).
  destruct r as [e|t].
  - destruct (IsNotFound (Some e)) eqn:He; cbn [bind];
      [|apply calm_status_error].
    apply calm_status; [done|by apply Hname|]. intros s' Hq Hst.
    eapply waiting_peace; [exact Hc1|done| |exact Hq|exact Hst].
    unfold teamReady. by rewrite Hr.
  - destruct (IsStatusConditionTrue (ts_Conditions (t_Status t)) ConditionReady) eqn:Ht;
      cbn [negb bind].
    2: { apply calm_status; [done|by apply Hname|]. intros s' Hq Hst.
      eapply waiting_peace; [exact Hc1|done| |exact Hq|exact Hst].
      unfold teamReady. by rewrite Hr. }
    unfold ensureArgoApplication. cbn [bind trigger]. apply calm_vis.
    intros s3 H3 _ ev2 _ res s4 Happ H4 _. destruct res as [e|[op o]]; cbn [bind];
      [apply calm_status_error|].
    apply stores_application in Happ as (Ho & o0 & o1 & Hm & E1 & E2 & _ & E3 & E4); [|done].
    cbn in Ho. change (sc_Name (setCondition _ _ _ _ _)) with (sc_Name c) in Ho. rewrite Hn in Ho.
    assert (H14 : quietClaim n s1 s4) by (by transitivity s3).
    assert (Hc4 : claimAt s4 n = Some c) by (by rewrite (proj1 H14)).
    apply calm_status; [done|by apply Hname|]. intros s' Hq Hst.
    eapply applied_peace; [exact Hc4|done| |exact Ho| |exact Hq|exact Hst].
    + intros Hne. rewrite (teamReady_quiet _ _ _ _ H14 Hc1 Hne). unfold teamReady. by rewrite Hr.
    + by eapply applied_asked.
Qed.

(** The finalizer comes first; a claim that gets it is queued by that change. *)
Lemma calm_live n s c : claimAt s n = Some c ->
  calm I (WClaim n) (quietClaim n) (outcome (at_peace n)) (reconcileLive rs c) s.
Proof.
  intros Hc. pose proof (stored_claim_name _ _ _ Hc) as Hn. unfold reconcileLive, ensureFinalizer.
  destruct (ContainsFinalizer (GetMeta c) ServiceClaimFinalizer) eqn:Hf; cbn [bind];
    [by apply calm_gate|].
  cbn [trigger bind]. apply calm_vis. intros s1 H1 _ ev1 N1 [e|o] s2 Hs H2 _; [by apply calm_error|]. exfalso.
  apply stores_finalizers in Hs. cbn in Hs. unfold sc_Name in Hs. cbn in Hs.
  rewrite AddFinalizer_name in Hs. fold (sc_Name c) in Hs.
  rewrite Hn, (proj1 H2), (proj1 H1), Hc in Hs.
  apply not_true_iff_false in Hf. apply Hf, ContainsFinalizer_spec. cbn. rewrite Hs.
  apply AddFinalizer_spec. by left.
Qed.

(** [Reconcile] up to the branch on the deletion timestamp. *)
Lemma calm_reconcile n P s : (forall s, claimAt s n = None -> P s) ->
  (forall s c, claimAt s n = Some c -> ~ live c ->
     calm I (WClaim n) (quietClaim n) (outcome P) (reconcileDelete c) s) ->
  (forall s c, claimAt s n = Some c -> live c ->
     calm I (WClaim n) (quietClaim n) (outcome P) (reconcileLive rs c) s) ->
  calm I (WClaim n) (quietClaim n) (outcome P) (Reconcile rs (requestFor n)) s.
Proof.
  intros Hnone Hdel Hlive. unfold Reconcile. cbn [bind trigger]. apply calm_vis.
  intros s1 H1 I1 ev1 N1 r s2 Hs H2 I2. apply answers_claim in Hs as [-> Hr]; [|by apply (unconcerned_own (WClaim n) s1)]. cbn in Hr. destruct r as [e|c].
  - intros s3 H3 _. destruct (IsNotFound (Some e)) eqn:He.
    + right. apply Hnone. rewrite (proj1 H3). auto.
    + left. rewrite IgnoreNotFound_spec, He. done.
  - unfold live in *. destruct (TimeIsZero (om_DeletionTimestamp (sc_ObjectMeta c))) eqn:Hd;
      cbn [negb]; [by apply Hlive|apply Hdel; congruence].
Qed.

Lemma reconcile_calm n s :
  calm I (WClaim n) (quietClaim n) (outcome (at_peace n)) (Reconcile rs (requestFor n)) s.
Proof.
  apply calm_reconcile; [by intros s' Hs c; rewrite Hs| |by intros; apply calm_live].
  intros s1 c Hc Hl. apply calm_peaceful. intros s2 H2 c' Hc'.
  rewrite (proj1 H2), Hc in Hc'. by injection Hc' as <-.
Qed.

(** ** A claim being deleted *)

(** It does not carry the platform's finalizer. *)
Definition let_go (n : string) (s : state) : Prop :=
  forall c, claimAt s n = Some c -> ~ live c ->
    ContainsFinalizer (sc_ObjectMeta c) ServiceClaimFinalizer = false.

(** What holds while the claim is stored, when it cannot be. *)
Lemma calm_contradiction n s w : ~ (exists s', quietClaim n s s') ->
  calm I (WClaim n) (quietClaim n) (outcome (let_go n)) w s.
Proof. intros H. apply calm_always; [apply _|]. intros s' Hq. destruct H. by exists s'. Qed.

(** A status patch after which the claim is looked at again. *)
Lemma calm_patch_again n P s obj p res : RequeueAfter res <> 0%Z ->
  calm I (WClaim n) (quietClaim n) (outcome P)
    (let* p := trigger (PatchStatus KServiceClaim obj p) in
     match p with
     | inl err => Ret (emptyResult, Some err)
     | inr _ => Ret (res, None)
     end) s.
Proof. intros Hr s1 _ _ ev1 _ [e|o] s2 _ _ _; [by apply calm_error|by apply calm_again]. Qed.

(** The last steps of the drain cannot succeed quietly: a release changes the
    claim. *)
Lemma calm_release n s c obj : claimAt s n = Some c -> sc_Name obj = n ->
  ContainsFinalizer (sc_ObjectMeta c) ServiceClaimFinalizer = true ->
  calm I (WClaim n) (quietClaim n) (outcome (let_go n))
    (let* p := trigger (PatchStatus KServiceClaim obj (MergeFrom c)) in
     match p with
     | inl patchErr => Ret (emptyResult, IgnoreNotFound (Some patchErr))
     | inr claim =>
         let* ' (_, relErr) := releaseFinalizer claim ServiceClaimFinalizer in
         match relErr with
         | Some relErr => Ret (emptyResult, Some relErr)
         | None => Ret (emptyResult, None)
         end
     end) s.
Proof.
  intros Hc Hn Hf. cbn [bind trigger]. apply calm_vis. intros s1 H1 I1 ev1 N1 r s2 Hs H2 I2.
  pose proof (proj1 H1) as Hc1. rewrite Hc in Hc1. destruct r as [e|o].
  - destruct (IsNotFound (Some e)) eqn:He.
    + exfalso. pose proof (not_found_claim _ _ _ _ _ _ (or_intror Hs) He) as Hno.
      rewrite Hn in Hno. congruence.
    + rewrite IgnoreNotFound_spec, He. apply calm_error.
  - apply stores_status in Hs as [Ho _]; [|by rewrite Hn]. rewrite Hn in Ho.
    rewrite (proj1 H2), Hc1 in Ho. injection Ho as <-.
    unfold releaseFinalizer. cbn [GetMeta ServiceClaim_ClientObject]. rewrite Hf.
    cbn [negb bind trigger]. apply calm_vis. intros s3 H3 _ ev2 _ [e|o] s4 Hs H4 _; [by apply calm_error|].
    exfalso. apply stores_finalizers in Hs. unfold sc_Name in Hs. cbn in Hs.
    rewrite RemoveFinalizer_name in Hs. fold (sc_Name c) in Hs.
    rewrite (stored_claim_name _ _ _ Hc), (proj1 H4), (proj1 H3), (proj1 H2), Hc1 in Hs.
    apply ContainsFinalizer_spec in Hf. rewrite Hs in Hf.
    apply RemoveFinalizer_spec in Hf as [Hne _]. done.
Qed.

(** The Applications stored under a name are controlled by the claim. *)
Definition ownedApplication (n : string) (s : state) : Prop :=
  forall a, application s n = Some a -> controlledBy n a.

Section drain.
Context (n : string) (owned : forall s, I s -> ownedApplication n s).

Lemma drain_calm s c : claimAt s n = Some c ->
  ContainsFinalizer (sc_ObjectMeta c) ServiceClaimFinalizer = true ->
  calm I (WClaim n) (quietClaim n) (outcome (let_go n)) (reconcileDelete c) s.
Proof.
  intros Hc Hf. pose proof (stored_claim_name _ _ _ Hc) as Hn.
  unfold reconcileDelete. rewrite Hf. cbn [negb bind trigger]. apply calm_vis.
  intros s1 H1 I1 ev1 N1 r s2 Hs H2 I2. pose proof (proj1 H1) as Hc1. rewrite Hc in Hc1.
  assert (Hc2 : claimAt s2 n = Some c) by (by rewrite (proj1 H2)). destruct r as [e|a].
  - destruct (IsNotFound (Some e)) eqn:He; [|by apply calm_error]. by apply calm_release.
  - apply answers_application in Hs as (-> & Ha & Han); [|done]. cbn in Ha, Han.
    change (sc_Name (sc_set_Phase PhaseTerminating c)) with (sc_Name c) in Ha, Han.
    rewrite Hn in Ha, Han.
    destruct (om_DeletionTimestamp (u_ObjectMeta a)); [by apply calm_patch_again|].
    apply calm_vis. intros s3 H3 _ ev2 _ [e|] s4 Hs H4 _; [|by apply calm_patch_again].
    destruct (IsNotFound (Some e)) eqn:He.
    + exfalso. pose proof (not_found_application _ _ _ _ _ _ Hs He) as Hno.
      pose proof (proj2 (proj2 H3) a Ha (owned _ I1 _ Ha)) as Ha3. congruence.
    + rewrite IgnoreNotFound_spec, He. apply calm_error.
Qed.

Lemma drain_reconcile_calm s :
  calm I (WClaim n) (quietClaim n) (outcome (let_go n)) (Reconcile rs (requestFor n)) s.
Proof.
  apply calm_reconcile; [by intros s' Hs c; rewrite Hs|intros s1 c Hc _|intros s1 c Hc Hl].
  - destruct (ContainsFinalizer (sc_ObjectMeta c) ServiceClaimFinalizer) eqn:Hf;
      [by apply drain_calm|].
    apply calm_always; [apply _|]. intros s2 H2 out. right. intros c' Hc' _.
    rewrite (proj1 H2), Hc in Hc'. by injection Hc' as <-.
  - apply calm_always; [apply _|]. intros s2 H2 out. right. intros c' Hc' Hl'.
    rewrite (proj1 H2), Hc in Hc'. by injection Hc' as <-.
Qed.

Lemma let_go_quiet s s' : quietClaim n s s' -> let_go n s -> let_go n s'.
Proof. intros Hq Hp c Hc. apply Hp. by rewrite <- (proj1 Hq). Qed.

End drain.
End lawful.

(** ** Theorems *)

Lemma claim_at_peace x0 x n : fresh x0 -> rtc (qstep rt rs) x0 x -> resting x (WClaim n) ->
  at_peace n (world x).
Proof.
  intros Hf Hr Hrest.
  apply (at_rest rt rs (fun _ => True) (WClaim n) (quietClaim n) (unheard_quietClaim n)
    (at_peace n) (at_peace_quiet n) (reconcile_calm (fun _ => True) n) x0 x Hf I);
    [by apply rtc_lawful|done].
Qed.

(** C5: a claim at rest has converged.  Start the controller on any cluster, let
    users, ArgoCD, the Tenant controller and other claims change anything between
    any two of its calls, events arrive late and in any order, so that the cache
    the controller reads lags behind the store, calls fail and the process
    restart: whenever a claim that names a team and is not being deleted is
    neither queued nor being reconciled, and no event it depends on is on its way,
    it carries the finalizer, its status is of its generation, its phase is Ready
    exactly when the Tenant of its team is there and Ready, and when it is Ready
    its Application exists, is controlled by the claim and is what the claim asks
    for now.  So no wake-up is missed, no stale read has the last word and no
    drift stays. *)
Theorem claim_at_rest_converged x0 x n c :
  fresh x0 -> rtc (qstep rt rs) x0 x -> resting x (WClaim n) ->
  claimAt (world x) n = Some c -> live c -> Team (sc_Spec c) <> "" ->
  converged (world x) c.
Proof. intros Hf Hr Hrest. by eapply claim_at_peace. Qed.

(** C10: the drain of a claim is never forgotten.  In the same system, as long as
    the Applications stored under the claim's name are controlled by it, a claim
    that is being deleted and still carries the platform's finalizer is queued or
    being reconciled, or an event that will queue it is on its way: every outcome
    of the drain that does not release it is retried or waits for such an event. *)
Theorem deleted_claim_at_rest_released x0 x n c :
  fresh x0 -> ownedApplication n (world x0) ->
  rtc (lawful rt rs (ownedApplication n)) x0 x -> resting x (WClaim n) ->
  claimAt (world x) n = Some c -> ~ live c ->
  ContainsFinalizer (sc_ObjectMeta c) ServiceClaimFinalizer = false.
Proof.
  intros Hf Ho Hr Hrest. revert c.
  apply (at_rest rt rs (ownedApplication n) (WClaim n) (quietClaim n) (unheard_quietClaim n)
    (let_go n) (let_go_quiet n)
    (drain_reconcile_calm (ownedApplication n) n (fun s H => H)) x0 x Hf Ho Hr Hrest).
Qed.
End convergence.

(** ** Witnesses *)

Section witnesses.
#[local] Existing Instance sample_kube.
#[local] Existing Instance sample_kube_laws.

Lemma tidy_lands s c o : tidy_claim s (sc_Name o) = Some c ->
  match tidy_claim (with_claims (lands sc_Name sc_ObjectMeta c o (tidy_claims s)) s) (sc_Name o) with
  | Some c => c = o
  | None => True
  end.
Proof.
  intros _. unfold tidy_claim. cbn.
  destruct (lands_cases sc_Name sc_ObjectMeta c o (tidy_claims s)) as [-> | ->].
  - by rewrite named_insert.
  - by rewrite named_delete.
Qed.

#[local] Instance tidy_claim_server : ClaimServer.
Proof.
  split; cbn [state tidy_api claimAt tidy_stores].
  - intros evs rd key s r s' [[= <- <-]|[-> Hst]] Hb.
    + split; [done|]. cbn. by destruct (tidy_claim s (nn_Name key)).
    + exfalso. destruct rd; try done. destruct Hst as (ev & c & Hin & Hk & Ho & Hn & _).
      apply Hb. exists ev, (ObjServiceClaim c). split_and!; [done|done|by left|done].
  - intros evs rd key s a s' [Hs|[_ Hst]] _; [|by destruct rd].
    cbn in Hs. destruct (tidy_app s (nn_Name key)) as [a'|] eqn:E; [|done].
    injection Hs as <- <-. split_and!; [done|done|]. by apply (named_name app_name) in E.
  - intros evs obj p s o s' [Hs|[_ []]].
    cbn -[conflicts] in Hs. destruct (tidy_claim s (sc_Name obj)) as [c|] eqn:E; [|done].
    destruct (conflicts _ _ _); [done|].
    injection Hs as <- <-. pose proof (tidy_lands s c obj E) as Hl.
    destruct (tidy_claim (with_claims _ _) (sc_Name obj)) as [c'|]; [by rewrite Hl|done].
  - intros evs obj base s o s' [Hs|[_ []]] Hb. cbn in Hs. rewrite Hb in Hs. injection Hs as <- <-.
    pose proof (named_name _ _ _ _ Hb) as Hn. split; [|done]. rewrite <- Hn.
    exact (named_insert sc_Name (tidy_claims s) (sc_set_status base (sc_Status obj))).
  - intros evs obj mutate s res o s' [Hs|[_ []]] _. cbn in Hs.
    destruct (mutate _) as [e|o1] eqn:Hm; [done|].
    destruct (String.eqb_spec (app_name o1) (app_name obj)) as [Hn|]; [|done].
    injection Hs as <- <- <-. split; [|by eexists _, _].
    fold (app_name obj). rewrite <- Hn. apply named_insert.
  - intros evs obj p s e s' [[Hs|[_ []]]|[Hs|[_ []]]] Hnf; cbn -[conflicts] in Hs; revert Hs;
      destruct (tidy_claim s (sc_Name obj)); try (destruct (conflicts _ _ _));
      by intros [= <- <-].
  - intros evs obj u s e s' [Hs|[_ []]] Hnf. cbn in Hs. fold (app_name obj) in *.
    revert Hs. cbn. destruct (tidy_app s (app_name obj)); [case_match|]; by intros [= <- <-].
Qed.

(** A claim whose Tenant is Ready, after one reconcile. *)
Definition ready_tenant : Tenant :=
  t_set_status (sample_tenant "payments" None [TenantFinalizer] None)
    {| ts_Phase := PhaseReady; ts_ObservedGeneration := 1;
       ts_Conditions := [{| c_Type := ConditionReady; c_Status := ConditionTrue;
         c_ObservedGeneration := 1; c_Reason := ""; c_Message := "" |}] |}.

Definition reconciled (s : tidy_state) : tidy_state :=
  snd (interp tidy_server (Reconcile small_rs (requestFor "shop")) s).

Definition serving : tidy_state := reconciled {|
  tidy_tenants := {["payments" := ready_tenant]};
  tidy_claims := {["shop" := sample_claim "shop" "payments" "shop:1" (Some 2%Z)
                     [ServiceClaimFinalizer] None]};
  tidy_apps := ∅; tidy_owned := no_objects |}.

(** The claim as it is stored then. *)
Definition shop_served : ServiceClaim :=
  default (sample_claim "" "" "" None [] None) (tidy_claim serving "shop").

Lemma serving_claim : tidy_claim serving "shop" = Some shop_served.
Proof. vm_compute. reflexivity. Qed.

Lemma shop_served_ready : teamReady serving shop_served = true.
Proof. vm_compute. reflexivity. Qed.

Lemma shop_served_live : live shop_served.
Proof. vm_compute. reflexivity. Qed.

Lemma shop_served_team : Team (sc_Spec shop_served) <> "".
Proof. vm_compute. discriminate. Qed.

(** A second reconcile finds nothing to change. *)
Lemma serving_still : still (handlerOf small_rt small_rs (WClaim "shop")) serving.
Proof. vm_compute. repeat split. Qed.

Lemma claim_at_rest_converged_witness :
  exists x, resting x (WClaim "shop") /\ tidy_claim (world x) "shop" = Some shop_served /\
    teamReady (world x) shop_served = true /\ converged small_rs (world x) shop_served.
Proof.
  destruct (still_rests (fun _ => True) (WClaim "shop") serving (all_queued serving))
    as (x & Hr & Hw & _ & Hrest & _); [done|exact serving_still|vm_compute; reflexivity|done|].
  exists x.
  assert (Hc : tidy_claim (world x) "shop" = Some shop_served) by (rewrite Hw; exact serving_claim).
  assert (Ht : teamReady (world x) shop_served = true) by (rewrite Hw; exact shop_served_ready).
  refine (conj Hrest (conj Hc (conj Ht _))).
  exact (claim_at_rest_converged (A:=tidy_api) small_rt small_rs (all_queued serving) x "shop" shop_served
    (all_queued_fresh serving) (lawful_rtc _ _ _ _ _ Hr) Hrest Hc shop_served_live shop_served_team).
Defined.

(** A claim that another finalizer still holds after the drain. *)
Definition lingering : ServiceClaim :=
  sample_claim "shop" "payments" "shop:1" None ["example.com/audit"] (Some 1%Z).

Definition drained : tidy_state :=
  {| tidy_tenants := ∅; tidy_claims := {["shop" := lingering]}; tidy_apps := ∅; tidy_owned := no_objects |}.

Lemma drained_owned : ownedApplication "shop" drained.
Proof. intros a Ha. vm_compute in Ha. discriminate. Qed.

Lemma deleted_claim_at_rest_released_witness :
  exists x, resting x (WClaim "shop") /\ tidy_claim (world x) "shop" = Some lingering /\
    ContainsFinalizer (sc_ObjectMeta lingering) ServiceClaimFinalizer = false.
Proof.
  destruct (still_rests (ownedApplication (A:=tidy_api) "shop") (WClaim "shop") drained (all_queued drained))
    as (x & Hr & Hw & _ & Hrest & _); [exact drained_owned|vm_compute; repeat split|done|done|].
  exists x.
  assert (Hc : tidy_claim (world x) "shop" = Some lingering) by (rewrite Hw; reflexivity).
  refine (conj Hrest (conj Hc _)).
  refine (deleted_claim_at_rest_released (A:=tidy_api) small_rt small_rs (all_queued drained) x "shop"
    lingering (all_queued_fresh drained) drained_owned Hr Hrest Hc _).
  discriminate.
Defined.

(** ** A read that is behind *)

(** The Tenant has just become Ready; the event is on its way, and the claim, which
    waited for it, is looked at once more before it arrives. *)
Definition waiting_tenant : Tenant := sample_tenant "payments" None [TenantFinalizer] None.

Definition waiting : tidy_state := Eval vm_compute in reconciled {|
  tidy_tenants := {["payments" := waiting_tenant]};
  tidy_claims := {["shop" := sample_claim "shop" "payments" "shop:1" (Some 2%Z)
                     [ServiceClaimFinalizer] None]};
  tidy_apps := ∅; tidy_owned := no_objects |}.

Definition turned_ready : tidy_state := Eval vm_compute in
  with_tenants {["payments" := ready_tenant]} waiting.

Definition became_ready : watchEvent := {|
  ev_kind := NTenant; ev_old := Some (ObjTenant waiting_tenant);
  ev_new := Some (ObjTenant ready_tenant) |}.

(** A worker about to read a Tenant through the cache. *)
Definition reads_tenant (w : worker) : option (NamespacedName * (error + Tenant -> worker)) :=
  match w with
  | Ret _ => None
  | Vis c k =>
      match c in call R return (R -> worker) -> option (NamespacedName * (error + Tenant -> worker)) with
      | Get Client kd key =>
          match kd in kind T return (error + T -> worker) -> _ with
          | KTenant => fun k => Some (key, k)
          | _ => fun _ => None
          end
      | _ => fun _ => None
      end k
  end.

Lemma reads_tenant_inv w key k : reads_tenant w = Some (key, k) -> w = Vis (Get Client KTenant key) k.
Proof.
  destruct w as [out|R c k0]; [done|]. destruct c as [T rd kd key'| | | | | ]; try done.
  destruct rd; try done. destruct kd; try done. by intros [= -> ->].
Qed.

Definition look0 : worker := handlerOf small_rt small_rs (WClaim "shop").
Definition look1 : worker := fst (next look0 turned_ready).
Definition look2 : worker :=
  match reads_tenant look1 with Some (_, k) => k (inr waiting_tenant) | None => look1 end.
Definition look3 : worker := fst (next look2 turned_ready).

(** The claim as it is stored. *)
Definition shop_waiting : ServiceClaim :=
  default (sample_claim "" "" "" None [] None) (tidy_claim turned_ready "shop").

Lemma look_calls : is_call look0 = true /\ is_call look2 = true /\ look3 = Ret (emptyResult, None).
Proof. split_and!; vm_compute; reflexivity. Qed.

Lemma look_silent : snd (next look0 turned_ready) = turned_ready /\
  snd (next look2 turned_ready) = turned_ready.
Proof. split; vm_compute; reflexivity. Qed.

Lemma look_reads : option_map fst (reads_tenant look1) = Some (WorkQueue.cluster "payments").
Proof. vm_compute. reflexivity. Qed.

Lemma shop_behind : tidy_claim turned_ready "shop" = Some shop_waiting /\
  cs_Phase (sc_Status shop_waiting) = PhasePending /\ teamReady turned_ready shop_waiting = true.
Proof. split_and!; vm_compute; reflexivity. Qed.

(** The read is answered from before the event, the status that is there is written
    again, and the reconcile ends: the claim says Pending although its Tenant is
    Ready, and is neither queued nor running.  It is not at rest, as the event is
    still on its way, and whenever that is delivered the claim is queued. *)
Lemma stale_read_is_repaired : exists x,
  rtc (qstep small_rt small_rs) (lagging_q turned_ready [became_ready] (fun _ => true) (fun _ => None)) x /\
  queued x (WClaim "shop") = false /\ running x (WClaim "shop") = None /\
  world x = turned_ready /\ pending x = [became_ready] /\
  (forall q', dispatched (A:=tidy_api) [] turned_ready became_ready (queued x) q' ->
     q' (WClaim "shop") = true).
Proof.
  destruct look_calls as (C0 & C2 & E3), look_silent as [S0 S2]. pose proof look_reads as Hread.
  set (i := WClaim "shop").
  destruct (lagging_start i turned_ready [became_ready] (fun _ => true) (fun _ => None))
    as (f0 & Q0 & R0); [done..|].
  destruct (lagging_silent i turned_ready [became_ready] (setq (fun _ => true) i false) f0 look0 R0 C0 S0)
    as (f1 & Q1 & R1). fold look1 in R1.
  destruct (reads_tenant look1) as [[key k]|] eqn:Ek; [|done]. injection Hread as ->.
  destruct (lagging_call i turned_ready [became_ready] (setq (fun _ => true) i false) f1 _
    (Get Client KTenant (WorkQueue.cluster "payments")) k (inr waiting_tenant)) as (f2 & Q2 & R2).
  { by rewrite R1, (reads_tenant_inv _ _ _ Ek). }
  { right. split; [done|]. exists became_ready, waiting_tenant. split_and!; [by left|done..]. }
  replace (k (inr waiting_tenant)) with look2 in R2 by (unfold look2; by rewrite Ek).
  destruct (lagging_silent i turned_ready [became_ready] (setq (fun _ => true) i false) f2 look2 R2 C2 S2)
    as (f3 & Q3 & R3). fold look3 in R3. rewrite E3 in R3.
  eexists. split; [|split_and!].
  - eapply rtc_l; [exact Q0|]. eapply rtc_l; [exact Q1|]. eapply rtc_l; [exact Q2|].
    eapply rtc_l; [exact Q3|]. apply rtc_once. by apply (q_done _ _ (lagging_q _ _ _ f3) i).
  - cbn. by rewrite !setq_eq.
  - cbn. by rewrite setq_eq.
  - done.
  - done.
  - intros q' Hd. apply (dispatched_wakes (A:=tidy_api) i _ _ _ _ _ Hd).
    + by intros ev ?%not_elem_of_nil.
    + exists (ObjTenant ready_tenant). split; [by right|]. right. right. split; [done|].
      exists shop_waiting. split; [exact (proj1 shop_behind)|]. split; [vm_compute; discriminate|].
      vm_compute. reflexivity.
Qed.

(** ** An Application of somebody else *)

(** A claim being deleted, next to an Application of its name without an owner,
    and the same after the Application is gone. *)
Definition dying : ServiceClaim :=
  sample_claim "shop" "payments" "shop:1" None [ServiceClaimFinalizer] (Some 1%Z).

Definition before_delete : tidy_state :=
  {| tidy_tenants := ∅; tidy_claims := {["shop" := dying]};
     tidy_apps := {["shop" := newApplication "shop" "argocd"]}; tidy_owned := no_objects |}.
Definition after_delete : tidy_state :=
  {| tidy_tenants := ∅; tidy_claims := {["shop" := dying]}; tidy_apps := ∅; tidy_owned := no_objects |}.

Lemma unowned_object :
  tidy_app before_delete "shop" = Some (newApplication "shop" "argocd") /\
  tidy_app after_delete "shop" = None.
Proof. split; vm_compute; reflexivity. Qed.

(** The Application goes away: nobody it belongs to is woken. *)
Definition app_gone : watchEvent := {|
  ev_kind := NApplication; ev_new := None;
  ev_old := Some (ObjOther (u_ObjectMeta (newApplication "shop" "argocd"))) |}.

Lemma unowned_goes : reported (A:=tidy_api) before_delete after_delete [app_gone].
Proof.
  intros kd m. destruct kd; try (by left). destruct (decide (nn_Name m = "shop")) as [Hm|Hm].
  - right. exists app_gone. cbn. rewrite Hm, (proj1 unowned_object), (proj2 unowned_object).
    split_and!; [by left|done..].
  - left. cbn. unfold tidy_app, named, before_delete, after_delete. cbn [tidy_apps].
    by rewrite lookup_singleton_ne, lookup_empty by congruence.
Qed.

Lemma unowned_wakes_nobody s q : dispatched (A:=tidy_api) [] s app_gone q q.
Proof.
  split; [by intros j|]. exists (fun _ _ => []). split.
  - intros i f o Hf _. exfalso. by destruct i; apply list_elem_of_singleton in Hf.
  - intros i He. exfalso.
    inversion He as [o Hk|o n Hk Ho (ref & Hc & _)|f o req Hf]; subst; [by destruct i| |].
    + destruct Ho as [[= <-]|[=]]. discriminate Hc.
    + by destruct i; apply list_elem_of_singleton in Hf.
Qed.

(** The calls of the drain, the Application going away before the third. *)
Definition drain0 : worker := handlerOf small_rt small_rs (WClaim "shop").
Definition drain1 : worker := fst (next drain0 before_delete).
Definition drain2 : worker := fst (next drain1 before_delete).
Definition drain3 : worker := fst (next drain2 after_delete).

Lemma drain_calls : is_call drain0 = true /\ is_call drain1 = true /\ is_call drain2 = true.
Proof. vm_compute. auto. Qed.

Lemma drain_silent : snd (next drain0 before_delete) = before_delete /\
  snd (next drain1 before_delete) = before_delete /\ snd (next drain2 after_delete) = after_delete.
Proof. vm_compute. auto. Qed.

Lemma drain_ends : drain3 = Ret (emptyResult, None).
Proof. vm_compute. reflexivity. Qed.

Lemma dying_stuck : tidy_claim after_delete "shop" = Some dying /\ ~ live dying /\
  ContainsFinalizer (sc_ObjectMeta dying) ServiceClaimFinalizer = true /\
  tidy_app after_delete "shop" = None.
Proof. split_and!; [vm_compute; reflexivity|discriminate|vm_compute; reflexivity..]. Qed.

(** C33: without the ownership the drain can be forgotten.  An Application of the
    claim's name that the claim does not control wakes nobody when it goes; if it
    goes between the drain's read and its delete request, the request is answered
    NotFound, which [reconcileDelete] takes for success and ends without a
    requeue.  The claim is then left alone: being deleted, with its finalizer,
    neither queued nor running, every event delivered, and nothing to wait for. *)
Theorem unowned_application_strands_the_claim : exists x0 x c,
  fresh x0 /\ rtc (qstep small_rt small_rs) x0 x /\ resting x (WClaim "shop") /\
  tidy_claim (world x) "shop" = Some c /\ ~ live c /\
  ContainsFinalizer (sc_ObjectMeta c) ServiceClaimFinalizer = true /\
  tidy_app (world x) "shop" = None.
Proof.
  destruct drain_calls as (C0 & C1 & C2). destruct drain_silent as (S0 & S1 & S2).
  destruct (start_step (WClaim "shop") (all_queued before_delete) before_delete) as (x1 & Q1 & V1 & _);
    [done|].
  destruct (silent_call _ _ _ _ V1 C0 S0) as (x2 & Q2 & V2 & _).
  destruct (silent_call _ _ _ _ V2 C1 S1) as (x3 & Q3 & (W3 & P3 & U3 & R3) & _).
  set (x4 := lagging_q after_delete (pending x3 ++ [app_gone]) (queued x3) (running x3)).
  assert (Q4 : qstep small_rt small_rs x3 x4)
    by (apply q_env; [rewrite W3; apply unowned_goes|by intros j]).
  set (x4' := tidy_q after_delete (queued x3) (running x3)).
  assert (Q4' : qstep small_rt small_rs x4 x4').
  { apply (q_watch small_rt small_rs x4 [] app_gone []); [cbn; by rewrite P3|].
    apply unowned_wakes_nobody. }
  assert (V4 : shows (WClaim "shop") x4' after_delete false (Some drain2)) by (by split_and!).
  destruct (silent_call _ _ _ _ V4 C2 S2) as (x5 & Q5 & V5 & _).
  fold drain3 in V5. rewrite drain_ends in V5.
  destruct (done_step _ _ _ _ V5 eq_refl) as (x6 & Q6 & (W6 & P6 & U6 & R6) & _).
  exists (all_queued before_delete), x6, dying. split; [done|]. split; [|split].
  - eapply rtc_l; [exact Q1|]. eapply rtc_l; [exact Q2|]. eapply rtc_l; [exact Q3|].
    eapply rtc_l; [exact Q4|]. eapply rtc_l; [exact Q4'|]. eapply rtc_l; [exact Q5|]. by apply rtc_once.
  - split_and!; [done|done|]. rewrite P6. by intros ev ?%not_elem_of_nil.
  - rewrite W6. exact dying_stuck.
Qed.
End witnesses.
