(* ===== verification/ClaimSettling.v ===== *)
(** * A claim settles

    The ServiceClaim controller under [Settling]: a reconcile of a claim that is
    not being deleted leaves everything as the next one would write it. *)
From stdpp Require Import relations.
From S2P Require Import Prelude Prog Kube Api Client Finalizers Indexes.
From S2P Require TenantController.
From S2P Require Import ServiceClaimController ApplicationSpec System WorkQueue Convergence.
From S2P Require Import Sample SampleApi SystemSample SampleServer SampleQueue Settling.
Open Scope prog_scope.

Section settling.
Context `{K : Kube} `{A : !ApiServer} `{L : !KubeLaws} `{V : !Stores} `{CA : !Cache} {SN : StoredNames}.
Context {CS : ClaimServer} (rt : TenantController.TenantReconciler) (rs : ServiceClaimReconciler).

(** A patched claim as the server stores it: only the version is its own. *)
Definition kept (b o : ServiceClaim) : Prop :=
  let m := sc_ObjectMeta b in let m' := sc_ObjectMeta o in
  sc_Spec o = sc_Spec b /\ om_Name m' = om_Name m /\ om_Namespace m' = om_Namespace m /\
  om_UID m' = om_UID m /\ om_Generation m' = om_Generation m /\
  om_DeletionTimestamp m' = om_DeletionTimestamp m /\ om_Finalizers m' = om_Finalizers m.

(** What the server leaves alone, and that writing what is stored changes
    nothing: the version stays and no event is sent. *)
Class QuietServer : Prop := {
  keeps_on_finalizers base f s o s' :
    let obj := SetMeta (AddFinalizer (GetMeta base) f) base in
    served [] _ (PatchObject KServiceClaim obj (MergeFromWithOptimisticLock base)) s (inr o) s' ->
    claimAt s (sc_Name base) = Some base -> live base ->
    claimAt s' (sc_Name base) = Some o /\ kept obj o;
  keeps_on_status obj base s o s' :
    served [] _ (PatchStatus KServiceClaim obj (MergeFrom base)) s (inr o) s' ->
    claimAt s (sc_Name obj) = Some base ->
    kept base o /\ (forall m, tenant s' m = tenant s m) /\
    (forall m, application s' m = application s m);
  same_status obj base s o s' :
    served [] _ (PatchStatus KServiceClaim obj (MergeFrom base)) s (inr o) s' ->
    claimAt s (sc_Name obj) = Some base -> sc_Status obj = sc_Status base -> s' = s;
  keeps_on_apply obj mutate s res o s' :
    served [] _ (CreateOrUpdate KApplication obj mutate) s (inr (res, o)) s' ->
    (forall m, claimAt s' m = claimAt s m) /\ (forall m, tenant s' m = tenant s m);
  same_application obj mutate s res o s' a :
    served [] _ (CreateOrUpdate KApplication obj mutate) s (inr (res, o)) s' ->
    om_Namespace (u_ObjectMeta obj) = argoCDNamespace ->
    application s (om_Name (u_ObjectMeta obj)) = Some a -> mutate a = inr a -> s' = s;
}.
Context {QS : QuietServer}.

(** ** Nothing is left to write *)

Lemma waiting_same c c' reason message :
  om_Generation (sc_ObjectMeta c') = om_Generation (sc_ObjectMeta c) ->
  sc_Status c' = sc_Status (aggregateReady
    (setCondition c ConditionTenantReady ConditionFalse reason message)) ->
  sc_Status (aggregateReady
    (setCondition c' ConditionTenantReady ConditionFalse reason message)) = sc_Status c'.
Proof.
  intros Hg Hst. unfold aggregateReady, setCondition in *. cbn in *.
  rewrite !IsStatusConditionTrue_set in *. cbn in *. rewrite Hst, Hg. cbn. f_equal. by apply set_again.
Qed.

Lemma applied_same c c' r1 m1 r2 m2 :
  om_Generation (sc_ObjectMeta c') = om_Generation (sc_ObjectMeta c) ->
  sc_Status c' = sc_Status (aggregateReady (setCondition
    (setCondition c ConditionTenantReady ConditionTrue r1 m1)
    ConditionArgoAppCreated ConditionTrue r2 m2)) ->
  sc_Status (aggregateReady (setCondition
    (setCondition c' ConditionTenantReady ConditionTrue r1 m1)
    ConditionArgoAppCreated ConditionTrue r2 m2)) = sc_Status c'.
Proof.
  intros Hg Hst. unfold aggregateReady, setCondition in *. cbn in *.
  rewrite !IsStatusConditionTrue_set in *. cbn in *. rewrite Hst, Hg. cbn. f_equal. by apply set_again3.
Qed.

(** The Application that was applied is not changed by applying it again, for
    the claim as the status patch left it. *)
Lemma mutate_again c c' o0 o1 o ns path :
  mutateApplication rs c ns path o0 = inr o1 -> kept c c' ->
  u_Object o = u_Object o1 ->
  om_Labels (u_ObjectMeta o) = om_Labels (u_ObjectMeta o1) ->
  om_Namespace (u_ObjectMeta o) = om_Namespace (u_ObjectMeta o1) ->
  om_Finalizers (u_ObjectMeta o) = om_Finalizers (u_ObjectMeta o1) ->
  om_OwnerReferences (u_ObjectMeta o) = om_OwnerReferences (u_ObjectMeta o1) ->
  mutateApplication rs c' ns path o = inr o.
Proof.
  intros H Hk Eo El En Ef Er. destruct Hk as (Ks & Kn & Kns & Ku & _).
  apply mutateApplication_inv in H as (_ & Hm & Hp & _).
  pose proof (SetControllerReference_ok _ _ _ _ _ Hm) as [Em _].
  destruct (preparedMeta_spec c (u_ObjectMeta o0)) as (fins & Epre & Hfin). rewrite Epre in Em.
  assert (Hname : sc_Name c' = sc_Name c) by done.
  assert (Hsource : sourceOf rs c' path = sourceOf rs c path)
    by (unfold sourceOf, kustomizeOf; by rewrite Hname, Ks).
  unfold mutateApplication.
  replace (SetLabels _ (u_ObjectMeta o)) with (u_ObjectMeta o).
  2: { rewrite Ks, Hname. rewrite Em in El. cbn in El. unfold claimLabels in El.
    destruct (u_ObjectMeta o); cbn in *. by rewrite El. }
  rewrite AddFinalizer_present by (rewrite Ef, Em; apply Hfin; by left).
  rewrite Hsource, Eo.
  rewrite SetNestedMap_same; [|done|apply (Hp p_source); by left].
  rewrite SetNestedMap_same; [|done|apply (Hp p_destination); set_solver].
  rewrite SetNestedField_same; [|done|apply (Hp p_project); set_solver].
  rewrite SetNestedMap_same; [|done|apply (Hp p_syncPolicy); set_solver].
  rewrite (SetControllerReference_same _ _ _ _ _ _ _ Hm) by done.
  rewrite <- Eo. by destruct o.
Qed.

(** ** The reconcile of a claim that is not being deleted *)

(** The status a reconcile writes, when [a] is the Application it applied. *)
Definition verdict (s : state) (c : ServiceClaim) (a : Unstructured) : ServiceClaim :=
  let team := Team (sc_Spec c) in
  aggregateReady
    match tenant s team with
    | None => setCondition c ConditionTenantReady ConditionFalse
        "TenantNotFound" ("tenant " +:+ quote team +:+ " does not exist yet")
    | Some t =>
        if IsStatusConditionTrue (ts_Conditions (t_Status t)) ConditionReady
        then setCondition (setCondition c ConditionTenantReady ConditionTrue
               "TenantReady" ("tenant " +:+ quote team +:+ " is ready"))
               ConditionArgoAppCreated ConditionTrue "ApplicationApplied" (appliedMessage c a)
        else setCondition c ConditionTenantReady ConditionFalse
               "TenantNotReady" ("tenant " +:+ quote team +:+ " is not ready yet")
    end.

(** Everything is as the reconcile would write it. *)
Definition written (n : string) (s : state) (c : ServiceClaim) (a : Unstructured) : Prop :=
  claimAt s n = Some c /\ live c /\
  ContainsFinalizer (sc_ObjectMeta c) ServiceClaimFinalizer = true /\
  sc_Status (verdict s c a) = sc_Status c /\
  (teamReady s c = true -> application s n = Some a /\
     mutateApplication rs c (teamNamespace (Team (sc_Spec c)))
       ("workloads/" +:+ Team (sc_Spec c) +:+ "/" +:+ sc_Name c) a = inr a).

(** [reconcileLive] once the finalizer is there. *)
Definition gate (c : ServiceClaim) : worker :=
  let* ' (claim, reconcileErr) := reconcileClaim rs c in
  let* p := trigger (PatchStatus KServiceClaim (aggregateReady claim) (MergeFrom c)) in
  match p with
  | inl err => match reconcileErr with
               | Some _ => Ret (emptyResult, reconcileErr)
               | None => Ret (emptyResult, Some err)
               end
  | inr _ => Ret (emptyResult, reconcileErr)
  end.

Lemma reconcileLive_gate c :
  ContainsFinalizer (sc_ObjectMeta c) ServiceClaimFinalizer = true -> reconcileLive rs c = gate c.
Proof.
  intros Hf. unfold reconcileLive, ensureFinalizer. cbn [GetMeta ServiceClaim_ClientObject].
  by rewrite Hf.
Qed.

Lemma kept_live c o : kept c o -> live c -> live o.
Proof. intros (_ & _ & _ & _ & _ & Hd & _). unfold live. by rewrite Hd. Qed.

Lemma added_live c f :
  live c -> live (SetMeta (AddFinalizer (GetMeta c) f) c).
Proof.
  unfold live. cbn. destruct (AddFinalizer_spec (sc_ObjectMeta c) f) as [-> _]. done.
Qed.

Lemma kept_finalizer c o f : kept c o ->
  ContainsFinalizer (sc_ObjectMeta o) f = ContainsFinalizer (sc_ObjectMeta c) f.
Proof.
  intros (_ & _ & _ & _ & _ & _ & Hf). apply eq_bool_prop_intro.
  by rewrite !Is_true_true, !ContainsFinalizer_spec, Hf.
Qed.

Lemma verdict_same s s' c c' a : kept c c' -> (forall m, tenant s' m = tenant s m) ->
  sc_Status c' = sc_Status (verdict s c a) -> sc_Status (verdict s' c' a) = sc_Status c'.
Proof.
  intros (Hs & Hn & _ & _ & Hg & _) Ht Hst. assert (Hnm : sc_Name c' = sc_Name c) by done.
  unfold verdict, appliedMessage in *. rewrite Ht, Hs, Hnm.
  destruct (tenant s (Team (sc_Spec c))) as [t|]; [|by eapply waiting_same].
  destruct (IsStatusConditionTrue _ _); [by eapply applied_same|by eapply waiting_same].
Qed.

Lemma verdict_name s c a : sc_Name (verdict s c a) = sc_Name c.
Proof.
  unfold verdict. destruct (tenant _ _) as [t|]; [destruct (IsStatusConditionTrue _ _)|];
    unfold aggregateReady; by destruct (_ && _).
Qed.

(** The Tenant as the gate reads it. *)
Lemma gate_tenant rd (s s' : state) c (r : error + Tenant) :
  served [] _ (Get rd KTenant {| nn_Namespace := ""; nn_Name := Team (sc_Spec c) |}) s r s' ->
  succeeds (Get rd KTenant {| nn_Namespace := ""; nn_Name := Team (sc_Spec c) |}) r ->
  s' = s /\ match r with
            | inl e => IsNotFound (Some e) = true /\ tenant s (Team (sc_Spec c)) = None
            | inr t => tenant s (Team (sc_Spec c)) = Some t
            end.
Proof.
  intros Hs Hok. apply answers_tenant in Hs as [-> Hr]; [|apply behind_nil]. split; [done|].
  destruct r as [e|t]; [|done]. by split; [|apply Hr].
Qed.

(** A status that is stored is not written. *)
Lemma idle_status s c obj : claimAt s (sc_Name obj) = Some c -> sc_Status obj = sc_Status c ->
  idle 1 (let* p := trigger (PatchStatus KServiceClaim obj (MergeFrom c)) in
          match p with
          | inl err => Ret (emptyResult, Some err)
          | inr _ => Ret (emptyResult, None)
          end) s.
Proof.
  intros Hc Hst. cbn. intros r s' Hs [o ->]. split; [|done]. by eapply same_status.
Qed.

Lemma idle_gate n s c a : written n s c a -> idle 3 (gate c) s.
Proof.
  intros (Hc & Hl & Hf & Hst & Ha). pose proof (stored_claim_name _ _ _ Hc) as Hn. subst n.
  pose proof (verdict_name s c a) as Hvn. unfold gate, reconcileClaim. cbn [bind trigger].
  apply idle_vis. intros r s' Hs Hok. apply gate_tenant in Hs as [-> Hr]; [|done]. split; [done|].
  unfold verdict in Hst, Hvn. destruct r as [e|t].
  - destruct Hr as [He Hr]. rewrite Hr in Hst, Hvn. rewrite He. cbn [bind].
    eapply idle_more; [|apply idle_status]; [lia|by rewrite Hvn|done].
  - rewrite Hr in Hst, Hvn. unfold teamReady in Ha. rewrite Hr in Ha.
    destruct (IsStatusConditionTrue _ _); cbn [negb bind].
    2: { eapply idle_more; [|apply idle_status]; [lia|by rewrite Hvn|done]. }
    destruct (Ha eq_refl) as [Hap Hm]. unfold ensureArgoApplication. cbn [bind trigger].
    apply idle_vis. intros res s' Hs [[op o] ->].
    pose proof (stores_application _ _ _ _ _ _ _ Hs eq_refl) as [Ho _].
    pose proof (same_application _ _ _ _ _ _ _ Hs eq_refl Hap Hm) as ->. split; [done|].
    cbn in Ho. change (sc_Name (setCondition _ _ _ _ _)) with (sc_Name c) in Ho.
    rewrite Hap in Ho. injection Ho as <-. cbn [bind].
    apply idle_status; [exact (eq_trans (f_equal (claimAt s) Hvn) Hc)|exact Hst].
Qed.

Lemma idle_reconcile n s c a : written n s c a -> idle 4 (Reconcile rs (requestFor n)) s.
Proof.
  intros Hw. pose proof Hw as (Hc & Hl & Hf & _). unfold Reconcile. cbn [bind trigger].
  apply idle_vis. intros r s' Hs Hok. apply answers_claim in Hs as [-> Hr]; [|apply behind_nil]. cbn in Hr. split; [done|].
  destruct r as [e|c'].
  - rewrite Hr in Hc; [done|exact Hok].
  - rewrite Hc in Hr. injection Hr as <-. unfold live in Hl. rewrite Hl. cbn [negb].
    rewrite (reconcileLive_gate c Hf). by apply (idle_gate n s c a).
Qed.

(** The last call leaves everything as the next reconcile would write it. *)
Lemma ends_status n s c a : claimAt s n = Some c -> live c ->
  ContainsFinalizer (sc_ObjectMeta c) ServiceClaimFinalizer = true ->
  (forall c', kept c c' -> teamReady s c = true -> application s n = Some a /\
     mutateApplication rs c' (teamNamespace (Team (sc_Spec c)))
       ("workloads/" +:+ Team (sc_Spec c) +:+ "/" +:+ sc_Name c) a = inr a) ->
  ends 1 (fun s => exists c a, written n s c a)
    (let* p := trigger (PatchStatus KServiceClaim (verdict s c a) (MergeFrom c)) in
     match p with
     | inl err => Ret (emptyResult, Some err)
     | inr _ => Ret (emptyResult, None)
     end) s.
Proof.
  intros Hc Hl Hf Ha. pose proof (stored_claim_name _ _ _ Hc) as Hn. cbn.
  intros r s' Hs [o ->]. split; [done|].
  assert (Hb : claimAt s (sc_Name (verdict s c a)) = Some c) by (by rewrite verdict_name, Hn).
  pose proof (stores_status _ _ _ _ _ _ Hs Hb) as [Ho Hst].
  destruct (keeps_on_status _ _ _ _ _ Hs Hb) as (Hk & Ht & Happ).
  rewrite verdict_name, Hn in Ho. exists o, a. unfold written. split_and!; [done| | | |].
  - by eapply kept_live.
  - by rewrite (kept_finalizer _ _ _ Hk).
  - by eapply verdict_same.
  - destruct Hk as (Hks & Hkn & Hk). unfold teamReady. rewrite Ht, Hks, Happ.
    change (sc_Name o) with (om_Name (sc_ObjectMeta o)). rewrite Hkn.
    apply Ha. exact (conj Hks (conj Hkn Hk)).
Qed.

Definition all_written (n : string) (s : state) : Prop := exists c a, written n s c a.

Lemma ends_gate n s c : claimAt s n = Some c -> live c ->
  ContainsFinalizer (sc_ObjectMeta c) ServiceClaimFinalizer = true ->
  ends 3 (all_written n) (gate c) s.
Proof.
  intros Hc Hl Hf. pose proof (stored_claim_name _ _ _ Hc) as Hn.
  assert (Hwait : teamReady s c = false -> ends 1 (all_written n)
    (let* p := trigger (PatchStatus KServiceClaim (verdict s c (newApplication "" "")) (MergeFrom c)) in
     match p with inl err => Ret (emptyResult, Some err) | inr _ => Ret (emptyResult, None) end) s).
  { intros Ht. apply ends_status; [done..|]. intros c' _. by rewrite Ht. }
  unfold gate, reconcileClaim. cbn [bind trigger].
  apply ends_vis. intros r s' Hs Hok. apply gate_tenant in Hs as [-> Hr]; [|done].
  unfold verdict, teamReady in Hwait. destruct r as [e|t].
  - destruct Hr as [He Hr]. rewrite Hr in Hwait. rewrite He. cbn [bind].
    eapply ends_more; [|exact (Hwait eq_refl)]. lia.
  - rewrite Hr in Hwait. destruct (IsStatusConditionTrue _ _) eqn:Hready; cbn [negb bind].
    2: { eapply ends_more; [|exact (Hwait eq_refl)]. lia. }
    clear Hwait. unfold ensureArgoApplication. cbn [bind trigger].
    apply ends_vis. intros res s' Hs [[op o] ->]. cbn [bind].
    pose proof (stores_application _ _ _ _ _ _ _ Hs eq_refl)
      as (Ho & o0 & o1 & Hm & E1 & E2 & E3 & E4 & E5).
    destruct (keeps_on_apply _ _ _ _ _ _ Hs) as [Hcl Hte].
    cbn in Ho. change (sc_Name (setCondition _ _ _ _ _)) with (sc_Name c) in Ho. rewrite Hn in Ho.
    assert (Hend := ends_status n s' c o). unfold verdict in Hend. rewrite Hte, Hr, Hready in Hend.
    apply Hend; [by rewrite Hcl|done|done|].
    intros c' Hk _. split; [done|]. by eapply mutate_again.
Qed.

(** A reconcile that succeeds leaves nothing to write. *)
Lemma ends_reconcile n s c : claimAt s n = Some c -> live c ->
  ends 5 (all_written n) (Reconcile rs (requestFor n)) s.
Proof.
  intros Hc Hl. pose proof (stored_claim_name _ _ _ Hc) as Hn.
  unfold Reconcile. cbn [bind trigger]. apply ends_vis. intros r s' Hs Hok.
  apply answers_claim in Hs as [-> Hr]; [|apply behind_nil]. cbn in Hr. destruct r as [e|c'].
  { rewrite Hr in Hc; [done|exact Hok]. }
  rewrite Hc in Hr. injection Hr as <-. pose proof Hl as Hl'. unfold live in Hl'. rewrite Hl'.
  cbn [negb]. destruct (ContainsFinalizer (sc_ObjectMeta c) ServiceClaimFinalizer) eqn:Hf.
  { rewrite (reconcileLive_gate c Hf). eapply ends_more; [|by apply ends_gate]. lia. }
  unfold reconcileLive, ensureFinalizer. cbn [GetMeta ServiceClaim_ClientObject]. rewrite Hf.
  cbn [bind trigger]. apply ends_vis. intros r s' Hs [o ->]. cbn [bind].
  apply keeps_on_finalizers in Hs as [Ho Hk]; [|by rewrite Hn|done]. rewrite Hn in Ho.
  apply (ends_gate n); [done| |].
  - eapply kept_live; [exact Hk|]. by apply added_live.
  - rewrite (kept_finalizer _ _ _ Hk). apply ContainsFinalizer_spec, AddFinalizer_spec. by left.
Qed.

Lemma idle_all_written n s : all_written n s -> idle 4 (Reconcile rs (requestFor n)) s.
Proof. intros (c & a & Hw). by eapply idle_reconcile. Qed.

(** ** Theorem *)

(** C12: the controller does not keep itself busy.  Writing the finalizer, the
    Application and the status wakes the claim again; but take any state of the
    system in which the claim is stored and not being deleted, and let only its
    own reconciles run, with calls that succeed: every execution ends, after at
    most thirteen steps, which are two reconciles.  The second one writes only
    what is stored already, so nothing queues the claim again. *)
Theorem claim_settles n x y k c :
  running x (WClaim n) = None -> claimAt (world x) n = Some c -> live c ->
  nsteps (solo rt rs (WClaim n)) k x y -> k <= 13.
Proof.
  intros Hr Hc Hl. revert k y.
  apply (settles_bounded rt rs (WClaim n) (all_written n) 4 (idle_all_written n) 5 x Hr).
  by apply (ends_reconcile n _ c).
Qed.
End settling.

(** ** Witness *)

Section witness.
#[local] Existing Instance sample_kube.
#[local] Existing Instance sample_kube_laws.
#[local] Existing Instance tidy_claim_server.

#[local] Instance tidy_quiet : QuietServer.
Proof.
  split; cbn [state tidy_api claimAt tidy_stores].
  - intros base f s o s' Hs%served_now Hb _. set (obj := SetMeta (AddFinalizer (GetMeta base) f) base).
    assert (Hn : sc_Name obj = sc_Name base) by exact (AddFinalizer_name (sc_ObjectMeta base) f).
    assert (Hl : exists g l, om_Finalizers (sc_ObjectMeta obj) = g :: l).
    { destruct (AddFinalizer_spec (sc_ObjectMeta base) f) as [_ Hf]. unfold obj.
      cbn [sc_ObjectMeta SetMeta ServiceClaim_ClientObject GetMeta].
      destruct (om_Finalizers (AddFinalizer (sc_ObjectMeta base) f)) as [|g l]; [|by exists g, l].
      exfalso. eapply elem_of_nil, Hf. by left. }
    change (match tidy_claim s (sc_Name obj) with
            | None => (inl ENotFound, s)
            | Some c =>
                if conflicts claimVersion c (MergeFromWithOptimisticLock base) then (inl EConflict, s)
                else (inr obj, with_claims (lands sc_Name sc_ObjectMeta c obj (tidy_claims s)) s)
            end = (inr o, s')) in Hs.
    rewrite Hn, Hb, (proj2 (no_conflict claimVersion base base) eq_refl) in Hs.
    injection Hs as <- <-. clearbody obj. split; [|by split_and!].
    destruct Hl as (g & l & Hl). rewrite <- Hn. unfold lands. rewrite Hl.
    destruct (om_DeletionTimestamp _); exact (named_insert sc_Name _ obj).
  - intros obj base s o s' Hs%served_now Hb. cbn in Hs. rewrite Hb in Hs. injection Hs as <- <-. done.
  - intros obj base s o s' Hs%served_now Hb Hst. cbn in Hs. rewrite Hb in Hs. injection Hs as <- <-.
    rewrite Hst. replace (sc_set_status base (sc_Status base)) with base by (by destruct base).
    unfold with_claims. rewrite insert_id; [by destruct s|].
    apply (named_lookup sc_Name). by rewrite (named_name _ _ _ _ Hb).
  - intros obj mutate s res o s' Hs%served_now. cbn in Hs. destruct (mutate _); [done|].
    destruct (String.eqb _ _); [|done]. by injection Hs as <- <- <-.
  - intros obj mutate s res o s' a Hs%served_now _ Ha Hm. cbn in Hs. fold (app_name obj) in Ha.
    cbn in Ha. rewrite Ha in Hs. cbn in Hs. rewrite Hm in Hs.
    destruct (String.eqb_spec (app_name a) (app_name obj)) as [Hn|]; [|done].
    injection Hs as <- <- <-. unfold with_apps. rewrite insert_id; [by destruct s|].
    rewrite Hn. by apply (named_lookup app_name).
Qed.

(** A new claim of a Tenant that is Ready. *)
Definition new_claim : ServiceClaim :=
  sample_claim "shop" "payments" "shop:1" (Some 2%Z) [] None.

Definition new_state : tidy_state := {|
  tidy_tenants := {["payments" := ready_tenant]};
  tidy_claims := {["shop" := new_claim]};
  tidy_apps := ∅; tidy_owned := no_objects |}.

(** Its second call, the finalizer, changes it. *)
Lemma second_call_writes : state2 (WClaim "shop") new_state <> new_state.
Proof.
  intros E. apply (f_equal (fun s => option_map (fun c => om_Finalizers (sc_ObjectMeta c))
    (tidy_claim s "shop"))) in E. vm_compute in E. discriminate.
Qed.

(** The whole execution: seven steps that write, six that find all written. *)
Lemma settling_run : exists y,
  nsteps (solo small_rt small_rs (WClaim "shop")) 13 (all_queued new_state) y /\
  shows (WClaim "shop") y (settled (WClaim "shop") new_state) false None.
Proof.
  apply (two_rounds (WClaim "shop") new_state 3 4);
    [vm_compute; reflexivity|exact second_call_writes|vm_compute; reflexivity|
    vm_compute; reflexivity|vm_compute; reflexivity|still_run (settled (WClaim "shop") new_state)|
    vm_compute; reflexivity|
    vm_compute; reflexivity].
Qed.

(** The bound is met. *)
Lemma claim_settles_witness : exists k y,
  nsteps (solo small_rt small_rs (WClaim "shop")) k (all_queued new_state) y /\
  queued y (WClaim "shop") = false /\ running y (WClaim "shop") = None /\ k = 13 /\ k <= 13.
Proof.
  destruct settling_run as (y & Hy & (_ & _ & Hq & Hr)). exists 13, y.
  refine (conj Hy (conj Hq (conj Hr (conj eq_refl _)))).
  refine (claim_settles (A:=tidy_api) small_rt small_rs "shop" (all_queued new_state) y 13
    new_claim _ _ _ Hy); vm_compute; reflexivity.
Defined.
End witness.
