(* ===== verification/TenantConvergence.v ===== *)
(** * A Tenant at rest is provisioned

    The counterpart of [Convergence] for the Tenant controller, on the same work
    queue and cache: whenever a Tenant is neither queued nor being reconciled and no
    event it depends on is on its way, what its controller is for has happened.  Together the two files say what the platform
    looks like when both controllers are done with a team. *)
From stdpp Require Import relations.
From S2P Require Import Prelude Prog Kube Api Client Finalizers Indexes.
From S2P Require ServiceClaimController.
From S2P Require Import TenantController TenantControllerSpec System WorkQueue.
From S2P Require Convergence.
From S2P Require Import Sample SampleApi SystemSample SampleServer SampleQueue.
Open Scope prog_scope.

Section convergence.
Context `{K : Kube} `{A : !ApiServer} `{L : !KubeLaws} `{V : !Stores} `{CA : !Cache} {SN : StoredNames}.
Context (rt : TenantReconciler) (rs : ServiceClaimController.ServiceClaimReconciler).

(** Where an object is stored. *)
Definition keyOf (m : ObjectMeta) : NamespacedName :=
  {| nn_Namespace := om_Namespace m; nn_Name := om_Name m |}.

(** The object was applied on a copy the cache held before an event that is on its
    way, and found to be as it should: nothing was written. *)
Definition as_cached (evs : list watchEvent) (kd : kindName) (m : ObjectMeta) : Prop :=
  exists ev m0, ev ∈ evs /\ ev_kind ev = kd /\ ev_old ev = Some (ObjOther m0) /\
    om_OwnerReferences m0 = om_OwnerReferences m.

Lemma as_cached_nil kd m : ~ as_cached [] kd m.
Proof. by intros (ev & m0 & ?%not_elem_of_nil & _). Qed.

(** An API server and a cache as far as a Tenant's reconcile relies on them: a
    write that is accepted is stored; an applied object is a mutated one up to
    what the server manages, unless a copy out of date needed no change, any other
    write of such a copy being a conflict; and a deleted quota is gone or going. *)
Class TenantServer : Prop := {
  stores_tenant_finalizers evs obj p s o s' :
    served evs _ (PatchObject KTenant obj p) s (inr o) s' ->
    match tenant s' (t_Name obj) with
    | Some t => om_Finalizers (t_ObjectMeta t) = om_Finalizers (t_ObjectMeta obj)
    | None => True
    end;
  stores_tenant_status evs obj base s o s' :
    served evs _ (PatchStatus KTenant obj (MergeFrom base)) s (inr o) s' ->
    tenant s (t_Name obj) = Some base ->
    tenant s' (t_Name obj) = Some o /\ t_Status o = t_Status obj;
  stores_namespace evs obj mutate s res o s' :
    served evs _ (CreateOrUpdate KNamespace obj mutate) s (inr (res, o)) s' ->
    exists o0 o1, mutate o0 = inr o1 /\
      (as_cached evs NNamespace (ns_ObjectMeta o1) \/
       namespaceAt s' (om_Name (ns_ObjectMeta obj)) = Some o /\
       om_Namespace (ns_ObjectMeta o) = om_Namespace (ns_ObjectMeta o1) /\
       om_OwnerReferences (ns_ObjectMeta o) = om_OwnerReferences (ns_ObjectMeta o1));
  stores_rolebinding evs obj mutate s res o s' :
    served evs _ (CreateOrUpdate KRoleBinding obj mutate) s (inr (res, o)) s' ->
    exists o0 o1, mutate o0 = inr o1 /\
      (as_cached evs NRoleBinding (rb_ObjectMeta o1) \/
       roleBindingAt s' (keyOf (rb_ObjectMeta obj)) = Some o /\
       om_Namespace (rb_ObjectMeta o) = om_Namespace (rb_ObjectMeta o1) /\
       om_OwnerReferences (rb_ObjectMeta o) = om_OwnerReferences (rb_ObjectMeta o1) /\
       rb_RoleRef o = rb_RoleRef o1 /\ rb_Subjects o = rb_Subjects o1);
  stores_quota evs obj mutate s res o s' :
    served evs _ (CreateOrUpdate KResourceQuota obj mutate) s (inr (res, o)) s' ->
    exists o0 o1, mutate o0 = inr o1 /\
      (as_cached evs NResourceQuota (rq_ObjectMeta o1) \/
       quotaAt s' (keyOf (rq_ObjectMeta obj)) = Some o /\
       om_Namespace (rq_ObjectMeta o) = om_Namespace (rq_ObjectMeta o1) /\
       om_OwnerReferences (rq_ObjectMeta o) = om_OwnerReferences (rq_ObjectMeta o1) /\
       rq_Hard o = rq_Hard o1);
  removes_quota evs obj u s r s' :
    served evs _ (Delete KResourceQuota obj u) s r s' -> IgnoreNotFound r = None ->
    match quotaAt s' (keyOf (rq_ObjectMeta obj)) with
    | Some o => om_DeletionTimestamp (rq_ObjectMeta o) <> None
    | None => True
    end;
}.
Context {TS : TenantServer}.

(** ** What convergence means *)

Definition live (t : Tenant) : Prop := TimeIsZero (om_DeletionTimestamp (t_ObjectMeta t)) = true.

Definition owned (n : string) (m : ObjectMeta) : Prop := ownedBy TenantKind n m.

Definition namespace_there (n : string) (s : state) : Prop :=
  exists o, namespaceAt s (teamNamespace n) = Some o /\ owned n (ns_ObjectMeta o).

(** The group of the team's namespace is bound to the edit role, and nobody else. *)
Definition binding_there (n : string) (s : state) : Prop :=
  exists o, roleBindingAt s (roleBindingKey n) = Some o /\ owned n (rb_ObjectMeta o) /\
    rb_RoleRef o = {| rr_APIGroup := "rbac.authorization.k8s.io"; rr_Kind := "ClusterRole";
                      rr_Name := "edit" |} /\
    rb_Subjects o = [{| s_Kind := "Group"; s_APIGroup := "rbac.authorization.k8s.io";
                        s_Name := teamNamespace n |}].

(** The quota has the limits the Tenant declares; if it declares none, no quota of
    the Tenant's stays. *)
Definition quota_there (n : string) (t : Tenant) (s : state) : Prop :=
  let hard := quotaHard (Resources (t_Spec t)) in
  if size hard =? 0
  then forall o, quotaAt s (quotaKey n) = Some o -> owned n (rq_ObjectMeta o) ->
         om_DeletionTimestamp (rq_ObjectMeta o) <> None
  else exists o, quotaAt s (quotaKey n) = Some o /\ owned n (rq_ObjectMeta o) /\ rq_Hard o = hard.

(** What the status says. *)
Definition says_ready (t : Tenant) : Prop :=
  ts_ObservedGeneration (t_Status t) = om_Generation (t_ObjectMeta t) /\
  ts_Phase (t_Status t) = PhaseReady /\
  IsStatusConditionTrue (ts_Conditions (t_Status t)) ConditionReady = true.

Definition converged (n : string) (s : state) (t : Tenant) : Prop :=
  ContainsFinalizer (t_ObjectMeta t) TenantFinalizer = true /\ says_ready t /\
  namespace_there n s /\ binding_there n s /\ quota_there n t s.

Definition at_peace (n : string) (s : state) : Prop :=
  forall t, tenant s n = Some t -> live t -> converged n s t.

(** *** What survives a quiet change *)

Lemma namespace_there_quiet n s s' :
  quietTenant n s s' -> namespace_there n s -> namespace_there n s'.
Proof. intros (_ & Hk & _) (o & Ho & Hb). exists o. split; [|done]. by apply (Hk o Hb). Qed.

Lemma binding_there_quiet n s s' :
  quietTenant n s s' -> binding_there n s -> binding_there n s'.
Proof.
  intros (_ & _ & Hk & _) (o & Ho & Hb & Hr). exists o. split; [|done]. by apply (Hk o Hb).
Qed.

Lemma quota_there_quiet n t s s' :
  quietTenant n s s' -> quota_there n t s -> quota_there n t s'.
Proof.
  intros (_ & _ & _ & Hk). unfold quota_there. destruct (_ =? 0).
  - intros H o Ho Hb. by apply H; [apply (Hk o Hb)|].
  - intros (o & Ho & Hb & Hr). exists o. split; [|done]. by apply (Hk o Hb).
Qed.

#[local] Hint Resolve namespace_there_quiet binding_there_quiet quota_there_quiet : core.

Lemma tenant_at_peace_quiet n s s' : quietTenant n s s' -> at_peace n s -> at_peace n s'.
Proof.
  intros Hq Hp t Ht Hl. rewrite (proj1 Hq) in Ht. destruct (Hp t Ht Hl) as (? & ? & ? & ? & ?).
  split_and!; eauto.
Qed.

(** ** The reconcile is calm *)

Section lawful.
Context (I : state -> Prop) (n : string).
#[local] Abbreviation calm := (calm I (WTenant n) (quietTenant n)).

Lemma tenant_calm_status P s t obj :
  tenant s n = Some t -> t_Name obj = n ->
  (forall s', quietTenant n s s' -> t_Status t = t_Status obj -> P s') ->
  calm (outcome P)
    (let* p := trigger (PatchStatus KTenant obj (MergeFrom t)) in
     match p with
     | inl err => Ret (emptyResult, Some err)
     | inr _ => Ret (emptyResult, None)
     end) s.
Proof.
  intros Ht Hn HP s1 H1 _ ev1 N1 [e|o] s2 Hs H2 _; [by apply calm_error|].
  intros s3 H3 _. right. pose proof (proj1 H1) as Ht1. rewrite Ht in Ht1.
  apply stores_tenant_status in Hs as [Ht' Hst]; [|by rewrite Hn].
  rewrite Hn in Ht'. rewrite (proj1 H2), Ht1 in Ht'. injection Ht' as <-.
  apply HP; [by do 2 (etransitivity; [eassumption|])|done].
Qed.

(** The same when the reconcile has an error to return. *)
Lemma tenant_calm_status_error P s obj t e :
  calm (outcome P)
    (let* p := trigger (PatchStatus KTenant obj (MergeFrom t)) in
     match p with
     | inl err => Ret (emptyResult, Some e)
     | inr _ => Ret (emptyResult, Some e)
     end) s.
Proof. intros s1 _ _ ev1 _ [e'|o] s2 _ _ _; by apply calm_error. Qed.

(** A Tenant all of whose steps succeeded. *)
Lemma provisioned_peace s s' t r1 m1 r2 m2 r3 m3 :
  tenant s n = Some t -> ContainsFinalizer (t_ObjectMeta t) TenantFinalizer = true ->
  namespace_there n s -> binding_there n s -> quota_there n t s -> quietTenant n s s' ->
  t_Status t = t_Status (aggregateReady (setCondition (setCondition (setCondition t
    ConditionNamespaceReady ConditionTrue r1 m1) ConditionRBACReady ConditionTrue r2 m2)
    ConditionQuotaApplied ConditionTrue r3 m3)) ->
  at_peace n s'.
Proof.
  intros Ht Hf Hns Hb Hq Hquiet Hst t0 Ht0 _. rewrite (proj1 Hquiet), Ht in Ht0.
  injection Ht0 as <-. split; [done|]. split; [|split_and!; eauto].
  match type of Hst with _ = t_Status (aggregateReady ?x) =>
    destruct (aggregateReady_status x) as (Hp & Hg & Hr & _) end.
  unfold says_ready. rewrite Hst. unfold setCondition in *. cbn in *.
  rewrite !IsStatusConditionTrue_set in *. cbn in *. by split_and!.
Qed.

(** The owner references an applied object is stored with. *)
Lemma owned_stored t m m1 m0 : t_Name t = n ->
  SetControllerReference (tr_Scheme rt) TenantKind (t_ObjectMeta t) m0 = inr m1 ->
  om_OwnerReferences m = om_OwnerReferences m1 -> owned n m.
Proof.
  intros Hn (_ & ref & Hc & Hk & Hr & _)%SetControllerReference_ok Ho.
  exists ref. unfold controllerOf in *. rewrite Ho. rewrite Hr. by split_and!.
Qed.

(** A stale copy of what the Tenant controls is of its concern. *)
Lemma cached_concern s evs kd m : unconcerned (WTenant n) s evs ->
  kd ∈ b_Owns SetupWithManager -> owned n m -> ~ as_cached evs kd m.
Proof.
  intros Hun Hk (ref & Hc & Href) (ev & m0 & Hin & Hev & Hold & Hm). apply (Hun ev Hin).
  exists (ObjOther m0). split; [by left|]. right. left. split; [by rewrite Hev|].
  exists ref. unfold controllerOf in *. cbn. by rewrite Hm.
Qed.

Lemma applied_namespace evs t s res o s' : t_Name t = n -> unconcerned (WTenant n) s evs ->
  served evs _ (CreateOrUpdate KNamespace {| ns_ObjectMeta := NewObjectMeta (teamNamespace n) "" |}
    (mutateNamespace rt t)) s (inr (res, o)) s' -> namespace_there n s'.
Proof.
  intros Hn Hun (o0 & o1 & Hm & Hor)%stores_namespace.
  unfold mutateNamespace in Hm. destruct (SetControllerReference _ _ _ _) as [|m] eqn:E; [done|].
  injection Hm as <-. destruct Hor as [Hca|(Ho & _ & Hr)].
  - destruct (cached_concern _ _ _ _ Hun ltac:(by left) (owned_stored t m m _ Hn E eq_refl) Hca).
  - exists o. split; [done|by eapply owned_stored].
Qed.

Lemma applied_binding evs t s res o s' rb : t_Name t = n -> unconcerned (WTenant n) s evs ->
  rb_ObjectMeta rb = NewObjectMeta roleBindingName (teamNamespace n) ->
  served evs _ (CreateOrUpdate KRoleBinding rb (mutateRoleBinding rt t (teamNamespace n))) s
    (inr (res, o)) s' -> binding_there n s'.
Proof.
  intros Hn Hun Hk (o0 & o1 & Hm & Hor)%stores_rolebinding.
  unfold mutateRoleBinding in Hm. destruct (SetControllerReference _ _ _ _) as [|m] eqn:E; [done|].
  injection Hm as <-. destruct Hor as [Hca|(Ho & _ & Hr & H1 & H2)].
  - destruct (cached_concern _ _ _ _ Hun ltac:(right; by left) (owned_stored t m m _ Hn E eq_refl) Hca).
  - exists o. rewrite Hk in Ho. split; [exact Ho|].
    split; [by eapply owned_stored|]. by rewrite H1, H2.
Qed.

Lemma applied_quota evs t s res o s' rq : t_Name t = n -> unconcerned (WTenant n) s evs ->
  rq_ObjectMeta rq = NewObjectMeta resourceQuotaName (teamNamespace n) ->
  (size (quotaHard (Resources (t_Spec t))) =? 0) = false ->
  served evs _ (CreateOrUpdate KResourceQuota rq
    (mutateQuota rt t (quotaHard (Resources (t_Spec t))))) s (inr (res, o)) s' -> quota_there n t s'.
Proof.
  intros Hn Hun Hk Hsize (o0 & o1 & Hm & Hor)%stores_quota. unfold quota_there. rewrite Hsize.
  unfold mutateQuota in Hm. destruct (SetControllerReference _ _ _ _) as [|m] eqn:E; [done|].
  injection Hm as <-. destruct Hor as [Hca|(Ho & _ & Hr & Hh)].
  - destruct (cached_concern _ _ _ _ Hun ltac:(right; right; by left)
      (owned_stored t m m _ Hn E eq_refl) Hca).
  - exists o. rewrite Hk in Ho. split; [exact Ho|]. split; [by eapply owned_stored|]. by rewrite Hh.
Qed.

Lemma removed_quota evs t s r s' rq u :
  rq_ObjectMeta rq = NewObjectMeta resourceQuotaName (teamNamespace n) ->
  (size (quotaHard (Resources (t_Spec t))) =? 0) = true ->
  served evs _ (Delete KResourceQuota rq u) s r s' -> IgnoreNotFound r = None -> quota_there n t s'.
Proof.
  intros Hk Hsize Hs Hr. pose proof (removes_quota _ _ _ _ _ _ Hs Hr) as Hq. rewrite Hk in Hq.
  unfold quota_there. rewrite Hsize. intros o Ho _. change (quotaKey n) with
    (keyOf (NewObjectMeta resourceQuotaName (teamNamespace n))) in Ho. by rewrite Ho in Hq.
Qed.

(** From the finalizer on: the three steps and the status. *)
Lemma aggregateReady_name t : t_Name (aggregateReady t) = t_Name t.
Proof. unfold aggregateReady. by destruct (_ && _). Qed.

Lemma calm_steps s t : tenant s n = Some t ->
  ContainsFinalizer (t_ObjectMeta t) TenantFinalizer = true ->
  calm (outcome (at_peace n))
    (let* ' (tenant, reconcileErr) := reconcileResources rt t in
     let* p := trigger (PatchStatus KTenant (aggregateReady tenant) (MergeFrom t)) in
     match p with
     | inl err => match reconcileErr with
                  | Some _ => Ret (emptyResult, reconcileErr)
                  | None => Ret (emptyResult, Some err)
                  end
     | inr _ => Ret (emptyResult, reconcileErr)
     end) s.
Proof.
  intros Ht Hf. pose proof (stored_tenant_name _ _ _ Ht) as Hn.
  unfold reconcileResources, ensureNamespace. cbn [bind trigger]. apply calm_vis.
  intros s1 H1 _ ev1 N1 [e|[op o]] s2 Hs H2 _; cbn [bind]; [by apply tenant_calm_status_error|].
  rewrite Hn in Hs. eapply applied_namespace in Hs as Hns; [|done|done]. clear Hs.
  unfold ensureRoleBinding. cbn [bind trigger]. apply calm_vis.
  intros s3 H3 _ ev2 N2 [e|[op' o']] s4 Hs H4 _; cbn [bind]; [by apply tenant_calm_status_error|].
  change (t_Name (setCondition t _ _ _ _)) with (t_Name t) in *. rewrite Hn in Hs.
  eapply (applied_binding _ t) in Hs as Hb; [|done|done|done]. clear Hs.
  assert (H04 : quietTenant n s s4) by (transitivity s1; [done|]; transitivity s2; [done|]; by transitivity s3).
  assert (Hns4 : namespace_there n s4) by (eapply namespace_there_quiet; [|exact Hns]; by transitivity s3).
  assert (Hfinish : forall s5 s6 r m, quietTenant n s4 s5 -> quietTenant n s5 s6 ->
    quota_there n t s6 -> calm (outcome (at_peace n))
    (let* p := trigger (PatchStatus KTenant (aggregateReady (setCondition (setCondition
       (setCondition t ConditionNamespaceReady ConditionTrue "NamespaceCreated"
         ("namespace " +:+ teamNamespace (t_Name t) +:+ " is ready"))
       ConditionRBACReady ConditionTrue "RoleBindingCreated" ("group " +:+ teamNamespace (t_Name t)
         +:+ " bound to " +:+ teamRole +:+ " in " +:+ teamNamespace (t_Name t)))
       ConditionQuotaApplied ConditionTrue r m)) (MergeFrom t)) in
     match p with
     | inl err => Ret (emptyResult, Some err)
     | inr _ => Ret (emptyResult, None)
     end) s6).
  { intros s5 s6 r m H5 H6 Hq. assert (H46 : quietTenant n s4 s6) by (by etransitivity).
    assert (Ht6 : tenant s6 n = Some t) by (by rewrite (proj1 H46), (proj1 H04)).
    apply tenant_calm_status; [done|by rewrite aggregateReady_name|]. intros s' Hq' Hst.
    eapply provisioned_peace; [exact Ht6|done| | |exact Hq|exact Hq'|exact Hst]; eauto. }
  unfold ensureQuota.
  change (t_Spec (setCondition (setCondition t _ _ _ _) _ _ _ _)) with (t_Spec t).
  destruct (size (quotaHard (Resources (t_Spec t))) =? 0) eqn:Hsize;
    cbn [bind trigger]; apply calm_vis; intros s5 H5 _ ev3 N3 r s6 Hs H6 _.
  - destruct (IgnoreNotFound r) as [e|] eqn:Hr; cbn [bind]; [apply tenant_calm_status_error|].
    eapply Hfinish; [exact H5|exact H6|]. eapply removed_quota; [|done|exact Hs|done].
    cbn. by rewrite Hn.
  - destruct r as [e|[op2 q]]; cbn [bind]; [apply tenant_calm_status_error|].
    eapply Hfinish; [exact H5|exact H6|]. eapply applied_quota; [done|exact N3| |done|exact Hs].
    cbn. by rewrite Hn.
Qed.

(** The finalizer comes first; a Tenant that gets it is queued by that change. *)
Lemma finalizer_event evs P s s1 s2 t obj p o f w : tenant s n = Some t -> t_Name obj = n ->
  quietTenant n s s1 -> quietTenant n s1 s2 ->
  served evs _ (PatchObject KTenant obj p) s1 (inr o) s2 ->
  ContainsFinalizer (t_ObjectMeta t) f <> ContainsFinalizer (t_ObjectMeta obj) f ->
  calm P w s2.
Proof.
  intros Ht Hn H1 H2 Hs Hf. exfalso. apply stores_tenant_finalizers in Hs.
  rewrite Hn, (proj1 H2), (proj1 H1), Ht in Hs. apply Hf, eq_bool_prop_intro.
  by rewrite !Is_true_true, !ContainsFinalizer_spec, Hs.
Qed.

Lemma tenant_calm_live s t : tenant s n = Some t -> calm (outcome (at_peace n)) (reconcileLive rt t) s.
Proof.
  intros Ht. pose proof (stored_tenant_name _ _ _ Ht) as Hn. unfold reconcileLive, ensureFinalizer.
  destruct (ContainsFinalizer (GetMeta t) TenantFinalizer) eqn:Hf; cbn [bind];
    [by apply calm_steps|].
  cbn [trigger bind]. apply calm_vis. intros s1 H1 _ ev1 N1 [e|o] s2 Hs H2 _; [by apply calm_error|].
  eapply (finalizer_event _ _ s s1 s2 t _ _ o TenantFinalizer _ Ht); [|exact H1|exact H2|exact Hs|].
  - unfold t_Name. cbn. by rewrite AddFinalizer_name.
  - change (t_ObjectMeta t) with (GetMeta t). rewrite Hf. intros Hc. symmetry in Hc.
    apply not_true_iff_false in Hc. apply Hc, ContainsFinalizer_spec, AddFinalizer_spec. by left.
Qed.

(** [Reconcile] up to the branch on the deletion timestamp. *)
Lemma tenant_calm_reconcile P s : (forall s, tenant s n = None -> P s) ->
  (forall s t, tenant s n = Some t -> ~ live t -> calm (outcome P) (reconcileDelete t) s) ->
  (forall s t, tenant s n = Some t -> live t -> calm (outcome P) (reconcileLive rt t) s) ->
  calm (outcome P) (Reconcile rt (requestFor n)) s.
Proof.
  intros Hnone Hdel Hlive. unfold Reconcile. cbn [bind trigger]. apply calm_vis.
  intros s1 H1 I1 ev1 N1 r s2 Hs H2 I2.
  apply answers_tenant in Hs as [-> Hr]; [|by apply (unconcerned_own (WTenant n) s1)]. cbn in Hr.
  destruct r as [e|t].
  - intros s3 H3 _. destruct (IsNotFound (Some e)) eqn:He.
    + right. apply Hnone. rewrite (proj1 H3). auto.
    + left. rewrite IgnoreNotFound_spec, He. done.
  - unfold live in *. destruct (TimeIsZero (om_DeletionTimestamp (t_ObjectMeta t))) eqn:Hd;
      cbn [negb]; [by apply Hlive|apply Hdel; congruence].
Qed.

Lemma tenant_reconcile_calm s : calm (outcome (at_peace n)) (Reconcile rt (requestFor n)) s.
Proof.
  apply tenant_calm_reconcile; [by intros s' Hs t; rewrite Hs| |by intros; apply tenant_calm_live].
  intros s1 t Ht Hl. apply calm_always; [apply _|]. intros s2 H2 out. right. intros t' Ht'.
  rewrite (proj1 H2), Ht in Ht'. by injection Ht' as <-.
Qed.

(** ** A Tenant being deleted *)

(** It does not carry the platform's finalizer. *)
Definition let_go (s : state) : Prop :=
  forall t, tenant s n = Some t -> ~ live t ->
    ContainsFinalizer (t_ObjectMeta t) TenantFinalizer = false.

Lemma tenant_let_go_quiet s s' : quietTenant n s s' -> let_go s -> let_go s'.
Proof. intros Hq Hp t Ht. apply Hp. by rewrite <- (proj1 Hq). Qed.

(** A release changes the Tenant, so it cannot succeed quietly. *)
Lemma tenant_calm_release P s t : tenant s n = Some t ->
  ContainsFinalizer (t_ObjectMeta t) TenantFinalizer = true ->
  calm (outcome P)
    (let* ' (_, rerr) := releaseFinalizer t TenantFinalizer in Ret (emptyResult, rerr)) s.
Proof.
  intros Ht Hf. pose proof (stored_tenant_name _ _ _ Ht) as Hn. unfold releaseFinalizer.
  change (GetMeta t) with (t_ObjectMeta t). rewrite Hf. cbn [negb bind trigger]. apply calm_vis.
  intros s1 H1 _ ev1 N1 [e|o] s2 Hs H2 _; [by apply calm_error|].
  eapply (finalizer_event _ _ s s1 s2 t _ _ o TenantFinalizer _ Ht); [|exact H1|exact H2|exact Hs|].
  - unfold t_Name. cbn. by rewrite RemoveFinalizer_name.
  - rewrite Hf. intros Hc. symmetry in Hc. apply ContainsFinalizer_spec in Hc.
    apply RemoveFinalizer_spec in Hc as [Hne _]. done.
Qed.

Lemma calm_delete s t : tenant s n = Some t ->
  ContainsFinalizer (t_ObjectMeta t) TenantFinalizer = true ->
  calm (outcome let_go) (reconcileDelete t) s.
Proof.
  intros Ht Hf. pose proof (stored_tenant_name _ _ _ Ht) as Hn. unfold reconcileDelete.
  rewrite Hf. cbn [negb bind trigger]. apply calm_vis.
  intros s1 H1 _ ev1 _ [e|cs] s2 _ H2 _; [by apply calm_error|]. destruct (0 <? length cs).
  - apply calm_vis. intros s3 _ _ ev2 _ [e|o] s4 _ _ _; [by apply calm_error|by apply calm_again].
  - apply calm_vis. intros s3 H3 _ ev2 _ [e|o] s4 Hs H4 _; [by apply calm_error|].
    assert (Ht3 : tenant s3 n = Some t) by (by rewrite (proj1 H3), (proj1 H2), (proj1 H1)).
    apply stores_tenant_status in Hs as [Ho _]; [|by rewrite <- Hn in Ht3].
    change (tenant s4 (t_Name t) = Some o) in Ho. rewrite Hn, (proj1 H4), Ht3 in Ho.
    injection Ho as <-. apply calm_vis. intros s5 H5 _ ev3 _ r s6 _ H6 _.
    assert (Ht6 : tenant s6 n = Some t)
      by (by rewrite (proj1 H6), (proj1 H5), (proj1 H4)).
    destruct r as [e|]; [|by apply tenant_calm_release].
    destruct (IsNotFound (Some e)); [by apply tenant_calm_release|by apply calm_error].
Qed.

Lemma delete_reconcile_calm s : calm (outcome let_go) (Reconcile rt (requestFor n)) s.
Proof.
  assert (Hdone : forall w s1 t, tenant s1 n = Some t ->
    live t \/ ContainsFinalizer (t_ObjectMeta t) TenantFinalizer = false ->
    calm (outcome let_go) w s1).
  { intros w s1 t Ht Hor. apply calm_always; [apply _|]. intros s2 H2 out. right. intros t' Ht' Hl.
    rewrite (proj1 H2), Ht in Ht'. injection Ht' as <-. by destruct Hor. }
  apply tenant_calm_reconcile; [by intros s' Hs t; rewrite Hs|intros s1 t Ht _|by eauto].
  destruct (ContainsFinalizer (t_ObjectMeta t) TenantFinalizer) eqn:Hf; [by apply calm_delete|eauto].
Qed.
End lawful.

(** ** Theorems *)

Lemma tenant_at_peace x0 x n : fresh x0 -> rtc (qstep rt rs) x0 x -> resting x (WTenant n) ->
  at_peace n (world x).
Proof.
  intros Hf Hr Hrest.
  apply (at_rest rt rs (fun _ => True) (WTenant n) (quietTenant n) (unheard_quietTenant n)
    (at_peace n) (tenant_at_peace_quiet n) (tenant_reconcile_calm (fun _ => True) n) x0 x Hf I);
    [by apply rtc_lawful|done].
Qed.

(** C6: a Tenant at rest is provisioned.  Start the controllers on any cluster and
    let anybody change anything between any two calls, events arrive late and in
    any order, calls fail and the process restart: whenever a Tenant that is not
    being deleted is neither queued nor being reconciled, and no event it depends
    on is on its way, it carries the finalizer, its status is of its generation
    and says Ready, its namespace exists, the group of the team is bound to the
    edit role in it, and its quota has the limits it declares, or is gone if it
    declares none, all of them controlled by the Tenant.  So whoever deletes or
    changes one of these objects, it does not stay that way, and a copy of it that
    was out of date in the cache has not deceived the controller. *)
Theorem tenant_at_rest_provisioned x0 x n t :
  fresh x0 -> rtc (qstep rt rs) x0 x -> resting x (WTenant n) ->
  tenant (world x) n = Some t -> live t -> converged n (world x) t.
Proof. intros Hf Hr Hrest. by eapply tenant_at_peace. Qed.

(** C11: the teardown of a Tenant is never forgotten: one that is being deleted and
    carries the platform's finalizer is queued or being reconciled, or an event
    that will queue it is on its way. *)
Theorem deleted_tenant_at_rest_released x0 x n t :
  fresh x0 -> rtc (qstep rt rs) x0 x -> resting x (WTenant n) ->
  tenant (world x) n = Some t -> ~ live t ->
  ContainsFinalizer (t_ObjectMeta t) TenantFinalizer = false.
Proof.
  intros Hf Hr Hrest. revert t.
  apply (at_rest rt rs (fun _ => True) (WTenant n) (quietTenant n) (unheard_quietTenant n)
    (let_go n) (tenant_let_go_quiet n) (delete_reconcile_calm (fun _ => True) n) x0 x Hf I);
    [by apply rtc_lawful|done].
Qed.

(** C2: the platform at rest serves.  When the controllers are done with a claim
    and with the Tenant of its team, neither being deleted, and all they depend on
    has reached them, then whatever happened before, and however far the cache was
    behind, the Tenant is provisioned, the claim is Ready, and the Application it
    asks for, in the namespace of the team, exists: the two controllers, each
    waiting for what the other one writes, reach the goal of the platform. *)
Theorem platform_at_rest_serves {CS : Convergence.ClaimServer} x0 x n c t :
  let team := Team (sc_Spec c) in
  fresh x0 -> rtc (qstep rt rs) x0 x ->
  resting x (WClaim n) -> resting x (WTenant team) -> team <> "" ->
  claimAt (world x) n = Some c -> Convergence.live c ->
  tenant (world x) team = Some t -> live t ->
  converged team (world x) t /\ cs_Phase (sc_Status c) = PhaseReady /\
  exists a, application (world x) n = Some a /\ Convergence.asked rs c a.
Proof.
  intros team Hf Hr Hrc Hrt Hne Hc Hlc Ht Hlt.
  pose proof (tenant_at_peace x0 x team Hf Hr Hrt t Ht Hlt) as Htc. split; [done|].
  pose proof (Convergence.claim_at_peace rt rs x0 x n Hf Hr Hrc c Hc Hlc Hne) as (_ & _ & Hp & Ha).
  assert (Hready : Convergence.teamReady (world x) c = true).
  { unfold Convergence.teamReady. fold team. rewrite Ht. apply Htc. }
  rewrite Hready in Hp. split; [done|]. apply Ha in Hready.
  by rewrite (stored_claim_name _ _ _ Hc) in Hready.
Qed.
End convergence.

(** ** Witnesses *)

Section witnesses.
#[local] Existing Instance sample_kube.
#[local] Existing Instance sample_kube_laws.
#[local] Existing Instance Convergence.tidy_claim_server.

Lemma applies_key {T} (key : T -> string * string) m obj mutate o :
  applies key m obj mutate = inr o -> exists o0, mutate o0 = inr o.
Proof.
  unfold applies. destruct (mutate _) as [e|o'] eqn:E; [done|]. destruct (decide _); [|done].
  intros [= <-]. eauto.
Qed.

#[local] Instance tidy_tenant_server : TenantServer.
Proof.
  split; cbn [state tidy_api tenant namespaceAt roleBindingAt quotaAt tidy_stores].
  - intros evs obj p s o s' [Hs|[_ []]]. cbn -[conflicts] in Hs.
    destruct (tidy_tenant s (t_Name obj)) as [t|]; [|done]. destruct (conflicts _ _ _); [done|].
    injection Hs as <- <-. unfold tidy_tenant. cbn.
    destruct (lands_cases t_Name t_ObjectMeta t obj (tidy_tenants s)) as [-> | ->].
    + by rewrite named_insert.
    + by rewrite named_delete.
  - intros evs obj base s o s' [Hs|[_ []]] Hb. cbn in Hs. rewrite Hb in Hs. injection Hs as <- <-.
    pose proof (named_name _ _ _ _ Hb) as Hn. split; [|done]. rewrite <- Hn.
    exact (named_insert t_Name (tidy_tenants s) (t_set_status base (t_Status obj))).
  - intros evs obj mutate s res o s' [Hs|[_ (ev & x & Hin & Hk & Ho & Hm & [= -> ->])]].
    + cbn in Hs. destruct (applies _ _ _ _) eqn:E; [done|].
      injection Hs as <- <- <-. apply applies_key in E as [o0 Hm]. cbn.
      eexists _, _. split; [exact Hm|]. right. split; [by apply lookup_insert_eq|done].
    + eexists _, _. split; [exact Hm|]. left. by exists ev, (ns_ObjectMeta x).
  - intros evs obj mutate s res o s' [Hs|[_ []]]. cbn in Hs. destruct (applies _ _ _ _) eqn:E; [done|].
    injection Hs as <- <- <-. apply applies_key in E as [o0 Hm]. cbn.
    eexists _, _. split; [exact Hm|]. right. split; [by apply lookup_insert_eq|done].
  - intros evs obj mutate s res o s' [Hs|[_ []]]. cbn in Hs. destruct (applies _ _ _ _) eqn:E; [done|].
    injection Hs as <- <- <-. apply applies_key in E as [o0 Hm]. cbn.
    eexists _, _. split; [exact Hm|]. right. split; [by apply lookup_insert_eq|done].
  - intros evs obj u s r s' [Hs|[_ []]] _. cbn in Hs. injection Hs as <- <-. cbn.
    change (keyPair (keyOf (rq_ObjectMeta obj))) with (rqKey obj). by rewrite lookup_delete_eq.
Qed.

Definition reconciled (i : wid) (s : tidy_state) : tidy_state :=
  snd (interp tidy_server (handlerOf small_rt small_rs i) s).

(** A team with a quota and one service: its Tenant is reconciled, then its
    claim. *)
Definition platform : tidy_state := Eval vm_compute in
  reconciled (WClaim "shop") (reconciled (WTenant "payments") {|
  tidy_tenants := {["payments" := sample_tenant "payments" (Some resources_4_8) [] None]};
  tidy_claims := {["shop" := sample_claim "shop" "payments" "shop:1" (Some 2%Z) [] None]};
  tidy_apps := ∅; tidy_owned := no_objects |}).

Definition the_tenant : Tenant :=
  default (sample_tenant "" None [] None) (tidy_tenant platform "payments").
Definition the_claim : ServiceClaim :=
  default (sample_claim "" "" "" None [] None) (tidy_claim platform "shop").

Lemma platform_stored : tidy_tenant platform "payments" = Some the_tenant /\
  tidy_claim platform "shop" = Some the_claim.
Proof. split; vm_compute; reflexivity. Qed.

Lemma platform_live : live the_tenant /\ Convergence.live the_claim /\
  Team (sc_Spec the_claim) = "payments".
Proof. split_and!; vm_compute; reflexivity. Qed.

(** Another reconcile of either finds nothing to change. *)
Lemma platform_still : still (handlerOf small_rt small_rs (WTenant "payments")) platform /\
  still (handlerOf small_rt small_rs (WClaim "shop")) platform.
Proof. split; still_run platform. Qed.

Lemma platform_returns :
  again (returns (handlerOf small_rt small_rs (WTenant "payments")) platform) = false /\
  again (returns (handlerOf small_rt small_rs (WClaim "shop")) platform) = false.
Proof. split; vm_compute; reflexivity. Qed.

Lemma platform_rests : exists x, rtc (qstep small_rt small_rs) (all_queued platform) x /\
  world x = platform /\ resting x (WTenant "payments") /\ resting x (WClaim "shop").
Proof.
  destruct (still_rests (fun _ => True) (WTenant "payments") platform (all_queued platform))
    as (x & Hx & Wx & Px & (Qx & Rx & _) & Ox);
    [done|exact (proj1 platform_still)|exact (proj1 platform_returns)|done|].
  destruct (Ox (WClaim "shop")) as [Qc Rc]; [done|].
  destruct (still_rests (fun _ => True) (WClaim "shop") platform x)
    as (y & Hy & Wy & Py & Hrest & Oy); [done|exact (proj2 platform_still)|exact (proj2 platform_returns)|
      exact (conj Wx (conj Px (conj Qc Rc)))|].
  destruct (Oy (WTenant "payments")) as [Qt Rt]; [done|].
  exists y. split_and!; [|done| |done].
  - etransitivity; [exact (lawful_rtc _ _ _ _ _ Hx)|exact (lawful_rtc _ _ _ _ _ Hy)].
  - split_and!; [congruence|congruence|]. rewrite Py. by intros ev ?%not_elem_of_nil.
Qed.

Lemma tenant_at_rest_provisioned_witness : exists x,
  resting x (WTenant "payments") /\ tidy_tenant (world x) "payments" = Some the_tenant /\
  converged (A:=tidy_api) "payments" (world x) the_tenant.
Proof.
  destruct platform_rests as (x & Hx & Wx & Hrt & _). exists x.
  assert (Ht : tidy_tenant (world x) "payments" = Some the_tenant)
    by (rewrite Wx; exact (proj1 platform_stored)).
  exact (conj Hrt (conj Ht (tenant_at_rest_provisioned (A:=tidy_api) small_rt small_rs
    (all_queued platform) x "payments" the_tenant (all_queued_fresh platform) Hx Hrt Ht
    (proj1 platform_live)))).
Defined.

Lemma platform_at_rest_serves_witness : exists x,
  tidy_claim (world x) "shop" = Some the_claim /\ cs_Phase (sc_Status the_claim) = PhaseReady /\
  exists a, tidy_app (world x) "shop" = Some a /\ Convergence.asked small_rs the_claim a.
Proof.
  destruct platform_rests as (x & Hx & Wx & Hrt & Hrc). exists x.
  assert (Hc : tidy_claim (world x) "shop" = Some the_claim)
    by (rewrite Wx; exact (proj2 platform_stored)).
  assert (Ht : tidy_tenant (world x) (Team (sc_Spec the_claim)) = Some the_tenant)
    by (rewrite Wx, (proj2 (proj2 platform_live)); exact (proj1 platform_stored)).
  assert (Hrt' : resting x (WTenant (Team (sc_Spec the_claim))))
    by (rewrite (proj2 (proj2 platform_live)); exact Hrt).
  assert (Hne : Team (sc_Spec the_claim) <> "") by (rewrite (proj2 (proj2 platform_live)); done).
  exact (conj Hc (proj2 (platform_at_rest_serves (A:=tidy_api) small_rt small_rs
    (all_queued platform) x "shop" the_claim the_tenant (all_queued_fresh platform) Hx Hrc Hrt' Hne
    Hc (proj1 (proj2 platform_live)) Ht (proj1 platform_live)))).
Defined.

(** A Tenant that another finalizer still holds after its teardown. *)
Definition lingering : Tenant := sample_tenant "payments" None ["example.com/audit"] (Some 1%Z).

Definition torn_down : tidy_state :=
  {| tidy_tenants := {["payments" := lingering]}; tidy_claims := ∅; tidy_apps := ∅;
     tidy_owned := no_objects |}.

Lemma deleted_tenant_at_rest_released_witness : exists x,
  resting x (WTenant "payments") /\ tidy_tenant (world x) "payments" = Some lingering /\
  ContainsFinalizer (t_ObjectMeta lingering) TenantFinalizer = false.
Proof.
  destruct (still_rests (fun _ => True) (WTenant "payments") torn_down (all_queued torn_down))
    as (x & Hx & Wx & _ & Hrt & _); [done|vm_compute; repeat split|done|done|]. exists x.
  assert (Ht : tidy_tenant (world x) "payments" = Some lingering) by (rewrite Wx; reflexivity).
  refine (conj Hrt (conj Ht _)).
  refine (deleted_tenant_at_rest_released (A:=tidy_api) small_rt small_rs (all_queued torn_down) x
    "payments" lingering (all_queued_fresh torn_down) (lawful_rtc _ _ _ _ _ Hx) Hrt Ht _).
  discriminate.
Defined.
End witnesses.
