(* ===== verification/TenantSettling.v ===== *)
(** * A Tenant settles

    The Tenant controller under [Settling]: a reconcile of a Tenant that is not
    being deleted leaves everything as the next one would write it. *)
From stdpp Require Import relations.
From S2P Require Import Prelude Prog Kube Api Client Finalizers Indexes.
From S2P Require ServiceClaimController.
From S2P Require Import TenantController TenantControllerSpec System WorkQueue TenantConvergence.
From S2P Require Import Sample SampleApi SystemSample SampleServer SampleQueue Settling.
Open Scope prog_scope.

Section settling.
Context `{K : Kube} `{A : !ApiServer} `{L : !KubeLaws} `{V : !Stores} `{CA : !Cache} {SN : StoredNames}.
Context {TS : TenantServer}.
Context (rt : TenantReconciler) (rs : ServiceClaimController.ServiceClaimReconciler).

(** A patched Tenant as the server stores it: only the version is its own. *)
Definition kept (b o : Tenant) : Prop :=
  let m := t_ObjectMeta b in let m' := t_ObjectMeta o in
  t_Spec o = t_Spec b /\ om_Name m' = om_Name m /\ om_Namespace m' = om_Namespace m /\
  om_UID m' = om_UID m /\ om_Generation m' = om_Generation m /\
  om_DeletionTimestamp m' = om_DeletionTimestamp m /\ om_Finalizers m' = om_Finalizers m.

(** The objects of a Tenant, and the Tenant itself, are the same in two states. *)
Definition sameTenant (n : string) (s s' : state) : Prop := tenant s' n = tenant s n.
Definition sameNamespace (n : string) (s s' : state) : Prop :=
  namespaceAt s' (teamNamespace n) = namespaceAt s (teamNamespace n).
Definition sameBinding (n : string) (s s' : state) : Prop :=
  roleBindingAt s' (roleBindingKey n) = roleBindingAt s (roleBindingKey n).
Definition sameQuota (n : string) (s s' : state) : Prop :=
  quotaAt s' (quotaKey n) = quotaAt s (quotaKey n).

(** What the server leaves alone, and that a write of what is stored, or a deletion of what is not, changes
    nothing.  A quota the Tenant does not want is gone at once. *)
Class QuietTenantServer : Prop := {
  keeps_on_finalizers base f s o s' :
    let obj := SetMeta (AddFinalizer (GetMeta base) f) base in
    served [] _ (PatchObject KTenant obj (MergeFromWithOptimisticLock base)) s (inr o) s' ->
    tenant s (t_Name base) = Some base -> live base ->
    tenant s' (t_Name base) = Some o /\ kept obj o;
  keeps_on_status obj base s o s' :
    served [] _ (PatchStatus KTenant obj (MergeFrom base)) s (inr o) s' ->
    tenant s (t_Name obj) = Some base ->
    kept base o /\ forall n, sameNamespace n s s' /\ sameBinding n s s' /\ sameQuota n s s';
  same_status obj base s o s' :
    served [] _ (PatchStatus KTenant obj (MergeFrom base)) s (inr o) s' ->
    tenant s (t_Name obj) = Some base -> t_Status obj = t_Status base -> s' = s;
  keeps_on_namespace obj mutate s res o s' :
    served [] _ (CreateOrUpdate KNamespace obj mutate) s (inr (res, o)) s' ->
    forall n, sameTenant n s s';
  same_namespace obj mutate s res o s' x :
    served [] _ (CreateOrUpdate KNamespace obj mutate) s (inr (res, o)) s' ->
    namespaceAt s (om_Name (ns_ObjectMeta obj)) = Some x -> mutate x = inr x -> s' = s;
  keeps_on_rolebinding obj mutate s res o s' :
    served [] _ (CreateOrUpdate KRoleBinding obj mutate) s (inr (res, o)) s' ->
    forall n, sameTenant n s s' /\ sameNamespace n s s';
  same_rolebinding obj mutate s res o s' x :
    served [] _ (CreateOrUpdate KRoleBinding obj mutate) s (inr (res, o)) s' ->
    roleBindingAt s (keyOf (rb_ObjectMeta obj)) = Some x -> mutate x = inr x -> s' = s;
  keeps_on_quota obj mutate s res o s' :
    served [] _ (CreateOrUpdate KResourceQuota obj mutate) s (inr (res, o)) s' ->
    forall n, sameTenant n s s' /\ sameNamespace n s s' /\ sameBinding n s s';
  same_quota obj mutate s res o s' x :
    served [] _ (CreateOrUpdate KResourceQuota obj mutate) s (inr (res, o)) s' ->
    quotaAt s (keyOf (rq_ObjectMeta obj)) = Some x -> mutate x = inr x -> s' = s;
  keeps_on_removal obj u s r s' :
    served [] _ (Delete KResourceQuota obj u) s r s' -> IgnoreNotFound r = None ->
    (forall n, sameTenant n s s' /\ sameNamespace n s s' /\ sameBinding n s s') /\
    quotaAt s' (keyOf (rq_ObjectMeta obj)) = None;
  same_removal obj u s r s' :
    served [] _ (Delete KResourceQuota obj u) s r s' ->
    quotaAt s (keyOf (rq_ObjectMeta obj)) = None -> s' = s;
}.
Context {QS : QuietTenantServer}.

(** ** Nothing is left to write *)

(** The status of a reconcile in which every step succeeded. *)
Definition provisioned (t : Tenant) : Tenant :=
  let ns := teamNamespace (t_Name t) in
  aggregateReady (setCondition (setCondition (setCondition t
    ConditionNamespaceReady ConditionTrue "NamespaceCreated" ("namespace " +:+ ns +:+ " is ready"))
    ConditionRBACReady ConditionTrue "RoleBindingCreated"
      ("group " +:+ ns +:+ " bound to " +:+ teamRole +:+ " in " +:+ ns))
    ConditionQuotaApplied ConditionTrue
      (if size (quotaHard (Resources (t_Spec t))) =? 0 then "NoResourcesDeclared" else "QuotaApplied")
      (if size (quotaHard (Resources (t_Spec t))) =? 0
       then "tenant declares no resources; namespace is uncapped"
       else "resource quota applied to " +:+ ns)).

Lemma provisioned_name t : t_Name (provisioned t) = t_Name t.
Proof. unfold provisioned. by rewrite aggregateReady_name. Qed.

Lemma provisioned_same t t' : kept t t' -> t_Status t' = t_Status (provisioned t) ->
  t_Status (provisioned t') = t_Status t'.
Proof.
  intros (Hs & Hn & _ & _ & Hg & _) Hst. assert (Hnm : t_Name t' = t_Name t) by done.
  unfold provisioned in *. rewrite Hs, Hnm. unfold aggregateReady, setCondition in *. cbn in *.
  rewrite !IsStatusConditionTrue_set in *. cbn in *. rewrite Hst, Hg. cbn. f_equal.
  by apply set_again4.
Qed.

(** The objects of the Tenant are as they would be applied. *)
Definition in_place (n : string) (s : state) (t : Tenant) : Prop :=
  let hard := quotaHard (Resources (t_Spec t)) in
  (exists o, namespaceAt s (teamNamespace n) = Some o /\ mutateNamespace rt t o = inr o) /\
  (exists o, roleBindingAt s (roleBindingKey n) = Some o /\
     mutateRoleBinding rt t (teamNamespace n) o = inr o) /\
  if size hard =? 0 then quotaAt s (quotaKey n) = None
  else exists o, quotaAt s (quotaKey n) = Some o /\ mutateQuota rt t hard o = inr o.

Definition written (n : string) (s : state) (t : Tenant) : Prop :=
  tenant s n = Some t /\ live t /\
  ContainsFinalizer (t_ObjectMeta t) TenantFinalizer = true /\
  t_Status (provisioned t) = t_Status t /\ in_place n s t.

Definition all_written (n : string) (s : state) : Prop := exists t, written n s t.

Lemma owner_again t t' m0 m1 m : kept t t' ->
  SetControllerReference (tr_Scheme rt) TenantKind (t_ObjectMeta t) m0 = inr m1 ->
  om_OwnerReferences m = om_OwnerReferences m1 -> om_Namespace m = om_Namespace m1 ->
  SetControllerReference (tr_Scheme rt) TenantKind (t_ObjectMeta t') m = inr m.
Proof.
  intros (_ & Hn & Hns & Hu & _) E Hr Hm.
  by apply (SetControllerReference_same _ _ _ _ _ _ _ E).
Qed.

Lemma namespace_again t t' o0 o1 o : kept t t' -> mutateNamespace rt t o0 = inr o1 ->
  om_Namespace (ns_ObjectMeta o) = om_Namespace (ns_ObjectMeta o1) ->
  om_OwnerReferences (ns_ObjectMeta o) = om_OwnerReferences (ns_ObjectMeta o1) ->
  mutateNamespace rt t' o = inr o.
Proof.
  intros Hk Hm Hn Hr. unfold mutateNamespace in *.
  destruct (SetControllerReference _ _ _ (ns_ObjectMeta o0)) as [|m] eqn:E; [done|].
  injection Hm as <-. rewrite (owner_again t t' _ _ _ Hk E Hr Hn). by destruct o.
Qed.

Lemma rolebinding_again t t' g o0 o1 o : kept t t' -> mutateRoleBinding rt t g o0 = inr o1 ->
  om_Namespace (rb_ObjectMeta o) = om_Namespace (rb_ObjectMeta o1) ->
  om_OwnerReferences (rb_ObjectMeta o) = om_OwnerReferences (rb_ObjectMeta o1) ->
  rb_RoleRef o = rb_RoleRef o1 -> rb_Subjects o = rb_Subjects o1 ->
  mutateRoleBinding rt t' g o = inr o.
Proof.
  intros Hk Hm Hn Hr H1 H2. unfold mutateRoleBinding in *.
  destruct (SetControllerReference _ _ _ (rb_ObjectMeta o0)) as [|m] eqn:E; [done|].
  injection Hm as <-. rewrite (owner_again t t' _ _ _ Hk E Hr Hn). cbn in *.
  destruct o; cbn in *. by rewrite H1, H2.
Qed.

Lemma quota_again t t' h o0 o1 o : kept t t' -> mutateQuota rt t h o0 = inr o1 ->
  om_Namespace (rq_ObjectMeta o) = om_Namespace (rq_ObjectMeta o1) ->
  om_OwnerReferences (rq_ObjectMeta o) = om_OwnerReferences (rq_ObjectMeta o1) ->
  rq_Hard o = rq_Hard o1 -> mutateQuota rt t' h o = inr o.
Proof.
  intros Hk Hm Hn Hr Hh. unfold mutateQuota in *.
  destruct (SetControllerReference _ _ _ (rq_ObjectMeta o0)) as [|m] eqn:E; [done|].
  injection Hm as <-. rewrite (owner_again t t' _ _ _ Hk E Hr Hn). cbn in *.
  destruct o; cbn in *. by rewrite Hh.
Qed.

(** ** The reconcile of a Tenant that is not being deleted *)

(** [reconcileLive] once the finalizer is there. *)
Definition gate (t : Tenant) : worker :=
  let* ' (tenant, reconcileErr) := reconcileResources rt t in
  let* p := trigger (PatchStatus KTenant (aggregateReady tenant) (MergeFrom t)) in
  match p with
  | inl err => match reconcileErr with
               | Some _ => Ret (emptyResult, reconcileErr)
               | None => Ret (emptyResult, Some err)
               end
  | inr _ => Ret (emptyResult, reconcileErr)
  end.

Lemma tenant_reconcileLive_gate t :
  ContainsFinalizer (t_ObjectMeta t) TenantFinalizer = true -> reconcileLive rt t = gate t.
Proof.
  intros Hf. unfold reconcileLive, ensureFinalizer. cbn [GetMeta Tenant_ClientObject].
  by rewrite Hf.
Qed.

Lemma tenant_kept_live t o : kept t o -> live t -> live o.
Proof. intros (_ & _ & _ & _ & _ & Hd & _). unfold live. by rewrite Hd. Qed.

Lemma tenant_kept_finalizer t o f : kept t o ->
  ContainsFinalizer (t_ObjectMeta o) f = ContainsFinalizer (t_ObjectMeta t) f.
Proof.
  intros (_ & _ & _ & _ & _ & _ & Hf). apply eq_bool_prop_intro.
  by rewrite !Is_true_true, !ContainsFinalizer_spec, Hf.
Qed.

Lemma tenant_added_live t f : live t -> live (SetMeta (AddFinalizer (GetMeta t) f) t).
Proof.
  unfold live. cbn. destruct (AddFinalizer_spec (t_ObjectMeta t) f) as [-> _]. done.
Qed.

Lemma removal_succeeds (obj : ResourceQuota) u r :
  succeeds (Delete KResourceQuota obj u) r -> IgnoreNotFound r = None.
Proof. cbn. destruct r as [e|]; intros Hr; rewrite IgnoreNotFound_spec; [by rewrite Hr|by destruct (IsNotFound None)]. Qed.

(** The last call of a run. *)
Definition report (t obj : Tenant) : worker :=
  let* p := trigger (PatchStatus KTenant obj (MergeFrom t)) in
  match p with
  | inl err => Ret (emptyResult, Some err)
  | inr _ => Ret (emptyResult, None)
  end.

Lemma tenant_idle_gate n s t : written n s t -> idle 4 (gate t) s.
Proof.
  intros (Ht & Hl & Hf & Hst & (o1 & N1 & M1) & (o2 & N2 & M2) & Hq).
  pose proof (stored_tenant_name _ _ _ Ht) as Hn. subst n.
  assert (Hend : idle 1 (report t (provisioned t)) s).
  { intros r s' Hs [o ->]. split; [|done]. eapply same_status; [exact Hs| |done].
    by rewrite provisioned_name. }
  unfold provisioned in Hend. unfold gate, reconcileResources, ensureNamespace. cbn [bind trigger].
  apply idle_vis. intros r s' Hs [[op x] ->].
  pose proof (same_namespace _ _ _ _ _ _ _ Hs N1 M1) as ->. split; [done|]. cbn [bind].
  clear Hs. unfold ensureRoleBinding. cbn [bind trigger].
  apply idle_vis. intros r s' Hs [[op' x'] ->].
  pose proof (same_rolebinding _ _ _ _ _ _ _ Hs N2 M2) as ->. split; [done|]. cbn [bind].
  clear Hs. unfold ensureQuota.
  change (t_Spec (setCondition (setCondition t _ _ _ _) _ _ _ _)) with (t_Spec t).
  destruct (size (quotaHard (Resources (t_Spec t))) =? 0); cbn [bind trigger]; apply idle_vis.
  - intros r s' Hs Hok. pose proof (same_removal _ _ _ _ _ Hs Hq) as ->. split; [done|].
    rewrite (removal_succeeds _ _ _ Hok). exact Hend.
  - destruct Hq as (o3 & N3 & M3). intros r s' Hs [[op3 x3] ->].
    pose proof (same_quota _ _ _ _ _ _ _ Hs N3 M3) as ->. split; [done|]. exact Hend.
Qed.

Lemma tenant_idle_all_written n s : all_written n s -> idle 5 (Reconcile rt (requestFor n)) s.
Proof.
  intros (t & Hw). pose proof Hw as (Ht & Hl & Hf & _). unfold Reconcile. cbn [bind trigger].
  apply idle_vis. intros r s' Hs Hok. apply answers_tenant in Hs as [-> Hr]; [|apply behind_nil]. cbn in Hr.
  split; [done|]. destruct r as [e|t'].
  - rewrite Hr in Ht; [done|exact Hok].
  - rewrite Ht in Hr. injection Hr as <-. unfold live in Hl. rewrite Hl. cbn [negb].
    rewrite (tenant_reconcileLive_gate t Hf). by apply (tenant_idle_gate n s t).
Qed.

(** The objects are in place for the Tenant, whatever status it is given. *)
Definition placed (n : string) (s : state) (t : Tenant) : Prop :=
  forall t', kept t t' -> in_place n s t'.

(** The last call leaves everything as the next reconcile would write it. *)
Lemma ends_report n s t : tenant s n = Some t -> live t ->
  ContainsFinalizer (t_ObjectMeta t) TenantFinalizer = true -> placed n s t ->
  ends 1 (all_written n) (report t (provisioned t)) s.
Proof.
  intros Ht Hl Hf Hp. pose proof (stored_tenant_name _ _ _ Ht) as Hn. subst n.
  intros r s' Hs [o ->]. split; [done|].
  assert (Hb : tenant s (t_Name (provisioned t)) = Some t) by (by rewrite provisioned_name).
  pose proof (stores_tenant_status _ _ _ _ _ _ Hs Hb) as [Ho Hst].
  destruct (keeps_on_status _ _ _ _ _ Hs Hb) as (Hk & Hsame).
  rewrite provisioned_name in Ho. exists o. unfold written. split_and!; [done| | | |].
  - by eapply tenant_kept_live.
  - by rewrite (tenant_kept_finalizer _ _ _ Hk).
  - by eapply provisioned_same.
  - destruct (Hsame (t_Name t)) as (E1 & E2 & E3). unfold sameNamespace, sameBinding, sameQuota in *.
    unfold in_place. rewrite E1, E2, E3. exact (Hp o Hk).
Qed.

Lemma namespace_placed n t s res o s' : t_Name t = n ->
  served [] _ (CreateOrUpdate KNamespace {| ns_ObjectMeta := NewObjectMeta (teamNamespace n) "" |}
    (mutateNamespace rt t)) s (inr (res, o)) s' ->
  namespaceAt s' (teamNamespace n) = Some o /\
  forall t', kept t t' -> mutateNamespace rt t' o = inr o.
Proof.
  intros Hn Hs. apply stores_namespace in Hs as (o0 & o1 & Hm & [[]%as_cached_nil|(Ho & E1 & E2)]). split; [done|].
  intros t' Hk. by eapply namespace_again.
Qed.

Lemma tenant_ends_gate n s t : tenant s n = Some t -> live t ->
  ContainsFinalizer (t_ObjectMeta t) TenantFinalizer = true -> ends 4 (all_written n) (gate t) s.
Proof.
  intros Ht Hl Hf. pose proof (stored_tenant_name _ _ _ Ht) as Hn. subst n.
  unfold gate, reconcileResources, ensureNamespace. cbn [bind trigger].
  apply ends_vis. intros r s1 Hs [[op o] ->]. cbn [bind].
  pose proof (keeps_on_namespace _ _ _ _ _ _ Hs (t_Name t)) as T1.
  apply namespace_placed in Hs as [N1 M1]; [|done].
  unfold ensureRoleBinding. cbn [bind trigger].
  apply ends_vis. intros r s2 Hs [[op' b] ->]. cbn [bind].
  destruct (keeps_on_rolebinding _ _ _ _ _ _ Hs (t_Name t)) as [T2 N2].
  apply stores_rolebinding in Hs as (b0 & b1 & Hm & [[]%as_cached_nil|(B2 & F1 & F2 & F3 & F4)]).
  assert (M2 : forall t', kept t t' -> mutateRoleBinding rt t' (teamNamespace (t_Name t)) b = inr b)
    by (intros t' Hk; by eapply rolebinding_again). clear Hm.
  assert (T02 : tenant s2 (t_Name t) = Some t) by (by rewrite T2, T1).
  assert (N02 : namespaceAt s2 (teamNamespace (t_Name t)) = Some o) by (by rewrite N2).
  assert (Hplaced : forall s3, sameNamespace (t_Name t) s2 s3 -> sameBinding (t_Name t) s2 s3 ->
    (forall t', kept t t' -> let hard := quotaHard (Resources (t_Spec t)) in
      if size hard =? 0 then quotaAt s3 (quotaKey (t_Name t)) = None
      else exists q, quotaAt s3 (quotaKey (t_Name t)) = Some q /\ mutateQuota rt t' hard q = inr q) ->
    placed (t_Name t) s3 t).
  { intros s3 N3 B3 Q3 t' Hk. unfold in_place. rewrite N3, B3, (proj1 Hk).
    split; [by exists o; auto|]. split; [by exists b; auto|]. by apply Q3. }
  unfold ensureQuota.
  change (t_Spec (setCondition (setCondition t _ _ _ _) _ _ _ _)) with (t_Spec t).
  assert (Hend := ends_report (t_Name t)). unfold report, provisioned in Hend.
  destruct (size (quotaHard (Resources (t_Spec t))) =? 0) eqn:Hsize; cbn [bind trigger];
    apply ends_vis; intros r s3 Hs Hok.
  - pose proof (removal_succeeds _ _ _ Hok) as Hr. rewrite Hr. cbn [bind].
    destruct (keeps_on_removal _ _ _ _ _ Hs Hr) as [Hsame Hq].
    destruct (Hsame (t_Name t)) as (T3 & N3 & B3).
    specialize (Hend s3 t). rewrite Hsize in Hend. apply Hend; [by rewrite T3|done|done|].
    apply Hplaced; [done|done|]. intros t' Hk. cbn zeta. by rewrite Hsize.
  - destruct Hok as [[op3 q] ->]. cbn [bind].
    destruct (keeps_on_quota _ _ _ _ _ _ Hs (t_Name t)) as (T3 & N3 & B3).
    apply stores_quota in Hs as (q0 & q1 & Hm & [[]%as_cached_nil|(Q3 & G1 & G2 & G3)]).
    specialize (Hend s3 t). rewrite Hsize in Hend. apply Hend; [by rewrite T3|done|done|].
    apply Hplaced; [done|done|]. intros t' Hk. cbn zeta. rewrite Hsize.
    exists q. split; [exact Q3|]. by eapply quota_again.
Qed.

(** A reconcile that succeeds leaves nothing to write. *)
Lemma tenant_ends_reconcile n s t : tenant s n = Some t -> live t ->
  ends 6 (all_written n) (Reconcile rt (requestFor n)) s.
Proof.
  intros Ht Hl. pose proof (stored_tenant_name _ _ _ Ht) as Hn.
  unfold Reconcile. cbn [bind trigger]. apply ends_vis. intros r s' Hs Hok.
  apply answers_tenant in Hs as [-> Hr]; [|apply behind_nil]. cbn in Hr. destruct r as [e|t'].
  { rewrite Hr in Ht; [done|exact Hok]. }
  rewrite Ht in Hr. injection Hr as <-. pose proof Hl as Hl'. unfold live in Hl'. rewrite Hl'.
  cbn [negb]. destruct (ContainsFinalizer (t_ObjectMeta t) TenantFinalizer) eqn:Hf.
  { rewrite (tenant_reconcileLive_gate t Hf). eapply ends_more; [|by apply tenant_ends_gate]. lia. }
  unfold reconcileLive, ensureFinalizer. cbn [GetMeta Tenant_ClientObject]. rewrite Hf.
  cbn [bind trigger]. apply ends_vis. intros r s' Hs [o ->]. cbn [bind].
  apply keeps_on_finalizers in Hs as [Ho Hk]; [|by rewrite Hn|done]. rewrite Hn in Ho.
  apply (tenant_ends_gate n); [done| |].
  - eapply tenant_kept_live; [exact Hk|]. by apply tenant_added_live.
  - rewrite (tenant_kept_finalizer _ _ _ Hk). apply ContainsFinalizer_spec, AddFinalizer_spec. by left.
Qed.

(** ** Theorem *)

(** C13: the Tenant controller does not keep itself busy either: from any state in
    which the Tenant is stored and not being deleted, its own reconciles, with
    calls that succeed, make at most fifteen steps.  The second reconcile writes
    only what is stored already; for a Tenant without resources it deletes a
    quota that is gone. *)
Theorem tenant_settles n x y k t :
  running x (WTenant n) = None -> tenant (world x) n = Some t -> live t ->
  nsteps (solo rt rs (WTenant n)) k x y -> k <= 15.
Proof.
  intros Hr Ht Hl. revert k y.
  apply (settles_bounded rt rs (WTenant n) (all_written n) 5 (tenant_idle_all_written n) 6 x Hr).
  by apply (tenant_ends_reconcile n _ t).
Qed.
End settling.

(** ** Witness *)

Section witness.
#[local] Existing Instance sample_kube.
#[local] Existing Instance sample_kube_laws.
#[local] Existing Instance tidy_tenant_server.

Lemma applies_same {T} (key : T -> string * string) m obj mutate o x :
  applies key m obj mutate = inr o -> m !! key obj = Some x -> mutate x = inr x ->
  <[key obj := o]> m = m.
Proof.
  unfold applies. intros Ho Hx Hm. rewrite Hx in Ho. cbn in Ho. rewrite Hm in Ho.
  destruct (decide _); [|done]. injection Ho as <-. by apply insert_id.
Qed.

Lemma with_owned_same s : with_owned {| tidy_namespaces := tidy_namespaces (tidy_owned s);
    tidy_bindings := tidy_bindings (tidy_owned s); tidy_quotas := tidy_quotas (tidy_owned s) |} s = s.
Proof. by destruct s as [? ? ? []]. Qed.

#[local] Instance tidy_quiet_tenants : QuietTenantServer.
Proof.
  split; cbn [state tidy_api tenant namespaceAt roleBindingAt quotaAt tidy_stores].
  - intros base f s o s' Hs%served_now Hb _. set (obj := SetMeta (AddFinalizer (GetMeta base) f) base).
    assert (Hn : t_Name obj = t_Name base) by exact (AddFinalizer_name (t_ObjectMeta base) f).
    assert (Hl : exists g l, om_Finalizers (t_ObjectMeta obj) = g :: l).
    { destruct (AddFinalizer_spec (t_ObjectMeta base) f) as [_ Hf]. unfold obj.
      cbn [t_ObjectMeta SetMeta Tenant_ClientObject GetMeta].
      destruct (om_Finalizers (AddFinalizer (t_ObjectMeta base) f)) as [|g l]; [|by exists g, l].
      exfalso. eapply elem_of_nil, Hf. by left. }
    change (match tidy_tenant s (t_Name obj) with
            | None => (inl ENotFound, s)
            | Some t =>
                if conflicts (fun t => metaVersion (t_ObjectMeta t)) t (MergeFromWithOptimisticLock base)
                then (inl EConflict, s)
                else (inr obj, with_tenants (lands t_Name t_ObjectMeta t obj (tidy_tenants s)) s)
            end = (inr o, s')) in Hs.
    rewrite Hn, Hb, (proj2 (no_conflict (fun t => metaVersion (t_ObjectMeta t)) base base) eq_refl)
      in Hs. injection Hs as <- <-. clearbody obj. split; [|by split_and!].
    destruct Hl as (g & l & Hl). rewrite <- Hn. unfold lands. rewrite Hl.
    destruct (om_DeletionTimestamp _); exact (named_insert t_Name _ obj).
  - intros obj base s o s' Hs%served_now Hb. cbn in Hs. rewrite Hb in Hs. by injection Hs as <- <-.
  - intros obj base s o s' Hs%served_now Hb Hst. cbn in Hs. rewrite Hb in Hs. injection Hs as <- <-.
    rewrite Hst. replace (t_set_status base (t_Status base)) with base by (by destruct base).
    unfold with_tenants. rewrite insert_id; [by destruct s|].
    apply (named_lookup t_Name). by rewrite (named_name _ _ _ _ Hb).
  - intros obj mutate s res o s' Hs%served_now n. cbn in Hs. destruct (applies _ _ _ _); [done|].
    by injection Hs as <- <- <-.
  - intros obj mutate s res o s' x Hs%served_now Hx Hm. cbn in Hs.
    destruct (applies _ _ _ _) as [|y] eqn:E; [done|]. injection Hs as <- <- <-.
    etransitivity; [exact (f_equal (fun m => with_owned (with_namespaces m (tidy_owned s)) s)
      (applies_same nsKey _ _ _ _ _ E Hx Hm))|apply with_owned_same].
  - intros obj mutate s res o s' Hs%served_now n. cbn in Hs. destruct (applies _ _ _ _); [done|].
    by injection Hs as <- <- <-.
  - intros obj mutate s res o s' x Hs%served_now Hx Hm. cbn in Hs.
    destruct (applies _ _ _ _) as [|y] eqn:E; [done|]. injection Hs as <- <- <-.
    etransitivity; [exact (f_equal (fun m => with_owned (with_bindings m (tidy_owned s)) s)
      (applies_same rbKey _ _ _ _ _ E Hx Hm))|apply with_owned_same].
  - intros obj mutate s res o s' Hs%served_now n. cbn in Hs. destruct (applies _ _ _ _); [done|].
    by injection Hs as <- <- <-.
  - intros obj mutate s res o s' x Hs%served_now Hx Hm. cbn in Hs.
    destruct (applies _ _ _ _) as [|y] eqn:E; [done|]. injection Hs as <- <- <-.
    etransitivity; [exact (f_equal (fun m => with_owned (with_quotas m (tidy_owned s)) s)
      (applies_same rqKey _ _ _ _ _ E Hx Hm))|apply with_owned_same].
  - intros obj u s r s' Hs%served_now _. cbn in Hs. injection Hs as <- <-. split; [done|]. cbn.
    change (keyPair (keyOf (rq_ObjectMeta obj))) with (rqKey obj). by rewrite lookup_delete_eq.
  - intros obj u s r s' Hs%served_now Hq. cbn in Hs. injection Hs as <- <-.
    change (keyPair (keyOf (rq_ObjectMeta obj))) with (rqKey obj) in Hq.
    etransitivity; [exact (f_equal (fun m => with_owned (with_quotas m (tidy_owned s)) s)
      (delete_id _ _ Hq))|apply with_owned_same].
Qed.

Definition new_tenant : Tenant := sample_tenant "payments" (Some resources_4_8) [] None.

Definition new_state : tidy_state := {|
  tidy_tenants := {["payments" := new_tenant]}; tidy_claims := ∅;
  tidy_apps := ∅; tidy_owned := no_objects |}.

(** Its second call, the finalizer, changes it. *)
Lemma tenant_second_call_writes : state2 (WTenant "payments") new_state <> new_state.
Proof.
  intros E. apply (f_equal (fun s => option_map (fun t => om_Finalizers (t_ObjectMeta t))
    (tidy_tenant s "payments"))) in E. vm_compute in E. discriminate.
Qed.

(** The whole execution: eight steps that write, seven that find all written. *)
Lemma tenant_settling_run : exists y,
  nsteps (solo small_rt small_rs (WTenant "payments")) 15 (all_queued new_state) y /\
  shows (WTenant "payments") y (settled (WTenant "payments") new_state) false None.
Proof.
  apply (two_rounds (WTenant "payments") new_state 4 5);
    [vm_compute; reflexivity|exact tenant_second_call_writes|vm_compute; reflexivity|
    vm_compute; reflexivity|vm_compute; reflexivity|still_run (settled (WTenant "payments") new_state)|
    vm_compute; reflexivity|
    vm_compute; reflexivity].
Qed.

(** The bound is met. *)
Lemma tenant_settles_witness : exists k y,
  nsteps (solo small_rt small_rs (WTenant "payments")) k (all_queued new_state) y /\
  queued y (WTenant "payments") = false /\ running y (WTenant "payments") = None /\ k = 15 /\ k <= 15.
Proof.
  destruct tenant_settling_run as (y & Hy & (_ & _ & Hq & Hr)). exists 15, y.
  refine (conj Hy (conj Hq (conj Hr (conj eq_refl _)))).
  refine (tenant_settles (A:=tidy_api) small_rt small_rs "payments" (all_queued new_state) y 15
    new_tenant _ _ _ Hy); vm_compute; reflexivity.
Defined.
End witness.
