(* ===== verification/Startup.v ===== *)
(** * Start-up sequences

    Both entry points make one set-up call after another and exit with status 1
    at the first that fails.  [orExit] is that idiom, a plan is the list of the
    calls, and [execute_follows] says what running a plan does. *)
From S2P Require Import Prelude Prog.
Open Scope prog_scope.

Section startup.
Context {E : Type -> Type} {err : Type}.

(** [if err := step; err != nil { os.Exit(1) }], then the rest. *)
Definition orExit (step : prog E (option err)) (rest : prog E Z) : prog E Z :=
  let* err := step in
  match err with
  | Some _ => Ret 1%Z
  | None => rest
  end.

Definition succeeded (c : E (option err)) : event E := Ev c None.

(** Running a plan: all of it, or up to the first failure. *)
Definition follows (p : list (E (option err))) (tr : list (event E)) (code : Z) : Prop :=
  (tr = map succeeded p /\ code = 0%Z) \/
  exists n c e, p !! n = Some c /\
    tr = map succeeded (take n p) ++ [Ev c (Some e)] /\ code = 1%Z.

Fixpoint execute (p : list (E (option err))) : prog E Z :=
  match p with
  | [] => Ret 0%Z
  | c :: p => orExit (trigger c) (execute p)
  end.

Lemma execute_follows p tr code : runs (execute p) tr code <-> follows p tr code.
Proof.
  revert tr. induction p as [|c p IH]; intros tr; cbn [execute].
  - split; [intros [-> ->]; by left|].
    intros [[-> ->]|(n & c & e & Hn & _)]; [by split|by destruct n].
  - unfold orExit. cbn [trigger bind runs]. split.
    + intros (r & tr' & -> & H). destruct r as [e|]; cbn in H.
      * destruct H as [-> ->]. right. by exists 0, c, e.
      * apply IH in H as [[-> ->]|(n & c' & e & Hn & -> & ->)]; [by left|right].
        by exists (S n), c', e.
    + intros [[-> ->]|([|n] & c' & e & Hn & -> & ->)].
      * exists None, (map succeeded p). split; [done|]. cbn. apply IH. by left.
      * injection Hn as ->. by exists (Some e), [].
      * exists None, (map succeeded (take n p) ++ [Ev c' (Some e)]). split; [done|].
        cbn. apply IH. right. by exists n, c', e.
Qed.
End startup.
