(* ===== verification/Registration.v ===== *)
(** * The API group's registration (groupversion_info.go, init in *_types.go)

    Package initialisation registers the four Go types with the package's
    [SchemeBuilder]; [init] of cmd/main.go then adds the built-in types and
    these to the process's scheme, or panics.  The scheme builder and client-go's
    scheme are libraries, given by operations and their documented behaviour. *)
From S2P Require Import Prelude Prog Kube Api Client Sample SampleApi.

Record GroupVersion := { gv_Group : string; gv_Version : string }.

Definition WithKind (gv : GroupVersion) (kind : string) : GroupVersionKind :=
  {| gvk_Group := gv_Group gv; gvk_Version := gv_Version gv; gvk_Kind := kind |}.

Section registration.
Context `{K : Kube}.

(** controller-runtime's [scheme.Builder] and client-go's [AddToScheme]: each
    adds types to a scheme, or fails.  An object is named by its Go type. *)
Class SchemeApi := {
  NewScheme : Scheme;
  recognizes : Scheme -> GroupVersionKind -> Prop;
  clientgo_AddToScheme : Scheme -> error + Scheme;
  SchemeBuilder : Type;
  NewBuilder : GroupVersion -> SchemeBuilder;
  Register : SchemeBuilder -> list string -> SchemeBuilder;
  Builder_AddToScheme : SchemeBuilder -> Scheme -> error + Scheme;
  (* the types a builder will add *)
  registered : SchemeBuilder -> list GroupVersionKind;
  builderVersion : SchemeBuilder -> GroupVersion;
}.

Context `{SA : !SchemeApi}.

Definition SchemeGroupVersion : GroupVersion :=
  {| gv_Group := "platform.idp.io"; gv_Version := "v1alpha1" |}.

(** The package's variable [SchemeBuilder] after the package's [init]
    functions, which Go runs in the order of the file names. *)
Definition init_serviceclaim_types (b : SchemeBuilder) : SchemeBuilder :=
  Register b ["ServiceClaim"; "ServiceClaimList"].
Definition init_tenant_types (b : SchemeBuilder) : SchemeBuilder :=
  Register b ["Tenant"; "TenantList"].
Definition packageBuilder : SchemeBuilder :=
  init_tenant_types (init_serviceclaim_types (NewBuilder SchemeGroupVersion)).

(** [AddToScheme] is a method value of the pointer, so it sees what [init]
    registered after it was taken. *)
Definition AddToScheme (s : Scheme) : error + Scheme := Builder_AddToScheme packageBuilder s.

(** [init] of cmd/main.go; [inl] is the panic of [utilruntime.Must]. *)
Definition init : error + Scheme :=
  let scheme := NewScheme in
  match clientgo_AddToScheme scheme with
  | inl err => inl err
  | inr scheme =>
      match AddToScheme scheme with
      | inl err => inl err
      | inr scheme => inr scheme
      end
  end.

(** The types of metav1 that [Register] adds for its group version along with the
    ones it is given: events, options, and the unversioned ones. *)
Definition metaKinds : list string :=
  ["WatchEvent"; "ListOptions"; "GetOptions"; "DeleteOptions"; "CreateOptions"; "UpdateOptions";
   "PatchOptions"; "Status"; "APIVersions"; "APIGroup"; "APIGroupList"; "APIResourceList"].

(** A scheme only grows.  A builder adds what was registered with it, besides the
    types of metav1 nothing else; client-go knows the built-in types, and its groups
    are the built-in ones. *)
Class SchemeLaws : Prop := {
  registered_new gv : registered (NewBuilder gv) = [] /\ builderVersion (NewBuilder gv) = gv;
  registered_Register b ks :
    registered (Register b ks) = registered b ++ map (WithKind (builderVersion b)) ks /\
    builderVersion (Register b ks) = builderVersion b;
  Builder_AddToScheme_adds b s s' g : Builder_AddToScheme b s = inr s' ->
    recognizes s g \/ In g (registered b) -> recognizes s' g;
  Builder_AddToScheme_only b s s' g : Builder_AddToScheme b s = inr s' -> recognizes s' g ->
    recognizes s g \/ In g (registered b) \/ In (gvk_Kind g) metaKinds;
  clientgo_ok s s' : clientgo_AddToScheme s = inr s' -> forall g,
    (gvk_Group g = "" /\ gvk_Version g = "v1" /\
       (gvk_Kind g = "Namespace" \/ gvk_Kind g = "ResourceQuota") \/
     gvk_Group g = rbacv1_GroupName /\ gvk_Version g = "v1" /\ gvk_Kind g = "RoleBinding") ->
    recognizes s' g;
  clientgo_builtin s' g : clientgo_AddToScheme NewScheme = inr s' -> recognizes s' g ->
    gvk_Group g <> gv_Group SchemeGroupVersion;
}.

(** The type a call's object resolves to through the scheme; an Unstructured
    carries its own and needs no registration. *)
Definition goType (n : kindName) : option GroupVersionKind :=
  match n with
  | NTenant => Some (WithKind SchemeGroupVersion "Tenant")
  | NServiceClaim => Some (WithKind SchemeGroupVersion "ServiceClaim")
  | NNamespace => Some (WithKind {| gv_Group := ""; gv_Version := "v1" |} "Namespace")
  | NResourceQuota => Some (WithKind {| gv_Group := ""; gv_Version := "v1" |} "ResourceQuota")
  | NRoleBinding => Some (WithKind {| gv_Group := rbacv1_GroupName; gv_Version := "v1" |} "RoleBinding")
  | NApplication => None
  end.

Definition callType {R} (c : call R) : option GroupVersionKind :=
  match c with
  | ListClaims _ _ _ => Some (WithKind SchemeGroupVersion "ServiceClaimList")
  | _ => goType (callKind c)
  end.

Definition resolves (s : Scheme) {R} (c : call R) : Prop :=
  forall g, callType c = Some g -> recognizes s g.

Context {SL : SchemeLaws}.

Lemma registered_package : registered packageBuilder =
  map (WithKind SchemeGroupVersion) ["ServiceClaim"; "ServiceClaimList"; "Tenant"; "TenantList"].
Proof.
  unfold packageBuilder, init_tenant_types, init_serviceclaim_types.
  destruct (registered_new SchemeGroupVersion) as [H0 H0'].
  destruct (registered_Register (NewBuilder SchemeGroupVersion) ["ServiceClaim"; "ServiceClaimList"])
    as [H1 H1']. rewrite H0, H0' in *.
  destruct (registered_Register (Register (NewBuilder SchemeGroupVersion)
    ["ServiceClaim"; "ServiceClaimList"]) ["Tenant"; "TenantList"]) as [H2 _].
  by rewrite H2, H1, H1'.
Qed.

Lemma init_ok s : init = inr s -> exists s0, clientgo_AddToScheme NewScheme = inr s0 /\
  Builder_AddToScheme packageBuilder s0 = inr s.
Proof.
  unfold init, AddToScheme. destruct (clientgo_AddToScheme _) as [e|s0]; [done|].
  destruct (Builder_AddToScheme _ _) as [e|s1] eqn:E; [done|]. intros [= <-]. by exists s0.
Qed.

Lemma own_types_recognized s k :
  init = inr s -> In k ["ServiceClaim"; "ServiceClaimList"; "Tenant"; "TenantList"] ->
  recognizes s (WithKind SchemeGroupVersion k).
Proof.
  intros (s0 & _ & Hs)%init_ok Hk. eapply Builder_AddToScheme_adds; [exact Hs|right].
  rewrite registered_package. by apply in_map.
Qed.

Lemma all_kinds_recognized s n g : init = inr s -> goType n = Some g -> recognizes s g.
Proof.
  intros Hi Hg. pose proof Hi as (s0 & H0 & Hs)%init_ok.
  destruct n; try discriminate Hg; injection Hg as <-;
    first [apply own_types_recognized; [done|cbn; tauto]
          |eapply Builder_AddToScheme_adds; [exact Hs|left];
           apply (clientgo_ok _ _ H0); cbn; auto].
Qed.

(** C30: when the process's [init] does not panic, the scheme knows the API group
    exactly: under platform.idp.io it has the two kinds and their two list types
    in version v1alpha1, and, but for what every group version gets from metav1,
    nothing else, whatever the files that register them; and with the built-in
    types it resolves the Go type of every call a client can make on the kinds of
    this repository, the list of claims included. *)
Theorem scheme_has_the_group s :
  init = inr s ->
  (forall g, gvk_Group g = "platform.idp.io" -> ~ In (gvk_Kind g) metaKinds ->
     recognizes s g <-> gvk_Version g = "v1alpha1" /\
       In (gvk_Kind g) ["ServiceClaim"; "ServiceClaimList"; "Tenant"; "TenantList"]) /\
  forall R (c : call R), resolves s c.
Proof.
  intros Hi. split.
  - intros [gr v k] Hgr Hm. cbn [gvk_Group gvk_Version gvk_Kind] in *. subst gr. split.
    + intros Hr. pose proof Hi as (s0 & H0 & Hs)%init_ok.
      eapply Builder_AddToScheme_only in Hr; [|exact Hs].
      destruct Hr as [Hr|[Hr|Hr]]; [|rewrite registered_package in Hr|done].
      * by eapply clientgo_builtin in Hr.
      * apply in_map_iff in Hr as (k' & [= <- <-] & Hk). done.
    + intros [-> Hk]. exact (own_types_recognized s k Hi Hk).
  - intros R c g Hg. destruct c; try (by eapply all_kinds_recognized).
    injection Hg as <-. apply own_types_recognized; [done|cbn; tauto].
Qed.
End registration.

(** ** Witness *)

Section witnesses.
#[local] Existing Instance sample_kube.

(** A scheme is the list of what was added to it. *)
Definition sample_builtin : list GroupVersionKind :=
  [ WithKind {| gv_Group := ""; gv_Version := "v1" |} "Namespace";
    WithKind {| gv_Group := ""; gv_Version := "v1" |} "ResourceQuota";
    WithKind {| gv_Group := rbacv1_GroupName; gv_Version := "v1" |} "RoleBinding" ].

#[local] Instance sample_scheme : SchemeApi := {|
  NewScheme := [] : @Scheme _ _ (@kube_meta sample_kube);
  recognizes s g := In g s;
  clientgo_AddToScheme s := inr (sample_builtin ++ s);
  SchemeBuilder := GroupVersion * list GroupVersionKind;
  NewBuilder gv := (gv, []);
  Register b ks := (fst b, snd b ++ map (WithKind (fst b)) ks);
  Builder_AddToScheme b s := inr (snd b ++ s);
  registered := snd;
  builderVersion := fst;
|}.

#[local] Instance sample_scheme_laws : SchemeLaws.
Proof.
  split; cbn.
  - done.
  - done.
  - intros b s s' g [= <-] H. apply in_app_iff. tauto.
  - intros b s s' g [= <-] [H|H]%in_app_iff; auto.
  - intros s s' [= <-] [g v k] H. cbn in *. unfold WithKind, rbacv1_GroupName in *. cbn.
    destruct H as [(-> & -> & [->| ->])|(-> & -> & ->)]; auto.
  - intros s' g [= <-]. cbn. intros [<-|[<-|[<-|[]]]]; done.
Qed.

Definition full_scheme : @Scheme _ _ (@kube_meta sample_kube) :=
  map (WithKind SchemeGroupVersion) ["ServiceClaim"; "ServiceClaimList"; "Tenant"; "TenantList"]
  ++ sample_builtin.

Lemma scheme_has_the_group_witness :
  init = inr full_scheme /\
  recognizes full_scheme (WithKind SchemeGroupVersion "TenantList") /\
  ~ recognizes full_scheme (WithKind SchemeGroupVersion "Application").
Proof.
  assert (Hi : init = inr full_scheme) by reflexivity. split; [exact Hi|].
  destruct (scheme_has_the_group full_scheme Hi) as [H _]. split.
  - apply H; [reflexivity|cbn; intuition discriminate|]. cbn. tauto.
  - intros Hr. apply H in Hr; [|reflexivity|cbn; intuition discriminate].
    destruct Hr as [_ Hk]. cbn in Hk. intuition discriminate.
Defined.
End witnesses.
