(* ===== verification/Main.v ===== *)
(** * The manager's entry point (cmd/main.go)

    [main] from the parsed flags on, over the calls it makes to
    controller-runtime's manager; [SetupWithManager] and the two webhook
    set-ups are the calls they end in.  The logging, the parsing of the flags
    and the signal handler are left out; [os.Exit] is the exit status a run
    returns. *)
From S2P Require Import Prelude Prog Kube Api Client Indexes Platform TenantWebhook Startup.
From S2P Require TenantController ServiceClaimController.
From S2P Require Import Sample.
Open Scope prog_scope.

Section main.
Context `{K : Kube}.

(** The variables the flags are bound to; [maxTenantPods] is an [int], and a
    [resource.QuantityValue] holds a quantity. *)
Record Flags := {
  metricsAddr : string;
  metricsCertPath : string; metricsCertName : string; metricsCertKey : string;
  webhookCertPath : string; webhookCertName : string; webhookCertKey : string;
  enableLeaderElection : bool;
  probeAddr : string;
  secureMetrics : bool;
  enableHTTP2 : bool;
  workloadsRepoURL : string;
  workloadsTargetRevision : string;
  maxTenantCPU : Quantity; maxTenantMemory : Quantity;
  maxTenantPods : Z;
}.

(** The default values given to the [flag] package. *)
Definition defaultFlags : Flags := {|
  metricsAddr := "0";
  metricsCertPath := ""; metricsCertName := "tls.crt"; metricsCertKey := "tls.key";
  webhookCertPath := ""; webhookCertName := "tls.crt"; webhookCertKey := "tls.key";
  enableLeaderElection := false;
  probeAddr := ":8081";
  secureMetrics := true;
  enableHTTP2 := false;
  workloadsRepoURL := "";
  workloadsTargetRevision := "HEAD";
  maxTenantCPU := zeroQuantity; maxTenantMemory := zeroQuantity;
  maxTenantPods := 0;
|}.

(** [tls.Config], as far as the option touches it. *)
Record TLSConfig := { NextProtos : list string }.

Definition disableHTTP2 (c : TLSConfig) : TLSConfig := {| NextProtos := ["http/1.1"] |}.

(** Applying the options of a server in order, as the servers document. *)
Definition applyTLS (opts : list (TLSConfig -> TLSConfig)) (c : TLSConfig) : TLSConfig :=
  fold_left (fun c f => f c) opts c.

(** [webhook.Options] and [metricsserver.Options]; a field that is not set has
    its zero value. *)
Record WebhookOptions := {
  wh_TLSOpts : list (TLSConfig -> TLSConfig);
  wh_CertDir : string; wh_CertName : string; wh_KeyName : string;
}.

Record MetricsOptions := {
  ms_BindAddress : string;
  ms_SecureServing : bool;
  ms_TLSOpts : list (TLSConfig -> TLSConfig);
  ms_FilterProvider : bool;
  ms_CertDir : string; ms_CertName : string; ms_KeyName : string;
}.

Record ManagerOptions := {
  mo_Scheme : Scheme;
  mo_Metrics : MetricsOptions;
  mo_WebhookServer : WebhookOptions;
  mo_HealthProbeBindAddress : string;
  mo_LeaderElection : bool;
  mo_LeaderElectionID : string;
}.

Inductive Validator :=
| VTenant (v : TenantCustomValidator)
| VServiceClaim (rd : reader).

(** The manager's calls; a failure of [GetConfigOrDie] ends the process the way
    a failed [NewManager] does, and is one of its answers. *)
Inductive setup : Type -> Type :=
| NewManager (o : ManagerOptions) : setup (option error)
| IndexField (k : kindName) (key : string) (f : Object -> list string)
    : setup (option error)
| CompleteController (b : Builder) (h : Request -> prog call (Result * option error))
    : setup (option error)
| CompleteWebhook (k : kindName) (v : Validator) : setup (option error)
| AddHealthzCheck (name : string) : setup (option error)
| AddReadyzCheck (name : string) : setup (option error)
| Start : setup (option error).

(** internal/controller/indexes.go *)
Definition SetupFieldIndexes : prog setup (option error) :=
  trigger (IndexField NServiceClaim ClaimTeamIndexKey claimTeamIndexer).

(** The [SetupWithManager] methods and the two webhook set-ups. *)
Definition setupServiceClaim (r : ServiceClaimController.ServiceClaimReconciler)
  : prog setup (option error) :=
  trigger (CompleteController ServiceClaimController.SetupWithManager
             (ServiceClaimController.Reconcile r)).

Definition setupTenant (r : TenantController.TenantReconciler)
  : prog setup (option error) :=
  trigger (CompleteController TenantController.SetupWithManager
             (TenantController.Reconcile r)).

Definition SetupTenantWebhookWithManager (limits : Limits)
  : prog setup (option error) :=
  trigger (CompleteWebhook NTenant (VTenant {| tv_Limits := limits |})).

Definition SetupServiceClaimWebhookWithManager : prog setup (option error) :=
  trigger (CompleteWebhook NServiceClaim (VServiceClaim APIReader)).

Definition tenantLimits (f : Flags) : Limits := {|
  MaxCPU := maxTenantCPU f;
  MaxMemory := maxTenantMemory f;
  MaxPods := int32 (maxTenantPods f);
|}.

Definition managerOptions (scheme : Scheme) (f : Flags) : ManagerOptions :=
  let tlsOpts := [] in
  let tlsOpts := if negb (enableHTTP2 f) then tlsOpts ++ [disableHTTP2] else tlsOpts in
  let webhookTLSOpts := tlsOpts in
  let webhookServerOptions := {| wh_TLSOpts := webhookTLSOpts;
    wh_CertDir := ""; wh_CertName := ""; wh_KeyName := "" |} in
  let webhookServerOptions :=
    if 0 <? String.length (webhookCertPath f)
    then {| wh_TLSOpts := wh_TLSOpts webhookServerOptions;
            wh_CertDir := webhookCertPath f; wh_CertName := webhookCertName f;
            wh_KeyName := webhookCertKey f |}
    else webhookServerOptions in
  let metricsServerOptions := {| ms_BindAddress := metricsAddr f;
    ms_SecureServing := secureMetrics f; ms_TLSOpts := tlsOpts;
    ms_FilterProvider := secureMetrics f;
    ms_CertDir := ""; ms_CertName := ""; ms_KeyName := "" |} in
  let metricsServerOptions :=
    if 0 <? String.length (metricsCertPath f)
    then {| ms_BindAddress := ms_BindAddress metricsServerOptions;
            ms_SecureServing := ms_SecureServing metricsServerOptions;
            ms_TLSOpts := ms_TLSOpts metricsServerOptions;
            ms_FilterProvider := ms_FilterProvider metricsServerOptions;
            ms_CertDir := metricsCertPath f; ms_CertName := metricsCertName f;
            ms_KeyName := metricsCertKey f |}
    else metricsServerOptions in
  {| mo_Scheme := scheme;
     mo_Metrics := metricsServerOptions;
     mo_WebhookServer := webhookServerOptions;
     mo_HealthProbeBindAddress := probeAddr f;
     mo_LeaderElection := enableLeaderElection f;
     mo_LeaderElectionID := "1da7cf4d.idp.io" |}.

(** The exit status; [getenv] is [os.Getenv], empty for an unset variable. *)
Definition main (scheme : Scheme) (getenv : string -> string) (f : Flags)
  : prog setup Z :=
  if String.eqb (workloadsRepoURL f) "" then Ret 1%Z
  else
    orExit (trigger (NewManager (managerOptions scheme f)))
    (orExit SetupFieldIndexes
    (orExit (setupServiceClaim {|
        ServiceClaimController.sr_Scheme := scheme;
        ServiceClaimController.WorkloadsRepoURL := workloadsRepoURL f;
        ServiceClaimController.WorkloadsTargetRevision := workloadsTargetRevision f |})
    (orExit (setupTenant {| TenantController.tr_Scheme := scheme |})
    (let tenantLimits := tenantLimits f in
    orExit (if negb (String.eqb (getenv "ENABLE_WEBHOOKS") "false")
            then SetupTenantWebhookWithManager tenantLimits else Ret None)
    (orExit (if negb (String.eqb (getenv "ENABLE_WEBHOOKS") "false")
             then SetupServiceClaimWebhookWithManager else Ret None)
    (orExit (trigger (AddHealthzCheck "healthz"))
    (orExit (trigger (AddReadyzCheck "readyz"))
    (orExit (trigger Start)
    (Ret 0%Z))))))))).

(** ** Specification: the start-up plan *)

Definition webhooksEnabled (getenv : string -> string) : bool :=
  negb (String.eqb (getenv "ENABLE_WEBHOOKS") "false").

Definition claimReconciler (scheme : Scheme) (f : Flags)
  : ServiceClaimController.ServiceClaimReconciler := {|
  ServiceClaimController.sr_Scheme := scheme;
  ServiceClaimController.WorkloadsRepoURL := workloadsRepoURL f;
  ServiceClaimController.WorkloadsTargetRevision := workloadsTargetRevision f |}.

(** The calls of a start-up, in order. *)
Definition plan (scheme : Scheme) (getenv : string -> string) (f : Flags)
  : list (setup (option error)) :=
  [ NewManager (managerOptions scheme f);
    IndexField NServiceClaim "spec.team" claimTeamIndexer;
    CompleteController ServiceClaimController.SetupWithManager
      (ServiceClaimController.Reconcile (claimReconciler scheme f));
    CompleteController TenantController.SetupWithManager
      (TenantController.Reconcile {| TenantController.tr_Scheme := scheme |}) ] ++
  (if webhooksEnabled getenv
   then [ CompleteWebhook NTenant (VTenant {| tv_Limits := tenantLimits f |});
          CompleteWebhook NServiceClaim (VServiceClaim APIReader) ]
   else []) ++
  [ AddHealthzCheck "healthz"; AddReadyzCheck "readyz"; Start ].

(** ** Lemmas *)

Lemma main_execute scheme getenv f : workloadsRepoURL f <> "" ->
  main scheme getenv f = execute (plan scheme getenv f).
Proof.
  intros Hu%String.eqb_neq. unfold main, plan, webhooksEnabled. rewrite Hu.
  by destruct (String.eqb (getenv "ENABLE_WEBHOOKS") "false").
Qed.

(** ** Properties *)

(** C37: start-up is all or nothing, in one order: manager, field index, the two
    controllers, the two webhooks unless ENABLE_WEBHOOKS is exactly "false", the
    two probes, start.  The process exits with 1 at the first failure and makes
    no later call, so nothing is served before the index and both controllers
    are registered; without a repository URL it exits with 1 before making any
    call at all; and every such run can happen. *)
Theorem startup_follows_plan scheme getenv f tr code :
  runs (main scheme getenv f) tr code <->
  if String.eqb (workloadsRepoURL f) "" then tr = [] /\ code = 1%Z
  else follows (plan scheme getenv f) tr code.
Proof.
  destruct (String.eqb_spec (workloadsRepoURL f) "") as [E|E].
  - unfold main. rewrite E. done.
  - rewrite main_execute by done. apply execute_follows.
Qed.

(** Every claim reconciler a start-up registers has the flag's repository
    URL, which is not empty, and writes it into the source of every Application
    it renders, whatever the claim. *)
Theorem registered_reconciler_has_repo scheme getenv f :
  all_calls (fun R c => match c with
    | CompleteController b h =>
        b_For b = NServiceClaim ->
        workloadsRepoURL f <> "" /\
        exists r, h = ServiceClaimController.Reconcile r /\
          forall c path, any_get "repoURL" (ServiceClaimController.sourceOf r c path)
            = Some (AString (workloadsRepoURL f))
    | _ => True end) (main scheme getenv f).
Proof.
  unfold main, orExit, SetupFieldIndexes, setupServiceClaim, setupTenant,
    SetupTenantWebhookWithManager, SetupServiceClaimWebhookWithManager.
  walk ltac:(first [exact I|done|intros _; split; [by apply String.eqb_neq|];
    eexists; split; [reflexivity|]; intros c path;
    unfold ServiceClaimController.sourceOf; by destruct (0 <? _)]).
Qed.

(** With the pods flag in the range of an [int32], the Tenant webhook a
    start-up registers enforces exactly the flags: a create is admitted if and
    only if what it declares is within the three flags, a zero flag (and for
    pods a negative one) meaning no ceiling. *)
Theorem flags_are_the_ceiling scheme getenv f t :
  (- 2 ^ 31 <= maxTenantPods f < 2 ^ 31)%Z ->
  all_calls (fun R c => match c with
    | CompleteWebhook _ (VTenant v) =>
        ValidateCreate v t = ([], None) <->
        within {| MaxCPU := maxTenantCPU f; MaxMemory := maxTenantMemory f;
                  MaxPods := maxTenantPods f |} (Resources (t_Spec t))
    | _ => True end) (main scheme getenv f).
Proof.
  intros Hp.
  assert (H : forall v, tv_Limits v = tenantLimits f ->
    (ValidateCreate v t = ([], None) <->
     within {| MaxCPU := maxTenantCPU f; MaxMemory := maxTenantMemory f;
               MaxPods := maxTenantPods f |} (Resources (t_Spec t)))).
  { intros v Hv. rewrite <- exceeded_nil, <- length_test. unfold ValidateCreate.
    rewrite Hv. unfold tenantLimits. rewrite int32_small by done.
    by destruct (0 <? length _). }
  unfold main, orExit, SetupFieldIndexes, setupServiceClaim, setupTenant,
    SetupTenantWebhookWithManager, SetupServiceClaimWebhookWithManager.
  walk ltac:(first [exact I|by apply H]).
Qed.

(** C38: a pods flag outside that range does not reach the webhook: the
    conversion to [int32] wraps, every value from 2^31 up to 2^32 included
    gives a ceiling that is zero or negative, and so none at all: no number of
    pods is ever a violation. *)
Theorem pods_flag_wraps f :
  (2 ^ 31 <= maxTenantPods f <= 2 ^ 32)%Z ->
  (MaxPods (tenantLimits f) <= 0)%Z /\
  forall r, ~ In "spec.resources.pods" (map Field (Exceeded (tenantLimits f) (Some r))).
Proof.
  intros Hp. assert (Hm : (MaxPods (tenantLimits f) <= 0)%Z).
  { cbn. unfold int32, to_signed. change (32 - 1)%Z with 31%Z.
    replace (maxTenantPods f + 2 ^ 31)%Z
      with ((maxTenantPods f - 2 ^ 31) + 1 * 2 ^ 32)%Z by lia.
    rewrite Z.mod_add by lia. rewrite Z.mod_small by lia. lia. }
  split; [done|]. intros r. unfold Exceeded.
  assert ((MaxPods (tenantLimits f) >? 0)%Z = false) as -> by (rewrite Z.gtb_ltb; lia).
  cbn [andb]. repeat case_goal; cbn; intuition discriminate.
Qed.

(** Unless --enable-http2 is given, every TLS configuration of the webhook
    server and of the metrics server negotiates HTTP/1.1 only, and with it the
    configuration is untouched; the metrics endpoint asks for authentication
    and authorisation exactly when it is served securely, and is off, bound
    nowhere, by default; certificates are passed on only when a path is set. *)
Theorem server_options scheme f c :
  let o := managerOptions scheme f in
  (enableHTTP2 f = false ->
   NextProtos (applyTLS (wh_TLSOpts (mo_WebhookServer o)) c) = ["http/1.1"] /\
   NextProtos (applyTLS (ms_TLSOpts (mo_Metrics o)) c) = ["http/1.1"]) /\
  (enableHTTP2 f = true ->
   applyTLS (wh_TLSOpts (mo_WebhookServer o)) c = c /\
   applyTLS (ms_TLSOpts (mo_Metrics o)) c = c) /\
  ms_FilterProvider (mo_Metrics o) = ms_SecureServing (mo_Metrics o) /\
  (webhookCertPath f = "" -> wh_CertDir (mo_WebhookServer o) = "" /\
   wh_CertName (mo_WebhookServer o) = "" /\ wh_KeyName (mo_WebhookServer o) = "") /\
  (webhookCertPath f <> "" -> wh_CertDir (mo_WebhookServer o) = webhookCertPath f /\
   wh_CertName (mo_WebhookServer o) = webhookCertName f /\
   wh_KeyName (mo_WebhookServer o) = webhookCertKey f).
Proof.
  cbn. unfold managerOptions.
  destruct (enableHTTP2 f), (webhookCertPath f), (metricsCertPath f); cbn; split_and!;
    intros; try done.
Qed.
End main.

Section witnesses.
#[local] Existing Instance sample_kube.
#[local] Existing Instance sample_kube_laws.

Definition the_scheme : @Scheme _ _ (@kube_meta sample_kube) := [].

Definition flags_with (pods : Z) (repo : string) : Flags := {|
  metricsAddr := "0";
  metricsCertPath := ""; metricsCertName := "tls.crt"; metricsCertKey := "tls.key";
  webhookCertPath := ""; webhookCertName := "tls.crt"; webhookCertKey := "tls.key";
  enableLeaderElection := false; probeAddr := ":8081"; secureMetrics := true;
  enableHTTP2 := false; workloadsRepoURL := repo; workloadsTargetRevision := "HEAD";
  maxTenantCPU := 8000%Z; maxTenantMemory := 16000%Z; maxTenantPods := pods |}.

(** A manager whose calls all succeed, and the trace of a start-up. *)
Definition all_fine : handler setup unit := fun R c =>
  match c in setup R return unit -> R * unit with
  | NewManager _ | IndexField _ _ _ | CompleteController _ _ | CompleteWebhook _ _
  | AddHealthzCheck _ | AddReadyzCheck _ | Start => fun s => (None, s)
  end.

Definition start (f : Flags) : list (event setup) * Z :=
  fst (interp all_fine (main the_scheme (fun _ => "") f) tt).

Example nine_calls : length (fst (start (flags_with 50 "https://git/w"))) = 9.
Proof. by vm_compute. Qed.

Example defaults_exit : start defaultFlags = ([], 1%Z).
Proof. reflexivity. Qed.

(** The ceiling of four billion pods and a bit that admits everything. *)
Example wrapped_ceiling :
  MaxPods (tenantLimits (flags_with 4294967296 "https://git/w")) = 0%Z.
Proof. reflexivity. Qed.

Lemma flags_are_the_ceiling_witness :
  all_calls (fun R c => match c with
    | CompleteWebhook _ (VTenant v) =>
        ValidateCreate v (tenant_asking "payments" (Some (res 8 16 50))) = ([], None) <->
        within ceiling (Some (res 8 16 50))
    | _ => True end) (main the_scheme (fun _ => "") (flags_with 50 "https://git/w")).
Proof.
  apply (flags_are_the_ceiling the_scheme (fun _ => "") (flags_with 50 "https://git/w")
    (tenant_asking "payments" (Some (res 8 16 50)))).
  cbn. lia.
Defined.

Lemma pods_flag_wraps_witness :
  (MaxPods (tenantLimits (flags_with 4294967296 "https://git/w")) <= 0)%Z.
Proof.
  apply (pods_flag_wraps (flags_with 4294967296 "https://git/w")). cbn. lia.
Defined.

Lemma server_options_witness :
  NextProtos (applyTLS (ms_TLSOpts (mo_Metrics (managerOptions the_scheme (flags_with 50 "x"))))
    {| NextProtos := ["h2"; "http/1.1"] |}) = ["http/1.1"].
Proof.
  by apply (server_options the_scheme (flags_with 50 "x") {| NextProtos := ["h2"; "http/1.1"] |}).
Defined.
End witnesses.
