(* ===== verification/Before.v ===== *)
(** * The M3 controller (scenarios/ownership-conflict/before)

    The reconstructed reconciler in which one ServiceClaim carries the team's
    allocation and one service: its API type, its four steps and its status,
    and the theorem that a team's second claim cannot become Ready. *)
From S2P Require Import Prelude Prog Kube Api Client Sample.
Open Scope prog_scope.

Section before.
Context `{K : Kube}.

(** The M3 API package declares its own types; [ResourceRequests] has the three
    fields of [Api.ResourceRequests]. *)
Record M3ClaimSpec := {
  m3_Team : string;
  m3_Image : string;
  m3_Replicas : option Z;
  m3_Resources : option ResourceRequests;
}.

Record M3Claim := {
  m3_ObjectMeta : ObjectMeta;
  m3_Spec : M3ClaimSpec;
  m3_Status : ServiceClaimStatus;
}.

Definition m3_Name (c : M3Claim) : string := om_Name (m3_ObjectMeta c).

Definition m3_set_status (c : M3Claim) (s : ServiceClaimStatus) : M3Claim :=
  {| m3_ObjectMeta := m3_ObjectMeta c; m3_Spec := m3_Spec c; m3_Status := s |}.

(** The calls of this controller. *)
Inductive m3call : Type -> Type :=
| M3Get (key : NamespacedName) : m3call (error + M3Claim)
| M3CreateOrUpdate {T} (k : kind T) (obj : T) (mutate : T -> error + T)
    : m3call (error + OperationResult * T)
| M3PatchStatus (obj base : M3Claim) : m3call (error + M3Claim).

Record M3Reconciler := {
  m3_Scheme : Scheme;
  m3_WorkloadsRepoURL : string;
  m3_WorkloadsTargetRevision : string;
}.

Definition setCondition (claim : M3Claim) (condType : string)
    (status : ConditionStatus) (reason message : string) : M3Claim :=
  m3_set_status claim {|
    cs_Phase := cs_Phase (m3_Status claim);
    cs_ObservedGeneration := cs_ObservedGeneration (m3_Status claim);
    cs_Conditions := SetStatusCondition (cs_Conditions (m3_Status claim)) {|
       c_Type := condType;
       c_Status := status;
       c_ObservedGeneration := om_Generation (m3_ObjectMeta claim);
       c_Reason := reason;
       c_Message := message |} |}.

Definition aggregateReady (claim : M3Claim) : M3Claim :=
  let conds := cs_Conditions (m3_Status claim) in
  let ready := IsStatusConditionTrue conds ConditionNamespaceReady
    && IsStatusConditionTrue conds ConditionRBACReady
    && IsStatusConditionTrue conds ConditionQuotaApplied
    && IsStatusConditionTrue conds ConditionArgoAppCreated in
  let with_phase p := m3_set_status claim {| cs_Phase := p;
    cs_ObservedGeneration := om_Generation (m3_ObjectMeta claim);
    cs_Conditions := conds |} in
  if ready then
    setCondition (with_phase PhaseReady) ConditionReady ConditionTrue
      "AllResourcesReady" "namespace, RBAC, quota and the ArgoCD Application are in place"
  else
    setCondition (with_phase PhasePending) ConditionReady ConditionFalse
      "ResourcesNotReady" "one of the claim's resources is not ready".

Definition quotaHard (res : option ResourceRequests) : gmap string Quantity :=
  let hard := ∅ in
  match res with
  | None => hard
  | Some res =>
      let hard := if negb (IsZero (CPU res))
                  then <[ResourceRequestsCPU := CPU res]> hard else hard in
      let hard := if negb (IsZero (Memory res))
                  then <[ResourceLimitsMemory := Memory res]>
                         (<[ResourceRequestsMemory := Memory res]> hard)
                  else hard in
      let hard := if (Pods res >? 0)%Z
                  then <[ResourcePods := NewQuantity (Pods res) DecimalSI]> hard
                  else hard in
      hard
  end.

(** [controllerutil.SetControllerReference(claim, obj, r.Scheme)]. *)
Definition own (r : M3Reconciler) (claim : M3Claim) (m : ObjectMeta)
  : error + ObjectMeta :=
  SetControllerReference (m3_Scheme r) "ServiceClaim" (m3_ObjectMeta claim) m.

Definition mutateNamespace (r : M3Reconciler) (claim : M3Claim) (ns : Namespace)
  : error + Namespace :=
  match own r claim (ns_ObjectMeta ns) with
  | inl err => inl err
  | inr m => inr {| ns_ObjectMeta := m |}
  end.

Definition mutateRoleBinding (r : M3Reconciler) (claim : M3Claim) (group : string)
    (rb : RoleBinding) : error + RoleBinding :=
  let roleRef := {| rr_APIGroup := rbacv1_GroupName; rr_Kind := "ClusterRole";
                    rr_Name := "edit" |} in
  let subjects := [{| s_Kind := rbacv1_GroupKind; s_APIGroup := rbacv1_GroupName;
                      s_Name := group |}] in
  match own r claim (rb_ObjectMeta rb) with
  | inl err => inl err
  | inr m => inr {| rb_ObjectMeta := m; rb_RoleRef := roleRef; rb_Subjects := subjects |}
  end.

Definition mutateQuota (r : M3Reconciler) (claim : M3Claim)
    (hard : gmap string Quantity) (rq : ResourceQuota) : error + ResourceQuota :=
  match own r claim (rq_ObjectMeta rq) with
  | inl err => inl err
  | inr m => inr {| rq_ObjectMeta := m; rq_Hard := hard |}
  end.

Definition sourceOf (r : M3Reconciler) (claim : M3Claim) (path : string)
  : list (string * any) :=
  let source := [("repoURL", AString (m3_WorkloadsRepoURL r));
                 ("path", AString path);
                 ("targetRevision", AString (m3_WorkloadsTargetRevision r))] in
  let kustomize := [] in
  let kustomize :=
    if negb (String.eqb (m3_Image (m3_Spec claim)) "")
    then any_set "images"
           (ASlice [AString ("app" +:+ "=" +:+ m3_Image (m3_Spec claim))]) kustomize
    else kustomize in
  let kustomize :=
    match m3_Replicas (m3_Spec claim) with
    | Some n => any_set "replicas"
                  (ASlice [AMap [("name", AString (m3_Name claim));
                                 ("count", AInt64 n)]]) kustomize
    | None => kustomize
    end in
  if 0 <? length kustomize then any_set "kustomize" (AMap kustomize) source
  else source.

(** Without ArgoCD's cascade finalizer, which came later. *)
Definition mutateApplication (r : M3Reconciler) (claim : M3Claim)
    (nsName path : string) (app : Unstructured) : error + Unstructured :=
  let m := SetLabels (<["platform.idp.io/team" := m3_Team (m3_Spec claim)]>
                        {["platform.idp.io/claim" := m3_Name claim]})
             (u_ObjectMeta app) in
  match SetNestedMap (u_Object app) (sourceOf r claim path) ["spec"; "source"] with
  | inl err => inl err
  | inr obj =>
  match SetNestedMap obj [("server", AString "https://kubernetes.default.svc");
                          ("namespace", AString nsName)] ["spec"; "destination"] with
  | inl err => inl err
  | inr obj =>
  match SetNestedField obj (AString "default") ["spec"; "project"] with
  | inl err => inl err
  | inr obj =>
  match SetNestedMap obj [("automated", AMap [("selfHeal", ABool true);
                                              ("prune", ABool true)])]
          ["spec"; "syncPolicy"] with
  | inl err => inl err
  | inr obj =>
  match own r claim m with
  | inl err => inl err
  | inr m => inr {| u_GVK := u_GVK app; u_ObjectMeta := m; u_Object := obj |}
  end end end end end.

Definition ensureNamespace (r : M3Reconciler) (claim : M3Claim) (nsName : string)
  : prog m3call (M3Claim * option error) :=
  let ns := {| ns_ObjectMeta := NewObjectMeta nsName "" |} in
  let* res := trigger (M3CreateOrUpdate KNamespace ns (mutateNamespace r claim)) in
  match res with
  | inl err =>
      Ret (setCondition claim ConditionNamespaceReady ConditionFalse
             "NamespaceError" (Error err), Some err)
  | inr _ =>
      Ret (setCondition claim ConditionNamespaceReady ConditionTrue
             "NamespaceCreated" ("namespace " +:+ nsName +:+ " is ready"), None)
  end.

Definition ensureRoleBinding (r : M3Reconciler) (claim : M3Claim) (nsName : string)
  : prog m3call (M3Claim * option error) :=
  let group := "team-" +:+ m3_Team (m3_Spec claim) in
  let rb := {| rb_ObjectMeta := NewObjectMeta "team-edit" nsName;
               rb_RoleRef := {| rr_APIGroup := ""; rr_Kind := ""; rr_Name := "" |};
               rb_Subjects := [] |} in
  let* res := trigger (M3CreateOrUpdate KRoleBinding rb
                (mutateRoleBinding r claim group)) in
  match res with
  | inl err =>
      Ret (setCondition claim ConditionRBACReady ConditionFalse
             "RBACError" (Error err), Some err)
  | inr _ =>
      Ret (setCondition claim ConditionRBACReady ConditionTrue "RoleBindingCreated"
             ("group " +:+ group +:+ " bound to " +:+ "edit" +:+ " in " +:+ nsName),
           None)
  end.

Definition ensureQuota (r : M3Reconciler) (claim : M3Claim) (nsName : string)
  : prog m3call (M3Claim * option error) :=
  let hard := quotaHard (m3_Resources (m3_Spec claim)) in
  if size hard =? 0 then
    Ret (setCondition claim ConditionQuotaApplied ConditionTrue
           "NoResourcesDeclared" "claim declares no resources; namespace is uncapped",
         None)
  else
    let rq := {| rq_ObjectMeta := NewObjectMeta "team-quota" nsName; rq_Hard := ∅ |} in
    let* res := trigger (M3CreateOrUpdate KResourceQuota rq (mutateQuota r claim hard)) in
    match res with
    | inl err =>
        Ret (setCondition claim ConditionQuotaApplied ConditionFalse
               "QuotaError" (Error err), Some err)
    | inr _ =>
        Ret (setCondition claim ConditionQuotaApplied ConditionTrue
               "QuotaApplied" ("resource quota applied to " +:+ nsName), None)
    end.

Definition ensureArgoApplication (r : M3Reconciler) (claim : M3Claim) (nsName : string)
  : prog m3call (M3Claim * option error) :=
  let app := {| u_GVK := {| gvk_Group := "argoproj.io"; gvk_Version := "v1alpha1";
                            gvk_Kind := "Application" |};
                u_ObjectMeta := NewObjectMeta (m3_Name claim) "argocd";
                u_Object := [] |} in
  let path := "workloads/" +:+ m3_Team (m3_Spec claim) +:+ "/" +:+ m3_Name claim in
  let* res := trigger (M3CreateOrUpdate KApplication app
                (mutateApplication r claim nsName path)) in
  match res with
  | inl err =>
      Ret (setCondition claim ConditionArgoAppCreated ConditionFalse
             "ArgoAppError" (Error err), Some err)
  | inr (_, app) =>
      let '(health, _, _) := NestedString (u_Object app) ["status"; "health"; "status"] in
      let '(sync, _, _) := NestedString (u_Object app) ["status"; "sync"; "status"] in
      let msg :=
        if negb (String.eqb health "") || negb (String.eqb sync "")
        then "application " +:+ m3_Name claim +:+ ": health=" +:+ health +:+ " sync=" +:+ sync
        else "application " +:+ m3_Name claim +:+ " applied; awaiting ArgoCD" in
      Ret (setCondition claim ConditionArgoAppCreated ConditionTrue
             "ApplicationApplied" msg, None)
  end.

Definition reconcileResources (r : M3Reconciler) (claim : M3Claim)
  : prog m3call (M3Claim * option error) :=
  let nsName := "team-" +:+ m3_Team (m3_Spec claim) in
  let* ' (claim, err) := ensureNamespace r claim nsName in
  match err with
  | Some err => Ret (claim, Some err)
  | None =>
  let* ' (claim, err) := ensureRoleBinding r claim nsName in
  match err with
  | Some err => Ret (claim, Some err)
  | None =>
  let* ' (claim, err) := ensureQuota r claim nsName in
  match err with
  | Some err => Ret (claim, Some err)
  | None => ensureArgoApplication r claim nsName
  end end end.

Definition Reconcile (r : M3Reconciler) (req : Request)
  : prog m3call (Result * option error) :=
  let* res := trigger (M3Get (req_NamespacedName req)) in
  match res with
  | inl err => Ret (emptyResult, IgnoreNotFound (Some err))
  | inr claim =>
      let base := claim in
      let* ' (claim, reconcileErr) := reconcileResources r claim in
      let claim := aggregateReady claim in
      let* p := trigger (M3PatchStatus claim base) in
      match p with
      | inl err => Ret (emptyResult, Some err)
      | inr _ => Ret (emptyResult, reconcileErr)
      end
  end.

(** [For], [Owns] and [Named]; there are no other watches. *)
Definition SetupWithManager : Builder := {|
  b_For := NServiceClaim;
  b_Owns := [NNamespace; NRoleBinding; NResourceQuota; NApplication];
  b_Watches := [];
  b_Named := "serviceclaim";
|}.

(** ** Specification *)

(** The answer to a [CreateOrUpdate] of the namespace, when the cluster holds
    [ns], is the one the library documents. *)
Definition answers_with (ns : Namespace) (e : event m3call) : Prop :=
  match e with
  | Ev c r =>
      match c in m3call R return R -> Prop with
      | M3CreateOrUpdate k obj mutate => fun r =>
          match k in kind T
            return T -> (T -> error + T) -> (error + OperationResult * T) -> Prop with
          | KNamespace => CreateOrUpdate_contract (Some ns)
          | _ => fun _ _ _ => True
          end obj mutate r
      | _ => fun _ => True
      end r
  end.

(** The claim was read. *)
Definition m3_fetched (claim : M3Claim) (e : event m3call) : Prop :=
  match e with
  | Ev c r =>
      match c in m3call R return R -> Prop with
      | M3Get _ => fun r => r = inr claim
      | _ => fun _ => False
      end r
  end.

Definition m3_creates (e : event m3call) : option kindName :=
  match e with
  | Ev c _ => match c with M3CreateOrUpdate k _ _ => Some (kindOf k) | _ => None end
  end.

Definition m3_status_sent (e : event m3call) : option ServiceClaimStatus :=
  match e with
  | Ev c _ => match c with M3PatchStatus obj _ => Some (m3_Status obj) | _ => None end
  end.

Context `{L : !KubeLaws}.

(** A claim that failed at the namespace, aggregated. *)
Lemma aggregateReady_blocked claim reason msg :
  let st := m3_Status (aggregateReady
    (setCondition claim ConditionNamespaceReady ConditionFalse reason msg)) in
  cs_Phase st = "Pending" /\
  IsStatusConditionTrue (cs_Conditions st) ConditionReady = false /\
  findCondition (cs_Conditions st) ConditionNamespaceReady = Some {|
      c_Type := "NamespaceReady"; c_Status := ConditionFalse;
      c_ObservedGeneration := om_Generation (m3_ObjectMeta claim);
      c_Reason := reason; c_Message := msg |} /\
  forall t, t ∈ [ConditionRBACReady; ConditionQuotaApplied; ConditionArgoAppCreated] ->
      findCondition (cs_Conditions st) t =
      findCondition (cs_Conditions (m3_Status claim)) t.
Proof.
  cbn zeta. unfold aggregateReady. cbn [m3_Status setCondition m3_set_status cs_Conditions].
  rewrite IsStatusConditionTrue_set. cbn. simpl_conditions. split_and!; try done.
  intros t Ht.
  repeat (apply elem_of_cons in Ht as [->|Ht]; [by simpl_conditions|]).
  by apply not_elem_of_nil in Ht.
Qed.

(** The three team-level objects have room for one owner: once a claim has
    taken the namespace, the RoleBinding or the quota, every claim of another
    name is refused, and gets nothing to write. *)
Theorem m3_team_objects_single_owner r a b group hard :
  m3_Name a <> m3_Name b ->
  (forall ns ns', mutateNamespace r a ns = inr ns' ->
     exists e, mutateNamespace r b ns' = inl e) /\
  (forall rb rb', mutateRoleBinding r a group rb = inr rb' ->
     exists e, mutateRoleBinding r b group rb' = inl e) /\
  (forall rq rq', mutateQuota r a hard rq = inr rq' ->
     exists e, mutateQuota r b hard rq' = inl e).
Proof.
  intros Hab. assert (H : forall m m', own r a m = inr m' -> exists e, own r b m' = inl e).
  { intros m m' Hm. unfold own in *.
    apply SetControllerReference_ok in Hm as (_ & ref & Hc & _ & Hn & _).
    eapply SetControllerReference_owned; [exact Hc|]. right. unfold m3_Name in Hab. congruence. }
  unfold mutateNamespace, mutateRoleBinding, mutateQuota.
  split_and!; intros o o'; destruct (own r a _) as [|m] eqn:E; try done;
    intros [= <-]; cbn; destruct (H _ _ E) as [e ->]; eauto.
Qed.

(** C39: a team's second claim never becomes Ready: with the team's namespace
    controlled by another claim, every reconcile ends in the error of the
    namespace step, has asked for nothing but that namespace, and writes one
    status: Pending, Ready False, NamespaceReady False with the owner's error,
    and the RBAC, quota and Application conditions untouched. *)
Theorem m3_second_claim_stuck r req claim e0 tr out ns ref :
  runs (Reconcile r req) (e0 :: tr) out -> m3_fetched claim e0 ->
  controllerOf (ns_ObjectMeta ns) = Some ref -> or_Name ref <> m3_Name claim ->
  Forall (answers_with ns) tr ->
  omap m3_creates tr = [NNamespace] /\ (exists e, out = (emptyResult, Some e)) /\
  exists st e, omap m3_status_sent tr = [st] /\ cs_Phase st = "Pending" /\
    mutateNamespace r claim ns = inl e /\
    IsStatusConditionTrue (cs_Conditions st) ConditionReady = false /\
    findCondition (cs_Conditions st) ConditionNamespaceReady = Some {|
      c_Type := "NamespaceReady"; c_Status := ConditionFalse;
      c_ObservedGeneration := om_Generation (m3_ObjectMeta claim);
      c_Reason := "NamespaceError"; c_Message := Error e |} /\
    forall t, t ∈ [ConditionRBACReady; ConditionQuotaApplied; ConditionArgoAppCreated] ->
      findCondition (cs_Conditions st) t =
      findCondition (cs_Conditions (m3_Status claim)) t.
Proof.
  intros H Hf Hc Hne Ha. unfold Reconcile in H. cbn [runs bind trigger] in H.
  destruct H as (x & tr0 & [= -> <-] & H). cbn in Hf. subst x.
  assert (Hm : exists e, mutateNamespace r claim ns = inl e).
  { unfold mutateNamespace, own.
    destruct (SetControllerReference_owned (m3_Scheme r) "ServiceClaim"
      (m3_ObjectMeta claim) (ns_ObjectMeta ns) ref) as [e ->]; eauto. }
  destruct Hm as [e He]. cbn [bind runs trigger reconcileResources ensureNamespace] in H.
  unfold reconcileResources, ensureNamespace in H. cbn [bind runs trigger] in H.
  destruct H as (x & tr1 & -> & H). apply Forall_cons in Ha as [Ha _].
  cbn in Ha. unfold CreateOrUpdate_contract in Ha. cbn in Ha. rewrite He in Ha. subst x.
  cbn [bind runs] in H. destruct H as (p & tr2 & -> & H).
  assert (out = (emptyResult, match p with inl e => Some e | inr _ => Some e end) /\
    tr2 = []) as [-> ->] by (destruct p; destruct H as [-> ->]; done).
  split; [done|]. split; [destruct p; eauto|].
  eexists _, e. split; [reflexivity|].
  destruct (aggregateReady_blocked claim "NamespaceError" (Error e)) as (P & R & N & O).
  auto.
Qed.

(** Clearing the declared resources leaves the old quota in place: the
    quota step then makes no call, and reports the namespace uncapped. *)
Theorem m3_stale_quota_kept r claim ns tr claim' err :
  m3_Resources (m3_Spec claim) = None -> runs (ensureQuota r claim ns) tr (claim', err) ->
  tr = [] /\ err = None /\
  IsStatusConditionTrue (cs_Conditions (m3_Status claim')) ConditionQuotaApplied = true.
Proof.
  intros Hr H. unfold ensureQuota in H. rewrite Hr in H. cbn in H.
  destruct H as [-> [= -> ->]]. cbn. by simpl_conditions.
Qed.
End before.

Section witnesses.
#[local] Existing Instance sample_kube.
#[local] Existing Instance sample_kube_laws.

Definition m3_claim (name : string) : M3Claim := {|
  m3_ObjectMeta := NewObjectMeta name "";
  m3_Spec := {| m3_Team := "payments"; m3_Image := "nginx:1.25";
                m3_Replicas := Some 1%Z; m3_Resources := None |};
  m3_Status := {| cs_Phase := ""; cs_ObservedGeneration := 0; cs_Conditions := [] |} |}.

Definition m3_reconciler : M3Reconciler := {|
  m3_Scheme := []; m3_WorkloadsRepoURL := "https://git/w";
  m3_WorkloadsTargetRevision := "HEAD" |}.

(** The namespace as the first claim leaves it. *)
Definition owned_namespace : Namespace :=
  match mutateNamespace m3_reconciler (m3_claim "payments")
          {| ns_ObjectMeta := NewObjectMeta "team-payments" "" |} with
  | inr ns => ns
  | inl _ => {| ns_ObjectMeta := NewObjectMeta "" "" |}
  end.

(** A cluster with that namespace; every other object can be created. *)
Definition m3_api (claim : M3Claim) : handler m3call unit := fun R c =>
  match c in m3call R return unit -> R * unit with
  | M3Get _ => fun s => (inr claim, s)
  | M3CreateOrUpdate k obj mutate => fun s =>
      (match k in kind T
         return T -> (T -> sample_err + T) -> sample_err + OperationResult * T with
       | KNamespace => fun _ mutate =>
           match mutate owned_namespace with
           | inl e => inl e
           | inr o => inr (OperationResultNone, o)
           end
       | _ => fun obj mutate =>
           match mutate obj with
           | inl e => inl e
           | inr o => inr (OperationResultCreated, o)
           end
       end obj mutate, s)
  | M3PatchStatus obj _ => fun s => (inr obj, s)
  end.

Definition second_claim : M3Claim := m3_claim "payments-api".
Definition second_request : Request :=
  {| req_NamespacedName := {| nn_Namespace := ""; nn_Name := "payments-api" |} |}.
Definition m3_run (claim : M3Claim) :=
  interp (m3_api claim) (Reconcile m3_reconciler second_request) tt.

(** The message the README quotes, up to the library's wording. *)
Example second_claim_message :
  snd (fst (m3_run second_claim)) = (emptyResult, Some (EAlreadyOwned "payments")).
Proof. by vm_compute. Qed.

Example first_claim_ready : snd (fst (m3_run (m3_claim "payments"))) = (emptyResult, None).
Proof. by vm_compute. Qed.

Lemma m3_team_objects_single_owner_witness :
  exists e, mutateNamespace m3_reconciler (m3_claim "payments-api") owned_namespace = inl e.
Proof.
  destruct (m3_team_objects_single_owner m3_reconciler (m3_claim "payments")
    (m3_claim "payments-api") "" ∅ ltac:(discriminate)) as [H _].
  apply (H {| ns_ObjectMeta := NewObjectMeta "team-payments" "" |}). reflexivity.
Defined.

Lemma m3_second_claim_stuck_witness :
  omap m3_creates (tail (fst (fst (m3_run second_claim)))) = [NNamespace].
Proof.
  eapply (m3_second_claim_stuck m3_reconciler second_request second_claim
    (Ev (M3Get (req_NamespacedName second_request)) (inr second_claim))
    (tail (fst (fst (m3_run second_claim)))) (snd (fst (m3_run second_claim)))
    owned_namespace).
  - apply (interp_runs (m3_api second_claim) _ tt _ _ tt). reflexivity.
  - reflexivity.
  - reflexivity.
  - discriminate.
  - repeat constructor.
Defined.

Lemma m3_stale_quota_kept_witness :
  runs (ensureQuota m3_reconciler second_claim "team-payments") []
    (setCondition second_claim ConditionQuotaApplied ConditionTrue
       "NoResourcesDeclared" "claim declares no resources; namespace is uncapped", None) /\
  IsStatusConditionTrue (cs_Conditions (m3_Status
    (setCondition second_claim ConditionQuotaApplied ConditionTrue
       "NoResourcesDeclared" "claim declares no resources; namespace is uncapped")))
    ConditionQuotaApplied = true.
Proof.
  split; [by split|].
  apply (m3_stale_quota_kept m3_reconciler second_claim "team-payments" [] _ None eq_refl).
  by split.
Defined.
End witnesses.
