(* ===== verification/BeforeMain.v ===== *)
(** * The M3 entry point (scenarios/ownership-conflict/before/cmd/main.go)

    [main] from the parsed flags on: the repository check, the manager without
    metrics or probes, the one controller, the start.  The logger's
    configuration and the parsing of the flags are left out. *)
From S2P Require Import Prelude Prog Kube Api Client Startup Registration Sample.
From S2P Require Before.
Open Scope prog_scope.

Section beforemain.
Context `{K : Kube}.

(** ** Registration *)

Section registration.
Context `{SA : !SchemeApi}.

(** The M3 package uses the group and version of the real one, and registers
    one kind. *)
Definition m3_SchemeGroupVersion : GroupVersion :=
  {| gv_Group := "platform.idp.io"; gv_Version := "v1alpha1" |}.

Definition m3_packageBuilder : SchemeBuilder :=
  Register (NewBuilder m3_SchemeGroupVersion) ["ServiceClaim"; "ServiceClaimList"].

Definition m3_AddToScheme (s : Scheme) : error + Scheme :=
  Builder_AddToScheme m3_packageBuilder s.

(** [init]; [inl] is the panic. *)
Definition m3_init : error + Scheme :=
  let scheme := NewScheme in
  match clientgo_AddToScheme scheme with
  | inl err => inl err
  | inr scheme =>
      match m3_AddToScheme scheme with
      | inl err => inl err
      | inr scheme => inr scheme
      end
  end.
End registration.

(** ** The entry point *)

(** The two flags, and their defaults. *)
Record M3Flags := { m3_workloadsRepoURL : string; m3_workloadsTargetRevision : string }.
Definition m3_defaultFlags : M3Flags :=
  {| m3_workloadsRepoURL := ""; m3_workloadsTargetRevision := "HEAD" |}.

(** [ctrl.Options] as set here; every other field has its zero value. *)
Record M3Options := {
  mo3_Scheme : Scheme;
  mo3_MetricsBindAddress : string;
  mo3_HealthProbeBindAddress : string;
}.

(** The manager's calls; a failure of [GetConfigOrDie] ends the process the way
    a failed [NewManager] does, and is one of its answers. *)
Inductive m3setup : Type -> Type :=
| M3NewManager (o : M3Options) : m3setup (option error)
| M3CompleteController (b : Builder)
    (h : Request -> prog Before.m3call (Result * option error)) : m3setup (option error)
| M3Start : m3setup (option error).

Definition m3_managerOptions (scheme : Scheme) : M3Options :=
  {| mo3_Scheme := scheme; mo3_MetricsBindAddress := "0"; mo3_HealthProbeBindAddress := "0" |}.

Definition m3_setupController (r : Before.M3Reconciler) : prog m3setup (option error) :=
  trigger (M3CompleteController Before.SetupWithManager (Before.Reconcile r)).

(** The exit status. *)
Definition m3_main (scheme : Scheme) (f : M3Flags) : prog m3setup Z :=
  if String.eqb (m3_workloadsRepoURL f) "" then Ret 1%Z
  else
    orExit (trigger (M3NewManager (m3_managerOptions scheme)))
    (orExit (m3_setupController {|
        Before.m3_Scheme := scheme;
        Before.m3_WorkloadsRepoURL := m3_workloadsRepoURL f;
        Before.m3_WorkloadsTargetRevision := m3_workloadsTargetRevision f |})
    (orExit (trigger M3Start)
    (Ret 0%Z))).

(** ** Properties *)

(** The calls of a start-up, in order. *)
Definition m3_plan (scheme : Scheme) (f : M3Flags) : list (m3setup (option error)) :=
  [ M3NewManager (m3_managerOptions scheme);
    M3CompleteController Before.SetupWithManager (Before.Reconcile {|
      Before.m3_Scheme := scheme;
      Before.m3_WorkloadsRepoURL := m3_workloadsRepoURL f;
      Before.m3_WorkloadsTargetRevision := m3_workloadsTargetRevision f |});
    M3Start ].

(** The M3 process makes no call without a repository URL, and otherwise its
    three calls in order up to the first failure; its exit status is 0 exactly
    when all succeed. *)
Theorem m3_startup_follows_plan scheme f tr code :
  runs (m3_main scheme f) tr code <->
  if String.eqb (m3_workloadsRepoURL f) "" then tr = [] /\ code = 1%Z
  else follows (m3_plan scheme f) tr code.
Proof.
  unfold m3_main. destruct (String.eqb _ _); [done|]. apply (execute_follows (m3_plan scheme f)).
Qed.

(** The M3 process knows the same group and version as the real one but no
    Tenant: if its [init] succeeds, its scheme recognizes ServiceClaim and its
    list, and no Tenant. *)
Theorem m3_scheme_has_no_tenant `{SA : !SchemeApi} {SL : SchemeLaws} s :
  m3_init = inr s ->
    m3_SchemeGroupVersion = SchemeGroupVersion /\
    recognizes s (WithKind SchemeGroupVersion "ServiceClaim") /\
    recognizes s (WithKind SchemeGroupVersion "ServiceClaimList") /\
    ~ recognizes s (WithKind SchemeGroupVersion "Tenant").
Proof.
  unfold m3_init, m3_AddToScheme. destruct (clientgo_AddToScheme _) as [e|s0] eqn:E0; [done|].
  destruct (Builder_AddToScheme _ _) as [e|s1] eqn:E; [done|]. intros [= <-].
  pose proof (fun g => Builder_AddToScheme_adds _ _ _ g E) as Hadds.
  pose proof (fun g => Builder_AddToScheme_only _ _ _ g E) as Honly.
  assert (Hreg : registered m3_packageBuilder =
    map (WithKind SchemeGroupVersion) ["ServiceClaim"; "ServiceClaimList"]).
  { unfold m3_packageBuilder. destruct (registered_new m3_SchemeGroupVersion) as [H0 H1].
    destruct (registered_Register (NewBuilder m3_SchemeGroupVersion)
      ["ServiceClaim"; "ServiceClaimList"]) as [H2 _]. by rewrite H2, H0, H1. }
  rewrite Hreg in *. split_and!; [done|apply Hadds; cbn; auto|apply Hadds; cbn; auto|].
  intros [H|[[H|[H|[]]]|H]]%Honly; [|discriminate..|].
  - by eapply clientgo_builtin in H.
  - cbn in H. intuition discriminate.
Qed.
End beforemain.

(** ** Witnesses *)

Section witnesses.
#[local] Existing Instance sample_kube.
#[local] Existing Instance sample_scheme.
#[local] Existing Instance sample_scheme_laws.

Definition m3_full_scheme : @Scheme _ _ (@kube_meta sample_kube) :=
  map (WithKind SchemeGroupVersion) ["ServiceClaim"; "ServiceClaimList"] ++ sample_builtin.

Lemma m3_scheme_has_no_tenant_witness :
  m3_init = inr m3_full_scheme /\
  recognizes m3_full_scheme (WithKind SchemeGroupVersion "ServiceClaim").
Proof.
  split; [reflexivity|].
  destruct (m3_scheme_has_no_tenant m3_full_scheme) as (_ & H & _); [reflexivity|exact H].
Defined.

Example m3_defaults_exit :
  runs (m3_main (K:=sample_kube) m3_full_scheme m3_defaultFlags) [] 1%Z.
Proof. by split. Qed.
End witnesses.
