(* ===== verification/Memory.v ===== *)
(** * Go memory: pointers, slices and what a value denotes

    The rest of the development treats objects as values; this file is what
    that rests on.  A heap maps locations to blocks of a universe [B]; a
    pointer in use is a [ref], a location with a lens into its block, so the
    address of a field or of a slice element is a [ref] too.  [Mem] says which
    value a Go value denotes in a heap and which locations it reaches;
    [clones] and [copies] say that an operation makes a disjoint copy. *)
From S2P Require Import Prelude.

(** ** Lenses *)

Record lens (S T : Type) := Lens { get : S -> option T; put : T -> S -> option S }.
Arguments Lens {_ _} _ _.
Arguments get {_ _} _ _.
Arguments put {_ _} _ _ _.

Record lawful {S T} (f : lens S T) : Prop := {
  get_put y s s' : put f y s = Some s' -> get f s' = Some y;
  put_get x s : get f s = Some x -> put f x s = Some s;
  put_put y z s s' : put f y s = Some s' -> put f z s' = put f z s;
  put_ok x y s : get f s = Some x -> exists s', put f y s = Some s';
}.

(** A field of a struct, from its projection and its assignment. *)
Definition fieldOf {S F} (proj : S -> F) (assign : F -> S -> S) : lens S F :=
  Lens (fun s => Some (proj s)) (fun y s => Some (assign y s)).

(** The element of an array at an index. *)
Definition at_index {T} (i : nat) : lens (list T) T :=
  Lens (fun l => l !! i) (fun y l => match l !! i with Some _ => Some (<[i := y]> l) | None => None end).

Definition compose {S T U} (f : lens S T) (g : lens T U) : lens S U :=
  Lens (fun s => match get f s with Some t => get g t | None => None end)
       (fun y s => match get f s with
                   | Some t => match put g y t with Some t' => put f t' s | None => None end
                   | None => None
                   end).

Lemma compose_lawful {S T U} (f : lens S T) (g : lens T U) :
  lawful f -> lawful g -> lawful (compose f g).
Proof.
  intros [f1 f2 f3 f4] [g1 g2 g3 g4]. split; cbn.
  - intros y s s'. destruct (get f s) as [t|]; [|done].
    destruct (put g y t) as [t'|] eqn:Eg; [|done]. intros Hf. rewrite (f1 _ _ _ Hf). eauto.
  - intros x s. destruct (get f s) as [t|] eqn:Ef; [|done]. intros Hg. rewrite (g2 _ _ Hg). eauto.
  - intros y z s s'. destruct (get f s) as [t|]; [|done].
    destruct (put g y t) as [t'|] eqn:Eg; [|done]. intros Hf. rewrite (f1 _ _ _ Hf).
    rewrite (g3 _ _ _ _ Eg). destruct (put g z t); [|done]. eauto.
  - intros x y s. destruct (get f s) as [t|] eqn:Ef; [|done]. intros Hg.
    destruct (g4 _ y _ Hg) as [t' ->]. eauto.
Qed.

Lemma at_index_lawful {T} i : lawful (@at_index T i).
Proof.
  split; cbn.
  - intros y l l'. destruct (l !! i) as [z|] eqn:E; [|done]. intros [= <-].
    by eapply list_lookup_insert_eq, lookup_lt_Some.
  - intros x l Hx. by rewrite Hx, list_insert_id.
  - intros y z l l'. destruct (l !! i) as [u|] eqn:E; [|done]. intros [= <-].
    rewrite list_lookup_insert_eq by (by eapply lookup_lt_Some).
    by rewrite list_insert_insert_eq.
  - intros x y l Hx. rewrite Hx. eauto.
Qed.

#[export] Hint Resolve compose_lawful at_index_lawful : idp.

(** ** The heap *)

#[global] Abbreviation loc := positive.
#[global] Abbreviation heap B := (gmap positive B).

(** A type whose values are blocks of the universe. *)
Class Cell (B T : Type) := {
  cell : T -> B;
  uncell : B -> option T;
  uncell_cell x : uncell (cell x) = Some x;
  cell_uncell b x : uncell b = Some x -> b = cell x;
}.

Definition cellLens {B T} `{Cell B T} : lens B T :=
  Lens uncell (fun y b => match uncell b with Some _ => Some (cell y) | None => None end).

Lemma cellLens_lawful {B T} `{Cell B T} : lawful (@cellLens B T _).
Proof.
  split; cbn.
  - intros y b b'. destruct (uncell b); [|done]. intros [= <-]. apply uncell_cell.
  - intros x b Hx. rewrite Hx. f_equal. symmetry. by apply cell_uncell.
  - intros y z b b'. destruct (uncell b); [|done]. intros [= <-]. by rewrite uncell_cell.
  - intros x y b Hx. rewrite Hx. eauto.
Qed.

(** A pointer in use: where it points and at which part of the block. *)
Record ref (B T : Type) := Ref { r_loc : loc; r_lens : lens B T }.
Arguments Ref {_ _} _ _.
Arguments r_loc {_ _} _.
Arguments r_lens {_ _} _.

(** [&p.f], for a lens that is a field or an element. *)
Definition addr {B S T} (p : ref B S) (f : lens S T) : ref B T :=
  Ref (r_loc p) (compose (r_lens p) f).

(** The block of a location as a variable of a type. *)
Definition root {B T} `{Cell B T} (l : loc) : ref B T := Ref l cellLens.

(** What Go code stores: a pointer, and a slice as array, offset and length;
    the capacity plays no role. *)
Inductive ptr (T : Type) := Nil | Ptr (l : loc).
Arguments Nil {_}.
Arguments Ptr {_} _.

Inductive slice (T : Type) := NilSlice | Slice (a : loc) (off len : nat).
Arguments NilSlice {_}.
Arguments Slice {_} _ _ _.

(** ** Statements *)

(** A statement: a heap and a result, or a panic. *)
Definition go (B A : Type) : Type := heap B -> option (A * heap B).

#[global] Instance go_ret {B} : MRet (go B) := fun A a h => Some (a, h).
#[global] Instance go_bind {B} : MBind (go B) := fun A C k m h =>
  match m h with Some (a, h') => k a h' | None => None end.

Definition panic {B A} : go B A := fun _ => None.

Definition load {B T} (p : ref B T) : go B T := fun h =>
  match h !! r_loc p with
  | Some b => match get (r_lens p) b with Some x => Some (x, h) | None => None end
  | None => None
  end.

Definition store {B T} (p : ref B T) (x : T) : go B unit := fun h =>
  match h !! r_loc p with
  | Some b => match put (r_lens p) x b with
              | Some b' => Some (tt, <[r_loc p := b']> h)
              | None => None
              end
  | None => None
  end.

(** The zero value of a type; [new(T)] and [make([]T, n)] allocate it. *)
Class Zero (T : Type) := zero : T.

Definition alloc {B T} `{Cell B T} (x : T) : go B loc := fun h =>
  let l := fresh (dom h) in Some (l, <[l := cell x]> h).

Definition deref {B T} `{Cell B T} (p : ptr T) : go B (ref B T) :=
  match p with Nil => panic | Ptr l => mret (root l) end.

Definition index {B T} `{Cell B (list T)} (s : slice T) (i : nat) : go B (ref B T) :=
  match s with
  | NilSlice => panic
  | Slice a off len => if i <? len then mret (addr (root a) (at_index (off + i))) else panic
  end.

Definition len {T} (s : slice T) : nat :=
  match s with NilSlice => 0 | Slice _ _ n => n end.

(** [for i := range n { body }]. *)
Fixpoint for_each {B} (l : list nat) (body : nat -> go B unit) : go B unit :=
  match l with
  | [] => mret tt
  | i :: l => body i;; for_each l body
  end.

(** [*out = *in]. *)
Definition assign {B T} (inp out : ref B T) : go B unit := x ← load inp; store out x.

(** ** What a value denotes *)

(** [read h x] is the value [x] denotes in [h], pointers followed; [foot h x]
    is the set of locations it reaches. *)
Class Mem (B T V : Type) := {
  read : heap B -> T -> option V;
  foot : heap B -> T -> gset loc;
}.

Class MemLaws {B T V} (Me : Mem B T V) : Prop := {
  read_frame h h' x v : read h x = Some v ->
    (forall l, l ∈ foot h x -> h' !! l = h !! l) ->
    read h' x = Some v /\ foot h' x = foot h x;
  read_dom h x v : read h x = Some v -> foot h x ⊆ dom h;
}.

(** A type without pointers. *)
Definition plain {B T} : Mem B T T := {| read _ x := Some x; foot _ _ := ∅ |}.

Lemma plain_laws {B T} : MemLaws (@plain B T).
Proof. split; cbn; [by intros|set_solver]. Qed.

#[global] Instance mem_ptr {B T V} `{Cell B T} `{!Mem B T V} : Mem B (ptr T) (option V) := {|
  read h p := match p with
    | Nil => Some None
    | Ptr l => match h !! l with
               | Some b => match uncell b with
                           | Some x => match read h x with Some v => Some (Some v) | None => None end
                           | None => None
                           end
               | None => None
               end
    end;
  foot h p := match p with
    | Nil => ∅
    | Ptr l => {[l]} ∪ match h !! l with
                       | Some b => match uncell b with Some x => foot h x | None => ∅ end
                       | None => ∅
                       end
    end;
|}.

(** The elements of a slice, if its array is there and long enough. *)
Definition elements_of {B T} `{Cell B (list T)} (h : heap B) (a : loc) (off len : nat)
  : option (list T) :=
  match h !! a with
  | Some b => match uncell b with
              | Some l => if off + len <=? length l then Some (take len (drop off l)) else None
              | None => None
              end
  | None => None
  end.

#[global] Instance mem_slice {B T V} `{Cell B (list T)} `{!Mem B T V} : Mem B (slice T) (list V) := {|
  read h s := match s with
    | NilSlice => Some []
    | Slice a off len =>
        match elements_of h a off len with Some l => mapM (read h) l | None => None end
    end;
  foot h s := match s with
    | NilSlice => ∅
    | Slice a off len => {[a]} ∪
        match elements_of h a off len with Some l => ⋃ (foot h <$> l) | None => ∅ end
    end;
|}.

(** ** Copies *)

Section copies.
Context {B : Type}.
Implicit Types h : heap B.

(** Variable [p] holds [x]. *)
Definition holds {T} (p : ref B T) h (x : T) : Prop :=
  exists b, h !! r_loc p = Some b /\ get (r_lens p) b = Some x.

(** From [h0] to [h]: [hf] was allocated and [o] assigned [y]; nothing else. *)
Definition wrote {T} (o : ref B T) h0 hf (y : T) h : Prop :=
  exists b0 b, h0 !! r_loc o = Some b0 /\ put (r_lens o) y b0 = Some b /\
    h = <[r_loc o := b]> (hf ∪ h0) /\ dom hf ## dom h0.

(** A function returns a copy: new memory that denotes the same value on its
    own, everything there was before left as it was. *)
Definition clones {T V} `{Mem B T V} (f : T -> go B T) : Prop :=
  forall h x v, read h x = Some v ->
    exists hf y, f x h = Some (y, hf ∪ h) /\ dom hf ## dom h /\ read hf y = Some v.

(** A [DeepCopyInto] whose [out] is another variable, which the value does not
    reach and whose content is related by [P] to the value: it is made a copy. *)
Definition copies_over {T V} `{Mem B T V} (P : T -> T -> Prop)
    (into : ref B T -> ref B T -> go B unit) : Prop :=
  forall (i o : ref B T) h x x' v, lawful (r_lens o) -> r_loc i <> r_loc o ->
    holds i h x -> holds o h x' -> P x x' -> read h x = Some v -> r_loc o ∉ foot h x ->
    exists hf y h', into i o h = Some (tt, h') /\ wrote o h hf y h' /\ read hf y = Some v.

(** Whatever [out] holds; and once [*out = *in] has been done. *)
Definition copies {T V} `{Mem B T V} : (ref B T -> ref B T -> go B unit) -> Prop :=
  copies_over (fun _ _ => True).
Definition deepens {T V} `{Mem B T V} : (ref B T -> ref B T -> go B unit) -> Prop :=
  copies_over eq.
End copies.

(** ** Lemmas *)

Section lemmas.
Context {B : Type}.
Implicit Types h : heap B.

Lemma read_mono {T V} {Me : Mem B T V} `{!MemLaws Me} h h' x v :
  read h x = Some v -> h ⊆ h' -> read h' x = Some v.
Proof.
  intros Hr Hs. apply (read_frame h h' x v Hr). intros l Hl.
  apply (read_dom h x v Hr) in Hl as [b Hb]%elem_of_dom.
  rewrite Hb. by eapply lookup_weaken.
Qed.

Lemma load_holds {T} (p : ref B T) h x : holds p h x -> load p h = Some (x, h).
Proof. intros (b & Hb & Hx). unfold load. by rewrite Hb, Hx. Qed.

Lemma holds_addr {S T} (p : ref B S) (f : lens S T) h x y :
  holds p h x -> get f x = Some y -> holds (addr p f) h y.
Proof. intros (b & Hb & Hx) Hy. exists b. split; [done|]. cbn. by rewrite Hx. Qed.

Lemma holds_root {T} `{Cell B T} h l x : holds (root l) h x <-> h !! l = Some (cell x).
Proof.
  split.
  - intros (b & Hb & Hx). cbn in Hb, Hx. by rewrite Hb, (cell_uncell _ _ Hx).
  - intros Hl. exists (cell x). split; [done|apply uncell_cell].
Qed.

Lemma wrote_lookup {T} (o : ref B T) h0 hf y h l :
  wrote o h0 hf y h -> l <> r_loc o -> l ∈ dom h0 -> h !! l = h0 !! l.
Proof.
  intros (b0 & b & _ & _ & -> & Hd) Hl Hin. rewrite lookup_insert_ne by done.
  apply lookup_union_r, not_elem_of_dom. set_solver.
Qed.

Lemma wrote_new {T} (o : ref B T) h0 hf y h l b :
  wrote o h0 hf y h -> hf !! l = Some b -> h !! l = Some b.
Proof.
  intros (b0 & b' & H0 & _ & -> & Hd) Hl. apply elem_of_dom_2 in H0.
  pose proof (elem_of_dom_2 _ _ _ Hl). rewrite lookup_insert_ne by set_solver.
  by apply lookup_union_Some_l.
Qed.

Lemma wrote_mono {T} (o : ref B T) h0 hf y h : wrote o h0 hf y h -> hf ⊆ h.
Proof. intros Hw. apply map_subseteq_spec. intros l b. by eapply wrote_new. Qed.

Lemma wrote_holds {T} (o : ref B T) h0 hf y h :
  lawful (r_lens o) -> wrote o h0 hf y h -> holds o h y.
Proof.
  intros Ho (b0 & b & _ & Hp & -> & _). exists b. split; [apply lookup_insert_eq|].
  by eapply get_put.
Qed.

Lemma holds_wrote {S T} (p : ref B S) (o : ref B T) h0 hf y h x :
  wrote o h0 hf y h -> r_loc p <> r_loc o -> holds p h0 x -> holds p h x.
Proof.
  intros Hw Hne (b & Hb & Hx). exists b. split; [|done].
  rewrite <- Hb. apply (wrote_lookup _ _ _ _ _ _ Hw Hne). by eapply elem_of_dom_2.
Qed.

(** What is read away from the variable written is read as before. *)
Lemma read_wrote {S V T} {Me : Mem B S V} `{!MemLaws Me} (o : ref B T) h0 hf y h x v :
  wrote o h0 hf y h -> read h0 x = Some v -> r_loc o ∉ foot h0 x ->
  read h x = Some v /\ foot h x = foot h0 x.
Proof.
  intros Hw Hr Hf. apply (read_frame h0 h x v Hr). intros l Hl.
  eapply wrote_lookup; [done|set_solver|]. by eapply read_dom.
Qed.

Lemma wrote_refl {T} (o : ref B T) h x : lawful (r_lens o) -> holds o h x -> wrote o h ∅ x h.
Proof.
  intros Ho (b & Hb & Hx). exists b, b. split_and!; [done| | |set_solver].
  - by eapply put_get.
  - by rewrite map_empty_union, insert_id.
Qed.

Lemma store_wrote {T} (o : ref B T) h0 hf y h z :
  lawful (r_lens o) -> wrote o h0 hf y h ->
  exists h', store o z h = Some (tt, h') /\ wrote o h0 hf z h'.
Proof.
  intros Ho Hw. destruct (wrote_holds _ _ _ _ _ Ho Hw) as (b & Hb & Hy).
  destruct Hw as (b0 & b1 & H0 & Hp & -> & Hd). rewrite lookup_insert_eq in Hb.
  injection Hb as ->. destruct (put_ok _ Ho y z b Hy) as [b' Hb'].
  exists (<[r_loc o := b']> (hf ∪ h0)). unfold store.
  rewrite lookup_insert_eq, Hb', insert_insert_eq. split; [done|].
  exists b0, b'. split_and!; [done| |done|done]. by rewrite <- (put_put _ Ho _ z _ _ Hp).
Qed.

Lemma store_holds {T} (o : ref B T) h x z : lawful (r_lens o) -> holds o h x ->
  exists h', store o z h = Some (tt, h') /\ wrote o h ∅ z h'.
Proof. intros Ho Hx. eapply store_wrote; [done|by apply wrote_refl]. Qed.

(** Writing a part of a variable after writing the variable. *)
Lemma wrote_part {S T} (o : ref B S) (f : lens S T) h0 hf y h hf1 z h' :
  lawful (r_lens o) -> lawful f -> wrote o h0 hf y h -> wrote (addr o f) h hf1 z h' ->
  exists y', put f z y = Some y' /\ wrote o h0 (hf1 ∪ hf) y' h'.
Proof.
  intros Ho Hf (b0 & b & H0 & Hp & -> & Hd) (b1 & b' & H1 & Hp' & -> & Hd'). cbn in *.
  rewrite lookup_insert_eq in H1. injection H1 as <-.
  rewrite (get_put _ Ho _ _ _ Hp) in Hp'. destruct (put f z y) as [y'|] eqn:Ey; [|done].
  exists y'. split; [done|]. exists b0, b'. rewrite (put_put _ Ho _ y' _ _ Hp) in Hp'.
  rewrite dom_insert, dom_union in Hd'. split_and!; [done|done| |set_solver].
  rewrite <- insert_union_r by (apply not_elem_of_dom; set_solver).
  by rewrite insert_insert_eq, (assoc_L (∪)).
Qed.

Lemma wrote_trans {T} (o : ref B T) h0 hf y h hf1 z h' : lawful (r_lens o) ->
  wrote o h0 hf y h -> wrote o h hf1 z h' -> wrote o h0 (hf1 ∪ hf) z h'.
Proof.
  intros Ho (b0 & b & H0 & Hp & -> & Hd) (b1 & b' & H1 & Hp' & -> & Hd'). cbn in *.
  rewrite lookup_insert_eq in H1. injection H1 as <-.
  exists b0, b'. rewrite (put_put _ Ho _ z _ _ Hp) in Hp'.
  rewrite dom_insert, dom_union in Hd'. split_and!; [done|done| |set_solver].
  rewrite <- insert_union_r by (apply not_elem_of_dom; set_solver).
  by rewrite insert_insert_eq, (assoc_L (∪)).
Qed.

Lemma wrote_disjoint {T} (o : ref B T) h hf1 z h' hf   :
  wrote o h hf1 z h' -> hf ⊆ h -> dom hf ## dom hf1.
Proof. intros (_ & _ & _ & _ & _ & Hd) Hs%subseteq_dom. set_solver. Qed.

Lemma copies_deepens {T V} {Me : Mem B T V} (into : ref B T -> ref B T -> go B unit) :
  copies into -> deepens into.
Proof. intros Hc i o h x x' v Ho Hne Hi Hx _ Hr Hf. by eapply Hc. Qed.

(** One part of a variable that is being copied. *)
Lemma copy_part {S T V} {Me : Mem B T V} `{!MemLaws Me} P (into : ref B T -> ref B T -> go B unit)
    (i : ref B T) (o : ref B S) (f : lens S T) h0 hf y h u u' v :
  copies_over P into -> lawful (r_lens o) -> lawful f -> wrote o h0 hf y h ->
  r_loc i <> r_loc o -> holds i h0 u -> get f y = Some u' -> P u u' -> read h0 u = Some v ->
  r_loc o ∉ foot h0 u ->
  exists hf' w y' h', into i (addr o f) h = Some (tt, h') /\ put f w y = Some y' /\
    wrote o h0 hf' y' h' /\ hf ⊆ hf' /\ read hf' w = Some v.
Proof.
  intros Hinto Ho Hf Hw Hne Hi Hu HP Hr Hfoot.
  destruct (read_wrote _ _ _ _ _ _ _ Hw Hr Hfoot) as [Hr' Hfoot'].
  destruct (Hinto i (addr o f) h u u' v) as (hf1 & w & h' & Hrun & Hw' & Hrw);
    [by apply compose_lawful|done|by eapply holds_wrote| |done|done|by rewrite Hfoot'|].
  { eapply holds_addr; [by eapply wrote_holds|done]. }
  destruct (wrote_part _ _ _ _ _ _ _ _ _ Ho Hf Hw Hw') as (y' & Hy' & Hw2).
  exists (hf1 ∪ hf), w, y', h'. split_and!; [done|done|done| |].
  - apply map_union_subseteq_r, map_disjoint_dom.
    pose proof (wrote_disjoint _ _ _ _ _ _ Hw' (wrote_mono _ _ _ _ _ Hw)). set_solver.
  - eapply read_mono; [done|]. apply map_union_subseteq_l.
Qed.
End lemmas.

(** ** Pointers and slices obey the laws *)

Section laws.
Context {B T V : Type} `{Me : Mem B T V} `{!MemLaws Me}.

#[export] Instance mem_ptr_laws `{Cell B T} : MemLaws mem_ptr.
Proof.
  split.
  - intros h h' [|l] v; cbn; [done|]. intros Hr Hsame.
    rewrite (Hsame l) by set_solver.
    destruct (h !! l) as [b|]; [|done]. destruct (uncell b) as [x|]; [|done].
    destruct (read h x) as [w|] eqn:Hx; [|done].
    destruct (read_frame h h' x w Hx) as [-> ->]; [|done]. intros k Hk. apply Hsame. set_solver.
  - intros h [|l] v; cbn; [set_solver|]. destruct (h !! l) as [b|] eqn:Hb; [|done].
    destruct (uncell b) as [x|]; [|done]. destruct (read h x) as [w|] eqn:Hx; [|done].
    intros _. apply elem_of_dom_2 in Hb. apply read_dom in Hx. set_solver.
Qed.

Lemma read_all_frame h h' (l : list T) vs : mapM (read h) l = Some vs ->
  (forall k, k ∈ ⋃ (foot h <$> l) -> h' !! k = h !! k) ->
  mapM (read h') l = Some vs /\ foot h' <$> l = foot h <$> l.
Proof.
  rewrite mapM_Some. intros Hall. induction Hall as [|x v l vs Hx Hl IH]; [done|].
  cbn. intros Hsame. destruct (read_frame h h' x v Hx) as [Hx' ->]; [set_solver|].
  destruct IH as [IH1 IH2]; [set_solver|]. by rewrite Hx', IH1, IH2.
Qed.

Lemma read_all_dom h (l : list T) vs : mapM (read h) l = Some vs -> ⋃ (foot h <$> l) ⊆ dom h.
Proof.
  rewrite mapM_Some. intros Hall. induction Hall as [|x v l vs Hx Hl IH]; cbn; [set_solver|].
  apply read_dom in Hx. set_solver.
Qed.

#[export] Instance mem_slice_laws `{Cell B (list T)} : MemLaws mem_slice.
Proof.
  split.
  - intros h h' [|a off n] v; cbn; [done|]. intros Hr Hsame. unfold elements_of in *.
    rewrite (Hsame a) by set_solver.
    destruct (h !! a) as [b|]; [|done]. destruct (uncell b) as [l|]; [|done].
    case_match; [|done]. destruct (read_all_frame h h' _ _ Hr) as [-> ->]; [|done].
    intros k Hk. apply Hsame. set_solver.
  - intros h [|a off n] v; cbn; [set_solver|]. unfold elements_of.
    destruct (h !! a) as [b|] eqn:Hb; [|done]. destruct (uncell b) as [l|]; [|done].
    case_match; [|done]. intros Hr%read_all_dom. apply elem_of_dom_2 in Hb. set_solver.
Qed.
End laws.
