(* ===== verification/DeepCopy.v ===== *)
(** * The idioms of the generated deep copies

    controller-gen emits three shapes: a field assigned the result of a
    [DeepCopy], a pointer followed into new memory, and a slice copied element
    by element.  Each is a statement of [Memory], with the lemma that it copies
    whenever the [DeepCopyInto] it calls does. *)
From S2P Require Import Prelude Kube Memory.

Section idioms.
Context {B : Type}.
Implicit Types h : heap B.

(** [out.F = in.F.DeepCopy()]. *)
Definition copy_value {T} (f : T -> go B T) (inp out : ref B T) : go B unit :=
  x ← load inp; y ← f x; store out y.

(** [if in.F != nil { in, out := &in.F, &out.F; *out = new(T);
    ( *in).DeepCopyInto( *out) }]. *)
Definition copy_pointer {T} `{Cell B T} `{!Zero T} (into : ref B T -> ref B T -> go B unit)
    (inp out : ref B (ptr T)) : go B unit :=
  p ← load inp;
  match p with
  | Nil => mret tt
  | Ptr _ =>
      l ← alloc zero;
      store out (Ptr l);;
      i ← (load inp ≫= deref);
      o ← (load out ≫= deref);
      into i o
  end.

(** [if in.F != nil { in, out := &in.F, &out.F; *out = make([]T, len( *in));
    for i := range *in { ( *in)[i].DeepCopyInto(&( *out)[i]) } }]. *)
Definition copy_slice {T} `{Cell B (list T)} `{!Zero T}
    (into : ref B T -> ref B T -> go B unit) (inp out : ref B (slice T)) : go B unit :=
  s ← load inp;
  match s with
  | NilSlice => mret tt
  | Slice _ _ _ =>
      s ← load inp;
      l ← alloc (replicate (len s) zero);
      store out (Slice l 0 (len s));;
      s ← load inp;
      for_each (seq 0 (len s)) (fun n =>
        i ← (load inp ≫= fun s => index s n);
        o ← (load out ≫= fun s => index s n);
        into i o)
  end.

(** [func (in *T) DeepCopy() *T]. *)
Definition deepCopy {T} `{Cell B T} `{!Zero T} (into : ref B T -> ref B T -> go B unit)
    (inp : ptr T) : go B (ptr T) :=
  match inp with
  | Nil => mret Nil
  | Ptr _ =>
      l ← alloc zero;
      let out := Ptr l in
      i ← deref inp;
      o ← deref out;
      into i o;;
      mret out
  end.

(** [func (in *T) DeepCopyObject() runtime.Object]: an interface value is nil
    or a pointer with its type; a nil pointer is not turned into one. *)
Definition deepCopyObject {T O} (wrap : ptr T -> O) (copy : ptr T -> go B (ptr T))
    (inp : ptr T) : go B (option O) :=
  c ← copy inp;
  match c with
  | Ptr _ => mret (Some (wrap c))
  | Nil => mret None
  end.

(** ** They copy *)

Lemma bind_run {A C} (m : go B A) (k : A -> go B C) h a h' :
  m h = Some (a, h') -> mbind k m h = k a h'.
Proof. intros Hm. unfold mbind, go_bind. by rewrite Hm. Qed.

Lemma alloc_run {T} `{Cell B T} (x : T) h :
  exists l, (l ∉ dom h) /\ alloc x h = Some (l, <[l := cell x]> h).
Proof. exists (fresh (dom h)). split; [apply is_fresh|done]. Qed.

Lemma assign_run {T} (i o : ref B T) h x x' : lawful (r_lens o) ->
  holds i h x -> holds o h x' -> exists h', assign i o h = Some (tt, h') /\ wrote o h ∅ x h'.
Proof.
  intros Ho Hi Hx'. unfold assign. rewrite (bind_run _ _ _ _ _ (load_holds _ _ _ Hi)).
  by eapply store_holds.
Qed.

Lemma assign_copies {T} (Me : Mem B T T) : (forall h x, read h x = Some x) ->
  @copies B T T Me assign.
Proof.
  intros Hplain i o h x x' v Ho Hne Hi Hx' _ Hr Hf.
  destruct (assign_run i o h x x' Ho Hi Hx') as (h' & Hrun & Hw).
  exists ∅, x, h'. split_and!; [done|done|]. rewrite Hplain in Hr |- *. done.
Qed.

Lemma copy_value_copies {T V} {Me : Mem B T V} `{!MemLaws Me} (f : T -> go B T) :
  clones f -> copies (copy_value f).
Proof.
  intros Hf i o h x x' v Ho Hne Hi Hx' _ Hr Hfoot. unfold copy_value.
  rewrite (bind_run _ _ _ _ _ (load_holds _ _ _ Hi)).
  destruct (Hf h x v Hr) as (hf & y & Hrun & Hd & Hy). rewrite (bind_run _ _ _ _ _ Hrun).
  destruct Hx' as (b & Hb & Hg). destruct (put_ok _ Ho _ y _ Hg) as [b' Hp].
  exists hf, y, (<[r_loc o := b']> (hf ∪ h)). split_and!; [|by exists b, b'|done].
  unfold store. rewrite (lookup_union_r hf h); [by rewrite Hb, Hp|].
  apply not_elem_of_dom. apply elem_of_dom_2 in Hb. set_solver.
Qed.

(** A part of a block in new memory, as new memory. *)
Lemma wrote_fresh {S T} `{Cell B T} (o : ref B S) (z : T) h l s0 s h2 hf y h3 :
  holds o h s0 -> l ∉ dom h ->
  wrote o (<[l := cell z]> h) ∅ s h2 -> wrote (root l) h2 hf y h3 ->
  wrote o h (<[l := cell y]> hf) s h3 /\ l ∉ dom hf.
Proof.
  intros Hs Hl (b0 & b & H0 & Hp & -> & _) (c0 & c & H1 & Hp' & -> & Hd). cbn in *.
  assert (Hne : r_loc o <> l).
  { destruct Hs as (bs & Hbs & _). apply elem_of_dom_2 in Hbs. congruence. }
  rewrite map_empty_union in H1, Hd |- *.
  rewrite lookup_insert_ne in H0, H1 by done. rewrite lookup_insert_eq in H1.
  injection H1 as <-. rewrite uncell_cell in Hp'. injection Hp' as <-.
  rewrite !dom_insert in Hd. split; [|set_solver].
  exists b0, b. split_and!; [done|done| |rewrite dom_insert; set_solver].
  rewrite <- insert_union_r by (apply not_elem_of_dom; set_solver).
  rewrite insert_insert_ne by done. f_equal.
  rewrite <- insert_union_r by (apply not_elem_of_dom; set_solver).
  by rewrite insert_insert_eq, insert_union_l.
Qed.

Lemma read_ptr {T V} `{Cell B T} {Me : Mem B T V} h l v :
  read h (Ptr l) = Some v -> exists x w, h !! l = Some (cell x) /\ read h x = Some w /\
    v = Some w /\ foot h (Ptr l) = {[l]} ∪ foot h x.
Proof.
  cbn. destruct (h !! l) as [b|] eqn:Hb; [|done].
  destruct (uncell b) as [x|] eqn:Hx; [|done].
  destruct (read h x) as [w|] eqn:Hr; [|done]. intros [= <-].
  exists x, w. by rewrite (cell_uncell _ _ Hx).
Qed.

Lemma ptr_read {T V} `{Cell B T} {Me : Mem B T V} h l x w :
  h !! l = Some (cell x) -> read h x = Some w -> read h (Ptr l) = Some (Some w).
Proof. intros Hl Hr. cbn. by rewrite Hl, uncell_cell, Hr. Qed.

(** Copying the block at [l] into the block at [l'], new since [h]. *)
Lemma copy_block {T V} `{Cell B T} {Me : Mem B T V} `{!MemLaws Me}
    (into : ref B T -> ref B T -> go B unit) h h2 l l' x z w :
  copies into -> h !! l = Some (cell x) -> read h x = Some w -> l' ∉ dom h ->
  h2 !! l' = Some (cell z) -> (forall k, k ∈ ({[l]} ∪ foot h x : gset loc) -> h2 !! k = h !! k) ->
  exists hf y h3, into (root l) (root l') h2 = Some (tt, h3) /\
    wrote (root l') h2 hf y h3 /\ read hf y = Some w.
Proof.
  intros Hc Hl Hr Hl' Hz Hsame.
  destruct (read_frame h h2 x w Hr) as [Hr2 Hf2]; [intros k Hk; apply Hsame; set_solver|].
  pose proof (read_dom h x w Hr). apply elem_of_dom_2 in Hl as Hld.
  apply (Hc (root l) (root l') h2 x z w); [..|done| |].
  - apply cellLens_lawful.
  - cbn. congruence.
  - apply holds_root. rewrite <- Hl. apply Hsame. set_solver.
  - by apply holds_root.
  - done.
  - cbn. rewrite Hf2. set_solver.
Qed.

Lemma holds_alloc {T} (p : ref B T) h x l b :
  holds p h x -> l ∉ dom h -> holds p (<[l := b]> h) x.
Proof.
  intros (c & Hc & Hg) Hl. exists c. split; [|done]. apply elem_of_dom_2 in Hc as ?.
  rewrite lookup_insert_ne; [done|congruence].
Qed.

(** Allocating and then assigning a variable. *)
Lemma alloc_store {S T} `{Cell B T} (o : ref B S) h s z l s' :
  lawful (r_lens o) -> holds o h s -> l ∉ dom h ->
  exists h2, store o s' (<[l := cell z]> h) = Some (tt, h2) /\
    wrote o (<[l := cell z]> h) ∅ s' h2 /\ h2 !! l = Some (cell z) /\
    forall k, k ∈ dom h -> k <> r_loc o -> h2 !! k = h !! k.
Proof.
  intros Ho Hs Hl. assert (Hlo : r_loc o <> l).
  { destruct Hs as (b & Hb & _). apply elem_of_dom_2 in Hb. congruence. }
  destruct (store_holds o (<[l := cell z]> h) s s' Ho) as (h2 & Hst & Hw);
    [by apply holds_alloc|].
  exists h2. split_and!; [done|done| |].
  - rewrite (wrote_lookup _ _ _ _ _ _ Hw), lookup_insert_eq; [done|done|set_solver].
  - intros k Hk Hko. rewrite (wrote_lookup _ _ _ _ _ _ Hw), lookup_insert_ne; set_solver.
Qed.

Lemma copy_pointer_deepens {T V} `{Cell B T} `{!Zero T} {Me : Mem B T V} `{!MemLaws Me}
    (into : ref B T -> ref B T -> go B unit) :
  copies into -> deepens (copy_pointer into).
Proof.
  intros Hc i o h p ? v Ho Hne Hi Hp <- Hr Hf. unfold copy_pointer.
  rewrite (bind_run _ _ _ _ _ (load_holds _ _ _ Hi)). destruct p as [|l].
  { exists ∅, Nil, h. split_and!; [done|by apply wrote_refl|by injection Hr as <-]. }
  apply read_ptr in Hr as (x & w & Hl & Hr & -> & Hfl). rewrite Hfl in Hf.
  destruct (alloc_run zero h) as (l' & Hl' & Hal). rewrite (bind_run _ _ _ _ _ Hal).
  destruct (alloc_store o h _ zero l' (Ptr l') Ho Hp Hl') as (h2 & Hst & Hw & Hz & Hsame).
  rewrite (bind_run _ _ _ _ _ Hst).
  assert (Hi2 : holds i h2 (Ptr l)).
  { eapply holds_wrote; [exact Hw|done|by apply holds_alloc]. }
  rewrite (bind_run _ _ _ _ _ (bind_run _ _ _ _ _ (load_holds _ _ _ Hi2))).
  rewrite (bind_run _ _ _ _ _ (bind_run _ _ _ _ _ (load_holds _ _ _ (wrote_holds _ _ _ _ _ Ho Hw)))).
  pose proof (read_dom h x w Hr) as Hfx. apply elem_of_dom_2 in Hl as Hld.
  destruct (copy_block into h h2 l l' x zero w Hc Hl Hr Hl' Hz) as (hf & y & h3 & Hrun & Hw3 & Hy).
  { intros k Hk. apply Hsame; set_solver. }
  destruct (wrote_fresh _ _ _ _ _ _ _ _ _ _ Hp Hl' Hw Hw3) as [Hw4 Hlf].
  eexists _, (Ptr l'), h3. split_and!; [done|exact Hw4|].
  eapply ptr_read; [apply lookup_insert_eq|].
  eapply read_mono; [done|]. by apply insert_subseteq, not_elem_of_dom.
Qed.

(** [DeepCopy]: nil for nil, otherwise a pointer to a copy in new memory. *)
Lemma deepCopy_clones {T V} `{Cell B T} `{!Zero T} {Me : Mem B T V} `{!MemLaws Me}
    (into : ref B T -> ref B T -> go B unit) :
  copies into -> clones (deepCopy into).
Proof.
  intros Hc h p v Hr. destruct p as [|l].
  { exists ∅, Nil. cbn. rewrite map_empty_union. injection Hr as <-. split_and!; [done|set_solver|done]. }
  apply read_ptr in Hr as (x & w & Hl & Hr & -> & _). cbn [deepCopy].
  destruct (alloc_run zero h) as (l' & Hl' & Hal). rewrite (bind_run _ _ _ _ _ Hal).
  cbn [deref]. rewrite !(bind_run (mret _) _ _ _ _ eq_refl).
  pose proof (read_dom h x w Hr) as Hfx. apply elem_of_dom_2 in Hl as Hld.
  destruct (copy_block into h (<[l' := cell zero]> h) l l' x zero w Hc Hl Hr Hl')
    as (hf & y & h3 & Hrun & Hw & Hy).
  { apply lookup_insert_eq. }
  { intros k Hk. rewrite lookup_insert_ne; [done|set_solver]. }
  rewrite (bind_run _ _ _ _ _ Hrun).
  destruct Hw as (b0 & b & H0 & Hp & -> & Hd). cbn in H0, Hp.
  rewrite lookup_insert_eq in H0. injection H0 as <-. rewrite uncell_cell in Hp. injection Hp as <-.
  rewrite dom_insert in Hd.
  assert (Hlf : l' ∉ dom hf) by set_solver.
  exists (<[l' := cell y]> hf), (Ptr l'). split_and!.
  - cbn. rewrite <- insert_union_r by (by apply not_elem_of_dom).
    by rewrite insert_insert_eq, insert_union_l.
  - rewrite dom_insert. set_solver.
  - eapply ptr_read; [apply lookup_insert_eq|].
    eapply read_mono; [done|]. by apply insert_subseteq, not_elem_of_dom.
Qed.

(** ** The loop over a slice *)

(** The state of the loop after [k] of [length vs] elements: the new array has
    that length and its first [k] elements are copies. *)
Definition copied {T V} `{Cell B (list T)} {Me : Mem B T V} (vs : list V) (l : loc) h0 (k : nat) h
  : Prop :=
  exists hf ys, wrote (root l) h0 hf ys h /\ length ys = length vs /\
    forall j y v, j < k -> ys !! j = Some y -> vs !! j = Some v -> read hf y = Some v.

Section loop.
Context {T V} `{CL : Cell B (list T)} {Me : Mem B T V} `{!MemLaws Me}.
Context (into : ref B T -> ref B T -> go B unit) (Hinto : copies into).
Context (inp out : ref B (slice T)) (h0 : heap B) (a l : loc) (off : nat).
Context (arr : list T) (vs : list V).
Context (Hin : holds inp h0 (Slice a off (length vs))) (Hil : r_loc inp <> l).
Context (Hout : holds out h0 (Slice l 0 (length vs))) (Hol : r_loc out <> l).
Context (Ha : h0 !! a = Some (cell arr)) (Hal : a <> l).
Context (Hread : forall k x v, arr !! (off + k) = Some x -> vs !! k = Some v ->
  read h0 x = Some v /\ l ∉ foot h0 x).
Context (Hlen : off + length vs <= length arr).

Let body (n : nat) : go B unit :=
  i ← (load inp ≫= fun s => index s n);
  o ← (load out ≫= fun s => index s n);
  into i o.

Lemma index_run (n : nat) a' off' h : n < length vs ->
  index (Slice a' off' (length vs)) n h =
  Some (addr (root a') (at_index (off' + n)) : ref B T, h).
Proof. intros Hn%Nat.ltb_lt. cbn [index]. by rewrite Hn. Qed.

Lemma loop_step k h : k < length vs -> copied vs l h0 k h ->
  exists h', body k h = Some (tt, h') /\ copied vs l h0 (S k) h'.
Proof.
  intros Hk (hf & ys & Hw & Hys & Hdone). unfold body.
  rewrite (bind_run _ _ h (addr (root a) (at_index (off + k))) h).
  2: { rewrite (bind_run _ _ _ _ _ (load_holds _ _ _ (holds_wrote _ _ _ _ _ _ _ Hw Hil Hin))).
       by apply index_run. }
  rewrite (bind_run _ _ h (addr (root l) (at_index (0 + k))) h).
  2: { rewrite (bind_run _ _ _ _ _ (load_holds _ _ _ (holds_wrote _ _ _ _ _ _ _ Hw Hol Hout))).
       by apply index_run. }
  destruct (lookup_lt_is_Some_2 arr (off + k)) as [x Hx]; [lia|].
  destruct (lookup_lt_is_Some_2 vs k) as [v Hv]; [lia|].
  destruct (lookup_lt_is_Some_2 ys k) as [y Hy]; [lia|].
  destruct (Hread k x v Hx Hv) as [Hr Hfx].
  destruct (copy_part _ into (addr (root a) (at_index (off + k))) (root l) (at_index (0 + k))
    h0 hf ys h x y v Hinto cellLens_lawful (at_index_lawful _) Hw)
    as (hf' & w & ys' & h' & Hrun & Hput & Hw' & Hsub & Hw'r); [done| |done|done|done|done|].
  { eapply holds_addr; [by apply holds_root|done]. }
  exists h'. split; [done|]. cbn in Hput. rewrite Hy in Hput. injection Hput as <-.
  exists hf', (<[k := w]> ys). split_and!; [done|by rewrite length_insert|].
  intros j y' v' Hj. destruct (decide (j = k)) as [->|Hjk].
  - rewrite list_lookup_insert_eq by lia. intros [= <-]. congruence.
  - rewrite list_lookup_insert_ne by done. intros Hy' Hv'.
    eapply read_mono; [apply (Hdone j); [lia|done|done]|done].
Qed.

Lemma loop_run m k h : k + m = length vs -> copied vs l h0 k h ->
  exists h', for_each (seq k m) body h = Some (tt, h') /\ copied vs l h0 (length vs) h'.
Proof.
  revert k h. induction m as [|m IH]; intros k h Hkm Hc; cbn [seq for_each].
  - exists h. split; [done|]. by replace (length vs) with k by lia.
  - destruct (loop_step k h) as (h1 & Hrun & Hc1); [lia|done|].
    rewrite (bind_run _ _ _ _ _ Hrun). apply IH; [lia|done].
Qed.
End loop.

Lemma read_slice {T V} `{Cell B (list T)} {Me : Mem B T V} `{!MemLaws Me} h a off n v :
  read h (Slice a off n) = Some v -> exists arr,
    h !! a = Some (cell arr) /\ off + n <= length arr /\ length v = n /\
    foot h (Slice a off n) ⊆ dom h /\
    forall k x w, arr !! (off + k) = Some x -> v !! k = Some w ->
      read h x = Some w /\ foot h x ⊆ foot h (Slice a off n).
Proof.
  intros Hr. pose proof (read_dom h (Slice a off n) v Hr) as Hd. revert Hr Hd. cbn.
  unfold elements_of. destruct (h !! a) as [b|] eqn:Hb; [|done].
  destruct (uncell b) as [arr|] eqn:Hu; [|done].
  destruct (Nat.leb_spec (off + n) (length arr)) as [Hlen|]; [|done].
  intros Hall%mapM_Some Hd. exists arr. rewrite (cell_uncell _ _ Hu).
  pose proof (Forall2_length _ _ _ Hall) as Hn. rewrite length_take, length_drop in Hn.
  split_and!; [done|done|lia|done|].
  intros k x w Hx Hw. pose proof (lookup_lt_Some _ _ _ Hw).
  assert (Hk : take n (drop off arr) !! k = Some x)
    by (rewrite lookup_take_lt, lookup_drop by lia; done).
  split; [by eapply (Forall2_lookup_lr _ _ _ _ _ _ Hall)|].
  intros l Hl. apply elem_of_union. right. apply elem_of_union_list.
  exists (foot h x). split; [|done]. apply list_elem_of_fmap. exists x. split; [done|].
  by eapply list_elem_of_lookup_2.
Qed.

Lemma slice_read {T V} `{Cell B (list T)} {Me : Mem B T V} h l (ys : list T) vs :
  h !! l = Some (cell ys) -> length ys = length vs ->
  (forall j y v, ys !! j = Some y -> vs !! j = Some v -> read h y = Some v) ->
  read h (Slice l 0 (length vs)) = Some vs.
Proof.
  intros Hl Hlen Hall. cbn. unfold elements_of. rewrite Hl, uncell_cell.
  rewrite <- Hlen, Nat.leb_refl. cbn. rewrite firstn_all. apply mapM_Some.
  by apply Forall2_same_length_lookup_2.
Qed.

Lemma copy_slice_deepens {T V} `{Cell B (list T)} `{!Zero T} {Me : Mem B T V} `{!MemLaws Me}
    (into : ref B T -> ref B T -> go B unit) :
  copies into -> deepens (copy_slice into).
Proof.
  intros Hc i o h s ? v Ho Hne Hi Hs <- Hr Hf. unfold copy_slice.
  rewrite (bind_run _ _ _ _ _ (load_holds _ _ _ Hi)). destruct s as [|a off n].
  { exists ∅, NilSlice, h. split_and!; [done|by apply wrote_refl|done]. }
  apply read_slice in Hr as (arr & Ha & Hlen & <- & Hdom & Hel).
  rewrite (bind_run _ _ _ _ _ (load_holds _ _ _ Hi)). cbn [len].
  destruct (alloc_run (replicate (length v) (zero : T)) h) as (l & Hl & Hal).
  rewrite (bind_run _ _ _ _ _ Hal).
  destruct (alloc_store o h _ (replicate (length v) (zero : T)) l (Slice l 0 (length v)) Ho Hs Hl)
    as (h2 & Hst & Hw & Hz & Hsame).
  rewrite (bind_run _ _ _ _ _ Hst).
  assert (Hi2 : holds i h2 (Slice a off (length v))).
  { eapply holds_wrote; [exact Hw|done|by apply holds_alloc]. }
  rewrite (bind_run _ _ _ _ _ (load_holds _ _ _ Hi2)). cbn [len].
  assert (Hloc : forall x (p : ref B (slice T)), holds p h x -> r_loc p <> l).
  { intros x p (b & Hb & _). apply elem_of_dom_2 in Hb. congruence. }
  assert (Hao : a ∈ foot h (Slice a off (length v))) by (cbn; set_solver).
  destruct (loop_run into Hc i o h2 a l off arr v Hi2 (Hloc _ _ Hi)
    (wrote_holds _ _ _ _ _ Ho Hw) (Hloc _ _ Hs)) with (m := length v) (k := 0) (h := h2)
    as (h3 & Hrun & hf & ys & Hw3 & Hys & Hdone).
  - rewrite Hsame; [done|set_solver|set_solver].
  - set_solver.
  - intros k x w Hx Hwk. destruct (Hel k x w Hx Hwk) as [Hrx Hfx].
    destruct (read_frame h h2 x w Hrx) as [Hr2 ->]; [|set_solver].
    intros k' Hk'. apply Hsame; set_solver.
  - done.
  - done.
  - exists ∅, (replicate (length v) zero). rewrite length_replicate.
    split_and!; [apply wrote_refl; [apply cellLens_lawful|by apply holds_root]|done|lia].
  - destruct (wrote_fresh _ _ _ _ _ _ _ _ _ _ Hs Hl Hw Hw3) as [Hw4 Hlf].
    exists (<[l := cell ys]> hf), (Slice l 0 (length v)), h3. split_and!; [done|done|].
    apply (slice_read _ _ ys); [apply lookup_insert_eq|done|].
    intros j y w Hy Hwj. eapply read_mono.
    + eapply Hdone; [|done|done]. by eapply lookup_lt_Some.
    + by apply insert_subseteq, not_elem_of_dom.
Qed.
End idioms.

(** ** What a copy is good for *)

Section isolation.
Context {B T V : Type} {Me : Mem B T V} `{!MemLaws Me}.
Implicit Types h : heap B.

(** From [h] to [h'] nothing in [h] outside [D] has changed. *)
Definition only_touched (D : gset loc) h h' : Prop :=
  forall l, l ∈ dom h -> l ∉ D -> h' !! l = h !! l.

(** [f x] runs in [h] and returns a [y] that denotes [v], in memory all of
    which is new; and from then on whatever is done to what [x] reaches leaves
    [y] as it is, and whatever is done to the new memory leaves [x] as it is. *)
Definition independent (f : T -> go B T) (h : heap B) (x : T) (v : V) : Prop :=
  exists y h', f x h = Some (y, h') /\ h ⊆ h' /\ read h' y = Some v /\ read h' x = Some v /\
    foot h' y ## dom h /\
    (forall h2, only_touched (foot h x) h' h2 -> read h2 y = Some v) /\
    (forall h2, only_touched (dom h' ∖ dom h) h' h2 -> read h2 x = Some v).

Lemma clones_independent (f : T -> go B T) h x v :
  clones f -> read h x = Some v -> independent f h x v.
Proof.
  intros Hf Hr. destruct (Hf h x v Hr) as (hf & y & Hrun & Hd & Hy).
  exists y, (hf ∪ h).
  assert (Hsub : hf ⊆ hf ∪ h) by apply map_union_subseteq_l.
  assert (Hsub2 : h ⊆ hf ∪ h) by (by apply map_union_subseteq_r, map_disjoint_dom).
  destruct (read_frame hf (hf ∪ h) y v Hy) as [Hy' Hfoot].
  { intros l Hl. apply (read_dom hf y v Hy) in Hl as [b Hb]%elem_of_dom.
    rewrite Hb. by apply lookup_union_Some_l. }
  pose proof (read_dom hf y v Hy) as Hyd. pose proof (read_dom h x v Hr) as Hxd.
  split_and!; [done|done|done|by eapply read_mono|set_solver| |].
  - intros h2 Ht. apply (read_frame (hf ∪ h) h2 y v Hy'). intros l Hl. apply Ht.
    + rewrite dom_union. set_solver.
    + rewrite Hfoot in Hl. set_solver.
  - intros h2 Ht. apply (read_frame h h2 x v Hr). intros l Hl.
    rewrite (Ht l); [|rewrite dom_union; set_solver..].
    apply lookup_union_r, not_elem_of_dom. set_solver.
Qed.
End isolation.

Lemma deepCopyObject_ptr {B T V O} `{Cell B T} `{!Zero T} {Me : Mem B T V} `{!MemLaws Me}
    (wrap : ptr T -> O) (into : ref B T -> ref B T -> go B unit) h l v :
  copies into -> read h (Ptr l) = Some v -> exists l' h',
    deepCopyObject wrap (deepCopy into) (Ptr l) h = Some (Some (wrap (Ptr l')), h') /\
    read h' (Ptr l' : ptr T) = Some v.
Proof.
  intros Hc Hr.
  destruct (clones_independent _ h (Ptr l) v (deepCopy_clones into Hc) Hr)
    as (y & h' & Hrun & _ & Hy & _). unfold deepCopyObject.
  rewrite (bind_run _ _ _ _ _ Hrun). destruct y as [|l'].
  - apply read_ptr in Hr as (x & w & _ & _ & -> & _). done.
  - by exists l', h'.
Qed.

(** ** Structs *)

(** A function body: its statements in order. *)
Fixpoint body {B} (l : list (go B unit)) : go B unit :=
  match l with
  | [] => mret tt
  | s :: l => s;; body l
  end.

Lemma field_lawful {S F} (proj : S -> F) (assign : F -> S -> S) :
  (forall y s, proj (assign y s) = y) -> (forall s, assign (proj s) s = s) ->
  (forall y z s, assign z (assign y s) = assign z s) -> lawful (fieldOf proj assign).
Proof. intros H1 H2 H3. split; cbn; [congruence..|eauto]. Qed.

Section structs.
Context {B S V : Type} {Me : Mem B S V}.

(** What is left of a body runs from [h] and ends with a copy in [o]. *)
Definition finishes (o : ref B S) (h0 : heap B) (v : V) (m : go B unit) (h : heap B) : Prop :=
  exists hf y h', m h = Some (tt, h') /\ wrote o h0 hf y h' /\ read hf y = Some v.

Lemma copies_finishes (into : ref B S -> ref B S -> go B unit) :
  (forall (i o : ref B S) h x x' v, lawful (r_lens o) -> r_loc i <> r_loc o ->
     holds i h x -> holds o h x' -> read h x = Some v -> r_loc o ∉ foot h x ->
     finishes o h v (into i o) h) ->
  copies into.
Proof. intros H i o h x x' v Ho Hne Hi Hx' _ Hr Hf. by apply (H i o h x x' v). Qed.

Lemma finishes_end (o : ref B S) h0 v hf y h :
  wrote o h0 hf y h -> read hf y = Some v -> finishes o h0 v (body []) h.
Proof. intros Hw Hr. by exists hf, y, h. Qed.

Lemma finishes_assign (i o : ref B S) h x x' v l : lawful (r_lens o) ->
  holds i h x -> holds o h x' ->
  (forall h', wrote o h ∅ x h' -> finishes o h v (body l) h') ->
  finishes o h v (body (assign i o :: l)) h.
Proof.
  intros Ho Hi Hx Hk. destruct (assign_run i o h x x' Ho Hi Hx) as (h' & Hrun & Hw).
  unfold finishes. cbn [body]. rewrite (bind_run _ _ _ _ _ Hrun). by apply Hk.
Qed.

(** One field: the rest goes on with the field of [out] a copy. *)
Lemma finishes_part {F W} {MF : Mem B F W} `{!MemLaws MF} (into : ref B F -> ref B F -> go B unit)
    (i o : ref B S) (f : lens S F) h0 hf y h x u w v l :
  deepens into -> lawful f -> get f x = Some u -> get f y = Some u ->
  read h0 u = Some w -> r_loc o ∉ foot h0 u ->
  lawful (r_lens o) -> r_loc i <> r_loc o -> holds i h0 x -> wrote o h0 hf y h ->
  (forall hf' z y' h', put f z y = Some y' -> wrote o h0 hf' y' h' -> hf ⊆ hf' ->
     read hf' z = Some w -> finishes o h0 v (body l) h') ->
  finishes o h0 v (body (into (addr i f) (addr o f) :: l)) h.
Proof.
  intros Hc Hf Hu Hu' Hr Hfoot Ho Hne Hi Hw Hk.
  destruct (copy_part eq into (addr i f) o f h0 hf y h u u w Hc Ho Hf Hw Hne)
    as (hf' & z & y' & h' & Hrun & Hput & Hw' & Hsub & Hz); [by eapply holds_addr|done..|].
  unfold finishes. cbn [body]. rewrite (bind_run _ _ _ _ _ Hrun). by eapply Hk.
Qed.
End structs.

(** ** The library's share

    The types of k8s.io/apimachinery that occur in the structs, as they lie in
    memory, with their zero values and their own deep copies; [lib_block] is
    what their pointers point at.  The law is what those deep copies are
    documented to be. *)
Class LibTypes := {
  Quantity_m : Type;
  ObjectMeta_m : Type;
  ListMeta_m : Type;
  Condition_m : Type;
  ListMeta : Type;
  lib_block : Type;
  #[global] zero_Quantity :: Zero Quantity_m;
  #[global] zero_ObjectMeta :: Zero ObjectMeta_m;
  #[global] zero_ListMeta :: Zero ListMeta_m;
  #[global] zero_Condition :: Zero Condition_m;
}.

Class LibMem (B Quantity ObjectMeta Condition : Type) `{LibTypes} `{Cell B lib_block} := {
  #[global] mem_Quantity :: Mem B Quantity_m Quantity;
  #[global] mem_ObjectMeta :: Mem B ObjectMeta_m ObjectMeta;
  #[global] mem_ListMeta :: Mem B ListMeta_m ListMeta;
  #[global] mem_Condition :: Mem B Condition_m Condition;
  Quantity_DeepCopy : Quantity_m -> go B Quantity_m;
  ObjectMeta_DeepCopyInto : ref B ObjectMeta_m -> ref B ObjectMeta_m -> go B unit;
  ListMeta_DeepCopyInto : ref B ListMeta_m -> ref B ListMeta_m -> go B unit;
  Condition_DeepCopyInto : ref B Condition_m -> ref B Condition_m -> go B unit;
}.

Class LibMemLaws `{LM : LibMem} : Prop := {
  #[global] laws_mem_Quantity :: MemLaws mem_Quantity;
  #[global] laws_mem_ObjectMeta :: MemLaws mem_ObjectMeta;
  #[global] laws_mem_ListMeta :: MemLaws mem_ListMeta;
  #[global] laws_mem_Condition :: MemLaws mem_Condition;
  Quantity_DeepCopy_clones : clones Quantity_DeepCopy;
  ObjectMeta_DeepCopyInto_copies : copies ObjectMeta_DeepCopyInto;
  ListMeta_DeepCopyInto_copies : copies ListMeta_DeepCopyInto;
  Condition_DeepCopyInto_copies : copies Condition_DeepCopyInto;
}.

#[global] Instance zero_TypeMeta : Zero TypeMeta := {| Kind := ""; APIVersion := "" |}.
#[global] Instance zero_Z : Zero Z := 0%Z.
#[global] Instance zero_string : Zero string := "".
#[global] Instance zero_ptr {T} : Zero (ptr T) := Nil.
#[global] Instance zero_slice {T} : Zero (slice T) := NilSlice.

(** Values without pointers denote themselves. *)
#[global] Instance mem_TypeMeta {B} : Mem B TypeMeta TypeMeta := plain.
#[global] Instance mem_TypeMeta_laws {B} : MemLaws (@mem_TypeMeta B) := plain_laws.
#[global] Instance mem_Z {B} : Mem B Z Z := plain.
#[global] Instance mem_Z_laws {B} : MemLaws (@mem_Z B) := plain_laws.

Lemma assign_TypeMeta {B} : @copies B TypeMeta TypeMeta _ assign.
Proof. by apply assign_copies. Qed.
Lemma assign_Z {B} : @copies B Z Z _ assign.
Proof. by apply assign_copies. Qed.

#[export] Hint Resolve assign_TypeMeta assign_Z Quantity_DeepCopy_clones
  ObjectMeta_DeepCopyInto_copies ListMeta_DeepCopyInto_copies
  Condition_DeepCopyInto_copies : idp.

(** A statement copies its field. *)
Ltac part_copies :=
  first [apply copy_pointer_deepens | apply copy_slice_deepens | apply copies_deepens];
  first [apply copy_value_copies; auto with idp | auto with idp].

(** Bring what was read at an earlier stage to the last one. *)
Ltac lift_reads :=
  repeat match goal with
  | Hs : ?h ⊆ ?h' |- _ =>
      lazymatch goal with _ : _ ⊆ h |- _ => fail | _ => idtac end;
      repeat match goal with
      | Hr : read h ?x = Some ?v |- _ => apply (fun H => read_mono h h' x v H Hs) in Hr
      end; clear Hs
  end.

(** The laws of a struct, from those of its fields. *)
Ltac struct_reads :=
  repeat match goal with
  | |- context [match read ?h ?y with _ => _ end] =>
      let E := fresh "E" in destruct (read h y) eqn:E; cbn; [|done]
  end.

Ltac struct_frame h h' Hsame :=
  repeat match goal with
  | E : read h ?y = Some ?w |- _ =>
      let E1 := fresh "E" in let E2 := fresh "E" in
      destruct (read_frame h h' y w E) as [E1 E2];
        [let k := fresh "k" in let Hk := fresh "Hk" in intros k Hk; apply Hsame; set_solver|];
      rewrite E1, E2; clear E E1 E2
  end.

Ltac struct_laws :=
  split;
  [ let h := fresh "h" in let h' := fresh "h'" in let x := fresh "x" in
    let v := fresh "v" in let Hr := fresh "Hr" in let Hsame := fresh "Hsame" in
    intros h h' x v Hr Hsame; revert Hr; cbn in *; struct_reads; intros [= <-];
    struct_frame h h' Hsame; by split
  | let h := fresh "h" in let x := fresh "x" in let v := fresh "v" in
    intros h x v; cbn; struct_reads; intros _;
    repeat match goal with E : read h _ = Some _ |- _ => apply read_dom in E end; set_solver ].

Ltac field_law := apply field_lawful; [by intros|by intros []|by intros].

(** A [DeepCopyInto]: its statements one by one, then what [out] holds. *)
Ltac struct_copies into :=
  apply copies_finishes;
  let i := fresh "i" in let o := fresh "o" in let h := fresh "h" in let x := fresh "x" in
  let x' := fresh "x'" in let v := fresh "v" in let Hr := fresh "Hr" in let Hf := fresh "Hf" in
  intros i o h x x' v ? ? ? ? Hr Hf; destruct x; cbn in Hr, Hf;
  repeat match goal with
  | H : context [match read ?h0 ?y with _ => _ end] |- _ =>
      let E := fresh "E" in destruct (read h0 y) eqn:E; cbn in H; [|done]
  end;
  injection Hr as <-; unfold into;
  eapply finishes_assign; [done|eassumption|eassumption|]; intros ? ?;
  repeat (eapply finishes_part; [..|done|done|eassumption|eassumption|];
    [part_copies|field_law|reflexivity|reflexivity|first [eassumption|reflexivity]|cbn; set_solver|];
    let E := fresh "E" in intros ? ? ? ? E ? ? ?; cbn in E; injection E as <-);
  eapply finishes_end; [eassumption|];
  lift_reads; cbn in *;
  repeat match goal with H : read _ _ = Some _ |- _ => rewrite H; clear H end;
  by simplify_eq.
