(* ===== verification/SampleMemory.v ===== *)
(** * A library's memory for the witnesses of the deep copies

    A quantity that is large lies behind a pointer, as [inf.Dec] does, and so
    do labels; conditions and list metadata hold no pointers.  All laws of
    [LibMemLaws] are proved for it.  Nothing here models code of the
    repository. *)
From S2P Require Import Prelude Kube Memory DeepCopy Sample.

#[local] Existing Instance sample_kube.

Inductive sample_lib := LDec (z : Z) | LLabels (m : gmap string string).

Record sample_qty := { q_num : Z; q_dec : ptr sample_lib }.
Record sample_meta_m := { sm_meta : ObjectMeta; sm_labels : ptr sample_lib }.

#[local] Instance sample_lib_types : LibTypes := {|
  Quantity_m := sample_qty;
  ObjectMeta_m := sample_meta_m;
  ListMeta_m := string;
  Condition_m := Condition;
  ListMeta := string;
  lib_block := sample_lib;
  zero_Quantity := {| q_num := 0; q_dec := Nil |};
  zero_ObjectMeta := {| sm_meta := NewObjectMeta "" ""; sm_labels := Nil |};
  zero_ListMeta := "";
  zero_Condition := {| c_Type := ""; c_Status := ConditionUnknown; c_ObservedGeneration := 0;
                       c_Reason := ""; c_Message := "" |};
|}.

Section memory.
Context {B : Type} `{C : Cell B sample_lib}.

#[local] Instance zero_lib : Zero sample_lib := LDec 0.
#[local] Instance mem_lib : Mem B sample_lib sample_lib := plain.
#[local] Instance mem_lib_laws : MemLaws mem_lib := plain_laws.

Definition dec_value (num : Z) (d : option sample_lib) : Z :=
  match d with Some (LDec z) => z | _ => num end.

#[export] Instance mem_qty : Mem B sample_qty Z := {|
  read h q := match read h (q_dec q) with
              | Some d => Some (dec_value (q_num q) d)
              | None => None
              end;
  foot h q := foot h (q_dec q);
|}.

Definition labels_value (m : ObjectMeta) (d : option sample_lib) : ObjectMeta :=
  match d with Some (LLabels l) => SetLabels l m | _ => m end.

#[export] Instance mem_meta : Mem B sample_meta_m ObjectMeta := {|
  read h m := match read h (sm_labels m) with
              | Some d => Some (labels_value (sm_meta m) d)
              | None => None
              end;
  foot h m := foot h (sm_labels m);
|}.

Definition qty_DeepCopy (q : sample_qty) : go B sample_qty :=
  d ← deepCopy assign (q_dec q); mret {| q_num := q_num q; q_dec := d |}.

Definition fLabels : lens sample_meta_m (ptr sample_lib) :=
  fieldOf sm_labels (fun y m => {| sm_meta := sm_meta m; sm_labels := y |}).

Definition meta_DeepCopyInto (inp out : ref B sample_meta_m) : go B unit := body
  [ assign inp out; copy_pointer assign (addr inp fLabels) (addr out fLabels) ].

#[local] Instance sample_lib_mem : LibMem B Z ObjectMeta Condition := {|
  mem_Quantity := mem_qty;
  mem_ObjectMeta := mem_meta;
  mem_ListMeta := plain;
  mem_Condition := plain;
  Quantity_DeepCopy := qty_DeepCopy;
  ObjectMeta_DeepCopyInto := meta_DeepCopyInto;
  ListMeta_DeepCopyInto := assign;
  Condition_DeepCopyInto := assign;
|}.

#[local] Opaque mem_ptr.
#[local] Instance mem_qty_laws : MemLaws mem_qty.
Proof. struct_laws. Qed.
#[local] Instance mem_meta_laws : MemLaws mem_meta.
Proof. struct_laws. Qed.

Lemma assign_lib : copies (T:=sample_lib) (V:=sample_lib) assign.
Proof. by apply assign_copies. Qed.
#[local] Hint Resolve assign_lib : idp.

Lemma qty_DeepCopy_clones : clones qty_DeepCopy.
Proof.
  intros h [n d] v Hr. cbn in Hr. destruct (read h d) as [w|] eqn:E; [|done].
  injection Hr as <-. destruct (deepCopy_clones assign assign_lib h d w E) as (hf & y & Hrun & Hd & Hy).
  exists hf, {| q_num := n; q_dec := y |}. unfold qty_DeepCopy. cbn.
  rewrite (bind_run _ _ _ _ _ Hrun), Hy. done.
Qed.

Lemma meta_copies : copies meta_DeepCopyInto.
Proof. struct_copies meta_DeepCopyInto. Qed.

#[local] Instance sample_lib_mem_laws : LibMemLaws.
Proof.
  split; cbn; try apply plain_laws; try apply _.
  - apply qty_DeepCopy_clones.
  - apply meta_copies.
  - by apply assign_copies.
  - by apply assign_copies.
Qed.
End memory.
