(* ===== verification/DeepCopyApi.v ===== *)
(** * The generated deep copies of api/v1alpha1 (zz_generated.deepcopy.go)

    The structs as they lie in memory, one [DeepCopyInto] and one [DeepCopy]
    per type, and [DeepCopyObject] for the four kinds.  What a struct denotes is
    the value of [Api] the controllers and webhooks are modelled over, so the
    theorems are what allows those to treat an object as a value. *)
From S2P Require Import Prelude Kube Api Memory DeepCopy Sample SampleMemory.

Section api.
Context `{K : Kube} `{LT : LibTypes}.

(** ** Structs in memory *)

Record ResourceRequests_m := { CPU_m : Quantity_m; Memory_m : Quantity_m; Pods_m : Z }.
Record TenantSpec_m := { Resources_m : ptr ResourceRequests_m }.
Record TenantStatus_m := {
  tPhase_m : string; tObservedGeneration_m : Z; tConditions_m : slice Condition_m }.
Record Tenant_m := {
  tTypeMeta_m : TypeMeta; tObjectMeta_m : ObjectMeta_m;
  tSpec_m : TenantSpec_m; tStatus_m : TenantStatus_m }.
Record TenantList_m := {
  tlTypeMeta_m : TypeMeta; tlListMeta_m : ListMeta_m; tlItems_m : slice Tenant_m }.
Record ServiceClaimSpec_m := { Team_m : string; Image_m : string; Replicas_m : ptr Z }.
Record ServiceClaimStatus_m := {
  cPhase_m : string; cObservedGeneration_m : Z; cConditions_m : slice Condition_m }.
Record ServiceClaim_m := {
  cTypeMeta_m : TypeMeta; cObjectMeta_m : ObjectMeta_m;
  cSpec_m : ServiceClaimSpec_m; cStatus_m : ServiceClaimStatus_m }.
Record ServiceClaimList_m := {
  clTypeMeta_m : TypeMeta; clListMeta_m : ListMeta_m; clItems_m : slice ServiceClaim_m }.

#[export] Instance zero_ResourceRequests : Zero ResourceRequests_m :=
  {| CPU_m := zero; Memory_m := zero; Pods_m := zero |}.
#[export] Instance zero_TenantSpec : Zero TenantSpec_m := {| Resources_m := zero |}.
#[export] Instance zero_TenantStatus : Zero TenantStatus_m :=
  {| tPhase_m := zero; tObservedGeneration_m := zero; tConditions_m := zero |}.
#[export] Instance zero_Tenant : Zero Tenant_m :=
  {| tTypeMeta_m := zero; tObjectMeta_m := zero; tSpec_m := zero; tStatus_m := zero |}.
#[export] Instance zero_TenantList : Zero TenantList_m :=
  {| tlTypeMeta_m := zero; tlListMeta_m := zero; tlItems_m := zero |}.
#[export] Instance zero_ServiceClaimSpec : Zero ServiceClaimSpec_m :=
  {| Team_m := zero; Image_m := zero; Replicas_m := zero |}.
#[export] Instance zero_ServiceClaimStatus : Zero ServiceClaimStatus_m :=
  {| cPhase_m := zero; cObservedGeneration_m := zero; cConditions_m := zero |}.
#[export] Instance zero_ServiceClaim : Zero ServiceClaim_m :=
  {| cTypeMeta_m := zero; cObjectMeta_m := zero; cSpec_m := zero; cStatus_m := zero |}.
#[export] Instance zero_ServiceClaimList : Zero ServiceClaimList_m :=
  {| clTypeMeta_m := zero; clListMeta_m := zero; clItems_m := zero |}.

(** A block of memory: what [new] and [make] allocate in this package, and the
    library's blocks. *)
Inductive block :=
| BLib (b : lib_block)
| BInt32 (z : Z)
| BConditions (l : list Condition_m)
| BResources (r : ResourceRequests_m)
| BTenantSpec (s : TenantSpec_m)
| BTenantStatus (s : TenantStatus_m)
| BTenant (t : Tenant_m)
| BTenants (l : list Tenant_m)
| BTenantList (l : TenantList_m)
| BClaimSpec (s : ServiceClaimSpec_m)
| BClaimStatus (s : ServiceClaimStatus_m)
| BClaim (c : ServiceClaim_m)
| BClaims (l : list ServiceClaim_m)
| BClaimList (l : ServiceClaimList_m).

Ltac cell_laws := first [by intros ?|by intros [] ? [= ->]].
#[local] Obligation Tactic := cell_laws.

#[export] Program Instance cell_lib : Cell block lib_block :=
  {| cell := BLib; uncell b := match b with BLib x => Some x | _ => None end |}.
#[export] Program Instance cell_int32 : Cell block Z :=
  {| cell := BInt32; uncell b := match b with BInt32 x => Some x | _ => None end |}.
#[export] Program Instance cell_Conditions : Cell block (list Condition_m) :=
  {| cell := BConditions; uncell b := match b with BConditions x => Some x | _ => None end |}.
#[export] Program Instance cell_ResourceRequests : Cell block ResourceRequests_m :=
  {| cell := BResources; uncell b := match b with BResources x => Some x | _ => None end |}.
#[export] Program Instance cell_TenantSpec : Cell block TenantSpec_m :=
  {| cell := BTenantSpec; uncell b := match b with BTenantSpec x => Some x | _ => None end |}.
#[export] Program Instance cell_TenantStatus : Cell block TenantStatus_m :=
  {| cell := BTenantStatus; uncell b := match b with BTenantStatus x => Some x | _ => None end |}.
#[export] Program Instance cell_Tenant : Cell block Tenant_m :=
  {| cell := BTenant; uncell b := match b with BTenant x => Some x | _ => None end |}.
#[export] Program Instance cell_Tenants : Cell block (list Tenant_m) :=
  {| cell := BTenants; uncell b := match b with BTenants x => Some x | _ => None end |}.
#[export] Program Instance cell_TenantList : Cell block TenantList_m :=
  {| cell := BTenantList; uncell b := match b with BTenantList x => Some x | _ => None end |}.
#[export] Program Instance cell_ServiceClaimSpec : Cell block ServiceClaimSpec_m :=
  {| cell := BClaimSpec; uncell b := match b with BClaimSpec x => Some x | _ => None end |}.
#[export] Program Instance cell_ServiceClaimStatus : Cell block ServiceClaimStatus_m :=
  {| cell := BClaimStatus; uncell b := match b with BClaimStatus x => Some x | _ => None end |}.
#[export] Program Instance cell_ServiceClaim : Cell block ServiceClaim_m :=
  {| cell := BClaim; uncell b := match b with BClaim x => Some x | _ => None end |}.
#[export] Program Instance cell_ServiceClaims : Cell block (list ServiceClaim_m) :=
  {| cell := BClaims; uncell b := match b with BClaims x => Some x | _ => None end |}.
#[export] Program Instance cell_ServiceClaimList : Cell block ServiceClaimList_m :=
  {| cell := BClaimList; uncell b := match b with BClaimList x => Some x | _ => None end |}.

(** The addresses of fields, [&p.F]. *)
Definition fCPU : lens ResourceRequests_m _ :=
  fieldOf CPU_m (fun y s => {| CPU_m := y; Memory_m := Memory_m s; Pods_m := Pods_m s |}).
Definition fMemory : lens ResourceRequests_m _ :=
  fieldOf Memory_m (fun y s => {| CPU_m := CPU_m s; Memory_m := y; Pods_m := Pods_m s |}).
Definition fResources : lens TenantSpec_m _ :=
  fieldOf Resources_m (fun y s => {| Resources_m := y |}).
Definition tConditions : lens TenantStatus_m _ :=
  fieldOf tConditions_m (fun y s => {| tPhase_m := tPhase_m s; tObservedGeneration_m := tObservedGeneration_m s; tConditions_m := y |}).
Definition tTypeMeta : lens Tenant_m _ :=
  fieldOf tTypeMeta_m (fun y s => {| tTypeMeta_m := y; tObjectMeta_m := tObjectMeta_m s; tSpec_m := tSpec_m s; tStatus_m := tStatus_m s |}).
Definition tObjectMeta : lens Tenant_m _ :=
  fieldOf tObjectMeta_m (fun y s => {| tTypeMeta_m := tTypeMeta_m s; tObjectMeta_m := y; tSpec_m := tSpec_m s; tStatus_m := tStatus_m s |}).
Definition tSpec : lens Tenant_m _ :=
  fieldOf tSpec_m (fun y s => {| tTypeMeta_m := tTypeMeta_m s; tObjectMeta_m := tObjectMeta_m s; tSpec_m := y; tStatus_m := tStatus_m s |}).
Definition tStatus : lens Tenant_m _ :=
  fieldOf tStatus_m (fun y s => {| tTypeMeta_m := tTypeMeta_m s; tObjectMeta_m := tObjectMeta_m s; tSpec_m := tSpec_m s; tStatus_m := y |}).
Definition tlTypeMeta : lens TenantList_m _ :=
  fieldOf tlTypeMeta_m (fun y s => {| tlTypeMeta_m := y; tlListMeta_m := tlListMeta_m s; tlItems_m := tlItems_m s |}).
Definition tlListMeta : lens TenantList_m _ :=
  fieldOf tlListMeta_m (fun y s => {| tlTypeMeta_m := tlTypeMeta_m s; tlListMeta_m := y; tlItems_m := tlItems_m s |}).
Definition tlItems : lens TenantList_m _ :=
  fieldOf tlItems_m (fun y s => {| tlTypeMeta_m := tlTypeMeta_m s; tlListMeta_m := tlListMeta_m s; tlItems_m := y |}).
Definition fReplicas : lens ServiceClaimSpec_m _ :=
  fieldOf Replicas_m (fun y s => {| Team_m := Team_m s; Image_m := Image_m s; Replicas_m := y |}).
Definition cConditions : lens ServiceClaimStatus_m _ :=
  fieldOf cConditions_m (fun y s => {| cPhase_m := cPhase_m s; cObservedGeneration_m := cObservedGeneration_m s; cConditions_m := y |}).
Definition cTypeMeta : lens ServiceClaim_m _ :=
  fieldOf cTypeMeta_m (fun y s => {| cTypeMeta_m := y; cObjectMeta_m := cObjectMeta_m s; cSpec_m := cSpec_m s; cStatus_m := cStatus_m s |}).
Definition cObjectMeta : lens ServiceClaim_m _ :=
  fieldOf cObjectMeta_m (fun y s => {| cTypeMeta_m := cTypeMeta_m s; cObjectMeta_m := y; cSpec_m := cSpec_m s; cStatus_m := cStatus_m s |}).
Definition cSpec : lens ServiceClaim_m _ :=
  fieldOf cSpec_m (fun y s => {| cTypeMeta_m := cTypeMeta_m s; cObjectMeta_m := cObjectMeta_m s; cSpec_m := y; cStatus_m := cStatus_m s |}).
Definition cStatus : lens ServiceClaim_m _ :=
  fieldOf cStatus_m (fun y s => {| cTypeMeta_m := cTypeMeta_m s; cObjectMeta_m := cObjectMeta_m s; cSpec_m := cSpec_m s; cStatus_m := y |}).
Definition clTypeMeta : lens ServiceClaimList_m _ :=
  fieldOf clTypeMeta_m (fun y s => {| clTypeMeta_m := y; clListMeta_m := clListMeta_m s; clItems_m := clItems_m s |}).
Definition clListMeta : lens ServiceClaimList_m _ :=
  fieldOf clListMeta_m (fun y s => {| clTypeMeta_m := clTypeMeta_m s; clListMeta_m := y; clItems_m := clItems_m s |}).
Definition clItems : lens ServiceClaimList_m _ :=
  fieldOf clItems_m (fun y s => {| clTypeMeta_m := clTypeMeta_m s; clListMeta_m := clListMeta_m s; clItems_m := y |}).

Context `{LM : !LibMem block Quantity ObjectMeta Condition}.

(** ** What the structs denote *)

#[export] Instance mem_ResourceRequests : Mem block ResourceRequests_m ResourceRequests := {|
  read h r :=
    match read h (CPU_m r) with None => None | Some cpu =>
    match read h (Memory_m r) with None => None | Some memory =>
    Some {| CPU := cpu; Memory := memory; Pods := Pods_m r |} end end;
  foot h r := foot h (CPU_m r) ∪ foot h (Memory_m r);
|}.

#[export] Instance mem_TenantSpec : Mem block TenantSpec_m TenantSpec := {|
  read h s :=
    match read h (Resources_m s) with None => None | Some r => Some {| Resources := r |} end;
  foot h s := foot h (Resources_m s);
|}.

#[export] Instance mem_TenantStatus : Mem block TenantStatus_m TenantStatus := {|
  read h s :=
    match read h (tConditions_m s) with None => None | Some cs =>
    Some {| ts_Phase := tPhase_m s; ts_ObservedGeneration := tObservedGeneration_m s;
            ts_Conditions := cs |} end;
  foot h s := foot h (tConditions_m s);
|}.

#[export] Instance mem_Tenant : Mem block Tenant_m (TypeMeta * Tenant) := {|
  read h t :=
    match read h (tObjectMeta_m t) with None => None | Some om =>
    match read h (tSpec_m t) with None => None | Some sp =>
    match read h (tStatus_m t) with None => None | Some st =>
    Some (tTypeMeta_m t, {| t_ObjectMeta := om; t_Spec := sp; t_Status := st |}) end end end;
  foot h t := foot h (tObjectMeta_m t) ∪ foot h (tSpec_m t) ∪ foot h (tStatus_m t);
|}.

#[export] Instance mem_TenantList
  : Mem block TenantList_m (TypeMeta * ListMeta * list (TypeMeta * Tenant)) := {|
  read h l :=
    match read h (tlListMeta_m l) with None => None | Some lm =>
    match read h (tlItems_m l) with None => None | Some ts =>
    Some (tlTypeMeta_m l, lm, ts) end end;
  foot h l := foot h (tlListMeta_m l) ∪ foot h (tlItems_m l);
|}.

#[export] Instance mem_ServiceClaimSpec : Mem block ServiceClaimSpec_m ServiceClaimSpec := {|
  read h s :=
    match read h (Replicas_m s) with None => None | Some n =>
    Some {| Team := Team_m s; Image := Image_m s; Replicas := n |} end;
  foot h s := foot h (Replicas_m s);
|}.

#[export] Instance mem_ServiceClaimStatus : Mem block ServiceClaimStatus_m ServiceClaimStatus := {|
  read h s :=
    match read h (cConditions_m s) with None => None | Some cs =>
    Some {| cs_Phase := cPhase_m s; cs_ObservedGeneration := cObservedGeneration_m s;
            cs_Conditions := cs |} end;
  foot h s := foot h (cConditions_m s);
|}.

#[export] Instance mem_ServiceClaim : Mem block ServiceClaim_m (TypeMeta * ServiceClaim) := {|
  read h c :=
    match read h (cObjectMeta_m c) with None => None | Some om =>
    match read h (cSpec_m c) with None => None | Some sp =>
    match read h (cStatus_m c) with None => None | Some st =>
    Some (cTypeMeta_m c, {| sc_ObjectMeta := om; sc_Spec := sp; sc_Status := st |}) end end end;
  foot h c := foot h (cObjectMeta_m c) ∪ foot h (cSpec_m c) ∪ foot h (cStatus_m c);
|}.

#[export] Instance mem_ServiceClaimList
  : Mem block ServiceClaimList_m (TypeMeta * ListMeta * list (TypeMeta * ServiceClaim)) := {|
  read h l :=
    match read h (clListMeta_m l) with None => None | Some lm =>
    match read h (clItems_m l) with None => None | Some cs =>
    Some (clTypeMeta_m l, lm, cs) end end;
  foot h l := foot h (clListMeta_m l) ∪ foot h (clItems_m l);
|}.

(** ** DeepCopyInto *)

Definition ResourceRequests_DeepCopyInto (inp out : ref block ResourceRequests_m)
  : go block unit := body
  [ assign inp out;
    copy_value Quantity_DeepCopy (addr inp fCPU) (addr out fCPU);
    copy_value Quantity_DeepCopy (addr inp fMemory) (addr out fMemory) ].

Definition TenantSpec_DeepCopyInto (inp out : ref block TenantSpec_m) : go block unit := body
  [ assign inp out;
    copy_pointer ResourceRequests_DeepCopyInto (addr inp fResources) (addr out fResources) ].

Definition TenantStatus_DeepCopyInto (inp out : ref block TenantStatus_m)
  : go block unit := body
  [ assign inp out;
    copy_slice Condition_DeepCopyInto (addr inp tConditions) (addr out tConditions) ].

Definition Tenant_DeepCopyInto (inp out : ref block Tenant_m) : go block unit := body
  [ assign inp out;
    assign (addr inp tTypeMeta) (addr out tTypeMeta);
    ObjectMeta_DeepCopyInto (addr inp tObjectMeta) (addr out tObjectMeta);
    TenantSpec_DeepCopyInto (addr inp tSpec) (addr out tSpec);
    TenantStatus_DeepCopyInto (addr inp tStatus) (addr out tStatus) ].

Definition TenantList_DeepCopyInto (inp out : ref block TenantList_m) : go block unit := body
  [ assign inp out;
    assign (addr inp tlTypeMeta) (addr out tlTypeMeta);
    ListMeta_DeepCopyInto (addr inp tlListMeta) (addr out tlListMeta);
    copy_slice Tenant_DeepCopyInto (addr inp tlItems) (addr out tlItems) ].

Definition ServiceClaimSpec_DeepCopyInto (inp out : ref block ServiceClaimSpec_m)
  : go block unit := body
  [ assign inp out;
    copy_pointer assign (addr inp fReplicas) (addr out fReplicas) ].

Definition ServiceClaimStatus_DeepCopyInto (inp out : ref block ServiceClaimStatus_m)
  : go block unit := body
  [ assign inp out;
    copy_slice Condition_DeepCopyInto (addr inp cConditions) (addr out cConditions) ].

Definition ServiceClaim_DeepCopyInto (inp out : ref block ServiceClaim_m)
  : go block unit := body
  [ assign inp out;
    assign (addr inp cTypeMeta) (addr out cTypeMeta);
    ObjectMeta_DeepCopyInto (addr inp cObjectMeta) (addr out cObjectMeta);
    ServiceClaimSpec_DeepCopyInto (addr inp cSpec) (addr out cSpec);
    ServiceClaimStatus_DeepCopyInto (addr inp cStatus) (addr out cStatus) ].

Definition ServiceClaimList_DeepCopyInto (inp out : ref block ServiceClaimList_m)
  : go block unit := body
  [ assign inp out;
    assign (addr inp clTypeMeta) (addr out clTypeMeta);
    ListMeta_DeepCopyInto (addr inp clListMeta) (addr out clListMeta);
    copy_slice ServiceClaim_DeepCopyInto (addr inp clItems) (addr out clItems) ].

(** ** DeepCopy and DeepCopyObject *)

Definition ResourceRequests_DeepCopy := deepCopy ResourceRequests_DeepCopyInto.
Definition TenantSpec_DeepCopy := deepCopy TenantSpec_DeepCopyInto.
Definition TenantStatus_DeepCopy := deepCopy TenantStatus_DeepCopyInto.
Definition Tenant_DeepCopy := deepCopy Tenant_DeepCopyInto.
Definition TenantList_DeepCopy := deepCopy TenantList_DeepCopyInto.
Definition ServiceClaimSpec_DeepCopy := deepCopy ServiceClaimSpec_DeepCopyInto.
Definition ServiceClaimStatus_DeepCopy := deepCopy ServiceClaimStatus_DeepCopyInto.
Definition ServiceClaim_DeepCopy := deepCopy ServiceClaim_DeepCopyInto.
Definition ServiceClaimList_DeepCopy := deepCopy ServiceClaimList_DeepCopyInto.

(** A [runtime.Object] that is not nil. *)
Inductive Object_m :=
| OTenant (p : ptr Tenant_m)
| OTenantList (p : ptr TenantList_m)
| OServiceClaim (p : ptr ServiceClaim_m)
| OServiceClaimList (p : ptr ServiceClaimList_m).

Definition Tenant_DeepCopyObject := deepCopyObject OTenant Tenant_DeepCopy.
Definition TenantList_DeepCopyObject := deepCopyObject OTenantList TenantList_DeepCopy.
Definition ServiceClaim_DeepCopyObject := deepCopyObject OServiceClaim ServiceClaim_DeepCopy.
Definition ServiceClaimList_DeepCopyObject :=
  deepCopyObject OServiceClaimList ServiceClaimList_DeepCopy.

(** ** The laws of the structs *)

Context `{LL : !LibMemLaws}.
#[local] Opaque mem_ptr mem_slice.

#[export] Instance mem_ResourceRequests_laws : MemLaws mem_ResourceRequests.
Proof. struct_laws. Qed.
#[export] Instance mem_TenantSpec_laws : MemLaws mem_TenantSpec.
Proof. struct_laws. Qed.
#[export] Instance mem_TenantStatus_laws : MemLaws mem_TenantStatus.
Proof. struct_laws. Qed.
#[export] Instance mem_Tenant_laws : MemLaws mem_Tenant.
Proof. struct_laws. Qed.
#[export] Instance mem_TenantList_laws : MemLaws mem_TenantList.
Proof. struct_laws. Qed.
#[export] Instance mem_ServiceClaimSpec_laws : MemLaws mem_ServiceClaimSpec.
Proof. struct_laws. Qed.
#[export] Instance mem_ServiceClaimStatus_laws : MemLaws mem_ServiceClaimStatus.
Proof. struct_laws. Qed.
#[export] Instance mem_ServiceClaim_laws : MemLaws mem_ServiceClaim.
Proof. struct_laws. Qed.
#[export] Instance mem_ServiceClaimList_laws : MemLaws mem_ServiceClaimList.
Proof. struct_laws. Qed.

Lemma ResourceRequests_copies : copies ResourceRequests_DeepCopyInto.
Proof. struct_copies ResourceRequests_DeepCopyInto. Qed.
#[local] Hint Resolve ResourceRequests_copies : idp.
#[local] Opaque mem_ResourceRequests.
Lemma TenantSpec_copies : copies TenantSpec_DeepCopyInto.
Proof. struct_copies TenantSpec_DeepCopyInto. Qed.
#[local] Hint Resolve TenantSpec_copies : idp.
#[local] Opaque mem_TenantSpec.
Lemma TenantStatus_copies : copies TenantStatus_DeepCopyInto.
Proof. struct_copies TenantStatus_DeepCopyInto. Qed.
#[local] Hint Resolve TenantStatus_copies : idp.
#[local] Opaque mem_TenantStatus.
Lemma Tenant_copies : copies Tenant_DeepCopyInto.
Proof. struct_copies Tenant_DeepCopyInto. Qed.
#[local] Hint Resolve Tenant_copies : idp.
#[local] Opaque mem_Tenant.
Lemma TenantList_copies : copies TenantList_DeepCopyInto.
Proof. struct_copies TenantList_DeepCopyInto. Qed.
#[local] Hint Resolve TenantList_copies : idp.
#[local] Opaque mem_TenantList.
Lemma ServiceClaimSpec_copies : copies ServiceClaimSpec_DeepCopyInto.
Proof. struct_copies ServiceClaimSpec_DeepCopyInto. Qed.
#[local] Hint Resolve ServiceClaimSpec_copies : idp.
#[local] Opaque mem_ServiceClaimSpec.
Lemma ServiceClaimStatus_copies : copies ServiceClaimStatus_DeepCopyInto.
Proof. struct_copies ServiceClaimStatus_DeepCopyInto. Qed.
#[local] Hint Resolve ServiceClaimStatus_copies : idp.
#[local] Opaque mem_ServiceClaimStatus.
Lemma ServiceClaim_copies : copies ServiceClaim_DeepCopyInto.
Proof. struct_copies ServiceClaim_DeepCopyInto. Qed.
#[local] Hint Resolve ServiceClaim_copies : idp.
#[local] Opaque mem_ServiceClaim.
Lemma ServiceClaimList_copies : copies ServiceClaimList_DeepCopyInto.
Proof. struct_copies ServiceClaimList_DeepCopyInto. Qed.
#[local] Hint Resolve ServiceClaimList_copies : idp.
#[local] Opaque mem_ServiceClaimList.

(** ** Properties *)

(** Every pointer that can be read has an independent copy. *)
Definition makes_copies {T V} `{Mem block T V} (f : T -> go block T) : Prop :=
  forall h x v, read h x = Some v -> independent f h x v.

(** C23: for each of the nine types, [DeepCopy] of a pointer that can be read
    returns without a panic a pointer that denotes the same value (nil for nil),
    in memory that is all new.  The original still denotes its value; whatever
    is written later through the original, as a reconciler does with the claim
    after taking the base of its patch, leaves the copy as it was taken, and
    whatever is written to the new memory leaves the original. *)
Theorem deep_copies_independent :
  makes_copies ResourceRequests_DeepCopy /\ makes_copies TenantSpec_DeepCopy /\
  makes_copies TenantStatus_DeepCopy /\ makes_copies Tenant_DeepCopy /\
  makes_copies TenantList_DeepCopy /\ makes_copies ServiceClaimSpec_DeepCopy /\
  makes_copies ServiceClaimStatus_DeepCopy /\ makes_copies ServiceClaim_DeepCopy /\
  makes_copies ServiceClaimList_DeepCopy.
Proof.
  split_and!; intros h x v; apply clones_independent, deepCopy_clones; auto with idp.
Qed.

(** [DeepCopyObject] of a nil pointer is the nil interface, not an interface
    holding a nil pointer, and changes nothing; of any other pointer that can be
    read it is an object of the same kind denoting the same value. *)
Theorem copied_object_same_kind h :
  (Tenant_DeepCopyObject Nil h = Some (None, h) /\
   TenantList_DeepCopyObject Nil h = Some (None, h) /\
   ServiceClaim_DeepCopyObject Nil h = Some (None, h) /\
   ServiceClaimList_DeepCopyObject Nil h = Some (None, h)) /\
  (forall l v, read h (Ptr l : ptr Tenant_m) = Some v -> exists l' h',
     Tenant_DeepCopyObject (Ptr l) h = Some (Some (OTenant (Ptr l')), h') /\
     read h' (Ptr l' : ptr Tenant_m) = Some v) /\
  (forall l v, read h (Ptr l : ptr TenantList_m) = Some v -> exists l' h',
     TenantList_DeepCopyObject (Ptr l) h = Some (Some (OTenantList (Ptr l')), h') /\
     read h' (Ptr l' : ptr TenantList_m) = Some v) /\
  (forall l v, read h (Ptr l : ptr ServiceClaim_m) = Some v -> exists l' h',
     ServiceClaim_DeepCopyObject (Ptr l) h = Some (Some (OServiceClaim (Ptr l')), h') /\
     read h' (Ptr l' : ptr ServiceClaim_m) = Some v) /\
  (forall l v, read h (Ptr l : ptr ServiceClaimList_m) = Some v -> exists l' h',
     ServiceClaimList_DeepCopyObject (Ptr l) h = Some (Some (OServiceClaimList (Ptr l')), h') /\
     read h' (Ptr l' : ptr ServiceClaimList_m) = Some v).
Proof.
  split; [by split_and!|].
  split_and!; intros l v Hr; eapply deepCopyObject_ptr; eauto with idp.
Qed.
End api.

(** ** Witnesses *)

Section witnesses.
#[local] Existing Instance sample_kube.
#[local] Existing Instance sample_lib_types.
#[local] Existing Instance sample_lib_mem.
#[local] Existing Instance sample_lib_mem_laws.

(** A claim with a replica count, a condition and a label. *)
Definition web_ready : Condition := {| c_Type := "Ready"; c_Status := ConditionTrue;
  c_ObservedGeneration := 1; c_Reason := "AllStepsSucceeded"; c_Message := "" |}.
Definition web_type : TypeMeta := {| Kind := "ServiceClaim"; APIVersion := "platform.idp.io/v1alpha1" |}.
Definition web_labels : gmap string string := {["team" := "search"]}.

Definition web_m : ServiceClaim_m := {|
  cTypeMeta_m := web_type;
  cObjectMeta_m := {| sm_meta := NewObjectMeta "web" ""; sm_labels := Ptr 4 |};
  cSpec_m := {| Team_m := "search"; Image_m := "web:1"; Replicas_m := Ptr 2 |};
  cStatus_m := {| cPhase_m := "Ready"; cObservedGeneration_m := 1; cConditions_m := Slice 3 0 1 |} |}.

Definition web_heap : heap block :=
  {[ 1%positive := BClaim web_m; 2%positive := BInt32 3;
     3%positive := BConditions [web_ready]; 4%positive := BLib (LLabels web_labels) ]}.

Definition web_value : TypeMeta * ServiceClaim := (web_type, {|
  sc_ObjectMeta := SetLabels web_labels (NewObjectMeta "web" "");
  sc_Spec := {| Team := "search"; Image := "web:1"; Replicas := Some 3%Z |};
  sc_Status := {| cs_Phase := "Ready"; cs_ObservedGeneration := 1; cs_Conditions := [web_ready] |} |}).

Lemma web_read : read web_heap (Ptr 1 : ptr ServiceClaim_m) = Some (Some web_value).
Proof. vm_compute. reflexivity. Qed.

Lemma deep_copies_independent_witness :
  independent ServiceClaim_DeepCopy web_heap (Ptr 1) (Some web_value).
Proof.
  destruct deep_copies_independent as (_ & _ & _ & _ & _ & _ & _ & H & _).
  exact (H web_heap (Ptr 1) (Some web_value) web_read).
Defined.

Lemma copied_object_same_kind_witness : exists l' h',
  ServiceClaim_DeepCopyObject (Ptr 1) web_heap = Some (Some (OServiceClaim (Ptr l')), h') /\
  read h' (Ptr l' : ptr ServiceClaim_m) = Some (Some web_value).
Proof.
  destruct (copied_object_same_kind web_heap) as (_ & _ & _ & H & _).
  exact (H 1%positive (Some web_value) web_read).
Defined.

(** The replicas in a heap after [DeepCopyInto] of the spec of block 1 into
    block 5, and into itself: into itself it loses them, since the new [int32]
    is copied from itself. *)
Definition replicas_after (into : loc) : option (option Z) :=
  let h := <[5%positive := BClaim zero_ServiceClaim]> web_heap in
  let spec l : ref block ServiceClaimSpec_m := addr (root l) cSpec in
  match ServiceClaimSpec_DeepCopyInto (spec 1%positive) (spec into) h with
  | Some (_, h') =>
      match load (addr (spec into) fReplicas) h' with
      | Some (p, _) => read h' p
      | None => None
      end
  | None => None
  end.

Example copied_replicas : replicas_after 5 = Some (Some 3%Z).
Proof. vm_compute. reflexivity. Qed.

Example self_copy_zeroes_replicas : replicas_after 1 = Some (Some 0%Z).
Proof. vm_compute. reflexivity. Qed.
End witnesses.
