(* ===== verification/DeepCopyM3.v ===== *)
(** * The generated deep copies of the M3 API (scenarios/ownership-conflict/before)

    As [DeepCopyApi], for the M3 package: its claim also points at the team's
    resources. *)
From S2P Require Import Prelude Kube Api Memory DeepCopy Before Sample SampleMemory.

Section m3.
Context `{K : Kube} `{LT : LibTypes}.

(** ** Structs in memory *)

Record M3Requests_m := {
  m3CPU_m : Quantity_m; m3Memory_m : Quantity_m; m3Pods_m : Z }.
Record M3ClaimSpec_m := {
  m3Team_m : string; m3Image_m : string; m3Replicas_m : ptr Z; m3Resources_m : ptr M3Requests_m }.
Record M3ClaimStatus_m := {
  m3Phase_m : string; m3ObservedGeneration_m : Z; m3Conditions_m : slice Condition_m }.
Record M3Claim_m := {
  m3TypeMeta_m : TypeMeta; m3ObjectMeta_m : ObjectMeta_m; m3Spec_m : M3ClaimSpec_m; m3Status_m : M3ClaimStatus_m }.
Record M3ClaimList_m := {
  m3lTypeMeta_m : TypeMeta; m3lListMeta_m : ListMeta_m; m3lItems_m : slice M3Claim_m }.

#[export] Instance zero_M3Requests : Zero M3Requests_m :=
  {| m3CPU_m := zero; m3Memory_m := zero; m3Pods_m := zero |}.
#[export] Instance zero_M3ClaimSpec : Zero M3ClaimSpec_m :=
  {| m3Team_m := zero; m3Image_m := zero; m3Replicas_m := zero; m3Resources_m := zero |}.
#[export] Instance zero_M3ClaimStatus : Zero M3ClaimStatus_m :=
  {| m3Phase_m := zero; m3ObservedGeneration_m := zero; m3Conditions_m := zero |}.
#[export] Instance zero_M3Claim : Zero M3Claim_m :=
  {| m3TypeMeta_m := zero; m3ObjectMeta_m := zero; m3Spec_m := zero; m3Status_m := zero |}.
#[export] Instance zero_M3ClaimList : Zero M3ClaimList_m :=
  {| m3lTypeMeta_m := zero; m3lListMeta_m := zero; m3lItems_m := zero |}.

(** What [new] and [make] allocate in this package, and the library's blocks. *)
Inductive m3block :=
| BM3Lib (b : lib_block)
| BM3Int32 (z : Z)
| BM3Conditions (l : list Condition_m)
| BM3Requests (x : M3Requests_m)
| BM3ClaimSpec (x : M3ClaimSpec_m)
| BM3ClaimStatus (x : M3ClaimStatus_m)
| BM3Claim (x : M3Claim_m)
| BM3ClaimList (x : M3ClaimList_m)
| BM3Claims (l : list M3Claim_m).

#[local] Obligation Tactic := first [by intros ?|by intros [] ? [= ->]].
#[export] Program Instance cell_M3Lib : Cell m3block lib_block :=
  {| cell := BM3Lib; uncell b := match b with BM3Lib x => Some x | _ => None end |}.
#[export] Program Instance cell_M3Int32 : Cell m3block Z :=
  {| cell := BM3Int32; uncell b := match b with BM3Int32 x => Some x | _ => None end |}.
#[export] Program Instance cell_M3Conditions : Cell m3block (list Condition_m) :=
  {| cell := BM3Conditions; uncell b := match b with BM3Conditions x => Some x | _ => None end |}.
#[export] Program Instance cell_M3Requests : Cell m3block M3Requests_m :=
  {| cell := BM3Requests; uncell b := match b with BM3Requests x => Some x | _ => None end |}.
#[export] Program Instance cell_M3ClaimSpec : Cell m3block M3ClaimSpec_m :=
  {| cell := BM3ClaimSpec; uncell b := match b with BM3ClaimSpec x => Some x | _ => None end |}.
#[export] Program Instance cell_M3ClaimStatus : Cell m3block M3ClaimStatus_m :=
  {| cell := BM3ClaimStatus; uncell b := match b with BM3ClaimStatus x => Some x | _ => None end |}.
#[export] Program Instance cell_M3Claim : Cell m3block M3Claim_m :=
  {| cell := BM3Claim; uncell b := match b with BM3Claim x => Some x | _ => None end |}.
#[export] Program Instance cell_M3ClaimList : Cell m3block M3ClaimList_m :=
  {| cell := BM3ClaimList; uncell b := match b with BM3ClaimList x => Some x | _ => None end |}.
#[export] Program Instance cell_M3Claims : Cell m3block (list M3Claim_m) :=
  {| cell := BM3Claims; uncell b := match b with BM3Claims x => Some x | _ => None end |}.

(** The addresses of fields, [&p.F]. *)
Definition fM3CPU : lens M3Requests_m _ :=
  fieldOf m3CPU_m (fun y s => {| m3CPU_m := y; m3Memory_m := m3Memory_m s; m3Pods_m := m3Pods_m s |}).
Definition fM3Memory : lens M3Requests_m _ :=
  fieldOf m3Memory_m (fun y s => {| m3CPU_m := m3CPU_m s; m3Memory_m := y; m3Pods_m := m3Pods_m s |}).
Definition fM3Replicas : lens M3ClaimSpec_m _ :=
  fieldOf m3Replicas_m (fun y s => {| m3Team_m := m3Team_m s; m3Image_m := m3Image_m s; m3Replicas_m := y; m3Resources_m := m3Resources_m s |}).
Definition fM3Resources : lens M3ClaimSpec_m _ :=
  fieldOf m3Resources_m (fun y s => {| m3Team_m := m3Team_m s; m3Image_m := m3Image_m s; m3Replicas_m := m3Replicas_m s; m3Resources_m := y |}).
Definition fM3Conditions : lens M3ClaimStatus_m _ :=
  fieldOf m3Conditions_m (fun y s => {| m3Phase_m := m3Phase_m s; m3ObservedGeneration_m := m3ObservedGeneration_m s; m3Conditions_m := y |}).
Definition fM3TypeMeta : lens M3Claim_m _ :=
  fieldOf m3TypeMeta_m (fun y s => {| m3TypeMeta_m := y; m3ObjectMeta_m := m3ObjectMeta_m s; m3Spec_m := m3Spec_m s; m3Status_m := m3Status_m s |}).
Definition fM3ObjectMeta : lens M3Claim_m _ :=
  fieldOf m3ObjectMeta_m (fun y s => {| m3TypeMeta_m := m3TypeMeta_m s; m3ObjectMeta_m := y; m3Spec_m := m3Spec_m s; m3Status_m := m3Status_m s |}).
Definition fM3Spec : lens M3Claim_m _ :=
  fieldOf m3Spec_m (fun y s => {| m3TypeMeta_m := m3TypeMeta_m s; m3ObjectMeta_m := m3ObjectMeta_m s; m3Spec_m := y; m3Status_m := m3Status_m s |}).
Definition fM3Status : lens M3Claim_m _ :=
  fieldOf m3Status_m (fun y s => {| m3TypeMeta_m := m3TypeMeta_m s; m3ObjectMeta_m := m3ObjectMeta_m s; m3Spec_m := m3Spec_m s; m3Status_m := y |}).
Definition fM3lTypeMeta : lens M3ClaimList_m _ :=
  fieldOf m3lTypeMeta_m (fun y s => {| m3lTypeMeta_m := y; m3lListMeta_m := m3lListMeta_m s; m3lItems_m := m3lItems_m s |}).
Definition fM3lListMeta : lens M3ClaimList_m _ :=
  fieldOf m3lListMeta_m (fun y s => {| m3lTypeMeta_m := m3lTypeMeta_m s; m3lListMeta_m := y; m3lItems_m := m3lItems_m s |}).
Definition fM3lItems : lens M3ClaimList_m _ :=
  fieldOf m3lItems_m (fun y s => {| m3lTypeMeta_m := m3lTypeMeta_m s; m3lListMeta_m := m3lListMeta_m s; m3lItems_m := y |}).

Context `{LM : !LibMem m3block Quantity ObjectMeta Condition}.

(** ** What the structs denote *)

#[export] Instance mem_M3Requests : Mem m3block M3Requests_m ResourceRequests := {|
  read h r :=
    match read h (m3CPU_m r) with None => None | Some cpu =>
    match read h (m3Memory_m r) with None => None | Some memory =>
    Some {| CPU := cpu; Memory := memory; Pods := m3Pods_m r |} end end;
  foot h r := foot h (m3CPU_m r) ∪ foot h (m3Memory_m r);
|}.

#[export] Instance mem_M3ClaimSpec : Mem m3block M3ClaimSpec_m M3ClaimSpec := {|
  read h s :=
    match read h (m3Replicas_m s) with None => None | Some n =>
    match read h (m3Resources_m s) with None => None | Some r =>
    Some {| m3_Team := m3Team_m s; m3_Image := m3Image_m s; m3_Replicas := n;
            m3_Resources := r |} end end;
  foot h s := foot h (m3Replicas_m s) ∪ foot h (m3Resources_m s);
|}.

#[export] Instance mem_M3ClaimStatus : Mem m3block M3ClaimStatus_m ServiceClaimStatus := {|
  read h s :=
    match read h (m3Conditions_m s) with None => None | Some cs =>
    Some {| cs_Phase := m3Phase_m s; cs_ObservedGeneration := m3ObservedGeneration_m s;
            cs_Conditions := cs |} end;
  foot h s := foot h (m3Conditions_m s);
|}.

#[export] Instance mem_M3Claim : Mem m3block M3Claim_m (TypeMeta * M3Claim) := {|
  read h c :=
    match read h (m3ObjectMeta_m c) with None => None | Some om =>
    match read h (m3Spec_m c) with None => None | Some sp =>
    match read h (m3Status_m c) with None => None | Some st =>
    Some (m3TypeMeta_m c, {| m3_ObjectMeta := om; m3_Spec := sp; m3_Status := st |}) end end end;
  foot h c := foot h (m3ObjectMeta_m c) ∪ foot h (m3Spec_m c) ∪ foot h (m3Status_m c);
|}.

#[export] Instance mem_M3ClaimList
  : Mem m3block M3ClaimList_m (TypeMeta * ListMeta * list (TypeMeta * M3Claim)) := {|
  read h l :=
    match read h (m3lListMeta_m l) with None => None | Some lm =>
    match read h (m3lItems_m l) with None => None | Some cs =>
    Some (m3lTypeMeta_m l, lm, cs) end end;
  foot h l := foot h (m3lListMeta_m l) ∪ foot h (m3lItems_m l);
|}.

(** ** DeepCopyInto, DeepCopy, DeepCopyObject *)

Definition M3Requests_DeepCopyInto (inp out : ref m3block M3Requests_m)
  : go m3block unit := body
  [ assign inp out;
    copy_value Quantity_DeepCopy (addr inp fM3CPU) (addr out fM3CPU);
    copy_value Quantity_DeepCopy (addr inp fM3Memory) (addr out fM3Memory) ].

Definition M3ClaimSpec_DeepCopyInto (inp out : ref m3block M3ClaimSpec_m)
  : go m3block unit := body
  [ assign inp out;
    copy_pointer assign (addr inp fM3Replicas) (addr out fM3Replicas);
    copy_pointer M3Requests_DeepCopyInto (addr inp fM3Resources) (addr out fM3Resources) ].

Definition M3ClaimStatus_DeepCopyInto (inp out : ref m3block M3ClaimStatus_m)
  : go m3block unit := body
  [ assign inp out;
    copy_slice Condition_DeepCopyInto (addr inp fM3Conditions) (addr out fM3Conditions) ].

Definition M3Claim_DeepCopyInto (inp out : ref m3block M3Claim_m) : go m3block unit := body
  [ assign inp out;
    assign (addr inp fM3TypeMeta) (addr out fM3TypeMeta);
    ObjectMeta_DeepCopyInto (addr inp fM3ObjectMeta) (addr out fM3ObjectMeta);
    M3ClaimSpec_DeepCopyInto (addr inp fM3Spec) (addr out fM3Spec);
    M3ClaimStatus_DeepCopyInto (addr inp fM3Status) (addr out fM3Status) ].

Definition M3ClaimList_DeepCopyInto (inp out : ref m3block M3ClaimList_m)
  : go m3block unit := body
  [ assign inp out;
    assign (addr inp fM3lTypeMeta) (addr out fM3lTypeMeta);
    ListMeta_DeepCopyInto (addr inp fM3lListMeta) (addr out fM3lListMeta);
    copy_slice M3Claim_DeepCopyInto (addr inp fM3lItems) (addr out fM3lItems) ].

Definition M3Requests_DeepCopy := deepCopy M3Requests_DeepCopyInto.
Definition M3ClaimSpec_DeepCopy := deepCopy M3ClaimSpec_DeepCopyInto.
Definition M3ClaimStatus_DeepCopy := deepCopy M3ClaimStatus_DeepCopyInto.
Definition M3Claim_DeepCopy := deepCopy M3Claim_DeepCopyInto.
Definition M3ClaimList_DeepCopy := deepCopy M3ClaimList_DeepCopyInto.

Inductive M3Object_m := OM3Claim (p : ptr M3Claim_m) | OM3ClaimList (p : ptr M3ClaimList_m).

Definition M3Claim_DeepCopyObject := deepCopyObject OM3Claim M3Claim_DeepCopy.
Definition M3ClaimList_DeepCopyObject := deepCopyObject OM3ClaimList M3ClaimList_DeepCopy.

(** ** They copy *)

Context `{LL : !LibMemLaws}.
#[local] Opaque mem_ptr mem_slice.

#[export] Instance mem_M3Requests_laws : MemLaws mem_M3Requests.
Proof. struct_laws. Qed.
#[export] Instance mem_M3ClaimSpec_laws : MemLaws mem_M3ClaimSpec.
Proof. struct_laws. Qed.
#[export] Instance mem_M3ClaimStatus_laws : MemLaws mem_M3ClaimStatus.
Proof. struct_laws. Qed.
#[export] Instance mem_M3Claim_laws : MemLaws mem_M3Claim.
Proof. struct_laws. Qed.
#[export] Instance mem_M3ClaimList_laws : MemLaws mem_M3ClaimList.
Proof. struct_laws. Qed.

Lemma M3Requests_copies : copies M3Requests_DeepCopyInto.
Proof. struct_copies M3Requests_DeepCopyInto. Qed.
#[local] Hint Resolve M3Requests_copies : idp.
#[local] Opaque mem_M3Requests.
Lemma M3ClaimSpec_copies : copies M3ClaimSpec_DeepCopyInto.
Proof. struct_copies M3ClaimSpec_DeepCopyInto. Qed.
#[local] Hint Resolve M3ClaimSpec_copies : idp.
#[local] Opaque mem_M3ClaimSpec.
Lemma M3ClaimStatus_copies : copies M3ClaimStatus_DeepCopyInto.
Proof. struct_copies M3ClaimStatus_DeepCopyInto. Qed.
#[local] Hint Resolve M3ClaimStatus_copies : idp.
#[local] Opaque mem_M3ClaimStatus.
Lemma M3Claim_copies : copies M3Claim_DeepCopyInto.
Proof. struct_copies M3Claim_DeepCopyInto. Qed.
#[local] Hint Resolve M3Claim_copies : idp.
#[local] Opaque mem_M3Claim.
Lemma M3ClaimList_copies : copies M3ClaimList_DeepCopyInto.
Proof. struct_copies M3ClaimList_DeepCopyInto. Qed.
#[local] Hint Resolve M3ClaimList_copies : idp.
#[local] Opaque mem_M3ClaimList.

(** ** Property *)

(** The deep copies of the M3 package: [DeepCopy] of each of its five types is
    an independent copy, the resources a claim points at included, and
    [DeepCopyObject] of a nil pointer is the nil interface. *)
Theorem m3_deep_copies_independent h :
  (forall p v, read h p = Some v -> independent M3Requests_DeepCopy h p v) /\
  (forall p v, read h p = Some v -> independent M3ClaimSpec_DeepCopy h p v) /\
  (forall p v, read h p = Some v -> independent M3ClaimStatus_DeepCopy h p v) /\
  (forall p v, read h p = Some v -> independent M3Claim_DeepCopy h p v) /\
  (forall p v, read h p = Some v -> independent M3ClaimList_DeepCopy h p v) /\
  M3Claim_DeepCopyObject Nil h = Some (None, h) /\
  M3ClaimList_DeepCopyObject Nil h = Some (None, h).
Proof.
  split_and!; try done; intros p v; apply clones_independent, deepCopy_clones; auto with idp.
Qed.
End m3.

(** ** Witness *)

Section witnesses.
#[local] Existing Instance sample_kube.
#[local] Existing Instance sample_lib_types.
#[local] Existing Instance sample_lib_mem.
#[local] Existing Instance sample_lib_mem_laws.

(** A spec with a replica count and resources whose memory is a large number. *)
Definition m3_heap : heap m3block :=
  {[ 1%positive := BM3ClaimSpec {| m3Team_m := "search"; m3Image_m := "";
       m3Replicas_m := Ptr 2; m3Resources_m := Ptr 3 |};
     2%positive := BM3Int32 3;
     3%positive := BM3Requests {| m3CPU_m := {| q_num := 8; q_dec := Nil |};
       m3Memory_m := {| q_num := 0; q_dec := Ptr 4 |}; m3Pods_m := 10 |};
     4%positive := BM3Lib (LDec 16) ]}.

Definition m3_spec_value : M3ClaimSpec := {|
  m3_Team := "search"; m3_Image := ""; m3_Replicas := Some 3%Z;
  m3_Resources := Some {| CPU := 8%Z : Quantity; Memory := 16%Z : Quantity; Pods := 10 |} |}.

Lemma m3_deep_copies_independent_witness :
  independent M3ClaimSpec_DeepCopy m3_heap (Ptr 1) (Some m3_spec_value).
Proof.
  destruct (m3_deep_copies_independent m3_heap) as (_ & H & _).
  apply (H (Ptr 1) (Some m3_spec_value)). vm_compute. reflexivity.
Defined.
End witnesses.
