(* ===== verification/GoStrings.v ===== *)
(** * The Go string functions of the test utilities

    [strings.Index], [Contains], [TrimPrefix], [Split] at newlines, [ReplaceAll]
    and the line scanner of bufio, as structural functions on byte strings. *)
From S2P Require Import Prelude.

Definition newline : Ascii.ascii := Ascii.ascii_of_N 10.
Definition carriageReturn : Ascii.ascii := Ascii.ascii_of_N 13.
#[global] Arguments newline : simpl never.
#[global] Arguments Ascii.eqb : simpl never.
Definition nl : string := String newline "".

Fixpoint HasPrefix (s p : string) {struct p} : bool :=
  match p, s with
  | EmptyString, _ => true
  | String a p', String b s' => Ascii.eqb a b && HasPrefix s' p'
  | String _ _, EmptyString => false
  end.

(** [s[:n]] and [s[n:]], for [n] up to the length. *)
Fixpoint sliceTo (s : string) (n : nat) : string :=
  match n, s with
  | S n', String a s' => String a (sliceTo s' n')
  | _, _ => ""
  end.

Fixpoint sliceFrom (s : string) (n : nat) : string :=
  match n, s with
  | 0, _ => s
  | S n', String _ s' => sliceFrom s' n'
  | S _, EmptyString => ""
  end.

(** [strings.Index]; [None] stands for -1. *)
Fixpoint Index (s t : string) : option nat :=
  if HasPrefix s t then Some 0
  else match s with
       | EmptyString => None
       | String _ s' => option_map S (Index s' t)
       end.

Definition Contains (s t : string) : bool :=
  match Index s t with Some _ => true | None => false end.

Definition TrimPrefix (s p : string) : string :=
  if HasPrefix s p then sliceFrom s (String.length p) else s.

(** [strings.Split] at newlines. *)
Fixpoint splitLines (s : string) : list string :=
  match s with
  | EmptyString => [""]
  | String a s' =>
      if Ascii.eqb a newline then "" :: splitLines s'
      else match splitLines s' with
           | l :: ls => String a l :: ls
           | [] => [String a ""]
           end
  end.

(** [strings.ReplaceAll] of a string that is not empty; [skip] counts the bytes
    of an occurrence still to pass over. *)
Fixpoint replaceFrom (old new : string) (skip : nat) (s : string) : string :=
  match s with
  | EmptyString => ""
  | String a s' =>
      match skip with
      | S k => replaceFrom old new k s'
      | 0 => if HasPrefix s old
             then new +:+ replaceFrom old new (String.length old - 1) s'
             else String a (replaceFrom old new 0 s')
      end
  end.

Definition ReplaceAll (s old new : string) : string := replaceFrom old new 0 s.

(** ** The line scanner of bufio

    A line ends at a newline or at the end of the input, where an empty one does
    not count; one carriage return before the end is dropped; at a line that
    does not fit the buffer of 64 KiB the scanner stops for good. *)
Definition MaxScanTokenSize : Z := 65536.

Fixpoint dropCR (s : string) : string :=
  match s with
  | EmptyString => ""
  | String a s' =>
      if Ascii.eqb a carriageReturn && String.eqb s' "" then "" else String a (dropCR s')
  end.

Fixpoint dropLastEmpty (ls : list string) : list string :=
  match ls with
  | [] => []
  | l :: ls' => match ls' with [] => if String.eqb l "" then [] else [l] | _ => l :: dropLastEmpty ls' end
  end.

(** What is left to scan, line by line. *)
Definition Scanner := list string.
Definition NewScanner (s : string) : Scanner := dropLastEmpty (splitLines s).

Definition token (line : string) : option string :=
  if (MaxScanTokenSize <=? Z.of_nat (String.length line))%Z then None else Some (dropCR line).

(** [Scan] with the [Text] it makes available. *)
Definition Scan (sc : Scanner) : option (string * Scanner) :=
  match sc with
  | [] => None
  | line :: rest => match token line with Some t => Some (t, rest) | None => None end
  end.

(** The texts of all calls of [Scan] up to the first that fails. *)
Fixpoint texts (sc : Scanner) : list string :=
  match sc with
  | [] => []
  | line :: rest => match token line with Some t => t :: texts rest | None => [] end
  end.

(** ** Lemmas *)

Lemma HasPrefix_spec s p : HasPrefix s p = true <-> exists q, s = p +:+ q.
Proof.
  revert s. induction p as [|a p IH]; intros s; cbn.
  - split; [by intros _; exists s|done].
  - destruct s as [|b s]; [by split; [|intros [q [=]]]|].
    rewrite andb_true_iff, Ascii.eqb_eq, IH. split.
    + intros [-> [q ->]]. by exists q.
    + intros [q [= -> ->]]. eauto.
Qed.

Lemma sliceTo_app p q : sliceTo (p +:+ q) (String.length p) = p.
Proof. induction p as [|a p IH]; [by destruct q|]. rewrite string_app_cons. cbn. by rewrite IH. Qed.

Lemma sliceFrom_app p q : sliceFrom (p +:+ q) (String.length p) = q.
Proof. induction p as [|a p IH]; [by destruct q|]. exact IH. Qed.

Lemma length_app_string (p q : string) :
  String.length (p +:+ q) = String.length p + String.length q.
Proof. induction p as [|a p IH]; [done|]. rewrite string_app_cons. cbn. by rewrite IH. Qed.

Lemma sliceFrom_app3 p t q :
  sliceFrom (p +:+ t +:+ q) (String.length p + String.length t) = q.
Proof. by rewrite <- length_app_string, <- string_app_assoc, sliceFrom_app. Qed.

(** [Index] finds an occurrence, and none in front of it. *)
Lemma Index_Some s t i : Index s t = Some i ->
  exists p q, s = p +:+ t +:+ q /\ String.length p = i /\
    forall p' q', s = p' +:+ t +:+ q' -> i <= String.length p'.
Proof.
  revert i. induction s as [|a s IH]; intros i; cbn [Index];
    (destruct (HasPrefix _ t) eqn:E;
     [intros [= <-]; apply HasPrefix_spec in E as [q ->]; exists "", q; repeat split; cbn; lia|]).
  - done.
  - destruct (Index s t) as [j|] eqn:Ej; [|done]. intros [= <-].
    destruct (IH j eq_refl) as (p & q & -> & <- & Hmin). exists (String a p), q.
    repeat split. intros [|b p'] q' Heq.
    + exfalso. apply not_true_iff_false in E. apply E, HasPrefix_spec. by exists q'.
    + injection Heq as _ Heq. cbn. apply Hmin in Heq. lia.
Qed.

Lemma Index_None s t : Index s t = None <-> ~ occurs t s.
Proof.
  split.
  - induction s as [|a s IH]; cbn [Index]; (destruct (HasPrefix _ t) eqn:E; [done|]).
    + intros _ (p & q & Hs). destruct p; [|done]. apply not_true_iff_false in E. apply E.
      apply HasPrefix_spec. by exists q.
    + destruct (Index s t) eqn:Ej; [done|]. intros _ ([|b p] & q & Hs).
      * apply not_true_iff_false in E. apply E, HasPrefix_spec. by exists q.
      * injection Hs as _ ->. apply IH; [done|]. by exists p, q.
  - intros H. destruct (Index s t) as [i|] eqn:E; [|done].
    apply Index_Some in E as (p & q & -> & _). destruct H. by exists p, q.
Qed.

Lemma Contains_spec s t : Contains s t = true <-> occurs t s.
Proof.
  unfold Contains. pose proof (Index_None s t) as H.
  destruct (Index s t) as [i|] eqn:E; [|naive_solver].
  apply Index_Some in E as (p & q & -> & _). split; [by exists p, q|done].
Qed.

Lemma TrimPrefix_app p s : TrimPrefix (p +:+ s) p = s.
Proof.
  unfold TrimPrefix. replace (HasPrefix (p +:+ s) p) with true.
  - apply sliceFrom_app.
  - symmetry. apply HasPrefix_spec. by exists s.
Qed.

(** *** Lines *)

(** A line has no newline in it. *)
Definition oneLine (l : string) : Prop := newline ∉ String.list_ascii_of_string l.

Lemma splitLines_cons s : exists l ls, splitLines s = l :: ls.
Proof.
  destruct s as [|a s]; cbn; [by exists "", []|].
  destruct (Ascii.eqb a newline); [by exists "", (splitLines s)|].
  destruct (splitLines s) as [|l ls]; [by exists (String a ""), []|by exists (String a l), ls].
Qed.

Lemma oneLine_cons a l : oneLine (String a l) -> Ascii.eqb a newline = false /\ oneLine l.
Proof.
  unfold oneLine. cbn. intros [Ha Hl]%not_elem_of_cons. split; [|done].
  apply Ascii.eqb_neq. congruence.
Qed.

Lemma oneLine_app p q : oneLine (p +:+ q) <-> oneLine p /\ oneLine q.
Proof.
  unfold oneLine. induction p as [|a p IH].
  - split; [split; [apply not_elem_of_nil|done]|by intros []].
  - rewrite string_app_cons. cbn. rewrite !not_elem_of_cons. tauto.
Qed.

Lemma splitLines_one l : oneLine l -> splitLines l = [l].
Proof.
  induction l as [|a l IH]; [done|]. intros [Ha Hl]%oneLine_cons. cbn.
  by rewrite Ha, IH.
Qed.

Lemma splitLines_line l s : oneLine l -> splitLines (l +:+ nl +:+ s) = l :: splitLines s.
Proof.
  induction l as [|a l IH]; [done|]. intros [Ha Hl]%oneLine_cons.
  rewrite string_app_cons. cbn [splitLines]. by rewrite Ha, IH.
Qed.

Lemma Join_cons x y ls sep : Join (x :: y :: ls) sep = x +:+ sep +:+ Join (y :: ls) sep.
Proof. reflexivity. Qed.

Lemma NewScanner_line l s : oneLine l -> NewScanner (l +:+ nl +:+ s) = l :: NewScanner s.
Proof.
  intros Hl. unfold NewScanner. rewrite splitLines_line by done.
  destruct (splitLines_cons s) as (x & xs & ->). done.
Qed.

Lemma NewScanner_one l : oneLine l -> l <> "" -> NewScanner l = [l].
Proof.
  intros Hl Hne. unfold NewScanner. rewrite splitLines_one by done. cbn.
  by destruct (String.eqb_spec l "").
Qed.

(** The scanner over lines joined by newlines, and what follows them. *)
Lemma NewScanner_Join_app ls s : ls <> [] -> Forall oneLine ls ->
  NewScanner (Join ls nl +:+ nl +:+ s) = ls ++ NewScanner s.
Proof.
  induction ls as [|x [|y ls] IH]; [done| |]; intros _ [Hx Hls]%Forall_cons.
  - by apply NewScanner_line.
  - rewrite Join_cons, !string_app_assoc, NewScanner_line by done.
    cbn [app]. f_equal. by apply IH.
Qed.

Lemma NewScanner_Join ls l : Forall oneLine ls -> last ls = Some l -> l <> "" ->
  NewScanner (Join ls nl) = ls.
Proof.
  induction ls as [|x [|y ls] IH]; [done| |]; intros [Hx Hls]%Forall_cons Hlast Hne.
  - injection Hlast as ->. by apply NewScanner_one.
  - rewrite Join_cons, NewScanner_line by done. f_equal. by apply IH.
Qed.

Lemma dropCR_id s : (forall p, s <> p +:+ String carriageReturn "") -> dropCR s = s.
Proof.
  induction s as [|a s IH]; [done|]. intros H. cbn [dropCR].
  destruct (Ascii.eqb_spec a carriageReturn) as [->|Ha]; cbn [andb].
  - destruct (String.eqb_spec s "") as [->|Hs]; [by destruct (H "")|].
    f_equal. apply IH. intros p ->. by apply (H (String carriageReturn p)).
  - f_equal. apply IH. intros p ->. by apply (H (String a p)).
Qed.

Lemma texts_app ls more : Forall (fun l => token l = Some l) ls ->
  texts (ls ++ more) = ls ++ texts more.
Proof. induction 1 as [|l ls Hl _ IH]; [done|]. cbn. by rewrite Hl, IH. Qed.

Lemma texts_fit ls : Forall (fun l => token l = Some l) ls -> texts ls = ls.
Proof. intros H. rewrite <- (app_nil_r ls) at 1. rewrite texts_app by done. apply app_nil_r. Qed.

(** A line that is too long ends the scan. *)
Lemma texts_too_long l rest : (MaxScanTokenSize <= Z.of_nat (String.length l))%Z ->
  texts (l :: rest) = [].
Proof. intros H. cbn [texts]. unfold token. by rewrite (proj2 (Z.leb_le _ _) H). Qed.
