(* ===== verification/TestUtils.v ===== *)
(** * test/utils/utils.go

    The helpers of the end-to-end tests: running commands in the project
    directory, cert-manager, kind, and uncommenting a block of a file.  The
    operating system is the signature [os]; every theorem holds for whatever it
    answers.  Lines written to [GinkgoWriter] are left out; writes to a
    [bytes.Buffer] never fail, as documented, so the buffer is a string.
    [uncomment_outcome], [Run_outcome] and [crds_installed] are the outcomes of
    the helpers; [uncomment_restores] is what uncommenting is for, and
    [uncomment_loses_tail] where it loses text. *)
From S2P Require Import Prelude Prog Kube GoStrings Sample.
Open Scope prog_scope.

Section utils.
Context `{EA : ErrorApi}.

(** [exec.Cmd], what [Run] reads and sets. *)
Record Cmd := { Args : list string; Dir : string; Env : list string }.

Definition Command (name : string) (args : list string) : Cmd :=
  {| Args := name :: args; Dir := ""; Env := [] |}.

Inductive os : Type -> Type :=
| Getwd : os (string * option error)
| Chdir (dir : string) : os (option error)
| Environ : os (list string)
| LookupEnv (key : string) : os (string * bool)
| CombinedOutput (cmd : Cmd) : os (string * option error)
| ReadFile (name : string) : os (error + string)
| WriteFile (name data : string) (perm : Z) : os (option error).

(** ** Commands *)

Definition GetProjectDir : prog os (string * option error) :=
  let* ' (wd, err) := trigger Getwd in
  match err with
  | Some err =>
      Ret (wd, Some (Errorf ("failed to get current working directory: " +:+ Error err)))
  | None => Ret (ReplaceAll wd "/test/e2e" "", None)
  end.

Definition Run (cmd : Cmd) : prog os (string * option error) :=
  let* ' (dir, _) := GetProjectDir in
  let* _ := trigger (Chdir dir) in
  let* environ := trigger Environ in
  let cmd := {| Args := Args cmd; Dir := dir; Env := environ ++ ["GO111MODULE=on"] |} in
  let command := Join (Args cmd) " " in
  let* ' (output, err) := trigger (CombinedOutput cmd) in
  match err with
  | Some err => Ret (output, Some (Errorf (quote command +:+ " failed with error "
                       +:+ quote output +:+ ": " +:+ Error err)))
  | None => Ret (output, None)
  end.

Definition certmanagerVersion : string := "v1.20.2".
Definition certmanagerURL : string :=
  "https://github.com/cert-manager/cert-manager/releases/download/" +:+ certmanagerVersion
  +:+ "/cert-manager.yaml".

Fixpoint deleteLeases (leases : list string) : prog os () :=
  match leases with
  | [] => Ret ()
  | lease :: leases =>
      let* _ := Run (Command "kubectl" ["delete"; "lease"; lease; "-n"; "kube-system";
                  "--ignore-not-found"; "--force"; "--grace-period=0"]) in
      deleteLeases leases
  end.

Definition kubeSystemLeases : list string :=
  ["cert-manager-cainjector-leader-election"; "cert-manager-controller"].

Definition UninstallCertManager : prog os () :=
  let* _ := Run (Command "kubectl" ["delete"; "-f"; certmanagerURL]) in
  deleteLeases kubeSystemLeases.

Definition InstallCertManager : prog os (option error) :=
  let* ' (_, err) := Run (Command "kubectl" ["apply"; "-f"; certmanagerURL]) in
  match err with
  | Some err => Ret (Some err)
  | None =>
      let* ' (_, err) := Run (Command "kubectl" ["wait"; "deployment.apps/cert-manager-webhook";
        "--for"; "condition=Available"; "--namespace"; "cert-manager"; "--timeout"; "5m"]) in
      Ret err
  end.

Definition GetNonEmptyLines (output : string) : list string :=
  filter (fun element => element <> "") (splitLines output).

Definition certManagerCRDs : list string :=
  ["certificates.cert-manager.io"; "issuers.cert-manager.io"; "clusterissuers.cert-manager.io";
   "certificaterequests.cert-manager.io"; "orders.acme.cert-manager.io";
   "challenges.acme.cert-manager.io"].

Definition IsCertManagerCRDsInstalled : prog os bool :=
  let* ' (output, err) := Run (Command "kubectl" ["get"; "crds"]) in
  match err with
  | Some _ => Ret false
  | None =>
      let crdList := GetNonEmptyLines output in
      Ret (existsb (fun crd => existsb (fun line => Contains line crd) crdList) certManagerCRDs)
  end.

Definition defaultKindBinary : string := "kind".
Definition defaultKindCluster : string := "kind".

Definition LoadImageToKindClusterWithName (name : string) : prog os (option error) :=
  let* ' (v, ok) := trigger (LookupEnv "KIND_CLUSTER") in
  let cluster := match ok with true => v | false => defaultKindCluster end in
  let kindOptions := ["load"; "docker-image"; name; "--name"; cluster] in
  let* ' (v, ok) := trigger (LookupEnv "KIND") in
  let kindBinary := match ok with true => v | false => defaultKindBinary end in
  let* ' (_, err) := Run (Command kindBinary kindOptions) in
  Ret err.

(** ** Uncommenting *)

(** The loop: [text] is the current line, [out] the buffer; each turn writes the
    line without the prefix, and a newline if [Scan] finds another line. *)
Fixpoint uncommentLoop (prefix text : string) (scanner : Scanner) (out : string) : string :=
  let out := out +:+ TrimPrefix text prefix in
  match scanner with
  | [] => out
  | line :: scanner =>
      match token line with
      | None => out
      | Some text => uncommentLoop prefix text scanner (out +:+ nl)
      end
  end.

Definition UncommentCode (filename target prefix : string) : prog os (option error) :=
  let* res := trigger (ReadFile filename) in
  match res with
  | inl err => Ret (Some (Errorf ("failed to read file " +:+ quote filename +:+ ": " +:+ Error err)))
  | inr content =>
      match Index content target with
      | None => Ret (Some (Errorf ("unable to find the code " +:+ quote target
                                     +:+ " to be uncommented")))
      | Some idx =>
          let out := sliceTo content idx in
          match Scan (NewScanner target) with
          | None => Ret None
          | Some (text, scanner) =>
              let out := uncommentLoop prefix text scanner out in
              let out := out +:+ sliceFrom content (idx + String.length target) in
              let* err := trigger (WriteFile filename out 420) in
              match err with
              | Some err => Ret (Some (Errorf ("failed to write file " +:+ quote filename
                                                 +:+ ": " +:+ Error err)))
              | None => Ret None
              end
          end
      end
  end.

(** ** What they do *)

(** Every turn of the loop writes one line: the result is the texts of the
    scanner without their prefixes, joined by newlines. *)
Definition uncommented (target prefix : string) : string :=
  Join (map (fun text => TrimPrefix text prefix) (texts (NewScanner target))) nl.

Lemma uncommentLoop_texts prefix text scanner out :
  uncommentLoop prefix text scanner out =
  out +:+ Join (map (fun text => TrimPrefix text prefix) (text :: texts scanner)) nl.
Proof.
  revert text out. induction scanner as [|line scanner IH]; intros text out; [done|].
  cbn [uncommentLoop texts]. destruct (token line) as [t|]; [|done].
  rewrite IH. cbn [map]. by rewrite Join_cons, !string_app_assoc.
Qed.

Lemma Scan_texts scanner : match Scan scanner with
  | None => texts scanner = []
  | Some (t, rest) => texts scanner = t :: texts rest
  end.
Proof. destruct scanner as [|line rest]; [done|]. cbn. by destruct (token line). Qed.

Definition wrapped (message : string) (err : option error) : option error :=
  option_map (fun err => Errorf (message +:+ ": " +:+ Error err)) err.

(** What is left of a run once the file was read. *)
Definition after_read (f target prefix content : string) (tr : list (event os))
    (a : option error) : Prop :=
  match Index content target with
  | None => tr = [] /\
      a = Some (Errorf ("unable to find the code " +:+ quote target +:+ " to be uncommented"))
  | Some i =>
      match texts (NewScanner target) with
      | [] => tr = [] /\ a = None
      | _ => exists w, tr = [Ev (WriteFile f (sliceTo content i +:+ uncommented target prefix
                               +:+ sliceFrom content (i + String.length target)) 420) w] /\
               a = wrapped ("failed to write file " +:+ quote f) w
      end
  end.

(** Every outcome of [UncommentCode]. *)
Theorem uncomment_outcome f target prefix tr a :
  runs (UncommentCode f target prefix) tr a <->
  exists res tr', tr = Ev (ReadFile f) res :: tr' /\
    match res with
    | inl err => tr' = [] /\ a = wrapped ("failed to read file " +:+ quote f) (Some err)
    | inr content => after_read f target prefix content tr' a
    end.
Proof.
  unfold UncommentCode. cbn [bind trigger runs].
  apply exist_proper. intros [err|content]; apply exist_proper; intros tr';
    (apply and_iff_compat_l); [cbn; unfold wrapped; cbn; by rewrite ?string_app_assoc|].
  unfold after_read, uncommented. destruct (Index content target) as [i|]; [|done].
  pose proof (Scan_texts (NewScanner target)) as Hs.
  destruct (Scan (NewScanner target)) as [[t rest]|]; rewrite Hs; [|done].
  cbn [bind trigger runs]. rewrite uncommentLoop_texts, string_app_assoc.
  split.
  - intros (w & tr'' & -> & H). exists w. destruct w; destruct H as [-> ->];
      (split; [done|]); cbn; by rewrite ?string_app_assoc.
  - intros (w & -> & ->). exists w, []. split; [done|]. destruct w; cbn;
      by rewrite ?string_app_assoc.
Qed.

(** A file of this content. *)
Definition reads (content : string) (e : event os) : Prop :=
  match e with
  | Ev c r => match c in os R return R -> Prop with
              | ReadFile _ => fun r => r = inr content
              | _ => fun _ => True
              end r
  end.

(** A line that fits the scanner's buffer and does not end in a carriage
    return: scanning gives it back. *)
Definition scannable (l : string) : Prop := oneLine l /\ token l = Some l.

Lemma scannable_intro l : oneLine l -> (Z.of_nat (String.length l) < MaxScanTokenSize)%Z ->
  (forall p, l <> p +:+ String carriageReturn "") -> scannable l.
Proof.
  intros H1 Hlen Hcr. split; [done|]. unfold token.
  rewrite (proj2 (Z.leb_gt _ _) Hlen). by rewrite dropCR_id.
Qed.

Lemma scannable_lines ls : Forall scannable ls ->
  Forall oneLine ls /\ Forall (fun l => token l = Some l) ls.
Proof. intros H. split; (eapply Forall_impl; [exact H|]); by intros l []. Qed.

Lemma trim_commented prefix ls :
  map (fun text => TrimPrefix text prefix) (map (String.append prefix) ls) = ls.
Proof.
  rewrite map_map. rewrite <- (map_id ls) at 2. apply map_ext. intros l. apply TrimPrefix_app.
Qed.

(** A run on a file whose first occurrence of the target is known. *)
Lemma uncomment_at f target prefix pre post tr a :
  Index (pre +:+ target +:+ post) target = Some (String.length pre) ->
  texts (NewScanner target) <> [] ->
  runs (UncommentCode f target prefix) tr a -> Forall (reads (pre +:+ target +:+ post)) tr ->
  exists w, tr = [Ev (ReadFile f) (inr (pre +:+ target +:+ post));
                  Ev (WriteFile f (pre +:+ uncommented target prefix +:+ post) 420) w] /\
    (a = None <-> w = None).
Proof.
  intros Hi Ht (res & tr' & -> & H)%uncomment_outcome [Hr _]%Forall_cons.
  cbn in Hr. subst res. unfold after_read in H. rewrite Hi, sliceTo_app, sliceFrom_app3 in H.
  destruct (texts (NewScanner target)); [done|]. destruct H as (w & -> & ->).
  exists w. split; [done|]. by destruct w.
Qed.

(** The block that comments out some lines. *)
Definition commented (prefix : string) (ls : list string) : string :=
  Join (map (String.append prefix) ls) nl.

(** Uncommenting undoes commenting: in a file that holds a block of lines,
    each with the prefix in front, [UncommentCode] of the first such block writes
    the file with the bare lines in its place and every other byte as it was, and
    succeeds exactly when the write does.  The last line must not be empty and
    every line must be one the scanner gives back. *)
Theorem uncomment_restores f prefix ls l pre post tr a :
  let block := commented prefix ls in
  last (map (String.append prefix) ls) = Some l -> l <> "" ->
  Forall scannable (map (String.append prefix) ls) ->
  Index (pre +:+ block +:+ post) block = Some (String.length pre) ->
  runs (UncommentCode f block prefix) tr a -> Forall (reads (pre +:+ block +:+ post)) tr ->
  exists w, tr = [Ev (ReadFile f) (inr (pre +:+ block +:+ post));
                  Ev (WriteFile f (pre +:+ Join ls nl +:+ post) 420) w] /\
    (a = None <-> w = None).
Proof.
  intros block Hl Hne [H1 H2]%scannable_lines Hi Hr Hf.
  assert (Ht : texts (NewScanner block) = map (String.append prefix) ls).
  { unfold block, commented. erewrite NewScanner_Join by done. by apply texts_fit. }
  assert (Hu : uncommented block prefix = Join ls nl)
    by (unfold uncommented; by rewrite Ht, trim_commented).
  rewrite <- Hu. apply uncomment_at; [done| |done|done].
  rewrite Ht. by destruct ls.
Qed.

(** Nothing of a text can be scanned: it is empty, or its first line is too
    long for the buffer. *)
Definition unscannable (s : string) : Prop :=
  s = "" \/ exists l rest, NewScanner s = l :: rest /\
    (MaxScanTokenSize <= Z.of_nat (String.length l))%Z.

Lemma unscannable_texts s : unscannable s -> texts (NewScanner s) = [].
Proof. intros [->|(l & rest & -> & Hl)]; [done|by apply texts_too_long]. Qed.

(** C40: a limit of [UncommentCode]: where the target goes on after a newline with
    nothing the scanner can read, be it the end of the target or a line of 64 KiB
    or more, that newline and everything behind it in the target are not written
    back, and the call still succeeds exactly when the write does. *)
Theorem uncomment_loses_tail f prefix ls tail pre post tr a :
  let target := commented prefix ls +:+ nl +:+ tail in
  ls <> [] -> Forall scannable (map (String.append prefix) ls) -> unscannable tail ->
  Index (pre +:+ target +:+ post) target = Some (String.length pre) ->
  runs (UncommentCode f target prefix) tr a -> Forall (reads (pre +:+ target +:+ post)) tr ->
  exists w, tr = [Ev (ReadFile f) (inr (pre +:+ target +:+ post));
                  Ev (WriteFile f (pre +:+ Join ls nl +:+ post) 420) w] /\
    (a = None <-> w = None).
Proof.
  intros target Hls [H1 H2]%scannable_lines Htail Hi Hr Hf.
  assert (Ht : texts (NewScanner target) = map (String.append prefix) ls).
  { unfold target, commented. rewrite NewScanner_Join_app by (by destruct ls || done).
    rewrite texts_app, (unscannable_texts tail), app_nil_r by done. done. }
  assert (Hu : uncommented target prefix = Join ls nl)
    by (unfold uncommented; by rewrite Ht, trim_commented).
  rewrite <- Hu. apply uncomment_at; [done| |done|done].
  rewrite Ht. by destruct ls.
Qed.

(** Only the lines that say something, in their order. *)
Lemma GetNonEmptyLines_elem output line :
  line ∈ GetNonEmptyLines output <-> line <> "" /\ line ∈ splitLines output.
Proof. unfold GetNonEmptyLines. by rewrite list_elem_of_filter. Qed.

Lemma GetNonEmptyLines_Join ls : Forall oneLine ls -> Forall (fun l => l <> "") ls ->
  GetNonEmptyLines (Join ls nl) = ls.
Proof.
  unfold GetNonEmptyLines. induction ls as [|x [|y ls] IH]; [done| |];
    intros [Hx Hls]%Forall_cons [Hnx Hnls]%Forall_cons.
  - cbn [Join]. rewrite splitLines_one, filter_cons_True by done. done.
  - rewrite Join_cons, splitLines_line, filter_cons_True by done. f_equal. by apply IH.
Qed.

(** The directory a command runs in. *)
Definition projectDir (wd : string * option error) : string :=
  match wd with (wd, None) => ReplaceAll wd "/test/e2e" "" | (_, Some _) => fst wd end.

(** [Run] goes to the project directory, ignores a failure to get there, runs the
    command with modules on, and returns its output even when it fails. *)
Theorem Run_outcome cmd tr output err :
  runs (Run cmd) tr (output, err) <->
  exists wd cd environ cmdErr, let dir := projectDir wd in
    tr = [Ev Getwd wd; Ev (Chdir dir) cd; Ev Environ environ;
          Ev (CombinedOutput {| Args := Args cmd; Dir := dir;
                                Env := environ ++ ["GO111MODULE=on"] |}) (output, cmdErr)] /\
    err = wrapped (quote (Join (Args cmd) " ") +:+ " failed with error " +:+ quote output) cmdErr.
Proof.
  unfold Run, GetProjectDir. cbn [bind trigger runs]. split.
  - intros ([wd werr] & tr1 & -> & H). exists (wd, werr).
    destruct werr as [e|]; cbn [bind trigger runs] in H;
      destruct H as (cd & tr2 & -> & environ & tr3 & -> & [out cerr] & tr4 & -> & H);
      exists cd, environ, cerr; destruct cerr; destruct H as [-> [= -> ->]];
      (split; [done|]); cbn; by rewrite ?string_app_assoc.
  - intros ([wd werr] & cd & environ & cmdErr & -> & ->). eexists _, _. split; [done|].
    destruct werr as [e|]; cbn [bind trigger runs projectDir fst];
      (eexists _, _; split; [done|]); (eexists _, _; split; [done|]);
      (eexists _, _; split; [done|]); destruct cmdErr; cbn; rewrite ?string_app_assoc; done.
Qed.

(** Running a list of commands whatever each of them returns. *)
Fixpoint runAll (cmds : list Cmd) : prog os () :=
  match cmds with
  | [] => Ret ()
  | cmd :: cmds => let* _ := Run cmd in runAll cmds
  end.

Definition leaseCommand (lease : string) : Cmd :=
  Command "kubectl" ["delete"; "lease"; lease; "-n"; "kube-system";
                     "--ignore-not-found"; "--force"; "--grace-period=0"].

(** Uninstalling tries all three deletions. *)
Lemma uninstall_best_effort :
  UninstallCertManager =
  runAll (Command "kubectl" ["delete"; "-f"; certmanagerURL] :: map leaseCommand kubeSystemLeases).
Proof. reflexivity. Qed.

(** The CRDs are reported when the command succeeded and a line names one. *)
Theorem crds_installed tr b : runs IsCertManagerCRDsInstalled tr b ->
  exists output err, runs (Run (Command "kubectl" ["get"; "crds"])) tr (output, err) /\
    (b = true <-> err = None /\ exists crd line, crd ∈ certManagerCRDs /\
       line ∈ splitLines output /\ occurs crd line).
Proof.
  intros H. unfold IsCertManagerCRDsInstalled in H.
  apply runs_bind in H as (tr1 & [output err] & tr2 & -> & H1 & H2). exists output, err.
  destruct err as [e|]; destruct H2 as [-> ->]; rewrite app_nil_r; (split; [done|]); [naive_solver|].
  rewrite existsb_exists. setoid_rewrite existsb_exists. setoid_rewrite Contains_spec.
  setoid_rewrite <- list_elem_of_In. split.
  - intros (crd & Hc & line & [_ Hl]%GetNonEmptyLines_elem & Ho). eauto 7.
  - intros (_ & crd & line & Hc & Hl & Ho). exists crd. split; [done|]. exists line.
    split; [|done]. apply GetNonEmptyLines_elem. split; [|done]. intros ->.
    destruct Ho as (p & q & Hpq). assert (crd = "") as -> by (by destruct p, crd).
    by repeat (apply elem_of_cons in Hc as [[=]|Hc]); apply not_elem_of_nil in Hc.
Qed.
End utils.

(** ** Witnesses *)

Section witnesses.
#[local] Existing Instance sample_kube.

(** A machine with one file. *)
Definition disk : handler os string := fun R c s =>
  match c in os R return R * string with
  | Getwd => (("/src/test/e2e", None), s)
  | Chdir _ => (None, s)
  | Environ => ([], s)
  | LookupEnv _ => (("", false), s)
  | CombinedOutput _ => (("", None), s)
  | ReadFile _ => (inr s, s)
  | WriteFile _ data _ => (None, data)
  end.

Definition uncomment_run (content block : string) :=
  interp disk (UncommentCode "kustomization.yaml" block "#") content.
Definition run_trace (content block : string) : list (event os) :=
  fst (fst (uncomment_run content block)).
Definition run_result (content block : string) : option error :=
  snd (fst (uncomment_run content block)).

Lemma uncomment_run_runs content block :
  runs (UncommentCode "kustomization.yaml" block "#") (run_trace content block)
    (run_result content block).
Proof.
  unfold run_trace, run_result, uncomment_run.
  destruct (interp _ _ _) as [[tr a] s] eqn:E. by eapply interp_runs.
Qed.

Example project_dir : snd (fst (interp disk GetProjectDir "")) = ("/src", None).
Proof. vm_compute. reflexivity. Qed.

Definition block_lines : list string := ["- ../webhook"; "- ../certmanager"].
Definition before_block : string := "resources:" +:+ nl.
Definition after_block : string := nl +:+ "patches: []".
Definition with_block (block : string) : string := before_block +:+ block +:+ after_block.

Lemma one_line_test l : forallb (fun a => negb (Ascii.eqb a newline)) (String.list_ascii_of_string l) = true ->
  oneLine l.
Proof.
  rewrite forallb_forall. intros H Hin. apply list_elem_of_In, H in Hin.
  by rewrite Ascii.eqb_refl in Hin.
Qed.

Lemma block_scannable : Forall scannable (map (String.append "#") block_lines).
Proof. repeat constructor; by apply one_line_test. Qed.

Lemma uncomment_restores_witness :
  exists w, run_trace (with_block (commented "#" block_lines)) (commented "#" block_lines) =
    [Ev (ReadFile "kustomization.yaml") (inr (with_block (commented "#" block_lines)));
     Ev (WriteFile "kustomization.yaml" (with_block (Join block_lines nl)) 420) w] /\
    (run_result (with_block (commented "#" block_lines)) (commented "#" block_lines) = None
       <-> w = None).
Proof.
  apply (uncomment_restores "kustomization.yaml" "#" block_lines "#- ../certmanager"
    before_block after_block).
  - reflexivity.
  - done.
  - exact block_scannable.
  - vm_compute. reflexivity.
  - apply uncomment_run_runs.
  - repeat constructor.
Defined.

Definition loose_block : string := commented "#" block_lines +:+ nl +:+ "".

Lemma uncomment_loses_tail_witness :
  exists w, run_trace (with_block loose_block) loose_block =
    [Ev (ReadFile "kustomization.yaml") (inr (with_block loose_block));
     Ev (WriteFile "kustomization.yaml" (with_block (Join block_lines nl)) 420) w] /\
    (run_result (with_block loose_block) loose_block = None <-> w = None).
Proof.
  apply (uncomment_loses_tail "kustomization.yaml" "#" block_lines ""
    before_block after_block).
  - done.
  - exact block_scannable.
  - by left.
  - vm_compute. reflexivity.
  - apply uncomment_run_runs.
  - repeat constructor.
Defined.

(** A line of 64 KiB is lost, and so is what follows it. *)
Definition long_line : string := N.iter 65536 (String Ascii.zero) "".

Example long_line_lost :
  let block := "#a" +:+ nl +:+ long_line +:+ nl +:+ "#b" in
  snd (uncomment_run block block) = "a" /\ run_result block block = None.
Proof. vm_compute. split; reflexivity. Qed.
End witnesses.
